(* ===== verification/_CoqProject ===== *)
-Q . S2P
Prelude.v
GoStrings.v
Hex.v
Json.v
Redis.v
Pg.v
Resilience.v
Http.v
Crypto.v
Middleware.v
RateLimit.v
Ssrf.v
PolicyEngine.v
Outbox.v
RelayLoop.v
PolicyStore.v
PolicyService.v
PolicyEvents.v
PolicyHandlers.v
Sdk.v
AuditChain.v
AuditApi.v
AuditStream.v
AlertStore.v
Threat.v
ThreatSpec.v
IamStore.v
IamService.v
IamUsers.v
IamTokens.v
IamLogin.v
IamSessions.v
IamHandlers.v
Regexp.v
DlpScan.v
DlpService.v
Workers.v
Webhook.v
Alerting.v
AlertStats.v
Registry.v
Compliance.v
IamAdmin.v
IamSeed.v
Provisioning.v
IamSaml.v
IamWebAuthn.v
AuthPool.v
Routes.v
SdkIngest.v
IamMiddleware.v
Detectors.v
Startup.v
Boot.v
TaskApp.v
Migrate.v
Oidc.v
SafeLog.v
Deployment.v
