(* ===== verification/Prelude.v ===== *)
(** * OpenGuard, verified

    OpenGuard is a multi-tenant security platform written in Go: a policy
    service that answers authorization questions, an audit service that keeps
    a hash-chained trail, a threat service that watches authentication
    events, an identity service that signs users in, a DLP service that scans
    for personal data and secrets, an alerting service, a webhook deliverer,
    a compliance service that reports on the trail, a registry of connectors
    with their API keys, the shared middlewares in front of every service, and
    a client library.  The services share PostgreSQL (with row-level
    security), Redis, MongoDB, ClickHouse and Kafka.  This library models the parts that carry the
    platform's own logic, file by file, and proves what they promise.

    ** How the code is modelled

    - A Go function [(value, error)] is a function into [res]; errors are
      [goerr] values, told apart as [errors.Is] does ([errors_is]).  The
      monadic notation [x <-? m ; k] is the usual [if err != nil] return.
    - State is passed explicitly: a database is a record of lists of rows, a
      service's world a record ([PolicyService.World],
      [Threat.ThreatState], [AuditChain.Audit]).  Where operations
      interleave - workers, consumers, relays, requests - a step relation
      ranges over them and theorems are about every reachable state.
    - What lies outside the repository is an interface with its documented
      behaviour as laws: Redis ([Redis.Redis], [RedisLaws]), PostgreSQL
      sessions ([Pg.PgSession]), gobreaker ([Resilience.Breaker]),
      x/time/rate ([RateLimit.TokenBucket]), golang-jwt and the primitives of
      cryptography ([Crypto]), CEL ([PolicyEngine.CelEnv]), ObjectIDs of
      MongoDB ([AlertStore.ObjectIDs]), Lua scripts
      ([Provisioning.RedisScript]), the SAML and WebAuthn libraries
      ([IamSaml.SamlLib], [IamWebAuthn.WebAuthnLib]), the matching of paths
      ([Routes.Mux]).  Each has a small concrete instance
      on which the witnesses evaluate.
    - Failures are inputs: every operation on a store, a broker or a clock
      takes what goes wrong with it, and an operation that reports an error
      may or may not have taken effect.
    - Instants and durations are nanoseconds in [Z]; an [int] that can
      overflow is wrapped with [wrap64].  JSON is [Json.json]; decoding
      follows [encoding/json].  A payload of bytes is the document it parses
      to, [None] when it is no JSON.

    ** Files, and the code they model

    - [Prelude]: results, errors, time, tactics, list lemmas.  [GoStrings],
      [Hex], [Json], [Http]: the standard library as the code uses it.
    - [Redis], [Pg], [Resilience]: the stores, shared/rls/context.go,
      shared/resilience/breaker.go and bulkhead.go.
    - [Crypto]: shared/crypto/aes.go, jwt.go, keys.go.
      [Middleware]: shared/middleware/context.go, jwt_auth.go, apikey.go,
      scim.go, idempotency.go.  [RateLimit]: ratelimit.go.  [Ssrf]:
      security.go.
    - [Routes]: the routers of the nine services, and the gateway of
      services/control-plane/pkg/router and pkg/proxy.  [SafeLog]:
      shared/telemetry/safe_logger.go.  [Startup]: shared/secrets/manager.go
      and the keys that services/*/main.go load.  [Boot]: the ten main
      functions as programs over a machine ([Boot.boot], [Boot.Host]), with
      what they start, serve and close.  [Deployment]: these processes side by
      side, composed with [IamSessions], [Middleware] and [Compliance].
      [Migrate]: shared/database/migrate.go, as a step relation of starting
      instances.
      [IamMiddleware]: services/iam/pkg/middleware.  [Oidc]: the published
      documents of oauth.go, against the routes.
    - [PolicyEngine]: [Service.evaluate], globs, CEL and validation in
      services/policy/pkg/service/service.go.  [PolicyStore]: the tables and
      queries of services/policy/pkg/repository/repository.go.
      [PolicyService]: the rest of service.go - decisions, cache,
      singleflight, workers, mutations - on the two files above.
      [PolicyHandlers]: services/policy/pkg/handlers/handler.go, against the
      class [PolicySvc].
    - [Outbox]: shared/kafka/outbox/writer.go and the [drain] of relay.go; the
      mutations of the policy service write through it.  [RelayLoop]: [Run] and
      [listenLoop] of relay.go, which drive its drains ([RelayLoop.step]).
      [PolicyEvents]: the mutations of [PolicyService] up to the broker.
    - [AuditChain]: services/audit/pkg/consumer/consumer.go and
      pkg/repository/repository.go.  [AuditApi]: pkg/handlers/ingest.go and
      the routes of services/audit/main.go.  [AuditStream]:
      pkg/handlers/sse.go, against a reader of server-sent events.
    - [AlertStore]: services/threat/pkg/alert/alert.go, pkg/handlers and
      pkg/scorer.  [Threat]: the six detectors of pkg/detector.
      [ThreatSpec]: what the detectors promise.  [Detectors]: their reading
      loops, interleaved.
    - [Sdk]: sdk/cache.go, client.go, policy.go.  [SdkIngest]: events.go, the
      options of client.go, and its requests against the routes.  [TaskApp]:
      examples/task-management-app/backend/main.go, on the library.
    - [IamStore]: the tables and queries of services/iam/pkg/repository
      (users, sessions, refresh tokens, TOTP, outbox, reading of connectors).  [IamService]: services/iam/pkg/service/auth.go,
      auth_pool.go and the TOTP and backup codes of mfa.go.  [IamUsers]:
      users.go and services/iam/pkg/saga/consumer.go.  [IamHandlers]: the
      sign-in half of services/iam/pkg/handlers/handler.go and oauth.go.
      Their properties are in [IamTokens] (the life of refresh tokens, as a
      step relation), [IamLogin], [IamSessions] and [IamHandlers].
      [IamAdmin]: scim.go and the routes under /mgmt of handler.go, with
      repository_org.go and repository_connector.go.  [IamSeed]: pkg/seed and
      cmd/seed.  [IamSaml]: the three
      files saml.go, saml.go and repository_saml.go of pkg/handlers,
      pkg/service and pkg/repository.  [IamWebAuthn]: the ceremonies of
      mfa.go with their handlers and repository_webauthn.go.  [AuthPool]:
      auth_pool.go as a step relation ([AuthPool.pool_step]) that justifies
      the sequential model of it in [IamService].
      [Provisioning]: services/iam/pkg/saga/watcher.go, and the life of a
      deadline together with [IamUsers], as a step relation
      ([Provisioning.pv_trace]).
    - [Regexp]: Go's regular expressions, as far as the code uses them.
      [DlpScan]: services/dlp/pkg/scanner.  [DlpService]: pkg/handlers,
      pkg/repository and pkg/consumer of the DLP service.
    - [Workers]: the loop of fifty goroutines that the next two share.
      [Webhook]: services/webhook-delivery/pkg/consumer, pkg/deliverer and
      pkg/repository, and the signatures of services/alerting/pkg/webhook.
    - [Alerting]: services/alerting/pkg/saga, pkg/repository, pkg/handlers and
      the deliverer of pkg/webhook; it consumes what [Threat] publishes.
      [AlertStats]: the statistics of that repository.
    - [Registry]: services/connector-registry/pkg/repository, pkg/service and
      pkg/handlers, as a step relation of two-phase validations and
      suspensions ([Registry.reg_step]).
    - [Compliance]: services/compliance/pkg/consumer, pkg/repository,
      pkg/handlers and pkg/storage: the writer that copies the trail
      ([Compliance.wr_step]) and the reports ([Compliance.cp_step]); it
      consumes what [AuditApi] and [Alerting] publish.

    A definition has the name of the function it models where Rocq allows it;
    handlers of an HTTP API are prefixed with [Handle], and a method whose
    name two components share is told apart by its file.

    ** What the theorems show

    - Decisions: deny by default and deny override ([evaluate_allow_iff]),
      independence of row order, globs against a declarative reading; an
      "allow" over HTTP - evaluated, joined from a call in flight or cached -
      is justified by policies of the token's tenant
      ([http_allow_is_justified]); reported errors deny, and an unreported one
      cuts the policies short ([Evaluate_fails_closed],
      [truncated_fetch_allows]); a cached decision is less than sixty seconds
      old ([cached_decision_bounded_staleness]).
    - Storage: a mutation changes exactly its rows, together with its event,
      or nothing ([mutations_atomic]); the database stays well formed in every
      reachable state.
    - Outbox: the life cycle of a record over all interleavings of writers
      and relays; the ticks of a relay alone deliver everything
      ([ticks_settle]), so every change of a policy is announced
      ([change_announced]); no notification is lost, doubled or overtaken
      while the connection lives ([notifications_in_order]), and when the
      listener cannot stop.
    - Audit: the chain of every tenant with one chain document stays intact
      however consumers interleave and fail ([audit_chain_integrity]); two
      documents, which a race leaves, fork it ([raced_upsert_forks]); the
      consumer's code refines the step relation of that proof; what a
      committed offset says about the messages below it, and that the stream
      of a tenant says what was stored ([stream_roundtrip]), from its ingestion on
      ([ingested_event_streamed]).
    - Requests: who is authenticated, by what, and how stale; idempotent
      replay; the rate limit; the outbound guard; key rotation; which
      handlers of the nine services run under a verified context only
      ([every_route_guarded]), what the gateway forwards
      ([gateway_reaches], [gateway_headers]), and what a log discloses.
    - Threats: brute force, account takeover and impossible travel fire
      exactly when a reference over the history of events says so;
      pagination of alerts is complete; what the offsets of their loops mean
      ([detector_offsets]), and that the deployed detectors compete for the
      events and how many each misses ([detectors_compete]).
    - Start-up: one instance migrates at a time ([migrations_exclusive]); the
      keys a service starts with ([missing_keys_forgeable]); on any machine a
      process runs nothing before the calls that prepare its tables have
      reported success, checks tokens with what its settings name and closes
      what its servers use after them ([boot_guarded]); which clients the servers let in ([boot_transport]);
      which services a logout reaches, when the blocklist can be asked
      ([logout_reaches]); what an unreadable limit does ([unreadable_limit_stalls]).
    - Identity: who signs in and with what ([Login_sound]), how many guesses
      the lockout lets through, refresh tokens redeemed at most once with
      reuse and risk detection, second factors, passkey ceremonies and
      authorization codes spent by their use, logout against the shared
      blocklist; whom SAML signs in ([saml_sign_in_sound]) and that an
      assertion does so once; SCIM's pages and repeated creations; deadlines
      of provisioning claimed once and caught up with, and what becomes of
      their users ([deadlines_claimed_once], [timed_out_user_fails]); the pool
      that compares passwords answers every call with its own result
      ([pool_answers], [pool_serves]), until it is shut down
      ([shutdown_strands]); and who can sign in after a seed
      ([seeded_account_signs_in]).
    - Data loss prevention: the scanner reports a kind of data exactly when
      its pattern occurs, and masks what it reports ([ScanRegex_exact],
      [ScanRegex_masks]); Luhn's check against mistyped numbers; what a scan
      saves; what becomes of the findings of events.
    - Alerts and webhooks: a delivery ends within five signed attempts and a
      bounded time ([webhook_delivery_ends]), and signatures are accepted within the replay
      window only; an alert is announced by one run of the saga at most and,
      when its steps work, exactly once ([saga_announces_once],
      [saga_completes]); from a detector to its announcement
      ([detector_to_saga]); which messages a restart loses; exact counts in
      the statistics ([stats_exact]).
    - Connectors: what an accepted API key vouches for over all interleavings
      ([validated_key_vouched]), suspensions that stick and the race that
      undoes one, and the key of a registration.
    - Compliance: the writer copies the trail and what its failures lose; the
      table of reports is well formed, a report's life, what a download
      answers; and that the posture of every tenant is blind
      ([posture_is_blind]), a composition of three services.
    - Client: [Allow] is fail closed with bounded staleness; what becomes of
      its requests at the services ([sdk_requests_refused]); in the example
      that uses it a user meets the user's own tasks only, in every answer
      ([tasks_isolated]), and in a deployment none
      ([example_denies_everyone]).
    - Where the code falls short of its own comments the theorem states what
      it does: offsets committed past lost events, off-hours alerts without
      history, alerts no tenant can list, pooled sessions without their
      tenant, replies the client cannot read.

    ** Bounds

    No definition needs fuel beyond the code's own limits: five attempts of
    the outbox ([Outbox.maxAttempts]) and of the audit flush
    ([AuditChain.maxFlushAttempts]), batches of one hundred records, the
    retries of the client ([Sdk.doLoop]), five attempts of a webhook and of a
    step of the saga ([Webhook.maxDeliveries], [Alerting.maxAttempts]), fifty
    goroutines ([Workers.maxWorkers]), a hundred deadlines a tick
    ([Provisioning.claimLimit]), a hundred jobs of each kind in the password
    pool ([AuthPool.queueCap]), a hundred notifications of the relay
    ([RelayLoop.chanCap]); every other loop is structural on
    its data.  [Regexp.FindAllString] has one more unit of fuel than the text
    has bytes, which suffices ([FindAllString_segments]).  The theorems hold
    for any number of steps, tenants and messages.

    ** Not modelled

    The generation of the key pair of a SAML provider, connections to stores,
    the parsing of addresses and the files of certificates are inputs; of TLS
    the model has which clients a server demands a certificate of.  Rows of
    ClickHouse do not expire.  Metrics and tracing are output that nothing
    reads and are left out, as are pre-signed addresses of S3, the web front
    ends and test code.  Floating-point scores, distances and averages are
    parameters, as are PDF documents and RSA signatures; whether the deployed
    table of connectors has the column the registry names is one too
    ([Registry.statusColumn]); the constants 0.8 and 0.9 of the scanner are
    tenths.  In [RelayLoop] a drain is one event, so what its transaction
    meets while it runs is an input of [Outbox.drain].
    Processing of a message happens at one instant: the clock read by the
    code and the clock of the server it then calls are the same.  A run of the
    alerting saga, the two reads and the query of a validated API key, and the
    commands that track a failed sign-in are one step each, where the code's
    goroutines and replicas may interleave.  Documents of a change stream have
    no "_id", and a list of groups that is nil is an empty one. *)

From stdpp Require Export base list gmap strings fin_maps.
From Stdlib Require Export ZArith Lia.
#[global] Open Scope list_scope.

(** ** Results and errors *)

(** Go's [error] values.  [ErrNew] is a sentinel or a leaf error, identified
    by its text; [ErrWrap pre e post] is [fmt.Errorf] with one [%w] verb. *)
Inductive goerr : Type :=
| ErrNew (msg : string)
| ErrWrap (pre : string) (e : goerr) (post : string).

#[global] Instance goerr_eq_dec : EqDecision goerr.
Proof. solve_decision. Defined.

(** [errors.Is]: the target is the error itself or one it wraps. *)
Fixpoint errors_is (e target : goerr) : bool :=
  bool_decide (e = target) ||
  match e with
  | ErrNew _ => false
  | ErrWrap _ e' _ => errors_is e' target
  end.

(** [err.Error()]. *)
Fixpoint error_text (e : goerr) : string :=
  match e with
  | ErrNew m => m
  | ErrWrap pre e' post => String.append pre (String.append (error_text e') post)
  end.

(** A Go function result [(value, error)]: the value is only meaningful when
    the error is nil. *)
Inductive res (A : Type) : Type :=
| Ok (a : A)
| Err (e : goerr).
Arguments Ok {A} a.
Arguments Err {A} e.

#[global] Instance res_eq_dec {A} `{EqDecision A} : EqDecision (res A).
Proof. solve_decision. Defined.

Definition is_ok {A} (r : res A) : bool :=
  match r with Ok _ => true | Err _ => false end.

Definition res_bind {A B} (m : res A) (k : A -> res B) : res B :=
  match m with Ok a => k a | Err e => Err e end.

Definition res_map {A B} (f : A -> B) (m : res A) : res B :=
  match m with Ok a => Ok (f a) | Err e => Err e end.

Declare Scope go_scope.
Delimit Scope go_scope with go.
#[global] Open Scope go_scope.

(** [x <-? m ; k] is [x, err := m; if err != nil { return err }; k]. *)
Notation "x <-? m ; k" := (res_bind m (fun x => k))
  (at level 100, m at next level, right associativity) : go_scope.
Infix "=s?" := String.eqb (at level 70, no associativity) : go_scope.

Lemma res_bind_ok {A B} (m : res A) (k : A -> res B) (b : B) :
  res_bind m k = Ok b -> exists a, m = Ok a /\ k a = Ok b.
Proof. destruct m; simpl; [eauto|discriminate]. Qed.

Lemma res_bind_err {A B} (m : res A) (k : A -> res B) (e : goerr) :
  res_bind m k = Err e -> m = Err e \/ exists a, m = Ok a /\ k a = Err e.
Proof. destruct m; simpl; [eauto|]. intros [= ->]; eauto. Qed.

(** ** Machine integers and time *)

(** Go's [int] and [int64] on a 64-bit target: two's complement wrap-around. *)
Definition wrap64 (z : Z) : Z := ((z + 2 ^ 63) mod 2 ^ 64 - 2 ^ 63)%Z.

Lemma wrap64_id z : (- 2 ^ 63 <= z < 2 ^ 63)%Z -> wrap64 z = z.
Proof. intros H. unfold wrap64. rewrite Z.mod_small; lia. Qed.

Lemma wrap64_range z : (- 2 ^ 63 <= wrap64 z < 2 ^ 63)%Z.
Proof.
  unfold wrap64. pose proof (Z.mod_pos_bound (z + 2 ^ 63) (2 ^ 64)). lia.
Qed.

(** [time.Duration] and instants, in nanoseconds. *)
Definition Millisecond : Z := 1000000%Z.
Definition Second : Z := (1000 * Millisecond)%Z.
Definition Minute : Z := (60 * Second)%Z.
Definition Hour : Z := (60 * Minute)%Z.

(** ** Automation *)

Create HintDb openguard.
Create Rewrite HintDb openguard_str.

(** Destructs the innermost scrutinee of a [match] or [if] of the goal or of
    a hypothesis, keeping the equation. *)
Ltac destruct_scrutinee t :=
  lazymatch t with
  | context [match ?x with _ => _ end] => destruct_scrutinee x
  | _ => let E := fresh "E" in destruct t eqn:E
  end.

Ltac case_goal :=
  match goal with
  | |- context [match ?x with _ => _ end] => destruct_scrutinee x
  end.

Ltac case_hyp H :=
  match type of H with
  | context [match ?x with _ => _ end] => destruct_scrutinee x
  end.

(** Turns boolean tests into propositions. *)
Ltac bool_to_prop :=
  repeat match goal with
  | H : String.eqb _ _ = true |- _ => apply String.eqb_eq in H
  | H : String.eqb _ _ = false |- _ => apply String.eqb_neq in H
  | H : andb _ _ = true |- _ => apply andb_prop in H; destruct H
  | H : orb _ _ = false |- _ => apply orb_false_elim in H; destruct H
  | H : negb _ = true |- _ => apply negb_true_iff in H
  | H : negb _ = false |- _ => apply negb_false_iff in H
  | H : Z.ltb _ _ = true |- _ => apply Z.ltb_lt in H
  | H : Z.ltb _ _ = false |- _ => apply Z.ltb_ge in H
  | H : Z.leb _ _ = true |- _ => apply Z.leb_le in H
  | H : Z.leb _ _ = false |- _ => apply Z.leb_gt in H
  | H : Z.eqb _ _ = true |- _ => apply Z.eqb_eq in H
  | H : Z.eqb _ _ = false |- _ => apply Z.eqb_neq in H
  | H : Nat.leb _ _ = true |- _ => apply Nat.leb_le in H
  | H : Nat.leb _ _ = false |- _ => apply Nat.leb_gt in H
  | H : Nat.ltb _ _ = true |- _ => apply Nat.ltb_lt in H
  | H : Nat.ltb _ _ = false |- _ => apply Nat.ltb_ge in H
  | H : bool_decide _ = true |- _ => apply bool_decide_eq_true in H
  | H : bool_decide _ = false |- _ => apply bool_decide_eq_false in H
  end.

(** Explores every branch of the code in a hypothesis and discards the
    impossible ones. *)
Ltac branches H := simplify_eq/=; repeat (case_hyp H; simplify_eq/=); bool_to_prop.

(** ** Generic lemmas *)

Lemma existsb_In {A} (f : A -> bool) (l : list A) :
  existsb f l = true <-> exists x, In x l /\ f x = true.
Proof. apply existsb_exists. Qed.

Lemma find_some_split {A} (f : A -> bool) (l : list A) (x : A) :
  find f l = Some x ->
  exists l1 l2, l = l1 ++ x :: l2 /\ f x = true /\ forallb (fun y => negb (f y)) l1 = true.
Proof.
  induction l as [|y l IH]; simpl; [discriminate|].
  destruct (f y) eqn:Hy.
  - intros [= ->]. exists [], l. auto.
  - intros (l1 & l2 & -> & Hx & Hl)%IH.
    exists (y :: l1), l2. simpl. rewrite Hy, Hl. auto.
Qed.

Lemma filter_sublist {A} (f : A -> bool) (l : list A) : sublist (List.filter f l) l.
Proof.
  induction l as [|x l IH]; simpl; [constructor|]. destruct (f x); by constructor.
Qed.

Lemma submseteq_In {A} (l k : list A) x : l ⊆+ k -> In x l -> In x k.
Proof.
  intros (m & H)%submseteq_Permutation Hx. apply (Permutation_in x (symmetry H)).
  apply in_or_app. by left.
Qed.

Lemma NoDup_sub {A} (l k : list A) : l ⊆+ k -> NoDup k -> NoDup l.
Proof.
  intros (m & H)%submseteq_Permutation Hk. rewrite H in Hk. by apply NoDup_app in Hk as [? _].
Qed.

Lemma NoDup_map_sub {A B} (f : A -> B) (l k : list A) :
  l ⊆+ k -> NoDup (map f k) -> NoDup (map f l).
Proof. intros H. apply NoDup_sub. by apply fmap_submseteq. Qed.

Lemma Forall2_map_self {A B} (R : A -> B -> Prop) (g : A -> B) (l : list A) :
  (forall x, In x l -> R x (g x)) -> Forall2 R l (map g l).
Proof.
  induction l as [|x l IH]; simpl; intros H; constructor; [apply H; by left|].
  apply IH. intros y Hy. apply H. by right.
Qed.

Lemma NoDup_map_In {A B} (f : A -> B) (l : list A) x y :
  NoDup (map f l) -> In x l -> In y l -> f x = f y -> x = y.
Proof.
  induction l as [|z l IH]; simpl; [done|]. intros [Hz Hn]%NoDup_cons.
  rewrite list_elem_of_In in Hz.
  intros [->|Hx] [->|Hy] He; [done| | |auto]; destruct Hz; [rewrite He|rewrite <- He]; by apply in_map.
Qed.

Lemma filter_none {A} (f : A -> bool) (l : list A) :
  (forall x, In x l -> f x = false) -> List.filter f l = [].
Proof.
  induction l as [|x l IH]; simpl; [done|]. intros H.
  rewrite (H x) by auto. auto.
Qed.

Lemma filter_all {A} (f : A -> bool) (l : list A) :
  (forall x, In x l -> f x = true) -> List.filter f l = l.
Proof.
  induction l as [|x l IH]; simpl; [done|]. intros H.
  rewrite (H x) by auto. f_equal. auto.
Qed.

Lemma filter_perm {A} (f : A -> bool) (l k : list A) :
  l ≡ₚ k -> List.filter f l ≡ₚ List.filter f k.
Proof.
  induction 1 as [|x l k _ IH|x y l|l m k _ IH1 _ IH2]; simpl; [done| | |by etransitivity].
  - destruct (f x); by rewrite IH.
  - destruct (f x), (f y); try done. apply Permutation_swap.
Qed.

Lemma filter_filter_bool {A} (f g : A -> bool) (l : list A) :
  List.filter f (List.filter g l) = List.filter (fun x => g x && f x) l.
Proof.
  induction l as [|x l IH]; simpl; [done|].
  destruct (g x); simpl; [destruct (f x); by rewrite IH|done].
Qed.
