(* ===== verification/GoStrings.v ===== *)
(** Go's [strings] package on byte strings, as the code uses it:
    [HasPrefix], [HasSuffix], [TrimPrefix], [TrimSuffix], [Contains], [Split]
    on a one-byte separator and [strconv]'s decimal printing, each with the
    lemma that states its meaning in terms of concatenation. *)

From S2P Require Import Prelude.
From Stdlib Require Import Ascii DecimalString DecimalZ Decimal.

#[local] Arguments String.append !_ _ / : simpl nomatch.

(** ** String facts *)

Lemma append_nil_r (s : string) : s +:+ "" = s.
Proof. induction s as [|c s IH]; simpl; [done|by rewrite IH]. Qed.

Lemma append_assoc (a b c : string) : (a +:+ b) +:+ c = a +:+ (b +:+ c).
Proof. induction a as [|x a IH]; simpl; [done|by rewrite IH]. Qed.

Lemma length_append (a b : string) :
  String.length (a +:+ b) = String.length a + String.length b.
Proof. induction a as [|x a IH]; simpl; [done|by rewrite IH]. Qed.

Lemma append_inv_head (a b c : string) : a +:+ b = a +:+ c -> b = c.
Proof. induction a as [|x a IH]; simpl; [done|]. intros [= H]. auto. Qed.

Lemma append_eq_length (a b c d : string) :
  String.length a = String.length c -> a +:+ b = c +:+ d -> a = c /\ b = d.
Proof.
  revert c. induction a as [|x a IH]; intros [|y c] Hl; simpl in *; try lia.
  - intros ->. done.
  - intros [= -> H]. destruct (IH c) as [-> ->]; auto.
Qed.

Lemma append_eq_length_r (a b c d : string) :
  String.length b = String.length d -> a +:+ b = c +:+ d -> a = c /\ b = d.
Proof.
  intros Hl H. apply append_eq_length; [|done].
  apply (f_equal String.length) in H. rewrite !length_append in H. lia.
Qed.

Lemma substring_full (s : string) : String.substring 0 (String.length s) s = s.
Proof. induction s as [|c s IH]; simpl; [done|by rewrite IH]. Qed.

Lemma substring_prefix (a b : string) :
  String.substring 0 (String.length a) (a +:+ b) = a.
Proof. induction a as [|c a IH]; simpl; [by destruct b|by rewrite IH]. Qed.

Lemma substring_suffix (a b : string) n :
  String.substring (String.length a) n (a +:+ b) = String.substring 0 n b.
Proof. induction a as [|c a IH]; simpl; [done|by rewrite IH]. Qed.

Lemma substring_split (s : string) n :
  n <= String.length s ->
  s = String.substring 0 n s +:+ String.substring n (String.length s - n) s.
Proof.
  revert n. induction s as [|c s IH]; intros [|n] H; simpl in *; try lia.
  - done.
  - by rewrite substring_full.
  - f_equal. apply IH. lia.
Qed.

Lemma length_substring_0 (s : string) n :
  n <= String.length s -> String.length (String.substring 0 n s) = n.
Proof.
  revert n. induction s as [|c s IH]; intros [|n] H; simpl in *; try lia.
  rewrite IH; lia.
Qed.

(** ** [strings.HasPrefix], [strings.TrimPrefix] *)

Definition HasPrefix (s prefix : string) : bool := String.prefix prefix s.

Definition TrimPrefix (s prefix : string) : string :=
  if HasPrefix s prefix
  then String.substring (String.length prefix) (String.length s - String.length prefix) s
  else s.

Lemma HasPrefix_spec (s p : string) :
  HasPrefix s p = true <-> exists t, s = p +:+ t.
Proof.
  unfold HasPrefix. revert s. induction p as [|c p IH]; intros s; simpl.
  - split; [eauto|]. by destruct s.
  - destruct s as [|d s]; simpl.
    + split; [done|]. by intros [? ?].
    + destruct (ascii_dec c d) as [->|Hn].
      * rewrite IH. split; intros [t H]; exists t; [by rewrite H|by injection H].
      * split; [done|]. intros [t [= -> _]]. done.
Qed.

Lemma HasPrefix_append (p t : string) : HasPrefix (p +:+ t) p = true.
Proof. apply HasPrefix_spec. eauto. Qed.

Lemma TrimPrefix_append (p t : string) : TrimPrefix (p +:+ t) p = t.
Proof.
  unfold TrimPrefix. rewrite HasPrefix_append, substring_suffix, length_append.
  replace (_ + _ - _) with (String.length t) by lia. apply substring_full.
Qed.

(** ** [strings.HasSuffix], [strings.TrimSuffix] *)

Definition HasSuffix (s suffix : string) : bool :=
  (String.length suffix <=? String.length s) &&
  (String.substring (String.length s - String.length suffix)
     (String.length suffix) s =s? suffix).

Definition TrimSuffix (s suffix : string) : string :=
  if HasSuffix s suffix
  then String.substring 0 (String.length s - String.length suffix) s
  else s.

Lemma HasSuffix_append (q x : string) : HasSuffix (q +:+ x) x = true.
Proof.
  unfold HasSuffix. rewrite length_append.
  replace (_ + _ - _) with (String.length q) by lia.
  rewrite substring_suffix, substring_full, String.eqb_refl, andb_true_r.
  apply Nat.leb_le. lia.
Qed.

Lemma TrimSuffix_append (q x : string) : TrimSuffix (q +:+ x) x = q.
Proof.
  unfold TrimSuffix. rewrite HasSuffix_append, length_append.
  replace (_ + _ - _) with (String.length q) by lia. apply substring_prefix.
Qed.

Lemma HasSuffix_spec (s x : string) :
  HasSuffix s x = true <-> exists q, s = q +:+ x.
Proof.
  split; [|intros [q ->]; apply HasSuffix_append].
  unfold HasSuffix. intros H. bool_to_prop.
  exists (String.substring 0 (String.length s - String.length x) s).
  rewrite (substring_split s (String.length s - String.length x)) at 1 by lia.
  f_equal. etransitivity; [|exact H0]. f_equal. lia.
Qed.

(** ** [strings.Contains] and [strings.Split] *)

Fixpoint Contains (s sub : string) : bool :=
  HasPrefix s sub ||
  match s with
  | EmptyString => false
  | String _ s' => Contains s' sub
  end.

Lemma Contains_spec (s sub : string) :
  Contains s sub = true <-> exists a b, s = a +:+ sub +:+ b.
Proof.
  induction s as [|c s IH].
  - cbn [Contains]. rewrite orb_false_r, HasPrefix_spec. split.
    + intros [t H]. by exists "", t.
    + intros (a & b & H). destruct a; [|done]. by exists b.
  - cbn [Contains]. rewrite orb_true_iff, HasPrefix_spec, IH. split.
    + intros [[t H]|(a & b & ->)]; [by exists "", t|by exists (String c a), b].
    + intros ([|x a] & b & H); simpl in H; [left; by exists b|].
      injection H as -> ->. right. by exists a, b.
Qed.

(** [strings.Split(s, sep)] for a separator of one byte. *)
Fixpoint Split (sep : ascii) (s : string) : list string :=
  match s with
  | EmptyString => [""]
  | String c s' =>
      if Ascii.eqb c sep then "" :: Split sep s'
      else match Split sep s' with
           | [] => [String c ""]
           | w :: ws => String c w :: ws
           end
  end.

(** No byte of [s] is [c]. *)
Fixpoint no_byte (c : ascii) (s : string) : bool :=
  match s with
  | EmptyString => true
  | String d s' => negb (Ascii.eqb d c) && no_byte c s'
  end.

Lemma Split_nonempty sep s : Split sep s <> [].
Proof. destruct s as [|c s]; simpl; [done|]. repeat case_match; done. Qed.

Lemma Split_no_sep sep s : no_byte sep s = true -> Split sep s = [s].
Proof.
  induction s as [|c s IH]; simpl; [done|]. intros H. bool_to_prop.
  by rewrite H, IH.
Qed.

Lemma Split_cons sep w s :
  no_byte sep w = true ->
  Split sep (w +:+ String sep s) = w :: Split sep s.
Proof.
  induction w as [|c w IH]; simpl.
  - intros _. by rewrite Ascii.eqb_refl.
  - intros H. bool_to_prop. by rewrite H, IH.
Qed.

(** ** [strconv.Itoa] *)

(** Decimal rendering of a Go integer. *)
Definition itoa (z : Z) : string := NilEmpty.string_of_int (Z.to_int z).

Lemma itoa_inj (a b : Z) : itoa a = itoa b -> a = b.
Proof.
  unfold itoa. intros H.
  apply (f_equal NilEmpty.int_of_string) in H.
  rewrite !NilEmpty.isi in H. injection H as H.
  apply (f_equal Z.of_int) in H. by rewrite !DecimalZ.of_to in H.
Qed.

#[export] Hint Rewrite append_nil_r append_assoc HasPrefix_append
  TrimPrefix_append HasSuffix_append TrimSuffix_append : openguard_str.

(** ** [strconv.Atoi] *)

Definition digit_of (c : ascii) : option Z :=
  let n := nat_of_ascii c in
  if (48 <=? n) && (n <=? 57) then Some (Z.of_nat n - 48)%Z else None.

(** Decimal digits, most significant first, with the value read so far. *)
Fixpoint digits_from (acc : Z) (s : string) : option Z :=
  match s with
  | EmptyString => Some acc
  | String c s' =>
      match digit_of c with
      | Some d => digits_from (acc * 10 + d)%Z s'
      | None => None
      end
  end.

Definition in_int64 (z : Z) : bool := (- 2 ^ 63 <=? z)%Z && (z <? 2 ^ 63)%Z.

(** [strconv.Atoi]: [None] is the error; values outside [int] are errors. *)
Definition Atoi (s : string) : option Z :=
  let value :=
    match s with
    | EmptyString => None
    | String c s' =>
        if Ascii.eqb c "-" then
          match s' with EmptyString => None | _ => option_map Z.opp (digits_from 0 s') end
        else if Ascii.eqb c "+" then
          match s' with EmptyString => None | _ => digits_from 0 s' end
        else digits_from 0 s
    end in
  match value with
  | Some z => if in_int64 z then Some z else None
  | None => None
  end.

Example Atoi_ex : (Atoi "120", Atoi "-7", Atoi "+", Atoi "1_0", Atoi "9223372036854775808")
  = (Some 120%Z, Some (-7)%Z, None, None, None).
Proof. vm_compute. reflexivity. Qed.

(** *** [Atoi] reads what [Itoa] writes *)

Lemma digits_from_acc d acc :
  digits_from (Z.pos acc) (NilEmpty.string_of_uint d) = Some (Z.pos (Pos.of_uint_acc d acc)).
Proof.
  revert acc. induction d; intros acc; cbn [NilEmpty.string_of_uint]; [done|..];
    cbn [digits_from Pos.of_uint_acc]; rewrite <- IHd;
    match goal with |- context [digit_of ?c] => let v := eval vm_compute in (digit_of c) in change (digit_of c) with v end;
    cbv iota beta; f_equal; lia.
Qed.

Lemma digits_from_uint d : digits_from 0 (NilEmpty.string_of_uint d) = Some (Z.of_uint d).
Proof.
  unfold Z.of_uint. induction d; cbn [NilEmpty.string_of_uint]; [done|..]; cbn [digits_from];
    [exact IHd|..]; exact (digits_from_acc d _).
Qed.

Lemma to_uint_nonnil p : Pos.to_uint p <> Decimal.Nil.
Proof. intros E. pose proof (DecimalPos.Unsigned.of_to p) as H. rewrite E in H. done. Qed.

Lemma string_of_uint_nonempty d : d <> Decimal.Nil -> exists c s, NilEmpty.string_of_uint d = String c s /\
  Ascii.eqb c "-" = false /\ Ascii.eqb c "+" = false.
Proof. destruct d; intros H; [done|..]; simpl; eauto. Qed.

Lemma Atoi_itoa z : in_int64 z = true -> Atoi (itoa z) = Some z.
Proof.
  intros Hz. unfold itoa.
  assert (Hpos : forall d, d <> Decimal.Nil -> Z.of_uint d = z -> Atoi (NilEmpty.string_of_uint d) = Some z).
  { intros d Hd E. destruct (string_of_uint_nonempty d Hd) as (c & s & Es & H1 & H2).
    unfold Atoi. rewrite Es, H1, H2, <- Es, digits_from_uint, E. by rewrite Hz. }
  destruct z as [|p|p]; cbn [Z.to_int].
  - reflexivity.
  - apply (Hpos _ (to_uint_nonnil p)). unfold Z.of_uint. by rewrite DecimalPos.Unsigned.of_to.
  - unfold Atoi. cbn [NilEmpty.string_of_int Ascii.eqb Bool.eqb].
    destruct (string_of_uint_nonempty _ (to_uint_nonnil p)) as (c & s & Es & _).
    pose proof (digits_from_uint (Pos.to_uint p)) as Hd. rewrite Es in Hd |- *. rewrite Hd. cbn [option_map].
    unfold Z.of_uint. rewrite DecimalPos.Unsigned.of_to. change (- Z.of_N (N.pos p))%Z with (Z.neg p). by rewrite Hz.
Qed.

(** A number has no byte but digits and a sign. *)
Lemma digits_from_no_byte c s acc z : digit_of c = None -> digits_from acc s = Some z -> no_byte c s = true.
Proof.
  intros Hc. revert acc. induction s as [|d s IH]; intros acc; cbn [digits_from no_byte]; [done|].
  destruct (digit_of d) eqn:Ed; [|done]. intros H. rewrite (IH _ H), andb_true_r.
  destruct (Ascii.eqb_spec d c); [congruence|done].
Qed.

Lemma Atoi_no_byte c s z :
  digit_of c = None -> Ascii.eqb "-" c = false -> Ascii.eqb "+" c = false -> Atoi s = Some z -> no_byte c s = true.
Proof.
  intros Hc Hm Hp. unfold Atoi. destruct s as [|d s]; [done|].
  assert (Hone : forall d', Ascii.eqb d d' = true -> Ascii.eqb d' c = false ->
    forall acc z', digits_from acc s = Some z' -> no_byte c (String d s) = true).
  { intros d' ->%Ascii.eqb_eq Hd acc z' Hz. cbn [no_byte]. rewrite Hd. by apply (digits_from_no_byte c s acc z'). }
  destruct (Ascii.eqb d "-") eqn:E1; [|destruct (Ascii.eqb d "+") eqn:E2].
  - destruct s as [|d' s']; [done|]. destruct (digits_from 0 (String d' s')) eqn:E; [|done]. intros _. by eapply Hone.
  - destruct s as [|d' s']; [done|]. destruct (digits_from 0 (String d' s')) eqn:E; [|done]. intros _. by eapply Hone.
  - destruct (digits_from 0 (String d s)) eqn:E; [|done]. intros _. by eapply digits_from_no_byte.
Qed.
