(* ===== verification/Hex.v ===== *)
(** Go's [encoding/hex] on byte strings. *)

From S2P Require Import Prelude GoStrings.
From Stdlib Require Import Ascii.

Definition hexDigit (n : nat) : ascii := ascii_of_nat (if n <? 10 then 48 + n else 87 + n).

(** [hex.EncodeToString]. *)
Fixpoint hexEnc (s : string) : string :=
  match s with
  | EmptyString => EmptyString
  | String c s' =>
      String (hexDigit (nat_of_ascii c / 16)) (String (hexDigit (nat_of_ascii c mod 16)) (hexEnc s'))
  end.

Definition hexValue (c : ascii) : option nat :=
  let n := nat_of_ascii c in
  if (48 <=? n) && (n <=? 57) then Some (n - 48)
  else if (97 <=? n) && (n <=? 102) then Some (n - 87)
  else if (65 <=? n) && (n <=? 70) then Some (n - 55)
  else None.

(** [hex.DecodeString]: [None] on an odd length or a byte that is no digit. *)
Fixpoint hexDec (s : string) : option string :=
  match s with
  | EmptyString => Some EmptyString
  | String a (String b s') =>
      match hexValue a, hexValue b, hexDec s' with
      | Some h, Some l, Some t => Some (String (ascii_of_nat (16 * h + l)) t)
      | _, _, _ => None
      end
  | String _ EmptyString => None
  end.

(** A property of bytes, checked on all of them. *)
Lemma all_bytes (P : ascii -> bool) :
  forallb P (map ascii_of_nat (seq 0 256)) = true -> forall c, P c = true.
Proof.
  intros Hf c. rewrite forallb_forall in Hf. apply Hf, in_map_iff.
  exists (nat_of_ascii c). split; [apply ascii_nat_embedding|].
  apply in_seq. pose proof (nat_ascii_bounded c). lia.
Qed.

Lemma hex_byte c :
  hexValue (hexDigit (nat_of_ascii c / 16)) = Some (nat_of_ascii c / 16) /\
  hexValue (hexDigit (nat_of_ascii c mod 16)) = Some (nat_of_ascii c mod 16).
Proof.
  pose (P c := match hexValue (hexDigit (nat_of_ascii c / 16)), hexValue (hexDigit (nat_of_ascii c mod 16)) with
               | Some h, Some l => (h =? nat_of_ascii c / 16) && (l =? nat_of_ascii c mod 16)
               | _, _ => false end).
  assert (Hp : P c = true) by (apply all_bytes; vm_compute; reflexivity). unfold P in Hp.
  destruct (hexValue _), (hexValue _); try done. bool_to_prop. apply Nat.eqb_eq in H, H0. by subst.
Qed.

Lemma hexDec_Enc s : hexDec (hexEnc s) = Some s.
Proof.
  induction s as [|c s IH]; [done|]. cbn -[Nat.div Nat.modulo Nat.mul].
  destruct (hex_byte c) as [-> ->]. rewrite IH, <- Nat.div_mod_eq.
  by rewrite ascii_nat_embedding.
Qed.

Lemma hexEnc_length s : String.length (hexEnc s) = 2 * String.length s.
Proof. induction s as [|c s IH]; cbn [hexEnc String.length]; lia. Qed.

(** Hexadecimal text has no byte outside the digits. *)
Lemma hexEnc_no_byte sep s :
  forallb (fun n => negb (Ascii.eqb (hexDigit n) sep)) (seq 0 16) = true -> no_byte sep (hexEnc s) = true.
Proof.
  intros Hs. rewrite forallb_forall in Hs. induction s as [|c s IH]; [done|].
  cbn [hexEnc no_byte]. pose proof (nat_ascii_bounded c) as Hb.
  rewrite IH, (Hs (nat_of_ascii c / 16)), (Hs (nat_of_ascii c mod 16)); [done| |]; apply in_seq.
  - pose proof (Nat.mod_upper_bound (nat_of_ascii c) 16). lia.
  - split; [lia|]. apply Nat.Div0.div_lt_upper_bound. lia.
Qed.

Lemma hexEnc_inj a b : hexEnc a = hexEnc b -> a = b.
Proof. intros H%(f_equal hexDec). rewrite !hexDec_Enc in H. by injection H. Qed.
