(* ===== verification/Json.v ===== *)
(** JSON documents and Go's [encoding/json] decoding into structs and maps.

    A byte payload that reaches [json.Unmarshal] is modelled by the document
    it parses to, [None] when it is not valid JSON (type [raw]).  Decoding a
    struct follows [encoding/json]: object members are processed in order, a
    key selects the field equal to it up to ASCII case, a later member
    overwrites an earlier one, [null] leaves a field as it is, a value of the
    wrong kind makes the whole decode fail. *)

From S2P Require Import Prelude.
From Stdlib Require Import Ascii.

Inductive json : Type :=
| JNull
| JBool (b : bool)
| JNum (z : Z)                  (* a number literal without fraction or exponent *)
| JFloat (literal : string)     (* any other number literal *)
| JStr (s : string)
| JArr (l : list json)
| JObj (l : list (string * json)).

(** Bytes handed to [json.Unmarshal]. *)
Definition raw : Type := option json.

Section json_eq.
Fixpoint json_eqb (a b : json) {struct a} : bool :=
  let fix arr (l m : list json) : bool :=
    match l, m with
    | [], [] => true
    | x :: l', y :: m' => json_eqb x y && arr l' m'
    | _, _ => false
    end in
  let fix obj (l m : list (string * json)) : bool :=
    match l, m with
    | [], [] => true
    | (k, x) :: l', (k', y) :: m' => (k =s? k') && json_eqb x y && obj l' m'
    | _, _ => false
    end in
  match a, b with
  | JNull, JNull => true
  | JBool x, JBool y => Bool.eqb x y
  | JNum x, JNum y => Z.eqb x y
  | JFloat x, JFloat y => x =s? y
  | JStr x, JStr y => x =s? y
  | JArr l, JArr m => arr l m
  | JObj l, JObj m => obj l m
  | _, _ => false
  end.

Lemma json_eqb_eq : forall a b, json_eqb a b = true <-> a = b.
Proof.
  fix IH 1. intros a b. destruct a, b; simpl;
    try (split; [discriminate|intros [=]]); try done.
  - rewrite Bool.eqb_true_iff. split; congruence.
  - rewrite Z.eqb_eq. split; congruence.
  - rewrite String.eqb_eq. split; congruence.
  - rewrite String.eqb_eq. split; congruence.
  - revert l0. induction l as [|x l IHl]; intros [|y m]; try (split; [done|intros [=]]); try done.
    rewrite andb_true_iff, (IH x y), IHl. split; [intros [-> [= ->]]; done|intros [= -> ->]; done].
  - revert l0. induction l as [|[k x] l IHl]; intros [|[k' y] m]; try (split; [done|intros [=]]); try done.
    rewrite !andb_true_iff, (IH x y), String.eqb_eq, IHl.
    split; [intros [[-> ->] [= ->]]; done|intros [= -> -> ->]; done].
Qed.
End json_eq.

#[global] Instance json_eq_dec : EqDecision json.
Proof.
  intros a b. destruct (json_eqb a b) eqn:E.
  - left. by apply json_eqb_eq.
  - right. intros H%json_eqb_eq. congruence.
Defined.

(** ** Field selection *)

(** ASCII lower case. *)
Definition lower_byte (c : ascii) : ascii :=
  let n := nat_of_ascii c in
  if (65 <=? n) && (n <=? 90) then ascii_of_nat (n + 32) else c.

(** [strings.ToLower] on ASCII text. *)
Fixpoint ToLower (s : string) : string :=
  match s with
  | EmptyString => EmptyString
  | String c s' => String (lower_byte c) (ToLower s')
  end.

(** The key of an object member selects the struct field [name]. *)
Definition key_is (name key : string) : bool := ToLower name =s? ToLower key.

Definition ErrSyntax : goerr := ErrNew "json: syntax error".
Definition ErrUnmarshalType : goerr := ErrNew "json: cannot unmarshal value of this type".

(** ** Field decoders: current value, document, new value *)

Definition dec_string (cur : string) (j : json) : res string :=
  match j with JStr s => Ok s | JNull => Ok cur | _ => Err ErrUnmarshalType end.

Definition dec_bool (cur : bool) (j : json) : res bool :=
  match j with JBool b => Ok b | JNull => Ok cur | _ => Err ErrUnmarshalType end.

(** [int]: a literal outside the 64-bit range is an error. *)
Definition dec_int (cur : Z) (j : json) : res Z :=
  match j with
  | JNum z => if (- 2 ^ 63 <=? z)%Z && (z <? 2 ^ 63)%Z then Ok z else Err ErrUnmarshalType
  | JNull => Ok cur
  | _ => Err ErrUnmarshalType
  end.

Fixpoint dec_elems (l : list json) : res (list string) :=
  match l with
  | [] => Ok []
  | j :: l' => s <-? dec_string "" j; ss <-? dec_elems l'; Ok (s :: ss)
  end.

(** [[]string]: [null] gives the nil slice, which the code only ranges over or
    marshals; slice elements start from the zero value. *)
Definition dec_strings (cur : list string) (j : json) : res (list string) :=
  match j with
  | JArr l => dec_elems l
  | JNull => Ok []
  | _ => Err ErrUnmarshalType
  end.

(** [time.Time], by the reading of RFC 3339. *)
Definition dec_time (rfc3339 : string -> option Z) (cur : Z) (j : json) : res Z :=
  match j with
  | JNull => Ok cur
  | JStr s => match rfc3339 s with Some t => Ok t | None => Err ErrUnmarshalType end
  | _ => Err ErrUnmarshalType
  end.

(** [float64], as the number's own document. *)
Definition dec_number (cur : json) (j : json) : res json :=
  match j with
  | JNum _ | JFloat _ => Ok j
  | JNull => Ok cur
  | _ => Err ErrUnmarshalType
  end.

(** An array as a member; null is the nil slice. *)
Fixpoint dec_list {A} (dec : json -> res A) (l : list json) : res (list A) :=
  match l with
  | [] => Ok []
  | j :: l' => a <-? dec j; rest <-? dec_list dec l'; Ok (a :: rest)
  end.

Definition dec_slice {A} (dec : json -> res A) (j : json) : res (list A) :=
  match j with JArr l => dec_list dec l | JNull => Ok [] | _ => Err ErrUnmarshalType end.

(** [json.RawMessage]: the member's own bytes, [null] included. *)
Definition dec_raw (cur : raw) (j : json) : res raw := Ok (Some j).

(** ** Structs *)

Section structs.
Context {S : Type}.
(** [upd key cur j]: what the member [key: j] does to the struct. *)
Variable upd : string -> S -> json -> res S.

Fixpoint dec_members (l : list (string * json)) (cur : S) : res S :=
  match l with
  | [] => Ok cur
  | (k, j) :: l' => cur' <-? upd k cur j; dec_members l' cur'
  end.

(** [json.Unmarshal(data, &v)] with [v] initially [cur]. *)
Definition unmarshal_struct (cur : S) (data : raw) : res S :=
  match data with
  | None => Err ErrSyntax
  | Some (JObj l) => dec_members l cur
  | Some JNull => Ok cur
  | Some _ => Err ErrUnmarshalType
  end.
End structs.

(** ** Maps *)

(** [map[string]interface{}]; [None] is the nil map, on which an assignment
    panics. *)
Definition gomap : Type := option (gmap string json).

Definition members_map (l : list (string * json)) : gmap string json :=
  fold_left (fun m kv => <[kv.1 := kv.2]> m) l ∅.

(** [var m map[string]interface{}; json.Unmarshal(data, &m)]. *)
Definition unmarshal_map (data : raw) : res gomap :=
  match data with
  | None => Err ErrSyntax
  | Some (JObj l) => Ok (Some (members_map l))
  | Some JNull => Ok None
  | Some _ => Err ErrUnmarshalType
  end.

(** [map[string]interface{}] as a struct member: members are added to the map
    that is there. *)
Definition dec_map (cur : gomap) (j : json) : res gomap :=
  match j with
  | JObj l => Ok (Some (members_map l ∪ default ∅ cur))
  | JNull => Ok None
  | _ => Err ErrUnmarshalType
  end.

(** [m[key]] of a possibly nil map. *)
Definition map_get (m : gomap) (key : string) : option json :=
  match m with Some g => g !! key | None => None end.

(** [v, _ := m[key].(string)]. *)
Definition get_string (m : gomap) (key : string) : string :=
  match map_get m key with Some (JStr s) => s | _ => "" end.

Lemma unmarshal_struct_obj {S} (upd : string -> S -> json -> res S) cur data s :
  unmarshal_struct upd cur data = Ok s ->
  (data = Some JNull /\ s = cur) \/ (exists l, data = Some (JObj l) /\ dec_members upd l cur = Ok s).
Proof.
  destruct data as [[]|]; simpl; try discriminate; [intros [= ->]; auto|eauto].
Qed.

(** A struct invariant kept by every member decoder holds of the result. *)
Lemma dec_members_ind {S} (upd : string -> S -> json -> res S) (P : S -> Prop) l cur s :
  (forall k c j c', P c -> upd k c j = Ok c' -> P c') ->
  P cur -> dec_members upd l cur = Ok s -> P s.
Proof.
  intros Hstep. revert cur. induction l as [|[k j] l IH]; simpl; intros cur Hc H.
  - by injection H as <-.
  - apply res_bind_ok in H as (c1 & Hc1 & H).
    exact (IH c1 (Hstep _ _ _ _ Hc Hc1) H).
Qed.


(** Evaluates the member selection of a decoder on literal keys. *)
Ltac json_keys :=
  repeat match goal with
  | |- context [key_is ?a ?b] =>
      let v := eval vm_compute in (key_is a b) in change (key_is a b) with v; cbv iota
  end.
