(* ===== verification/Redis.v ===== *)
(** The Redis client as the services use it: an interface ([Redis]), the
    documented behaviour of its commands as laws ([RedisLaws]) stated on the
    live contents of the store, and a small instance ([MiniRedis]) that
    satisfies the laws and on which witnesses are evaluated.

    A command that returns an error may or may not have been executed, so a
    law describes a mutation either as applied or, only when an error is
    reported, as not applied. *)

From S2P Require Import Prelude Json.
From stdpp Require Import gmap sets fin_sets.

(** String values: plain text, or the bytes of a JSON document. *)
Inductive rval := RText (s : string) | RDoc (j : json).

#[global] Instance rval_eq_dec : EqDecision rval.
Proof. solve_decision. Defined.

(** What [json.Unmarshal] sees of a value. *)
Definition rval_raw (v : rval) : raw :=
  match v with RText _ => None | RDoc j => Some j end.

Inductive rdata :=
| RStr (v : rval)
| RSet (s : gset string)
| RZSet (m : gmap string Z).

(** ** Interface *)

(** Every command takes the instant at which the server executes it. *)
Class Redis (R : Type) := {
  rview : Z -> R -> string -> option rdata;
  rget : Z -> R -> string -> res (option rval);
  rset : Z -> R -> string -> rval -> Z -> R * option goerr;
  rsetnx : Z -> R -> string -> rval -> Z -> R * res bool;
  rexists : Z -> R -> string -> res bool;
  rdel : Z -> R -> list string -> R * option goerr;
  rgetdel : Z -> R -> string -> R * res (option rval);
  rexpire : Z -> R -> string -> Z -> R * option goerr;
  rsadd : Z -> R -> string -> string -> R * option goerr;
  rsmembers : Z -> R -> string -> res (list string);
  rsismember : Z -> R -> string -> string -> res bool;
  rzadd : Z -> R -> string -> Z -> string -> R * option goerr;
  rzremrangebyscore : Z -> R -> string -> Z -> R * option goerr;   (* from -inf to the bound *)
  rzcard : Z -> R -> string -> res Z;
}.

(** A view gives the live datum of each key at each later instant. *)
Definition view : Type := Z -> string -> option rdata.

Definition view_set (now : Z) (k : string) (d : rdata) (ttl : Z) (f : view) : view :=
  fun t k' => if decide (k' = k) then (if (t <? now + ttl)%Z then Some d else None) else f t k'.

Definition view_del (ks : list string) (f : view) : view :=
  fun t k' => if decide (k' ∈ ks) then None else f t k'.

Definition view_expire (now : Z) (k : string) (ttl : Z) (f : view) : view :=
  fun t k' => if decide (k' = k) then (if (t <? now + ttl)%Z then f now k else None) else f t k'.

(** An in-place update keeps the expiry of an existing key. *)
Definition view_touch (now : Z) (k : string) (g : option rdata -> rdata) (f : view) : view :=
  fun t k' =>
    if decide (k' = k) then
      match f now k with
      | None => Some (g None)
      | Some _ => match f t k with Some d => Some (g (Some d)) | None => None end
      end
    else f t k'.

Definition add_member (m : string) (d : option rdata) : rdata :=
  match d with Some (RSet s) => RSet ({[m]} ∪ s) | _ => RSet {[m]} end.
Definition add_scored (score : Z) (m : string) (d : option rdata) : rdata :=
  match d with Some (RZSet z) => RZSet (<[m := score]> z) | _ => RZSet {[m := score]} end.
Definition drop_upto (bound : Z) (z : gmap string Z) : gmap string Z :=
  filter (fun kv : string * Z => (bound < kv.2)%Z) z.

(** [f] is the view before, [f'] after a mutation [g] executed at [now]. *)
Definition applied (now : Z) (f f' : view) (g : view -> view) (err : option goerr) : Prop :=
  (forall t k, (now <= t)%Z -> f' t k = g f t k) \/
  (err <> None /\ forall t k, (now <= t)%Z -> f' t k = f t k).

Definition view_of {R} `{Redis R} (r : R) : view := fun t k => rview t r k.

Definition err_of {A} (x : res A) : option goerr :=
  match x with Ok _ => None | Err e => Some e end.

Class RedisLaws (R : Type) `{Redis R} : Prop := {
  rview_mono now t r k d :
    (now <= t)%Z -> rview t r k = Some d -> rview now r k = Some d;
  rget_ok now r k o :
    rget now r k = Ok o ->
    match o with Some v => rview now r k = Some (RStr v) | None => rview now r k = None end;
  rset_applied now r k v ttl r' e :
    rset now r k v ttl = (r', e) ->
    applied now (view_of r) (view_of r') (view_set now k (RStr v) ttl) e;
  rsetnx_ok now r k v ttl r' b :
    rsetnx now r k v ttl = (r', Ok b) ->
    b = bool_decide (rview now r k = None) /\
    forall t k', (now <= t)%Z ->
      rview t r' k' = if b then view_set now k (RStr v) ttl (view_of r) t k' else rview t r k';
  rsetnx_frame now r k v ttl r' x t k' :
    rsetnx now r k v ttl = (r', x) -> (now <= t)%Z -> k' <> k -> rview t r' k' = rview t r k';
  rsetnx_present now r k v ttl r' x t :
    rsetnx now r k v ttl = (r', x) -> (now <= t)%Z -> rview now r k <> None -> rview t r' k = rview t r k;
  rexists_ok now r k b :
    rexists now r k = Ok b -> b = bool_decide (rview now r k <> None);
  rdel_applied now r ks r' e :
    rdel now r ks = (r', e) -> applied now (view_of r) (view_of r') (view_del ks) e;
  rgetdel_ok now r k r' o :
    rgetdel now r k = (r', Ok o) ->
    match o with Some v => rview now r k = Some (RStr v) | None => rview now r k = None end /\
    forall t k', (now <= t)%Z -> rview t r' k' = view_del [k] (view_of r) t k';
  rgetdel_applied now r k r' x :
    rgetdel now r k = (r', x) ->
    applied now (view_of r) (view_of r') (view_del [k]) (err_of x);
  rexpire_applied now r k ttl r' e :
    rexpire now r k ttl = (r', e) ->
    applied now (view_of r) (view_of r') (view_expire now k ttl) e;
  rsadd_applied now r k m r' e :
    rsadd now r k m = (r', e) ->
    applied now (view_of r) (view_of r') (view_touch now k (add_member m)) e;
  rsmembers_ok now r k l :
    rsmembers now r k = Ok l ->
    (rview now r k = None /\ l = []) \/
    exists s, rview now r k = Some (RSet s) /\ forall m, m ∈ l <-> m ∈ s;
  rsismember_ok now r k m b :
    rsismember now r k m = Ok b ->
    (rview now r k = None /\ b = false) \/
    exists s, rview now r k = Some (RSet s) /\ b = bool_decide (m ∈ s);
  rzadd_applied now r k score m r' e :
    rzadd now r k score m = (r', e) ->
    applied now (view_of r) (view_of r') (view_touch now k (add_scored score m)) e;
  rzadd_type now r k score m r' :
    rzadd now r k score m = (r', None) ->
    rview now r k = None \/ exists z, rview now r k = Some (RZSet z);
  rzrem_applied now r k bound r' e :
    rzremrangebyscore now r k bound = (r', e) ->
    (forall t k', (now <= t)%Z -> k' <> k -> rview t r' k' = rview t r k') /\
    (e = None -> forall z, rview now r k = Some (RZSet z) ->
       rview now r' k = (if decide (drop_upto bound z = ∅) then None
                         else Some (RZSet (drop_upto bound z))));
  rzrem_absent now r k bound r' e :
    rzremrangebyscore now r k bound = (r', e) -> rview now r k = None -> rview now r' k = None;
  rzcard_ok now r k n :
    rzcard now r k = Ok n ->
    (rview now r k = None /\ n = 0%Z) \/
    exists z, rview now r k = Some (RZSet z) /\ n = Z.of_nat (size z);
}.

(** ** Consequences shared by the clients *)

Section laws.
Context {R : Type} `{RedisLaws R}.

Lemma applied_ok now f f' g : applied now f f' g None ->
  forall t k, (now <= t)%Z -> f' t k = g f t k.
Proof. intros [Ha|[? _]]; [done|congruence]. Qed.

Lemma rset_ok now r k v ttl r' :
  rset now r k v ttl = (r', None) ->
  forall t k', (now <= t)%Z -> rview t r' k' = view_set now k (RStr v) ttl (view_of r) t k'.
Proof. intros Hs. apply (applied_ok now (view_of r)). eapply rset_applied, Hs. Qed.

Lemma rset_frame now r k v ttl r' e t k' :
  rset now r k v ttl = (r', e) -> (now <= t)%Z -> k' <> k -> rview t r' k' = rview t r k'.
Proof.
  intros [Ha|[_ Ha]]%rset_applied Ht Hk; [|by apply Ha].
  unfold view_of in Ha. rewrite Ha by done. unfold view_set.
  by rewrite decide_False.
Qed.

Lemma rsadd_frame now r k m r' e t k' :
  rsadd now r k m = (r', e) -> (now <= t)%Z -> k' <> k -> rview t r' k' = rview t r k'.
Proof.
  intros [Ha|[_ Ha]]%rsadd_applied Ht Hk; unfold view_of in Ha; rewrite Ha by done; [|done].
  unfold view_touch. by rewrite decide_False.
Qed.

Lemma rexpire_frame now r k ttl r' e t k' :
  rexpire now r k ttl = (r', e) -> (now <= t)%Z -> k' <> k -> rview t r' k' = rview t r k'.
Proof.
  intros [Ha|[_ Ha]]%rexpire_applied Ht Hk; unfold view_of in Ha; rewrite Ha by done; [|done].
  unfold view_expire. by rewrite decide_False.
Qed.

Lemma rdel_ok now r ks r' :
  rdel now r ks = (r', None) ->
  forall t k, (now <= t)%Z -> rview t r' k = view_del ks (view_of r) t k.
Proof. intros Hs. apply (applied_ok now (view_of r)). eapply rdel_applied, Hs. Qed.
End laws.

(** [pipe.Exec]: the commands are executed in order; the first error is
    reported. *)
Definition pipe_then {R} (c1 c2 : R -> R * option goerr) (r : R) : R * option goerr :=
  let '(r1, e1) := c1 r in
  let '(r2, e2) := c2 r1 in
  (r2, match e1 with Some e => Some e | None => e2 end).

Lemma pipe_then_ok {R} (c1 c2 : R -> R * option goerr) r r' :
  pipe_then c1 c2 r = (r', None) -> exists r1, c1 r = (r1, None) /\ c2 r1 = (r', None).
Proof.
  unfold pipe_then. destruct (c1 r) as [r1 e1], (c2 r1) as [r2 e2] eqn:E2.
  destruct e1; intros [= -> ->]. by exists r1.
Qed.

(** ** An instance *)

(** Keys with their datum and expiry; [mrDown] makes every command fail. *)
Record MiniRedis := mkMiniRedis {
  mrData : gmap string (rdata * option Z);
  mrDown : bool;
}.

Definition ErrRedisDown : goerr := ErrNew "dial tcp: connection refused".
Definition ErrWrongType : goerr := ErrNew "WRONGTYPE".

Definition mrView (t : Z) (r : MiniRedis) (k : string) : option rdata :=
  match mrData r !! k with
  | Some (d, None) => Some d
  | Some (d, Some e) => if (t <? e)%Z then Some d else None
  | None => None
  end.

Definition mrRead {A} (r : MiniRedis) (x : res A) : res A :=
  if mrDown r then Err ErrRedisDown else x.

Definition mrPut (r : MiniRedis) (k : string) (d : rdata) (e : option Z) : MiniRedis :=
  mkMiniRedis (<[k := (d, e)]> (mrData r)) (mrDown r).

Definition mrDrop (r : MiniRedis) (ks : list string) : MiniRedis :=
  mkMiniRedis (filter (fun kv => kv.1 ∉ ks) (mrData r)) (mrDown r).

(** The expiry a live key keeps; none for a key that is not there. *)
Definition mrExpiry (now : Z) (r : MiniRedis) (k : string) : option Z :=
  match mrView now r k with Some _ => (mrData r !! k) ≫= snd | None => None end.

Definition mrWrite (r : MiniRedis) (r' : MiniRedis) (ok : bool) : MiniRedis * option goerr :=
  if mrDown r then (r, Some ErrRedisDown)
  else if ok then (r', None) else (r, Some ErrWrongType).

Definition str_of (d : option rdata) : res (option rval) :=
  match d with None => Ok None | Some (RStr v) => Ok (Some v) | Some _ => Err ErrWrongType end.

#[global] Instance MiniRedis_ops : Redis MiniRedis := {
  rview := mrView;
  rget now r k := mrRead r (str_of (mrView now r k));
  rset now r k v ttl := mrWrite r (mrPut r k (RStr v) (Some (now + ttl)%Z)) true;
  rsetnx now r k v ttl :=
    if mrDown r then (r, Err ErrRedisDown)
    else match mrView now r k with
         | Some _ => (r, Ok false)
         | None => (mrPut r k (RStr v) (Some (now + ttl)%Z), Ok true)
         end;
  rexists now r k := mrRead r (Ok (bool_decide (mrView now r k <> None)));
  rdel now r ks := mrWrite r (mrDrop r ks) true;
  rgetdel now r k :=
    match mrRead r (str_of (mrView now r k)) with
    | Ok o => (mrDrop r [k], Ok o)
    | Err e => (r, Err e)
    end;
  rexpire now r k ttl :=
    mrWrite r (match mrView now r k with
               | Some d => mrPut r k d (Some (now + ttl)%Z)
               | None => mrDrop r [k] end) true;
  rsadd now r k m :=
    let d := mrView now r k in
    mrWrite r (mrPut r k (add_member m d) (mrExpiry now r k))
      match d with None | Some (RSet _) => true | _ => false end;
  rsmembers now r k :=
    mrRead r (match mrView now r k with
              | None => Ok [] | Some (RSet s) => Ok (elements s) | _ => Err ErrWrongType end);
  rsismember now r k m :=
    mrRead r (match mrView now r k with
              | None => Ok false | Some (RSet s) => Ok (bool_decide (m ∈ s))
              | _ => Err ErrWrongType end);
  rzadd now r k score m :=
    let d := mrView now r k in
    mrWrite r (mrPut r k (add_scored score m d) (mrExpiry now r k))
      match d with None | Some (RZSet _) => true | _ => false end;
  rzremrangebyscore now r k bound :=
    match mrView now r k with
    | None => mrWrite r r true
    | Some (RZSet z) =>
        mrWrite r (if decide (drop_upto bound z = ∅) then mrDrop r [k]
                   else mrPut r k (RZSet (drop_upto bound z)) (mrExpiry now r k)) true
    | Some _ => mrWrite r r false
    end;
  rzcard now r k :=
    mrRead r (match mrView now r k with
              | None => Ok 0%Z | Some (RZSet z) => Ok (Z.of_nat (size z))
              | _ => Err ErrWrongType end);
}.

Section mini_lemmas.
Implicit Types (r : MiniRedis) (now t : Z) (k : string).

Lemma mrView_put t r k d e k' :
  mrView t (mrPut r k d e) k' =
  if decide (k' = k) then match e with
                          | Some x => if (t <? x)%Z then Some d else None
                          | None => Some d end
  else mrView t r k'.
Proof.
  unfold mrView, mrPut. simpl. destruct (decide (k' = k)) as [->|Hk].
  - rewrite lookup_insert_eq. by destruct e.
  - by rewrite lookup_insert_ne by done.
Qed.

Lemma mrView_drop t r ks k' :
  mrView t (mrDrop r ks) k' = if decide (k' ∈ ks) then None else mrView t r k'.
Proof.
  unfold mrView, mrDrop. simpl. destruct (decide (k' ∈ ks)) as [Hk|Hk].
  - destruct (filter _ _ !! k') as [[d e]|] eqn:E; [|done].
    apply map_lookup_filter_Some in E as [_ E]. done.
  - destruct (mrData r !! k') as [[d e]|] eqn:E.
    + by rewrite (map_lookup_filter_Some_2 _ _ _ _ E Hk).
    + destruct (filter _ _ !! k') as [[d e]|] eqn:E'; [|done].
      apply map_lookup_filter_Some in E' as [E' _]. congruence.
Qed.

Lemma mrView_later now t r k d :
  mrView now r k = Some d -> mrView t r k =
    match mrExpiry now r k with
    | Some x => if (t <? x)%Z then Some d else None
    | None => Some d end.
Proof.
  intros H. unfold mrExpiry. rewrite H. unfold mrView in *.
  destruct (mrData r !! k) as [[d' [e|]]|]; simpl; try done; simplify_eq.
  - by destruct (now <? e)%Z; simplify_eq.
Qed.

Lemma mrView_gone now t r k : (now <= t)%Z -> mrView now r k = None -> mrView t r k = None.
Proof.
  intros Ht. unfold mrView. destruct (mrData r !! k) as [[d [e|]]|]; try done.
  destruct (now <? e)%Z eqn:E; [done|]. bool_to_prop.
  destruct (t <? e)%Z eqn:E'; [bool_to_prop; lia|done].
Qed.

Lemma mrWrite_applied now r r1 ok g r' e :
  (forall t k, (now <= t)%Z -> ok = true -> mrView t r1 k = g (view_of r) t k) ->
  mrWrite r r1 ok = (r', e) -> applied now (view_of r) (view_of r') g e.
Proof.
  intros Hg. unfold mrWrite. destruct (mrDown r); [|destruct ok]; intros [= <- <-].
  - by right.
  - left. intros t k Ht. by apply Hg.
  - by right.
Qed.

Lemma mr_touch now r k g t k' :
  (now <= t)%Z ->
  mrView t (mrPut r k (g (mrView now r k)) (mrExpiry now r k)) k' =
  view_touch now k g (view_of r) t k'.
Proof.
  intros Ht. rewrite mrView_put. unfold view_touch, view_of, rview, MiniRedis_ops.
  destruct (decide (k' = k)) as [->|]; [|done].
  destruct (mrView now r k) as [d|] eqn:E.
  - rewrite (mrView_later now t r k d E). unfold mrExpiry. rewrite E.
    destruct (mrData r !! k ≫= snd); [|done]. by destruct (t <? z)%Z.
  - unfold mrExpiry. by rewrite E.
Qed.
End mini_lemmas.

#[global] Instance MiniRedis_laws : RedisLaws MiniRedis.
Proof.
  split; intros *; unfold rview, rget, rset, rsetnx, rexists, rdel, rgetdel, rexpire, rsadd,
    rsmembers, rsismember, rzadd, rzremrangebyscore, rzcard, MiniRedis_ops, mrRead.
  - intros Ht H. destruct (mrView now r k) as [d'|] eqn:E.
    + rewrite (mrView_later now t r k d' E) in H.
      destruct (mrExpiry now r k); [destruct (t <? z)%Z|]; congruence.
    + by rewrite (mrView_gone now t r k Ht E) in H.
  - destruct (mrDown r); [done|]. destruct (mrView now r k) as [[]|]; simpl; by intros [= <-].
  - apply mrWrite_applied. intros t k' Ht _. rewrite mrView_put. unfold view_set.
    by destruct (decide (k' = k)).
  - destruct (mrDown r); [done|]. destruct (mrView now r k) eqn:E; intros [= <- <-].
    + done.
    + split; [by rewrite bool_decide_true|]. intros t k' Ht. rewrite mrView_put.
      unfold view_set. by destruct (decide (k' = k)).
  - destruct (mrDown r); [by intros [= <- <-]|].
    destruct (mrView now r k) eqn:E; intros [= <- <-] Ht Hk; [done|].
    rewrite mrView_put. by rewrite decide_False.
  - destruct (mrDown r); [by intros [= <- <-]|].
    destruct (mrView now r k) eqn:E; intros [= <- <-] Ht Hk; done.
  - destruct (mrDown r); [done|]. by intros [= <-].
  - apply mrWrite_applied. intros t k Ht _. rewrite mrView_drop. done.
  - destruct (mrDown r); [done|]. destruct (mrView now r k) as [[]|] eqn:E; simpl; try done;
      intros [= <- <-]; (split; [done|]); intros t k' Ht; rewrite mrView_drop; done.
  - destruct (mrDown r) eqn:Ed; [intros [= <- <-]; right; done|].
    destruct (str_of _) eqn:Es; intros [= <- <-]; [|by right].
    left. intros t k' Ht. unfold view_of, rview. rewrite mrView_drop. done.
  - apply mrWrite_applied. intros t k' Ht _. unfold view_expire, view_of, rview, MiniRedis_ops.
    destruct (mrView now r k) eqn:E.
    + rewrite mrView_put. by destruct (decide (k' = k)).
    + rewrite mrView_drop. destruct (decide (k' ∈ [k])) as [Hin|Hn], (decide (k' = k)) as [->|];
        try done; [by destruct (t <? _)%Z|set_solver|set_solver].
  - apply mrWrite_applied. intros t k' Ht _. by apply mr_touch.
  - destruct (mrDown r); [done|]. destruct (mrView now r k) as [[]|] eqn:E; try done.
    + intros [= <-]. right. exists s. split; [done|]. intros m. apply elem_of_elements.
    + intros [= <-]. by left.
  - destruct (mrDown r); [done|]. destruct (mrView now r k) as [[]|] eqn:E; try done.
    + intros [= <-]. right. by exists s.
    + intros [= <-]. by left.
  - apply mrWrite_applied. intros t k' Ht _. by apply mr_touch.
  - unfold mrWrite. destruct (mrDown r); [done|].
    destruct (mrView now r k) as [[]|]; try done; [right; eauto|by left].
  - destruct (mrView now r k) as [[| |z]|] eqn:E; unfold mrWrite; destruct (mrDown r);
      intros [= <- <-]; try (split; [done|]; intros; congruence).
    split.
    + intros t k' Ht Hk. destruct (decide (_ = ∅)).
      * rewrite mrView_drop. destruct (decide (k' ∈ [k])); [set_solver|done].
      * rewrite mrView_put. by rewrite decide_False.
    + intros _ z' [= ->]. destruct (decide (drop_upto bound z' = ∅)) as [He|He].
      * rewrite mrView_drop. destruct (decide (k ∈ [k])); [done|set_solver].
      * rewrite mrView_put, decide_True by done.
        pose proof (mrView_later now now r k _ E) as Hl. rewrite E in Hl.
        destruct (mrExpiry now r k); [destruct (now <? z)%Z|]; done.
  - intros Hm Hv. rewrite Hv in Hm. unfold mrWrite in Hm. by destruct (mrDown r); simplify_eq.
  - destruct (mrDown r); [done|]. destruct (mrView now r k) as [[]|] eqn:E; try done.
    + intros [= <-]. right. by exists m.
    + intros [= <-]. by left.
Qed.

Definition emptyRedis : MiniRedis := mkMiniRedis ∅ false.
