(* ===== verification/Pg.v ===== *)
(** PostgreSQL sessions, row-level security and transactions as the
    repositories use them: shared/rls/context.go, the [AfterRelease] hook of
    the connection pools, and the [USING]/[WITH CHECK] expression of the
    migrations.  The server is an interface ([PgSession]) with the documented
    behaviour of [set_config] as its laws; [MiniPg] is an instance. *)

From S2P Require Import Prelude.
From Stdlib Require Import Sorting.Sorted.

(** ** Sessions *)

(** Run-time settings of a session: [set_config] with [is_local = true] lasts
    until the end of the transaction, which outside [BEGIN ... COMMIT] is the
    statement itself. *)
Class PgSession (S : Type) := {
  pg_fresh : S;
  pg_in_tx : S -> bool;
  pg_begin : S -> S;
  pg_end : S -> S;
  pg_set_config : S -> string -> string -> bool -> S;
  current_setting : S -> string -> string;    (* missing_ok, NULL read as "" *)
}.

Class PgSessionLaws (S : Type) `{PgSession S} : Prop := {
  pg_fresh_unset n : current_setting pg_fresh n = "";
  pg_fresh_tx : pg_in_tx pg_fresh = false;
  pg_begin_tx s : pg_in_tx (pg_begin s) = true;
  pg_end_tx s : pg_in_tx (pg_end s) = false;
  pg_begin_setting s n : current_setting (pg_begin s) n = current_setting s n;
  pg_set_tx s n v l : pg_in_tx (pg_set_config s n v l) = pg_in_tx s;
  pg_set_session s n v m :
    pg_in_tx s = false ->
    current_setting (pg_set_config s n v false) m =
    if String.eqb m n then v else current_setting s m;
  pg_set_local s n v m :
    pg_in_tx s = true ->
    current_setting (pg_set_config s n v true) m =
    if String.eqb m n then v else current_setting s m;
  pg_set_local_autocommit s n v m :
    pg_in_tx s = false ->
    current_setting (pg_set_config s n v true) m = current_setting s m;
  pg_end_local s n v m :
    pg_in_tx s = false ->
    current_setting (pg_end (pg_set_config (pg_begin s) n v true)) m = current_setting s m;
  pg_end_setting s m :
    pg_in_tx s = false -> current_setting (pg_end (pg_begin s)) m = current_setting s m;
}.

Definition app_org : string := "app.org_id".

(** ** rls.SetSessionVar, rls.TxSetSessionVar, AfterRelease *)

Section rls.
Context {S : Type} `{PgSession S}.

(** The last argument of each operation is the error of the statement. *)
Definition SetSessionVar (conn : S) (orgID : string) (fault : option goerr) : S * option goerr :=
  match fault with
  | Some e => (conn, Some e)
  | None => (pg_set_config conn app_org orgID true, None)
  end.

Definition TxSetSessionVar (tx : S) (orgID : string) (fault : option goerr) : S * option goerr :=
  match fault with
  | Some e => (tx, Some (ErrWrap "set rls session var in tx: " e ""))
  | None => (pg_set_config tx app_org orgID true, None)
  end.

(** The pool resets the session when a connection is released. *)
Definition AfterRelease (conn : S) : S := pg_set_config conn app_org "" false.

(** Every way a pooled connection is used by the repositories. *)
Inductive pooled : S -> Prop :=
| pooled_fresh : pooled pg_fresh
| pooled_set s orgID fault : pooled s -> pooled (SetSessionVar s orgID fault).1
| pooled_tx s orgID fault :
    pooled s -> pooled (pg_end (TxSetSessionVar (pg_begin s) orgID fault).1)
| pooled_release s : pooled s -> pooled (AfterRelease s).

Context `{!PgSessionLaws S}.

(** No pooled connection carries a tenant, nor an open transaction. *)
Lemma pooled_unset s : pooled s -> pg_in_tx s = false /\ current_setting s app_org = "".
Proof.
  induction 1 as [|s o [e|] _ [Ht Hs]|s o [e|] _ [Ht Hs]|s _ [Ht Hs]]; simpl; try done.
  - split; [apply pg_fresh_tx|apply pg_fresh_unset].
  - rewrite pg_set_tx, pg_set_local_autocommit; auto.
  - rewrite pg_end_tx, pg_end_setting; auto.
  - rewrite pg_end_tx, pg_end_local; auto.
  - unfold AfterRelease. by rewrite pg_set_tx, pg_set_session by done.
Qed.

Lemma tx_setting s orgID :
  current_setting (TxSetSessionVar (pg_begin s) orgID None).1 app_org = orgID.
Proof. simpl. by rewrite pg_set_local by apply pg_begin_tx. Qed.
End rls.

(** ** Row-level security *)

(** Whether the role the service connects with is subject to the policies of
    a table ([FORCE ROW LEVEL SECURITY]); superusers and [BYPASSRLS] roles are
    not. *)
Inductive role := RoleSubject | RoleBypass.

(** The [uuid] type: [pgUUID] is the cast from text, to canonical text. *)
Definition uuidCast : Type := string -> option string.

Definition ErrUUID : goerr := ErrNew "invalid input syntax for type uuid".
Definition ErrRLS : goerr := ErrNew "new row violates row-level security policy".

(** [org_id = NULLIF(CURRENT_SETTING('app.org_id', TRUE), '')::UUID]. *)
Definition rls_filter (pgUUID : uuidCast) (ro : role) (setting : string) : res (string -> bool) :=
  match ro with
  | RoleBypass => Ok (fun _ => true)
  | RoleSubject =>
      if setting =s? "" then Ok (fun _ => false)
      else match pgUUID setting with
           | Some o => Ok (fun org_id => org_id =s? o)
           | None => Err ErrUUID
           end
  end.

Definition uuid_arg (pgUUID : uuidCast) (s : string) : res string :=
  match pgUUID s with Some u => Ok u | None => Err ErrUUID end.

(** ** Result sets *)

(** What the driver delivers of a query: rows, then possibly an error that
    only [rows.Err()] reports. *)
Record Rows (A : Type) := mkRows { rows_list : list A; rows_err : option goerr }.
Arguments mkRows {A} _ _.
Arguments rows_list {A} _.
Arguments rows_err {A} _.

(** How the outside world treats one operation: errors of acquiring the
    connection, of setting the session variable, of the statement before it
    is executed or after (the result is lost), and a connection lost after
    the first [n] rows. *)
Record Faults := mkFaults {
  fAcquire : option goerr;
  fSet : option goerr;
  fQuery : option goerr;
  fAck : option goerr;
  fRows : option (nat * goerr);
}.
Definition noFaults : Faults := mkFaults None None None None None.

(** The same, but for what ends the rows. *)
Definition cut_rows (c : option (nat * goerr)) (f : Faults) : Faults :=
  mkFaults (fAcquire f) (fSet f) (fQuery f) (fAck f) c.

(** A statement outside a transaction. *)
Definition autocommit {D A} (f : Faults) (stmt : D -> res (D * A)) (db : D) : D * res A :=
  match fQuery f with
  | Some e => (db, Err e)
  | None =>
      match stmt db with
      | Err e => (db, Err e)
      | Ok (db', a) => (db', match fAck f with Some e => Err e | None => Ok a end)
      end
  end.

Lemma autocommit_ok {D A} f (stmt : D -> res (D * A)) db db' a :
  autocommit f stmt db = (db', Ok a) -> stmt db = Ok (db', a).
Proof.
  unfold autocommit. destruct (fQuery f); [done|].
  destruct (stmt db) as [[d x]|e]; [|done]. destruct (fAck f); [done|]. by intros [= <- <-].
Qed.

Definition deliver {A} (f : option (nat * goerr)) (l : list A) : Rows A :=
  match f with
  | Some (n, e) => mkRows (take n l) (Some e)
  | None => mkRows l None
  end.

(** ** ORDER BY *)

Section order_by.
Context {A : Type}.
Variable le : A -> A -> bool.

Fixpoint order_insert (x : A) (l : list A) : list A :=
  match l with
  | [] => [x]
  | y :: l' => if le x y then x :: l else y :: order_insert x l'
  end.

Definition order_by (l : list A) : list A := foldr order_insert [] l.

Lemma order_insert_perm x l : Permutation (order_insert x l) (x :: l).
Proof.
  induction l as [|y l IH]; simpl; [done|]. destruct (le x y); [done|].
  rewrite IH. apply perm_swap.
Qed.

Lemma order_by_perm l : Permutation (order_by l) l.
Proof.
  induction l as [|x l IH]; simpl; [done|]. by rewrite order_insert_perm, IH.
Qed.

Lemma order_by_In x l : In x (order_by l) <-> In x l.
Proof.
  split; apply Permutation_in; [|symmetry]; apply order_by_perm.
Qed.

Lemma order_by_sorted l :
  (forall x y, le x y = true \/ le y x = true) ->
  (forall x y z, le x y = true -> le y z = true -> le x z = true) ->
  StronglySorted (fun x y => le x y = true) (order_by l).
Proof.
  intros Htot Htr. induction l as [|x l IH]; simpl; [constructor|].
  induction (order_by l) as [|y m IHm]; simpl; [by repeat constructor|].
  inversion IH as [|? ? Hm Hy]; subst.
  destruct (le x y) eqn:E; constructor; auto.
  - constructor; [done|]. eapply Forall_impl; [exact Hy|]. eauto.
  - apply Forall_forall. intros z Hz%list_elem_of_In.
    apply (Permutation_in _ (order_insert_perm x m)) in Hz as [->|Hz].
    + destruct (Htot z y); [congruence|done].
    + rewrite Forall_forall in Hy. by apply Hy, list_elem_of_In.
Qed.
End order_by.

Lemma StronglySorted_split {A} (R : A -> A -> Prop) l1 l2 :
  StronglySorted R (l1 ++ l2) ->
  StronglySorted R l1 /\ forall x y, In x l1 -> In y l2 -> R x y.
Proof.
  induction l1 as [|z l1 IH]; simpl; intros Hs; [split; [constructor|done]|].
  inversion Hs as [|? ? Hs' Hz]; subst. destruct (IH Hs') as [H1 H2].
  apply Forall_app in Hz as [Hz1 Hz2]. split; [by constructor|].
  intros x y [->|Hx] Hy; [|auto]. rewrite Forall_forall in Hz2. by apply Hz2, list_elem_of_In.
Qed.

(** ** Transactions *)

(** The working state of an open transaction.  A statement that fails aborts
    it: every later statement fails, and committing rolls back. *)
Record Tx (D : Type) := mkTx { txDB : D; txOpen : bool }.
Arguments mkTx {D} _ _.
Arguments txDB {D} _.
Arguments txOpen {D} _.

Definition ErrTxAborted : goerr := ErrNew "current transaction is aborted".
Definition ErrTxCommitRollback : goerr := ErrNew "commit unexpectedly resulted in rollback".

(** [pool.Begin]. *)
Definition Begin {D} (db : D) : Tx D := mkTx db true.

(** One statement: [fault] is an error of the connection, [f] the effect of
    the statement or its own error (a failed cast, a violated constraint). *)
Definition tx_exec {D A} (tx : Tx D) (fault : option goerr) (f : D -> res (D * A))
  : Tx D * res A :=
  if txOpen tx then
    match fault with
    | Some e => (mkTx (txDB tx) false, Err e)
    | None => match f (txDB tx) with
              | Ok (db', a) => (mkTx db' true, Ok a)
              | Err e => (mkTx (txDB tx) false, Err e)
              end
    end
  else (tx, Err ErrTxAborted).

(** [tx.Commit]: it succeeds, or fails with or without the transaction having
    been applied (the acknowledgement may be lost). *)
Inductive commitOutcome := CommitOk | CommitFail (e : goerr) (applied : bool).

(** The database after the commit, and the error reported. *)
Definition Commit {D} (db : D) (tx : Tx D) (c : commitOutcome) : D * option goerr :=
  if txOpen tx then
    match c with
    | CommitOk => (txDB tx, None)
    | CommitFail e applied => (if applied then txDB tx else db, Some e)
    end
  else (db, Some ErrTxCommitRollback).

Lemma Commit_cases {D} (db : D) tx c db' e :
  Commit db tx c = (db', e) ->
  (db' = db /\ e <> None) \/ (db' = txDB tx /\ txOpen tx = true).
Proof.
  unfold Commit. destruct (txOpen tx); [destruct c as [|e1 []]|]; intros [= <- <-]; auto.
Qed.

Lemma Commit_none {D} (db : D) tx c db' :
  Commit db tx c = (db', None) -> db' = txDB tx /\ txOpen tx = true.
Proof. unfold Commit. destruct (txOpen tx); [destruct c|]; intros [= <-]; auto. Qed.

(** A committed transaction is one in which every statement succeeded. *)
Lemma tx_exec_open {D A} (tx : Tx D) fault (f : D -> res (D * A)) tx' x :
  tx_exec tx fault f = (tx', x) -> txOpen tx' = true ->
  txOpen tx = true /\ fault = None /\ exists a, f (txDB tx) = Ok (txDB tx', a) /\ x = Ok a.
Proof.
  unfold tx_exec. destruct (txOpen tx) eqn:E; [|intros [= <- <-]; congruence].
  destruct fault; [by intros [= <- <-]|].
  destruct (f (txDB tx)) as [[db' a]|e]; intros [= <- <-] Ho; simpl in *; [eauto|done].
Qed.

Lemma tx_exec_ok {D A} (tx : Tx D) fault (f : D -> res (D * A)) tx' a :
  tx_exec tx fault f = (tx', Ok a) ->
  txOpen tx = true /\ fault = None /\ f (txDB tx) = Ok (txDB tx', a) /\ txOpen tx' = true.
Proof.
  unfold tx_exec. destruct (txOpen tx) eqn:E; [|done]. destruct fault; [done|].
  destruct (f (txDB tx)) as [[db' a']|e]; intros [= <- <-]; auto.
Qed.

(** ** An instance *)

(** Session values, and the values saved at the start of the open
    transaction. *)
Record MiniPg := mkMiniPg { mpSession : gmap string string; mpTx : option (gmap string string) }.

#[global] Instance MiniPg_session : PgSession MiniPg := {
  pg_fresh := mkMiniPg ∅ None;
  pg_in_tx s := match mpTx s with Some _ => true | None => false end;
  pg_begin s := match mpTx s with Some _ => s | None => mkMiniPg (mpSession s) (Some (mpSession s)) end;
  pg_end s := mkMiniPg (mpSession s) None;
  pg_set_config s n v l :=
    match mpTx s with
    | None => if l : bool then s else mkMiniPg (<[n := v]> (mpSession s)) None
    | Some t => if l : bool then mkMiniPg (mpSession s) (Some (<[n := v]> t))
                else mkMiniPg (<[n := v]> (mpSession s)) (Some (<[n := v]> t))
    end;
  current_setting s n := default "" (default (mpSession s) (mpTx s) !! n);
}.

Lemma default_insert (m : gmap string string) n v k :
  default "" (<[n := v]> m !! k) = if String.eqb k n then v else default "" (m !! k).
Proof.
  destruct (String.eqb k n) eqn:E; bool_to_prop.
  - subst. by rewrite lookup_insert_eq.
  - by rewrite lookup_insert_ne by congruence.
Qed.

#[global] Instance MiniPg_laws : PgSessionLaws MiniPg.
Proof.
  split; intros; unfold pg_set_config, pg_begin, pg_end, pg_in_tx, current_setting, MiniPg_session in *;
    repeat match goal with s : MiniPg |- _ => destruct s as [ss [tt|]] end;
    simpl in *; try done; try apply default_insert; try (destruct l; done).
Qed.
