(* ===== verification/Resilience.v ===== *)
(** Circuit breakers and bulkheads: shared/resilience/breaker.go and
    bulkhead.go.  gobreaker and x/sync/semaphore are interfaces ([Breaker],
    [Weighted]) whose laws are their documented behaviour; [MiniBreaker] and
    [Counter] are instances. *)

From S2P Require Import Prelude.

(** ** gobreaker *)

Definition ErrOpenState : goerr := ErrNew "circuit breaker is open".
Definition ErrTooManyRequests : goerr := ErrNew "too many requests".
Definition ErrCircuitOpen : goerr := ErrNew "circuit breaker open".

(** [Execute] is [beforeRequest], the call, [afterRequest]. *)
Class Breaker (B : Type) := {
  cbName : B -> string;
  beforeRequest : Z -> B -> B * option goerr;
  afterRequest : Z -> B -> bool -> B;
}.

Class BreakerLaws (B : Type) `{Breaker B} : Prop := {
  beforeRequest_err now b b' e :
    beforeRequest now b = (b', Some e) -> e = ErrOpenState \/ e = ErrTooManyRequests;
  beforeRequest_name now b : cbName (beforeRequest now b).1 = cbName b;
}.

Record BreakerConfig := mkBreakerConfig {
  bcName : string;
  MaxRequests : Z;
  Interval : Z;
  FailureThreshold : Z;
  OpenDuration : Z;
}.

(** The settings handed to gobreaker by [NewBreaker]; [ReadyToTrip] of the
    consecutive failures. *)
Record Settings := mkSettings {
  sName : string;
  sMaxRequests : Z;
  sInterval : Z;
  sTimeout : Z;
  ReadyToTrip : Z -> bool;
}.

Definition NewBreaker (cfg : BreakerConfig) : Settings :=
  mkSettings (bcName cfg) (MaxRequests cfg) (Interval cfg) (OpenDuration cfg)
    (fun consecutiveFailures => FailureThreshold cfg <=? consecutiveFailures)%Z.

(** ** resilience.Call *)

Section call.
Context {B : Type} `{Breaker B}.
Context {W A : Type}.

Definition Execute (now : Z) (cb : B) (fn : W -> W * res A) (w : W) : B * W * res A :=
  match beforeRequest now cb with
  | (cb1, Some e) => (cb1, w, Err e)
  | (cb1, None) =>
      let '(w', r) := fn w in
      (afterRequest now cb1 (is_ok r), w', r)
  end.

(** [fn] receives the deadline of its context. *)
Definition Call (now : Z) (cb : B) (timeout : Z) (fn : Z -> W -> W * res A) (w : W)
  : B * W * res A :=
  let '(cb', w', result) := Execute now cb (fn (now + timeout)%Z) w in
  match result with
  | Err err =>
      if errors_is err ErrOpenState || errors_is err ErrTooManyRequests
      then (cb', w', Err (ErrWrap "" ErrCircuitOpen (String.append ": " (cbName cb'))))
      else (cb', w', Err err)
  | Ok a => (cb', w', Ok a)
  end.

(** A call that reports success ran [fn], which succeeded with that value. *)
Lemma Call_ok now cb timeout fn w cb' w' a :
  Call now cb timeout fn w = (cb', w', Ok a) ->
  exists cb1, beforeRequest now cb = (cb1, None) /\ fn (now + timeout)%Z w = (w', Ok a).
Proof.
  unfold Call, Execute. destruct (beforeRequest now cb) as [cb1 [e|]] eqn:E.
  - intros H1. branches H1.
  - destruct (fn _ w) as [w1 [r|e]] eqn:Ef; intros H1.
    + injection H1 as _ <- <-. by exists cb1.
    + branches H1.
Qed.

(** The world is left as it is unless the breaker lets the call through. *)
Lemma Call_world now cb timeout fn w cb' w' r :
  Call now cb timeout fn w = (cb', w', r) ->
  w' = w \/ w' = (fn (now + timeout)%Z w).1.
Proof.
  unfold Call, Execute. destruct (beforeRequest now cb) as [cb1 [e|]] eqn:E.
  - intros H1. left. branches H1; done.
  - destruct (fn _ w) as [w1 [r1|e]] eqn:Ef; intros H1; right;
      branches H1; done.
Qed.

Definition circuitError (cb : B) : goerr :=
  ErrWrap "" ErrCircuitOpen (String.append ": " (cbName cb)).

Definition breakerError (e : goerr) : bool :=
  errors_is e ErrOpenState || errors_is e ErrTooManyRequests.

Context `{!BreakerLaws B}.

Lemma Call_rejected now cb timeout fn w cb1 e :
  beforeRequest now cb = (cb1, Some e) ->
  Call now cb timeout fn w = (cb1, w, Err (circuitError cb)).
Proof.
  intros E. unfold Call, Execute, circuitError. rewrite E.
  pose proof (beforeRequest_name now cb) as Hn. rewrite E in Hn. simpl in Hn. rewrite Hn.
  by destruct (beforeRequest_err now cb cb1 e E) as [->| ->].
Qed.

(** what a protected call returns.  When the breaker rejects the call,
    the function is not run, the world does not change and the error wraps
    [ErrCircuitOpen]; when it admits it, the function's own effect, value
    and error are returned, the outcome is reported to the breaker, and only
    an error that is itself a breaker rejection is rewritten. *)
Theorem Call_spec now cb timeout fn w :
  match beforeRequest now cb with
  | (cb1, Some _) =>
      Call now cb timeout fn w = (cb1, w, Err (circuitError cb)) /\
      errors_is (circuitError cb) ErrCircuitOpen = true
  | (cb1, None) =>
      let '(w1, r1) := fn (now + timeout)%Z w in
      exists r, Call now cb timeout fn w = (afterRequest now cb1 (is_ok r1), w1, r) /\
        (forall a, r = Ok a <-> r1 = Ok a) /\
        (forall e, r1 = Err e -> breakerError e = false -> r = Err e) /\
        (forall e, r1 = Err e -> breakerError e = true ->
           exists e', r = Err e' /\ errors_is e' ErrCircuitOpen = true)
  end.
Proof.
  destruct (beforeRequest now cb) as [cb1 [e|]] eqn:E.
  - split; [by eapply Call_rejected|done].
  - unfold Call, Execute. rewrite E. destruct (fn _ w) as [w1 [a|e]]; simpl.
    + exists (Ok a). split; [done|]. split; [done|]. by split.
    + fold (breakerError e). destruct (breakerError e) eqn:Eb; eexists;
        (split; [reflexivity|]); (split; [done|]); split; try congruence.
      intros ? _ _. by eexists.
Qed.
End call.

(** ** Bulkhead *)

(** x/sync/semaphore. *)
Class Weighted (S : Type) := {
  NewWeighted : Z -> S;
  semHeld : S -> Z;
  TryAcquire : S -> Z -> S * bool;
  Release : S -> Z -> S;
}.

Class WeightedLaws (S : Type) `{Weighted S} (size : S -> Z) : Prop := {
  new_size n : size (NewWeighted n) = n;
  new_held n : semHeld (NewWeighted n) = 0%Z;
  try_ok s n : (TryAcquire s n).2 = (n <=? size s - semHeld s)%Z;
  try_held s n :
    semHeld (TryAcquire s n).1 = (if (TryAcquire s n).2 then semHeld s + n else semHeld s)%Z;
  try_size s n : size (TryAcquire s n).1 = size s;
  release_held s n : semHeld (Release s n) = (semHeld s - n)%Z;
  release_size s n : size (Release s n) = size s;
}.

Definition ErrBulkheadFull : goerr := ErrNew "bulkhead full".

Section bulkhead.
Context {S : Type} `{Weighted S}.

Record Bulkhead := mkBulkhead { sem : S; cap : Z }.

Definition NewBulkhead (capacity : Z) : Bulkhead := mkBulkhead (NewWeighted capacity) capacity.

(** [Execute] up to the call of [fn], and after it. *)
Definition enter (b : Bulkhead) : Bulkhead * option goerr :=
  let '(s, ok) := TryAcquire (sem b) 1 in
  if negb ok then (mkBulkhead s (cap b), Some ErrBulkheadFull)
  else (mkBulkhead s (cap b), None).

Definition leave (b : Bulkhead) : Bulkhead := mkBulkhead (Release (sem b) 1) (cap b).

Definition BulkheadExecute {W} (b : Bulkhead) (fn : W -> W * option goerr) (w : W)
  : Bulkhead * W * option goerr :=
  match enter b with
  | (b1, Some e) => (b1, w, Some e)
  | (b1, None) => let '(w', e) := fn w in (leave b1, w', e)
  end.

(** Goroutines inside [Execute]: the calls interleave at [enter] and
    [leave]. *)
Inductive bstep : Bulkhead * list nat -> Bulkhead * list nat -> Prop :=
| bstep_enter b b' running g :
    enter b = (b', None) -> bstep (b, running) (b', g :: running)
| bstep_full b b' running e :
    enter b = (b', Some e) -> bstep (b, running) (b', running)
| bstep_leave b l1 g l2 :
    bstep (b, l1 ++ g :: l2) (leave b, l1 ++ l2).

Context {size : S -> Z} `{!WeightedLaws S size}.

Definition bulkhead_inv (st : Bulkhead * list nat) : Prop :=
  size (sem st.1) = cap st.1 /\ semHeld (sem st.1) = Z.of_nat (length st.2) /\
  (Z.of_nat (length st.2) <= Z.max 0 (cap st.1))%Z.

Lemma enter_spec b b' e :
  enter b = (b', e) ->
  cap b' = cap b /\ size (sem b') = size (sem b) /\
  (e = None <-> (1 <= size (sem b) - semHeld (sem b))%Z) /\
  semHeld (sem b') = (match e with Some _ => semHeld (sem b) | None => semHeld (sem b) + 1 end)%Z.
Proof.
  unfold enter. pose proof (try_ok (sem b) 1) as Ho. pose proof (try_held (sem b) 1) as Hh.
  pose proof (try_size (sem b) 1) as Hs.
  destruct (TryAcquire (sem b) 1) as [s ok]. simpl in *.
  destruct ok; simpl; intros [= <- <-]; simpl; symmetry in Ho; bool_to_prop;
    (split; [done|]); (split; [done|]); (split; [split; [intros; first [discriminate|lia]|intros; first [done|lia]]|lia]).
Qed.

Lemma bulkhead_inv_step st st' : bulkhead_inv st -> bstep st st' -> bulkhead_inv st'.
Proof.
  intros (H1 & H2 & H3) Hst. destruct Hst as [b b' running g E|b b' running e E|b l1 g l2];
    unfold bulkhead_inv in *; simpl in *.
  - destruct (enter_spec _ _ _ E) as (Hc & Hsz & [Hok _] & Hh). specialize (Hok eq_refl).
    simpl in Hh. rewrite Hc, Hsz. lia.
  - destruct (enter_spec _ _ _ E) as (Hc & Hsz & _ & Hh). simpl in Hh. rewrite Hc, Hsz. lia.
  - rewrite release_size, release_held, H2, !length_app in *. simpl in *. lia.
Qed.

Lemma bulkhead_reachable capacity st :
  rtc bstep (NewBulkhead capacity, []) st -> bulkhead_inv st /\ cap st.1 = capacity.
Proof.
  revert st. apply (rtc_ind_r (fun st => bulkhead_inv st /\ cap st.1 = capacity)).
  - split; [|done]. unfold bulkhead_inv, NewBulkhead. simpl. rewrite new_size, new_held. lia.
  - intros s1 s2 _ Hs [Hi <-]. split; [by eapply bulkhead_inv_step|].
    destruct Hs as [b b' r g E|b b' r e E|]; simpl; try done; apply enter_spec in E; apply E.
Qed.

(** the bulkhead bounds concurrency.  In every interleaving of calls of
    [Execute] the number of functions running at the same time is at most
    the capacity, and a call is refused with [ErrBulkheadFull] exactly when
    the capacity is reached. *)
Theorem Bulkhead_bounds_concurrency capacity st :
  (0 <= capacity)%Z ->
  rtc bstep (NewBulkhead capacity, []) st ->
  (Z.of_nat (length st.2) <= capacity)%Z /\
  ((enter st.1).2 = Some ErrBulkheadFull <-> Z.of_nat (length st.2) = capacity).
Proof.
  intros Hc Hr.
  apply bulkhead_reachable in Hr as [(H1 & H2 & H3) <-]. split; [lia|].
  destruct (enter st.1) as [b' e] eqn:E. destruct (enter_spec _ _ _ E) as (_ & _ & He & _). simpl.
  unfold enter in E. destruct (TryAcquire _ 1) as [s []]; simpl in E; injection E as <- <-.
  - split; [done|]. destruct He as [He _]. specialize (He eq_refl). lia.
  - split; [|done]. intros _. destruct He as [_ He].
    destruct (Z.le_gt_cases 1 (size (sem st.1) - semHeld (sem st.1))) as [Hle|Hgt]; [by discriminate He|lia].
Qed.
End bulkhead.

Arguments Bulkhead S : clear implicits.

(** ** Instances *)

(** A breaker that opens after [mbThreshold] consecutive failures, for
    [mbTimeout]. *)
Record MiniBreaker := mkMiniBreaker {
  mbThreshold : Z;
  mbTimeout : Z;
  mbFailures : Z;
  mbOpenUntil : Z;
}.

#[global] Instance MiniBreaker_breaker : Breaker MiniBreaker := {
  cbName _ := "mini";
  beforeRequest now b := (b, if (now <? mbOpenUntil b)%Z then Some ErrOpenState else None);
  afterRequest now b ok :=
    if ok : bool then mkMiniBreaker (mbThreshold b) (mbTimeout b) 0 (mbOpenUntil b)
    else let f := (mbFailures b + 1)%Z in
         mkMiniBreaker (mbThreshold b) (mbTimeout b) f
           (if (mbThreshold b <=? f)%Z then now + mbTimeout b else mbOpenUntil b)%Z;
}.

#[global] Instance MiniBreaker_laws : BreakerLaws MiniBreaker.
Proof.
  split; [|done]. intros now b b' e [= <- He]. destruct (_ <? _)%Z; simplify_eq. by left.
Qed.

Definition closedBreaker : MiniBreaker := mkMiniBreaker 10 (30 * Second) 0 0.
Definition openBreaker : MiniBreaker := mkMiniBreaker 10 (30 * Second) 10 (30 * Second).

#[global] Instance Counter_weighted : Weighted (Z * Z) := {
  NewWeighted n := (n, 0%Z);
  semHeld s := s.2;
  TryAcquire s n := if (n <=? s.1 - s.2)%Z then ((s.1, (s.2 + n)%Z), true) else (s, false);
  Release s n := (s.1, (s.2 - n)%Z);
}.

#[global] Instance Counter_laws : WeightedLaws (Z * Z) fst.
Proof. split; intros; try destruct s; simpl; try done; by case_match. Qed.

Lemma Bulkhead_bounds_concurrency_witness :
  (enter (mkBulkhead (S := Z * Z) (2, 2)%Z 2)).2 = Some ErrBulkheadFull.
Proof.
  destruct (Bulkhead_bounds_concurrency (S := Z * Z) 2
    (mkBulkhead (2, 2)%Z 2%Z, [1; 0]) ltac:(lia)) as [_ [_ H]].
  - eapply rtc_l; [apply (bstep_enter _ (mkBulkhead (2, 1)%Z 2%Z) _ 0); reflexivity|].
    eapply rtc_l; [apply (bstep_enter _ (mkBulkhead (2, 2)%Z 2%Z) _ 1); reflexivity|].
    apply rtc_refl.
  - apply H. reflexivity.
Defined.

Lemma Call_spec_witness :
  (Call (W := unit) (A := nat) 5 openBreaker Second (fun _ w => (w, Ok 1)) tt).2 =
  Err (circuitError openBreaker).
Proof.
  destruct (Call_spec (W := unit) (A := nat) 5 openBreaker Second (fun _ w => (w, Ok 1)) tt) as [H _].
  rewrite H. reflexivity.
Defined.
