(* ===== verification/Http.v ===== *)
(** HTTP as the handlers and middlewares use it: status, headers and the
    document of a response, and the parts of a request they read. *)

From S2P Require Import Prelude GoStrings Json.

Record Response := mkResponse {
  status : Z;
  headers : list (string * string);
  body : json;
}.

(** [writeJSON] / [writeError] of the handlers. *)
Definition writeJSON (hs : list (string * string)) (st : Z) (data : json) : Response :=
  mkResponse st (hs ++ [("Content-Type", "application/json")]) data.

Definition writeError (st : Z) (msg : string) : Response :=
  writeJSON [] st (JObj [("error", JStr msg)]).

Definition StatusOK : Z := 200.
Definition StatusCreated : Z := 201.
Definition StatusAccepted : Z := 202.
Definition StatusNoContent : Z := 204.
Definition StatusBadRequest : Z := 400.
Definition StatusUnauthorized : Z := 401.
Definition StatusForbidden : Z := 403.
Definition StatusNotFound : Z := 404.
Definition StatusConflict : Z := 409.
Definition StatusTooManyRequests : Z := 429.
Definition StatusInternalServerError : Z := 500.
Definition StatusBadGateway : Z := 502.
Definition StatusServiceUnavailable : Z := 503.

(** [http.Header]: canonical names; [Get] returns the first value. *)
Definition header_get (name : string) (hs : list (string * string)) : string :=
  match find (fun kv => key_is name kv.1) hs with Some kv => kv.2 | None => "" end.

(** [json.NewDecoder(r.Body).Decode(&v)] on the first document of the body. *)
Definition decode_body {T} (upd : string -> T -> json -> res T) (zero : T) (b : raw) : res T :=
  unmarshal_struct upd zero b.

Definition json_opt_strings (l : option (list string)) : json :=
  match l with None => JNull | Some ss => JArr (map JStr ss) end.
