(* ===== verification/Crypto.v ===== *)
(** Key rings, encryption, token signing and password hashes:
    shared/crypto/aes.go, jwt.go, keys.go.  AES-GCM, base64, PBKDF2 and
    golang-jwt are interfaces whose laws are their documented behaviour. *)

From S2P Require Import Prelude GoStrings Hex.
From Stdlib Require Import Ascii.

(** ** AES key ring *)

Definition ErrInvalidCiphertext : goerr := ErrNew "invalid ciphertext format".
Definition ErrKeyNotFound : goerr := ErrNew "encryption key not found".

Record EncryptionKey := mkEncryptionKey { ekKid : string; ekKey : string; ekStatus : string }.

(** base64 (standard alphabet) and AES-GCM with a twelve-byte nonce. *)
Class Aead := {
  b64enc : string -> string;
  b64dec : string -> res string;
  gcmSeal : string -> string -> string -> string;        (* key, nonce, plaintext *)
  gcmOpen : string -> string -> string -> res string;    (* key, nonce, ciphertext *)
}.

Class AeadLaws `{Aead} : Prop := {
  b64_round s : b64dec (b64enc s) = Ok s;
  b64_alphabet s : no_byte ":" (b64enc s) = true;
  gcm_round k n p : gcmOpen k n (gcmSeal k n p) = Ok p;
}.

Definition nonceSize : nat := 12.
Definition ErrKeySize : goerr := ErrNew "crypto/aes: invalid key size".

(** [aes.NewCipher]: the sizes of AES keys. *)
Definition NewCipher (key : string) : res string :=
  let n := String.length key in
  if (n =? 16) || (n =? 24) || (n =? 32) then Ok key else Err ErrKeySize.

Section aes.
Context `{Aead}.

Definition isActive (k : EncryptionKey) : bool := ekStatus k =s? "active".

(** [random] is what the system's generator yields. *)
Definition Encrypt (random : res string) (plaintext : string) (keyring : list EncryptionKey)
  : res string :=
  match find isActive keyring with
  | None => Err ErrKeyNotFound
  | Some activeKey =>
      match b64dec (ekKey activeKey) with
      | Err e => Err (ErrWrap "decode key: " e "")
      | Ok key =>
          block <-? NewCipher key;
          nonce <-? random;
          Ok (ekKid activeKey +:+ (":" +:+ b64enc (nonce +:+ gcmSeal block nonce plaintext)))
      end
  end.

Definition Decrypt (encodedCiphertext : string) (keyring : list EncryptionKey) : res string :=
  match Split ":"%char encodedCiphertext with
  | [kid; enc] =>
      match b64dec enc with
      | Err e => Err (ErrWrap "decode ciphertext: " e "")
      | Ok data =>
          match find (fun k => ekKid k =s? kid) keyring with
          | None => Err ErrKeyNotFound
          | Some targetKey =>
              match b64dec (ekKey targetKey) with
              | Err e => Err (ErrWrap "decode key: " e "")
              | Ok key =>
                  block <-? NewCipher key;
                  if String.length data <? nonceSize then Err ErrInvalidCiphertext
                  else gcmOpen block (String.substring 0 nonceSize data)
                         (String.substring nonceSize (String.length data - nonceSize) data)
              end
          end
      end
  | _ => Err ErrInvalidCiphertext
  end.
End aes.

(** ** PBKDF2 hashes *)

(** PBKDF2-HMAC-SHA512: password, salt, iterations, length. *)
Class Kdf := {
  pbkdf2 : string -> string -> Z -> nat -> string;
}.

Class KdfLaws `{Kdf} : Prop := {
  pbkdf2_length p s i n : String.length (pbkdf2 p s i n) = n;
}.

Definition pbkdf2Iterations : Z := 600000.
Definition pbkdf2KeyLen : nat := 64.

(** [fmt.Sscanf(s, "%d", &n)]: leading blanks (those of ASCII), a sign, the
    digits up to the first other byte; 0 when there are none. *)
Fixpoint scan_digits (acc : Z) (s : string) : Z :=
  match s with
  | String c s' => match digit_of c with Some d => scan_digits (acc * 10 + d)%Z s' | None => acc end
  | EmptyString => acc
  end.

Fixpoint skip_blanks (s : string) : string :=
  match s with
  | String c s' => if existsb (Ascii.eqb c) [" "; "009"; "011"; "012"; "013"]%char then skip_blanks s' else s
  | EmptyString => s
  end.

(** A value outside [int] leaves the variable at 0. *)
Definition Sscanf_d (s : string) : Z :=
  let z := match skip_blanks s with
           | String c s' =>
               if Ascii.eqb c "-" then (- scan_digits 0 s')%Z
               else if Ascii.eqb c "+" then scan_digits 0 s'
               else scan_digits 0 (String c s')
           | EmptyString => 0%Z
           end in
  if in_int64 z then z else 0%Z.

Section pbkdf2.
Context `{Kdf}.

Definition HashPBKDF2 (salt password : string) : string :=
  "pbkdf2$sha512$" +:+ (itoa pbkdf2Iterations +:+ ("$" +:+ (hexEnc salt +:+ ("$" +:+
    hexEnc (pbkdf2 password salt pbkdf2Iterations pbkdf2KeyLen))))).

(** [crypto.VerifyPBKDF2]. *)
Definition VerifyPBKDF2 (password encodedHash : string) : bool :=
  match Split "$"%char encodedHash with
  | [p0; p1; p2; p3; p4] =>
      if (p0 =s? "pbkdf2") && (p1 =s? "sha512") then
        match hexDec p3, hexDec p4 with
        | Some salt, Some expected =>
            pbkdf2 password salt (Sscanf_d p2) (String.length expected) =s? expected
        | _, _ => false
        end
      else false
  | _ => false
  end.

(** [derivePBKDF2] and [verifyPBKDF2] of the API key middleware. *)
Definition derivePBKDF2 (key saltHex : string) (iterations : Z) : string :=
  match hexDec saltHex with
  | None => ""
  | Some salt => hexEnc (pbkdf2 key salt iterations 64)
  end.

Definition verifyPBKDF2 (rawKey storedHash : string) : bool :=
  match Split "$"%char storedHash with
  | [p0; p1; p2; p3; p4] =>
      if (p0 =s? "pbkdf2") && (p1 =s? "sha512") then
        if (Sscanf_d p2 <? 600000)%Z then false
        else derivePBKDF2 rawKey p3 (Sscanf_d p2) =s? p4
      else false
  | _ => false
  end.
End pbkdf2.

(** ** JWT key ring *)

Record JWTKey := mkJWTKey { jkKid : string; jkSecret : string; jkAlgorithm : string; jkStatus : string }.

Record StandardClaims := mkStandardClaims {
  clID : string;
  clIssuer : string;
  clSubject : string;
  clAudience : list string;
  clExpiresAt : option Z;
  clIssuedAt : option Z;
  clNotBefore : option Z;
  clOrgID : string;
  clUserID : string;
}.

Record JwtToken := mkJwtToken { tkKid : option string; tkAlg : string; tkClaims : StandardClaims }.

#[global] Instance StandardClaims_eq_dec : EqDecision StandardClaims.
Proof. solve_decision. Defined.
#[global] Instance JwtToken_eq_dec : EqDecision JwtToken.
Proof. solve_decision. Defined.

(** golang-jwt: decoding, signature and claims check of [ParseWithClaims], and
    [SignedString].  [jwtCheck now s t secret] is the error of verifying the
    signature of [s] under the token's method and [secret] and then the
    registered claims. *)
Class Jwt := {
  jwtDecode : string -> res JwtToken;
  jwtCheck : Z -> string -> JwtToken -> string -> option goerr;
  jwtSigned : string -> string -> string -> Prop;        (* algorithm, secret, token string *)
  jwtSign : JwtToken -> string -> res string;
}.

Definition jwtErrTokenExpired : goerr := ErrNew "token is expired".

(** The time claims, of the tokens that carry them. *)
Definition claimsValid (now : Z) (c : StandardClaims) : Prop :=
  (forall e, clExpiresAt c = Some e -> (now < e)%Z) /\
  (forall n, clNotBefore c = Some n -> (n <= now)%Z).

Class JwtLaws `{Jwt} : Prop := {
  jwtCheck_ok now s t secret :
    jwtCheck now s t secret = None -> jwtSigned (tkAlg t) secret s /\ claimsValid now (tkClaims t);
  jwtSign_ok t secret s :
    jwtSign t secret = Ok s ->
    jwtDecode s = Ok t /\ forall now, claimsValid now (tkClaims t) -> jwtCheck now s t secret = None;
}.

Definition ErrTokenExpired : goerr := ErrNew "token expired".
Definition ErrTokenInvalid : goerr := ErrNew "token invalid".

Section jwt.
Context `{Jwt}.

(** The key function of [Verify]. *)
Definition keyFunc (keyring : list JWTKey) (t : JwtToken) : res string :=
  match tkKid t with
  | None => Err (ErrNew "missing kid in header")
  | Some kid =>
      match find (fun k => jkKid k =s? kid) keyring with
      | None => Err ErrKeyNotFound
      | Some k =>
          if jkAlgorithm k =s? tkAlg t then Ok (jkSecret k)
          else Err (ErrNew ("unexpected signing method: " +:+ tkAlg t))
      end
  end.

(** [jwt.ParseWithClaims]: decode, ask for the key, check. *)
Definition ParseWithClaims (now : Z) (s : string) (kf : JwtToken -> res string) : res JwtToken :=
  t <-? jwtDecode s;
  match kf t with
  | Err e => Err (ErrWrap "token is unverifiable: error while executing keyfunc: " e "")
  | Ok secret =>
      match jwtCheck now s t secret with
      | Some e => Err e
      | None => Ok t
      end
  end.

Definition Verify (now : Z) (tokenString : string) (keyring : list JWTKey) : res JwtToken :=
  match ParseWithClaims now tokenString (keyFunc keyring) with
  | Err err =>
      if errors_is err jwtErrTokenExpired then Err ErrTokenExpired
      else Err (ErrWrap "" ErrTokenInvalid (": " +:+ error_text err))
  | Ok t => Ok t
  end.

Definition Sign (claims : StandardClaims) (keyring : list JWTKey) : res string :=
  match find (fun k => jkStatus k =s? "active") keyring with
  | None => Err ErrKeyNotFound
  | Some activeKey =>
      jwtSign (mkJwtToken (Some (jkKid activeKey)) (jkAlgorithm activeKey) claims) (jkSecret activeKey)
  end.
End jwt.

(** [jwt.NewNumericDate] truncates to the second. *)
Definition NewNumericDate (t : Z) : Z := (t / Second * Second)%Z.

Definition NewStandardClaims (now : Z) (orgID userID jti : string) (ttl : Z) : StandardClaims :=
  mkStandardClaims jti "openguard-iam" userID ["openguard-ui"; "openguard-sdk"]
    (Some (NewNumericDate (now + ttl))) (Some (NewNumericDate now))
    (Some (NewNumericDate (now - Minute))) orgID userID.

(** ** Properties *)

Lemma find_unique {A} (key : A -> string) (l : list A) x :
  NoDup (map key l) -> In x l -> find (fun y => key y =s? key x) l = Some x.
Proof.
  intros Hn Hx. destruct (find _ l) as [y|] eqn:E.
  - apply find_some in E as [Hy He]. apply String.eqb_eq in He. f_equal. by eapply NoDup_map_In.
  - eapply find_none in E; [|exact Hx]. by rewrite String.eqb_refl in E.
Qed.

Lemma Split_pieces sep s :
  length (Split sep s) = S (length (List.filter (Ascii.eqb sep) (String.list_ascii_of_string s))).
Proof.
  induction s as [|c s IH]; simpl; [done|]. rewrite (Ascii.eqb_sym sep c).
  destruct (Ascii.eqb c sep); simpl; [by rewrite IH|].
  destruct (Split sep s); simpl in *; lia.
Qed.

Lemma Split_app_pieces sep a b :
  length (Split sep (a +:+ String sep b)) = length (Split sep a) + length (Split sep b).
Proof.
  rewrite !Split_pieces.
  assert (String.list_ascii_of_string (a +:+ String sep b) =
          String.list_ascii_of_string a ++ sep :: String.list_ascii_of_string b) as ->
    by (induction a as [|c a IH]; simpl; [done|by rewrite IH]).
  rewrite List.filter_app, length_app. simpl. rewrite Ascii.eqb_refl. simpl. lia.
Qed.

Lemma no_byte_pieces sep s : no_byte sep s = false -> 2 <= length (Split sep s).
Proof.
  rewrite Split_pieces. induction s as [|c s IH]; simpl; [done|].
  rewrite (Ascii.eqb_sym sep c). destruct (Ascii.eqb c sep); simpl; [lia|exact IH].
Qed.

Section aes_properties.
Context `{AeadLaws}.

(** C40: Encryption round trip under key rotation: what was encrypted with the
    first active key of one ring, its id being without a colon ([Encrypt_colon_kid]
    shows why), decrypts to the plaintext with any later ring whose key ids are
    distinct and that still holds that key, whatever its status. *)
Theorem Decrypt_Encrypt nonce plaintext keyring keyring' k k' c :
  find isActive keyring = Some k -> no_byte ":" (ekKid k) = true ->
  String.length nonce = nonceSize ->
  Encrypt (Ok nonce) plaintext keyring = Ok c ->
  NoDup (map ekKid keyring') -> In k' keyring' -> ekKid k' = ekKid k -> ekKey k' = ekKey k ->
  Decrypt c keyring' = Ok plaintext.
Proof.
  intros Ha Hkid Hnonce He Hn Hin Hk1 Hk2. unfold Encrypt in He. rewrite Ha in He.
  destruct (b64dec (ekKey k)) as [key|] eqn:Ed; [|done].
  apply res_bind_ok in He as (block & Hb & He). simpl in He. injection He as <-.
  unfold Decrypt. change (":" +:+ ?x) with (String ":" x).
  rewrite Split_cons, Split_no_sep by (done || apply b64_alphabet).
  rewrite b64_round, <- Hk1, find_unique, Hk2, Ed by done. rewrite Hb. simpl.
  rewrite length_append, Hnonce. replace (nonceSize + _ - nonceSize) with
    (String.length (gcmSeal block nonce plaintext)) by lia.
  rewrite <- Hnonce, substring_prefix, substring_suffix, substring_full.
  rewrite (proj2 (Nat.ltb_ge _ _)) by lia. apply gcm_round.
Qed.

(** A key id with a colon makes every ciphertext of that key undecryptable. *)
Lemma Encrypt_colon_kid random plaintext keyring keyring' k c :
  find isActive keyring = Some k -> no_byte ":" (ekKid k) = false ->
  Encrypt random plaintext keyring = Ok c ->
  Decrypt c keyring' = Err ErrInvalidCiphertext.
Proof.
  intros Ha Hkid He. unfold Encrypt in He. rewrite Ha in He.
  destruct (b64dec (ekKey k)) as [key|]; [|done].
  apply res_bind_ok in He as (block & _ & (nonce & _ & He)%res_bind_ok). injection He as <-.
  apply no_byte_pieces in Hkid. unfold Decrypt. change (":" +:+ ?x) with (String ":" x).
  pose proof (Split_app_pieces ":" (ekKid k) (b64enc (nonce +:+ gcmSeal block nonce plaintext))) as Hl.
  pose proof (Split_nonempty ":" (b64enc (nonce +:+ gcmSeal block nonce plaintext))) as Hne.
  destruct (Split ":" (b64enc _)); [done|].
  destruct (Split ":" (ekKid k +:+ _)) as [|x [|y [|]]]; simpl in *; try done; lia.
Qed.
End aes_properties.

Section pbkdf2_properties.
Context `{KdfLaws}.

Lemma HashPBKDF2_split salt password :
  Split "$"%char (HashPBKDF2 salt password) =
    ["pbkdf2"; "sha512"; "600000"; hexEnc salt; hexEnc (pbkdf2 password salt pbkdf2Iterations pbkdf2KeyLen)].
Proof.
  unfold HashPBKDF2. set (h := hexEnc (pbkdf2 _ _ _ _)).
  change ("pbkdf2$sha512$" +:+ (itoa pbkdf2Iterations +:+ ("$" +:+ (hexEnc salt +:+ ("$" +:+ h)))))
    with ("pbkdf2" +:+ String "$" ("sha512" +:+ String "$" ("600000" +:+ String "$"
            (hexEnc salt +:+ String "$" h)))).
  by rewrite !Split_cons, Split_no_sep by (done || by apply hexEnc_no_byte).
Qed.

(** A password verifies against its own hash in both verifiers, and
    against a hash made from another password only if PBKDF2 gives the same
    key for the two under that salt. *)
Theorem verify_HashPBKDF2 salt p q :
  VerifyPBKDF2 p (HashPBKDF2 salt q) =
    (pbkdf2 p salt pbkdf2Iterations pbkdf2KeyLen =s? pbkdf2 q salt pbkdf2Iterations pbkdf2KeyLen) /\
  verifyPBKDF2 p (HashPBKDF2 salt q) = VerifyPBKDF2 p (HashPBKDF2 salt q).
Proof.
  assert (E : VerifyPBKDF2 p (HashPBKDF2 salt q) =
    (pbkdf2 p salt pbkdf2Iterations pbkdf2KeyLen =s? pbkdf2 q salt pbkdf2Iterations pbkdf2KeyLen)).
  { unfold VerifyPBKDF2. rewrite HashPBKDF2_split, !hexDec_Enc, pbkdf2_length. done. }
  split; [done|]. rewrite E. unfold verifyPBKDF2, derivePBKDF2.
  rewrite HashPBKDF2_split, hexDec_Enc. change (Sscanf_d "600000") with pbkdf2Iterations.
  change (pbkdf2Iterations <? 600000)%Z with false. simpl.
  change 64 with pbkdf2KeyLen. apply eq_true_iff_eq. rewrite !String.eqb_eq. split; [|by intros ->].
  intros Hh%(f_equal hexDec). rewrite !hexDec_Enc in Hh. by injection Hh.
Qed.

(** What the middleware's verifier accepts; a salt that is not hexadecimal
    makes it accept every key when the stored hash is empty. *)
Lemma verifyPBKDF2_spec rawKey storedHash :
  verifyPBKDF2 rawKey storedHash = true <->
  exists it saltHex expected,
    Split "$"%char storedHash = ["pbkdf2"; "sha512"; it; saltHex; expected] /\
    (600000 <= Sscanf_d it)%Z /\
    match hexDec saltHex with
    | Some salt => expected = hexEnc (pbkdf2 rawKey salt (Sscanf_d it) 64)
    | None => expected = ""
    end.
Proof.
  unfold verifyPBKDF2, derivePBKDF2. split.
  - destruct (Split _ _) as [|p0 [|p1 [|p2 [|p3 [|p4 [|]]]]]]; try done.
    destruct (p0 =s? "pbkdf2") eqn:E0, (p1 =s? "sha512") eqn:E1; try done. simpl.
    destruct (Sscanf_d p2 <? 600000)%Z eqn:E2; [done|]. intros Hv. bool_to_prop. subst p0 p1.
    exists p2, p3, p4. split; [done|]. split; [lia|]. by destruct (hexDec p3); symmetry.
  - intros (it & salt & expected & -> & Hit & He). simpl.
    rewrite (proj2 (Z.ltb_ge _ _)) by lia. apply String.eqb_eq. by destruct (hexDec salt).
Qed.
End pbkdf2_properties.

Section jwt_properties.
Context `{JwtLaws}.

(** A token is accepted only if a key of the ring has its key id and its very
    algorithm, the signature verifies under that key and algorithm, and the
    token is in its period of validity: a token cannot choose the algorithm of
    its verification. *)
Lemma Verify_sound now s keyring t :
  Verify now s keyring = Ok t ->
  exists k, In k keyring /\ tkKid t = Some (jkKid k) /\ tkAlg t = jkAlgorithm k /\
    jwtDecode s = Ok t /\ jwtSigned (jkAlgorithm k) (jkSecret k) s /\ claimsValid now (tkClaims t) /\
    keyFunc keyring t = Ok (jkSecret k).
Proof.
  unfold Verify. destruct (ParseWithClaims _ _ _) as [t'|e] eqn:Ep; [|by destruct (errors_is _ _)].
  intros [= ->]. unfold ParseWithClaims in Ep.
  apply res_bind_ok in Ep as (t' & Hd & Ep). destruct (keyFunc keyring t') as [secret|] eqn:Ek; [|done].
  destruct (jwtCheck now s t' secret) eqn:Ec; [done|]. injection Ep as ->.
  apply jwtCheck_ok in Ec as [Hs Hc]. pose proof Ek as Hk0. unfold keyFunc in Ek.
  destruct (tkKid t) as [kid|]; [|done]. destruct (find _ _) as [k|] eqn:Ef; [|done].
  destruct (_ =s? _) eqn:Ea; [|done]. injection Ek as <-. bool_to_prop.
  apply find_some in Ef as [Hin Hk]. apply String.eqb_eq in Hk. subst kid.
  exists k. by rewrite Ea.
Qed.

(** Tokens survive key rotation: a token signed with the active key of
    one ring is accepted, with its claims, during its period of validity by
    every ring of distinct key ids that still holds that key, also when only
    for verification. *)
Theorem Verify_Sign now claims keyring keyring' k k' s :
  find (fun k => jkStatus k =s? "active") keyring = Some k ->
  Sign claims keyring = Ok s ->
  NoDup (map jkKid keyring') -> In k' keyring' ->
  jkKid k' = jkKid k -> jkSecret k' = jkSecret k -> jkAlgorithm k' = jkAlgorithm k ->
  claimsValid now claims ->
  Verify now s keyring' = Ok (mkJwtToken (Some (jkKid k)) (jkAlgorithm k) claims).
Proof.
  intros Ha Hs Hn Hin Hk1 Hk2 Hk3 Hv. unfold Sign in Hs. rewrite Ha in Hs.
  apply jwtSign_ok in Hs as [Hd Hc]. unfold Verify, ParseWithClaims. rewrite Hd. simpl.
  unfold keyFunc. simpl. rewrite <- Hk1, find_unique by done. rewrite Hk3, String.eqb_refl, Hk2, Hk1.
  by rewrite Hc.
Qed.
End jwt_properties.

(** ** Instances *)

(** Toys that satisfy the laws: "base64" is hexadecimal, sealing prepends the
    key and the nonce, the derived key is the padded password, and one token
    is known. *)
Module MiniCrypto.
Fixpoint pad (n : nat) (s : string) : string :=
  match n, s with
  | 0, _ => ""
  | S n', EmptyString => String "." (pad n' "")
  | S n', String c s' => String c (pad n' s')
  end.

Lemma pad_length n s : String.length (pad n s) = n.
Proof. revert s. induction n as [|n IH]; intros [|c s]; simpl; auto. Qed.

#[global] Instance aead : Aead :=
  {| b64enc := hexEnc;
     b64dec s := match hexDec s with Some t => Ok t | None => Err (ErrNew "illegal base64 data") end;
     gcmSeal k n p := k +:+ (n +:+ p);
     gcmOpen k n c := if HasPrefix c (k +:+ n) then Ok (TrimPrefix c (k +:+ n))
                      else Err (ErrNew "cipher: message authentication failed") |}.

#[global] Instance aead_laws : AeadLaws.
Proof.
  split.
  - intros s. simpl. by rewrite hexDec_Enc.
  - intros s. by apply hexEnc_no_byte.
  - intros k n p. unfold gcmOpen, gcmSeal, aead. rewrite <- append_assoc.
    by rewrite HasPrefix_append, TrimPrefix_append.
Qed.

#[global] Instance kdf : Kdf := {| pbkdf2 p s i n := pad n p |}.
#[global] Instance kdf_laws : KdfLaws.
Proof. split. intros. apply pad_length. Qed.

Definition claims : StandardClaims := NewStandardClaims (1000 * Second) "o" "u" "j" Hour.
Definition token : JwtToken := mkJwtToken (Some "k1") "HS256" claims.
Definition oldKey : JWTKey := mkJWTKey "k1" "s1" "HS256" "active".
Definition oldRing : list JWTKey := [oldKey].
Definition newRing : list JWTKey :=
  [mkJWTKey "k2" "s2" "HS256" "active"; mkJWTKey "k1" "s1" "HS256" "verify_only"].

Definition valid_at (now : Z) (c : StandardClaims) : bool :=
  match clExpiresAt c with Some e => (now <? e)%Z | None => true end &&
  match clNotBefore c with Some n => (n <=? now)%Z | None => true end.

Lemma valid_at_spec now c : valid_at now c = true <-> claimsValid now c.
Proof.
  unfold valid_at, claimsValid. rewrite andb_true_iff. split.
  - intros [He Hn]. split; intros x Hx; rewrite Hx in *; lia.
  - intros [He Hn]. destruct (clExpiresAt c) as [e|], (clNotBefore c) as [n|]; split; try done;
      try (apply Z.ltb_lt; by apply He); apply Z.leb_le; by apply Hn.
Qed.

#[global] Instance jwt : Jwt :=
  {| jwtDecode s := if s =s? "tok" then Ok token else Err (ErrNew "token is malformed");
     jwtCheck now s t secret :=
       if (secret =s? "s1") && (s =s? "tok") && bool_decide (t = token) then
         if valid_at now (tkClaims t) then None else Some (ErrWrap "" jwtErrTokenExpired "")
       else Some (ErrNew "signature is invalid");
     jwtSigned alg secret s := alg = "HS256" /\ secret = "s1" /\ s = "tok";
     jwtSign t secret := if bool_decide (t = token) && (secret =s? "s1") then Ok "tok" else Err (ErrNew "unsupported") |}.

#[global] Instance jwt_laws : JwtLaws.
Proof.
  split; simpl.
  - intros now s t secret. destruct (_ && _) eqn:E; [|done]. bool_to_prop. subst.
    destruct (valid_at _ _) eqn:Ev; [|done]. intros _. split; [done|]. by apply valid_at_spec.
  - intros t secret s. destruct (_ && _) eqn:E; [|done]. bool_to_prop. subst. intros [= <-].
    split; [done|]. intros now Hv%valid_at_spec. by rewrite Hv.
Qed.
End MiniCrypto.
Import MiniCrypto.

Definition exampleRing (kid st : string) : list EncryptionKey :=
  [mkEncryptionKey kid (hexEnc "0123456789abcdef") st].

(** Decryption after the ring got a new active key. *)
Lemma Decrypt_Encrypt_witness :
  exists c, Encrypt (Ok "abcdefghijkl") "secret" (exampleRing "k1" "active") = Ok c /\
    Decrypt c (mkEncryptionKey "k2" "xx" "active" :: exampleRing "k1" "verify_only") = Ok "secret".
Proof.
  eexists. split; [vm_compute; reflexivity|].
  apply (Decrypt_Encrypt "abcdefghijkl" "secret" (exampleRing "k1" "active") _
           (mkEncryptionKey "k1" (hexEnc "0123456789abcdef") "active")
           (mkEncryptionKey "k1" (hexEnc "0123456789abcdef") "verify_only")); try reflexivity.
  - apply NoDup_ListNoDup. repeat constructor; simpl; intuition discriminate.
  - right. by left.
Defined.

Lemma verify_HashPBKDF2_witness :
  VerifyPBKDF2 "pw" (HashPBKDF2 "salt" "pw") = true /\ VerifyPBKDF2 "px" (HashPBKDF2 "salt" "pw") = false.
Proof.
  destruct (verify_HashPBKDF2 "salt" "pw" "pw") as [-> _].
  destruct (verify_HashPBKDF2 "salt" "px" "pw") as [-> _]. split; vm_compute; reflexivity.
Defined.

Lemma Verify_Sign_witness :
  Verify (2000 * Second) "tok" newRing = Ok token.
Proof.
  apply (Verify_Sign (2000 * Second) claims oldRing newRing oldKey
           (mkJWTKey "k1" "s1" "HS256" "verify_only") "tok"); try reflexivity.
  - apply NoDup_ListNoDup. repeat constructor; simpl; intuition discriminate.
  - right. by left.
  - apply valid_at_spec. vm_compute. reflexivity.
Defined.
