(* ===== verification/Middleware.v ===== *)
(** The authentication and idempotency middlewares shared by the services:
    shared/middleware/context.go, jwt_auth.go, apikey.go, scim.go and
    idempotency.go.  A middleware either answers the request itself or calls
    the next handler with a context; a handler acts on the world it serves. *)

From S2P Require Import Prelude GoStrings Json Redis Resilience Hex Crypto Http.
From stdpp Require Import gmap.

(** ** Requests and contexts *)

(** What the middlewares read of a request; the session cookie apart. *)
Record Request := mkRequest {
  rqMethod : string;
  rqCookie : option string;                 (* openguard_session *)
  rqHeaders : list (string * string);
  rqRemoteAddr : string;
}.

(** The values of the request context; "" where a key is absent. *)
Record Context := mkContext {
  GetUserID : string;
  GetOrgID : string;
  GetConnectorID : string;
  GetJTI : string;
  GetExpiresAt : option Z;
  GetSCIMOrgID : string;
  rlsOrgID : string;                        (* rls.WithOrgID *)
}.

Definition background : Context := mkContext "" "" "" "" None "" "".

(** What a middleware decides. *)
Inductive verdict :=
| Reject (st : Z) (msg : string)     (* http.Error *)
| Pass (ctx : Context)               (* next.ServeHTTP *)
| Panic.

(** ** Bearer tokens: [AuthJWTWithBlocklist] *)

Definition extractToken (r : Request) : string :=
  match rqCookie r with
  | Some v => v
  | None =>
      let authHeader := header_get "Authorization" (rqHeaders r) in
      if HasPrefix authHeader "Bearer " then TrimPrefix authHeader "Bearer " else ""
  end.

Section auth.
Context {R B : Type} `{Redis R} `{Breaker B} `{Jwt}.

Definition blocklistKey (jti : string) : string := "blocklist:" +:+ jti.

Definition blocklistTimeout : Z := (50 * Millisecond)%Z.

(** The check of the blocklist: the breaker, and whether the token is known to
    be revoked. *)
Definition revokedCheck (now : Z) (rdb : option R) (breaker : option B) (jti : string)
  : option B * bool :=
  match rdb, breaker with
  | Some r, Some b =>
      match Call now b blocklistTimeout (fun _ (u : unit) => (u, rexists now r (blocklistKey jti))) tt with
      | (b', _, Ok revoked) => (Some b', revoked)
      | (b', _, Err _) => (Some b', false)        (* only logged: fail open *)
      end
  | _, _ => (breaker, false)
  end.

(** The context the claims give. *)
Definition withClaims (c : StandardClaims) (exp : Z) (ctx : Context) : Context :=
  mkContext (clUserID c) (clOrgID c) (GetConnectorID ctx) (clID c) (Some exp) (GetSCIMOrgID ctx)
    (clOrgID c).

(** A token without expiry dereferences a nil date. *)
Definition AuthJWTWithBlocklist (now : Z) (keyring : list JWTKey) (rdb : option R) (breaker : option B)
  (r : Request) (ctx : Context) : option B * verdict :=
  let tokenStr := extractToken r in
  if tokenStr =s? "" then (breaker, Reject StatusUnauthorized "Unauthorized: missing token")
  else
    match Verify now tokenStr keyring with
    | Err _ => (breaker, Reject StatusUnauthorized "Unauthorized: invalid token")
    | Ok t =>
        let claims := tkClaims t in
        let '(breaker', revoked) := revokedCheck now rdb breaker (clID claims) in
        if revoked : bool
        then (breaker', Reject StatusUnauthorized "Unauthorized: token revoked")
        else match clExpiresAt claims with
             | None => (breaker', Panic)
             | Some e => (breaker', Pass (withClaims claims e ctx))
             end
    end.
End auth.

(** ** API keys *)

Record APIKeyAuthResult := mkAPIKeyAuthResult { arConnectorID : string; arOrgID : string; arKeyPrefix : string }.

Definition apiKeyHeaderName : string := "X-OpenGuard-Key".
Definition apiKeyPrefix : string := "ogk_".
Definition apiKeyCacheTTL : Z := (5 * Minute)%Z.
Definition apiKeyPrefixLen : nat := 8.

(** [APIKeyAuth]: the fixed key of internal calls. *)
Definition APIKeyAuth (expectedKey : string) (r : Request) (ctx : Context) : verdict :=
  let key := header_get "X-Internal-Key" (rqHeaders r) in
  if (key =s? "") || negb (key =s? expectedKey) then Reject StatusUnauthorized "Unauthorized"
  else Pass ctx.

Section apikey.
Context `{Kdf}.
(** SHA-256 in hexadecimal. *)
Variable sha256hex : string -> string.

Definition withConnector (connectorID orgID : string) (ctx : Context) : Context :=
  mkContext (GetUserID ctx) orgID connectorID (GetJTI ctx) (GetExpiresAt ctx) (GetSCIMOrgID ctx)
    (rlsOrgID ctx).

(** [APIKeyAuthComplex]: [cacheGet] and [findByPrefix] are the answers of the
    lookup; besides the verdict, what is to be cached, by a goroutine. *)
Definition APIKeyAuthComplex (cacheGet : string -> res (option APIKeyAuthResult))
  (findByPrefix : string -> res (string * string * string)) (r : Request) (ctx : Context)
  : verdict * option (string * APIKeyAuthResult) :=
  let rawKey := header_get apiKeyHeaderName (rqHeaders r) in
  if rawKey =s? "" then (Reject StatusUnauthorized "Unauthorized: missing API key", None)
  else if negb (HasPrefix rawKey apiKeyPrefix)
  then (Reject StatusUnauthorized "Unauthorized: invalid API key format", None)
  else
    let keyHash := sha256hex rawKey in
    match cacheGet keyHash with
    | Ok (Some cached) => (Pass (withConnector (arConnectorID cached) (arOrgID cached) ctx), None)
    | _ =>
        if String.length rawKey <? apiKeyPrefixLen
        then (Reject StatusUnauthorized "Unauthorized: API key too short", None)
        else
          let prefix := String.substring 0 apiKeyPrefixLen rawKey in
          match findByPrefix prefix with
          | Err _ => (Reject StatusUnauthorized "Unauthorized: invalid API key", None)
          | Ok (connectorID, orgID, pbkdf2Hash) =>
              if negb (verifyPBKDF2 rawKey pbkdf2Hash)
              then (Reject StatusUnauthorized "Unauthorized: invalid API key", None)
              else (Pass (withConnector connectorID orgID ctx),
                    Some (keyHash, mkAPIKeyAuthResult connectorID orgID prefix))
          end
    end.
End apikey.

(** ** SCIM tokens *)

Definition errInvalidSCIMToken : goerr := ErrNew "invalid or unknown SCIM token".

(** [staticSCIMValidator.ValidateSCIMToken]: token and tenant pairs. *)
Definition ValidateSCIMToken (tokens : list (string * string)) (token : string) : res string :=
  match find (fun t => t.1 =s? token) tokens with
  | Some t => Ok t.2
  | None => Err errInvalidSCIMToken
  end.

Definition withSCIM (orgID : string) (ctx : Context) : Context :=
  mkContext (GetUserID ctx) (GetOrgID ctx) (GetConnectorID ctx) (GetJTI ctx) (GetExpiresAt ctx) orgID
    (rlsOrgID ctx).

Definition SCIMAuth (tokens : list (string * string)) (r : Request) (ctx : Context) : verdict :=
  let authHeader := header_get "Authorization" (rqHeaders r) in
  if negb (HasPrefix authHeader "Bearer ")
  then Reject StatusUnauthorized "Unauthorized: SCIM bearer token required"
  else
    let token := TrimPrefix authHeader "Bearer " in
    if token =s? "" then Reject StatusUnauthorized "Unauthorized: empty bearer token"
    else match ValidateSCIMToken tokens token with
         | Err _ => Reject StatusUnauthorized "Unauthorized: invalid SCIM token"
         | Ok orgID =>
             if orgID =s? "" then Reject StatusUnauthorized "Unauthorized: token has no associated org"
             else Pass (withSCIM orgID ctx)
         end.

(** ** Idempotency *)

Definition idempotencyTTL : Z := (24 * Hour)%Z.

Section idempotency.
Context {R W : Type} `{Redis R}.
(** SHA-256 in hexadecimal; [json.Marshal] and [json.Unmarshal] of an entry. *)
Variable sha256hex : string -> string.
Variable entryDoc : Z -> json -> json.
Variable entryOf : raw -> res (Z * json).

Definition idemKey (orgID key : string) : string :=
  "idem:" +:+ (orgID +:+ (":" +:+ sha256hex key)).

Definition idemMethod (m : string) : bool := (m =s? "POST") || (m =s? "PUT") || (m =s? "PATCH").

Definition replay (e : Z * json) : Response :=
  mkResponse e.1 [("Content-Type", "application/json"); ("X-Idempotency-Replayed", "true")] e.2.

(** [tGet], [tSet]: when Redis executes the two commands. *)
Definition IdempotencyMiddleware (tGet tSet : Z) (next : Context -> W -> W * Response)
  (r : Request) (ctx : Context) (rdb : R) (w : W) : R * W * Response :=
  let run rdb := let '(w', resp) := next ctx w in (rdb, w', resp) in
  if negb (idemMethod (rqMethod r)) then run rdb
  else
    let key := header_get "Idempotency-Key" (rqHeaders r) in
    if key =s? "" then run rdb
    else
      let cacheKey := idemKey (GetOrgID ctx) key in
      let hit := match rget tGet rdb cacheKey with
                 | Ok (Some cached) => match entryOf (rval_raw cached) with Ok e => Some e | Err _ => None end
                 | _ => None
                 end in
      match hit with
      | Some e => (rdb, w, replay e)
      | None =>
          let '(w', resp) := next ctx w in
          if (200 <=? status resp)%Z && (status resp <? 300)%Z
          then ((rset tSet rdb cacheKey (RDoc (entryDoc (status resp) (body resp))) idempotencyTTL).1, w', resp)
          else (rdb, w', resp)
      end.
End idempotency.

(** ** Properties *)

Section auth_properties.
Context {R B : Type} `{RedisLaws R} `{Breaker B} `{JwtLaws}.

(** The check says revoked exactly when Redis is consulted and says so. *)
Lemma revokedCheck_true now rdb (breaker : option B) jti :
  (revokedCheck now rdb breaker jti).2 = true <->
  exists r b, rdb = Some r /\ breaker = Some b /\ (beforeRequest now b).2 = None /\
    rexists now r (blocklistKey jti) = Ok true.
Proof.
  unfold revokedCheck. split.
  - destruct rdb as [r|], breaker as [b|]; try done. unfold Call, Execute.
    destruct (beforeRequest now b) as [b1 [e|]] eqn:Eb; simpl.
    + by destruct (_ || _).
    + destruct (rexists now r (blocklistKey jti)) as [x|e] eqn:Ex; simpl.
      * intros ->. exists r, b. by rewrite Eb.
      * by destruct (_ || _).
  - intros (r & b & -> & -> & Hb & Hx). unfold Call, Execute.
    destruct (beforeRequest now b) as [b1 x]. simpl in Hb. subst x. by rewrite Hx.
Qed.

(** C12: Authentication of requests.  The next handler runs only with the
    claims of a token that a key of the ring signs under its own algorithm
    and that has not expired, its tenant also being the one of row-level
    security; and when Redis is configured, admitted by the breaker and
    answers, only if the token is not in the blocklist at that instant.
    Conversely such a token is let through when the blocklist cannot be
    consulted: the check fails open, where the design documents ask for
    denial (be_open_guard/07-circuit-breakers-and-resilience.md). *)
Theorem AuthJWT_spec now keyring rdb (breaker breaker' : option B) r ctx ctx' :
  (AuthJWTWithBlocklist now keyring rdb breaker r ctx = (breaker', Pass ctx') ->
   exists t k e, Verify now (extractToken r) keyring = Ok t /\
     In k keyring /\ tkKid t = Some (jkKid k) /\ tkAlg t = jkAlgorithm k /\
     jwtSigned (jkAlgorithm k) (jkSecret k) (extractToken r) /\
     clExpiresAt (tkClaims t) = Some e /\ (now < e)%Z /\
     GetUserID ctx' = clUserID (tkClaims t) /\ GetOrgID ctx' = clOrgID (tkClaims t) /\
     rlsOrgID ctx' = clOrgID (tkClaims t) /\
     (forall s b x, rdb = Some s -> breaker = Some b -> (beforeRequest now b).2 = None ->
        rexists now s (blocklistKey (clID (tkClaims t))) = Ok x ->
        rview now s (blocklistKey (clID (tkClaims t))) = None)) /\
  (forall t e, extractToken r <> "" -> Verify now (extractToken r) keyring = Ok t ->
     clExpiresAt (tkClaims t) = Some e ->
     (forall s b, rdb = Some s -> breaker = Some b -> (beforeRequest now b).2 = None ->
        rexists now s (blocklistKey (clID (tkClaims t))) <> Ok true) ->
     (AuthJWTWithBlocklist now keyring rdb breaker r ctx).2 = Pass (withClaims (tkClaims t) e ctx)).
Proof.
  unfold AuthJWTWithBlocklist. split.
  - destruct (_ =s? ""); [done|]. destruct (Verify _ _ _) as [t|] eqn:Ev; [|done].
    destruct (revokedCheck now rdb breaker (clID (tkClaims t))) as [b' rv] eqn:Er.
    destruct rv; [done|]. destruct (clExpiresAt (tkClaims t)) as [e|] eqn:Ee; [|done]. intros [= <- <-].
    destruct (Verify_sound _ _ _ _ Ev) as (k & Hin & Hkid & Ha & _ & Hs & Hv & _).
    exists t, k, e. repeat split; try done; [by apply Hv|].
    intros s b x -> -> Hb Hx. destruct x.
    + assert (Ht : (revokedCheck now (Some s) (Some b) (clID (tkClaims t))).2 = true)
        by (apply revokedCheck_true; eauto 6). by rewrite Er in Ht.
    + apply rexists_ok in Hx. symmetry in Hx. apply bool_decide_eq_false in Hx.
      by destruct (rview now s _); [exfalso; apply Hx|].
  - intros t e Hne Hv He Hb. rewrite (proj2 (String.eqb_neq _ _) Hne), Hv.
    destruct (revokedCheck now rdb breaker (clID (tkClaims t))) as [b' rv] eqn:Er.
    destruct rv; [|by rewrite He].
    assert (Ht : (revokedCheck now rdb breaker (clID (tkClaims t))).2 = true) by (by rewrite Er).
    apply revokedCheck_true in Ht as (s & b & -> & -> & Hb1 & Hx). by destruct (Hb s b).
Qed.
End auth_properties.

(** *** API keys over time *)

Section apikey_properties.
Context `{Kdf}.
Variable sha256hex : string -> string.
(** The database's answer at each instant. *)
Variable findAt : Z -> string -> res (string * string * string).

#[local] Notation authenticate := (APIKeyAuthComplex sha256hex).

(** A key verified against the database, and an entry of the cache. *)
Record verification := mkVerification { vfAt : Z; vfKey : string; vfResult : APIKeyAuthResult }.
Record cacheWrite := mkCacheWrite { cwAt : Z; cwHash : string; cwResult : APIKeyAuthResult }.

(** What a cache may answer: something written less than its TTL ago. *)
Definition cache_answers (now : Z) (ws : list cacheWrite) (get : string -> res (option APIKeyAuthResult)) : Prop :=
  forall h res, get h = Ok (Some res) ->
    exists w, In w ws /\ cwHash w = h /\ cwResult w = res /\ (cwAt w <= now < cwAt w + apiKeyCacheTTL)%Z.

(** Requests, and the goroutines that fill the cache, in any order. *)
Inductive ak_trace : Z -> list verification -> list cacheWrite -> Prop :=
| ak_start now : ak_trace now [] []
| ak_request now now' vs ws get r ctx v eff :
    ak_trace now vs ws -> (now <= now')%Z -> cache_answers now' ws get ->
    authenticate get (findAt now') r ctx = (v, eff) ->
    ak_trace now'
      (match eff with
       | Some (_, res) => mkVerification now' (header_get apiKeyHeaderName (rqHeaders r)) res :: vs
       | None => vs
       end) ws
| ak_cache now now' vs ws v :
    ak_trace now vs ws -> (now <= now')%Z -> In v vs ->
    ak_trace now' vs (mkCacheWrite now' (sha256hex (vfKey v)) (vfResult v) :: ws).

(** The database vouched for the key. *)
Definition vouched (t : Z) (key : string) (c o : string) : Prop :=
  exists hash, findAt t (String.substring 0 apiKeyPrefixLen key) = Ok (c, o, hash) /\
    verifyPBKDF2 key hash = true.

Definition verification_ok (now : Z) (v : verification) : Prop :=
  (vfAt v <= now)%Z /\ vouched (vfAt v) (vfKey v) (arConnectorID (vfResult v)) (arOrgID (vfResult v)).

Lemma authenticate_pass get find_ r ctx ctx' eff :
  authenticate get find_ r ctx = (Pass ctx', eff) ->
  let key := header_get apiKeyHeaderName (rqHeaders r) in
  (exists res, get (sha256hex key) = Ok (Some res) /\ eff = None /\
     ctx' = withConnector (arConnectorID res) (arOrgID res) ctx) \/
  (exists c o hash, find_ (String.substring 0 apiKeyPrefixLen key) = Ok (c, o, hash) /\
     verifyPBKDF2 key hash = true /\ ctx' = withConnector c o ctx /\
     eff = Some (sha256hex key, mkAPIKeyAuthResult c o (String.substring 0 apiKeyPrefixLen key))).
Proof.
  unfold APIKeyAuthComplex. set (key := header_get _ _).
  destruct (key =s? ""); [done|]. destruct (negb _); [done|].
  assert (Hdb : forall (X : verdict * option (string * APIKeyAuthResult)),
    X = (if String.length key <? apiKeyPrefixLen
         then (Reject StatusUnauthorized "Unauthorized: API key too short", None)
         else match find_ (String.substring 0 apiKeyPrefixLen key) with
              | Err _ => (Reject StatusUnauthorized "Unauthorized: invalid API key", None)
              | Ok (c, o, hash) =>
                  if negb (verifyPBKDF2 key hash)
                  then (Reject StatusUnauthorized "Unauthorized: invalid API key", None)
                  else (Pass (withConnector c o ctx),
                        Some (sha256hex key, mkAPIKeyAuthResult c o (String.substring 0 apiKeyPrefixLen key)))
              end) ->
    X = (Pass ctx', eff) -> exists c o hash, find_ (String.substring 0 apiKeyPrefixLen key) = Ok (c, o, hash) /\
     verifyPBKDF2 key hash = true /\ ctx' = withConnector c o ctx /\
     eff = Some (sha256hex key, mkAPIKeyAuthResult c o (String.substring 0 apiKeyPrefixLen key))).
  { intros X ->. destruct (_ <? _); [done|]. destruct (find_ _) as [[[c o] hash]|]; [|done].
    destruct (verifyPBKDF2 key hash) eqn:Ev; [|done]. intros [= <- <-]. by exists c, o, hash. }
  destruct (get (sha256hex key)) as [[res|]|] eqn:Eg.
  - intros [= <- <-]. left. by exists res.
  - intros Hx. right. by eapply Hdb.
  - intros Hx. right. by eapply Hdb.
Qed.

Lemma authenticate_effect get find_ r ctx v h res :
  authenticate get find_ r ctx = (v, Some (h, res)) ->
  let key := header_get apiKeyHeaderName (rqHeaders r) in
  h = sha256hex key /\
  exists hash, find_ (String.substring 0 apiKeyPrefixLen key) = Ok (arConnectorID res, arOrgID res, hash) /\
    verifyPBKDF2 key hash = true.
Proof.
  intros Ha. destruct v as [st msg|ctx'|].
  - exfalso. revert Ha. unfold APIKeyAuthComplex. repeat case_match; done.
  - apply authenticate_pass in Ha as [(? & _ & ? & _)|(c & o & hash & Hf & Hv & _ & [= -> ->])]; [done|].
    split; [done|]. by exists hash.
  - exfalso. revert Ha. unfold APIKeyAuthComplex. repeat case_match; done.
Qed.

Lemma ak_trace_inv now vs ws :
  ak_trace now vs ws ->
  Forall (verification_ok now) vs /\
  Forall (fun w => (cwAt w <= now)%Z /\ exists v, In v vs /\ (vfAt v <= cwAt w)%Z /\
            cwHash w = sha256hex (vfKey v) /\ cwResult w = vfResult v) ws.
Proof.
  assert (Hlater : forall now now' vs, (now <= now')%Z -> Forall (verification_ok now) vs ->
            Forall (verification_ok now') vs).
  { intros n n' l Hle Hf. eapply Forall_impl; [exact Hf|]. intros v [? ?]. split; [lia|done]. }
  induction 1 as [now|now now' vs ws get r ctx v eff _ [IHv IHw] Hle Hget Ha
                 |now now' vs ws v _ [IHv IHw] Hle Hv]; [done| |].
  - split.
    + destruct eff as [[h res]|]; [|by eapply Hlater]. constructor; [|by eapply Hlater].
      apply authenticate_effect in Ha as [_ (hash & Hf & Hp)]. split; [simpl; lia|]. by exists hash.
    + eapply Forall_impl; [exact IHw|]. intros w (Hw & u & Hu & Hr). split; [lia|].
      exists u. split; [|done]. destruct eff as [[h res]|]; [by right|done].
  - split; [by eapply Hlater|]. rewrite Forall_forall in IHv.
    constructor.
    + split; [done|]. exists v. split; [done|]. simpl.
      apply list_elem_of_In, IHv in Hv as [Ht _]. repeat split; lia.
    + eapply Forall_impl; [exact IHw|]. intros w (Hw & Hu). split; [lia|done].
Qed.

(** Connector authentication over time.  A request authenticated as a
    connector of a tenant carries a key with the same SHA-256 digest as one
    that the database vouched for, as that connector of that tenant, either at
    that very instant or before a cache write less than five minutes old: a
    key revoked in the database keeps working for at most that long after its
    last caching. *)
Theorem APIKeyAuth_vouched now now' vs ws get r ctx ctx' eff :
  ak_trace now vs ws -> (now <= now')%Z -> cache_answers now' ws get ->
  authenticate get (findAt now') r ctx = (Pass ctx', eff) ->
  exists t key, vouched t key (GetConnectorID ctx') (GetOrgID ctx') /\
    sha256hex key = sha256hex (header_get apiKeyHeaderName (rqHeaders r)) /\
    (t = now' \/ exists tw, (t <= tw <= now')%Z /\ (now' < tw + apiKeyCacheTTL)%Z).
Proof.
  intros [Hvs Hws]%ak_trace_inv Hle Hget Ha.
  apply authenticate_pass in Ha as [(res & Hg & _ & ->)|(c & o & hash & Hf & Hv & -> & _)].
  - destruct (Hget _ _ Hg) as (w & Hw & Hh & Hr & Ht).
    rewrite Forall_forall in Hws. rewrite Forall_forall in Hvs. apply list_elem_of_In, Hws in Hw as (_ & v & Hv & Hvt & Hvh & Hvr).
    apply list_elem_of_In, Hvs in Hv as [_ Hok]. exists (vfAt v), (vfKey v).
    simpl. rewrite <- Hr, Hvr. split; [done|]. split; [by rewrite <- Hvh|]. right. exists (cwAt w). lia.
  - exists now', (header_get apiKeyHeaderName (rqHeaders r)). split; [by exists hash|]. auto.
Qed.
End apikey_properties.

(** *** Idempotency *)

Section idempotency_properties.
Context {R W : Type} `{RedisLaws R}.
Variable sha256hex : string -> string.
Variable entryDoc : Z -> json -> json.
Variable entryOf : raw -> res (Z * json).
Hypothesis sha256hex_length : forall s, String.length (sha256hex s) = 64.
Hypothesis entry_codec : forall st b, entryOf (Some (entryDoc st b)) = Ok (st, b).

#[local] Notation idem := (IdempotencyMiddleware (W := W) sha256hex entryDoc entryOf).
#[local] Notation ikey := (idemKey sha256hex).

(** Keys of different tenants, or with different digests, are different. *)
Lemma idemKey_inj o1 k1 o2 k2 : ikey o1 k1 = ikey o2 k2 -> o1 = o2 /\ sha256hex k1 = sha256hex k2.
Proof.
  unfold idemKey. intros He%append_inv_head. rewrite <- !append_assoc in He.
  apply append_eq_length_r in He as [Ho Hs]; [|by rewrite !sha256hex_length].
  split; [|done]. by apply append_eq_length_r in Ho as [? _].
Qed.

(** Idempotency of mutations.  After a request with an idempotency key was
    handled with success and its response cached, every later mutation of the
    same tenant with that key in the following twenty-four hours for which
    Redis answers gets the stored status and body back, marked as replayed,
    without running its handler - whatever its method, its path and its body
    are, since the cache key has only the tenant and the client's key. *)
Theorem idempotent_replay tg ts t2 ts2 next1 next2 rq1 rq2 ctx1 ctx2 (r0 r1 r2 : R) w0 w1 w2 resp o :
  let key := header_get "Idempotency-Key" (rqHeaders rq1) in
  let ck := ikey (GetOrgID ctx1) key in
  idemMethod (rqMethod rq1) = true -> key <> "" ->
  rget tg r0 ck = Ok None ->
  idem tg ts next1 rq1 ctx1 r0 w0 = (r1, w1, resp) ->
  (200 <= status resp < 300)%Z ->
  rset ts r0 ck (RDoc (entryDoc (status resp) (body resp))) idempotencyTTL = (r1, None) ->
  (forall t, (t2 <= t)%Z -> rview t r2 ck = rview t r1 ck) ->
  (ts <= t2 < ts + idempotencyTTL)%Z ->
  idemMethod (rqMethod rq2) = true -> header_get "Idempotency-Key" (rqHeaders rq2) = key ->
  GetOrgID ctx2 = GetOrgID ctx1 -> rget t2 r2 ck = Ok o ->
  (w1, resp) = next1 ctx1 w0 /\
  idem t2 ts2 next2 rq2 ctx2 r2 w2 = (r2, w2, replay (status resp, body resp)).
Proof.
  intros key ck Hm1 Hk Hmiss H1 Hst Hset Henv Ht Hm2 Hk2 Ho Hget. split.
  - revert H1. unfold IdempotencyMiddleware. rewrite Hm1. fold key.
    rewrite (proj2 (String.eqb_neq _ _) Hk). cbn [negb]. fold ck. rewrite Hmiss.
    destruct (next1 ctx1 w0) as [w' resp']. destruct (_ && _); by intros [= _ <- <-].
  - unfold IdempotencyMiddleware. rewrite Hm2, Hk2, Ho. cbn [negb].
    rewrite (proj2 (String.eqb_neq _ _) Hk). fold ck. rewrite Hget. apply rget_ok in Hget.
    rewrite Henv, (rset_ok _ _ _ _ _ _ Hset) in Hget by lia. unfold view_set in Hget.
    rewrite decide_True, (proj2 (Z.ltb_lt _ _)) in Hget by (done || lia).
    destruct o as [v|]; [|done]. injection Hget as <-. simpl. by rewrite entry_codec.
Qed.

(** Requests authenticated as SCIM clients carry no tenant under the key the
    middleware reads, so two SCIM tenants share their idempotency keys. *)
Lemma scim_shares_idempotency tokens rq1 rq2 ctx1 ctx2 k :
  SCIMAuth tokens rq1 background = Pass ctx1 -> SCIMAuth tokens rq2 background = Pass ctx2 ->
  ikey (GetOrgID ctx1) k = ikey (GetOrgID ctx2) k.
Proof.
  assert (Hs : forall rq ctx, SCIMAuth tokens rq background = Pass ctx -> GetOrgID ctx = "").
  { intros rq ctx. unfold SCIMAuth. destruct (negb _); [done|]. destruct (_ =s? _); [done|].
    destruct (ValidateSCIMToken _ _); [|done]. destruct (_ =s? _); [done|]. by intros [= <-]. }
  by intros ->%Hs ->%Hs.
Qed.
End idempotency_properties.

(** ** Witnesses *)

Import MiniCrypto.

Definition bearer (tok : string) : Request := mkRequest "POST" None [("Authorization", "Bearer " +:+ tok)] "".
Definition authedCtx : Context := withClaims claims (4600 * Second) background.

Lemma AuthJWT_spec_witness :
  (AuthJWTWithBlocklist (2000 * Second) newRing (Some emptyRedis) (Some closedBreaker)
     (bearer "tok") background).2 = Pass authedCtx.
Proof.
  apply (AuthJWT_spec (2000 * Second) newRing (Some emptyRedis) (Some closedBreaker) None (bearer "tok")
           background authedCtx) with (t := token) (e := (4600 * Second)%Z).
  - discriminate.
  - vm_compute. reflexivity.
  - vm_compute. reflexivity.
  - intros s b [= <-] _ _. vm_compute. discriminate.
Defined.

Definition exampleKeyReq : Request := mkRequest "POST" None [(apiKeyHeaderName, "ogk_abcdef")] "".
Definition exampleSha (s : string) : string := pad 64 s.
Definition exampleHash : string := HashPBKDF2 "salt" "ogk_abcdef".
Definition exampleFind (t : Z) (prefix : string) : res (string * string * string) :=
  if (prefix =s? "ogk_abcd") && (t <? 10)%Z then Ok ("c1", "org1", exampleHash) else Err (ErrNew "no rows").
Definition exampleResult : APIKeyAuthResult := mkAPIKeyAuthResult "c1" "org1" "ogk_abcd".
Definition emptyCache (_ : string) : res (option APIKeyAuthResult) := Ok None.
Definition fullCache (h : string) : res (option APIKeyAuthResult) :=
  Ok (if h =s? exampleSha "ogk_abcdef" then Some exampleResult else None).

(** The connector is gone from the database at time 10; a minute after its
    caching its key still works. *)
Lemma APIKeyAuth_vouched_witness :
  exists t key, vouched exampleFind t key "c1" "org1" /\
    exampleSha key = exampleSha "ogk_abcdef" /\
    (t = Minute \/ exists tw, (t <= tw <= Minute)%Z /\ (Minute < tw + apiKeyCacheTTL)%Z).
Proof.
  assert (Htr : ak_trace exampleSha exampleFind 5
                  [mkVerification 2 "ogk_abcdef" exampleResult]
                  [mkCacheWrite 5 (exampleSha "ogk_abcdef") exampleResult]).
  { apply (ak_cache _ _ 2 5 _ _ (mkVerification 2 "ogk_abcdef" exampleResult)); [|lia|by left].
    apply (ak_request exampleSha exampleFind 0 2 [] [] emptyCache exampleKeyReq background
             (Pass (withConnector "c1" "org1" background)) (Some (exampleSha "ogk_abcdef", exampleResult)));
      [apply ak_start|lia|by intros ? ?|vm_compute; reflexivity]. }
  apply (APIKeyAuth_vouched exampleSha exampleFind 5 Minute _ _ fullCache exampleKeyReq background
           (withConnector "c1" "org1" background) None Htr); [vm_compute; done| |vm_compute; reflexivity].
  intros h res. unfold fullCache. destruct (String.eqb_spec h (exampleSha "ogk_abcdef")) as [->|]; [|done].
  intros [= <-]. eexists. split; [by left|]. split; [done|]. split; [done|]. vm_compute. split; done.
Defined.

Definition exampleEntryDoc (st : Z) (b : json) : json := JArr [JNum st; b].
Definition exampleEntryOf (d : raw) : res (Z * json) :=
  match d with Some (JArr [JNum st; b]) => Ok (st, b) | _ => Err ErrSyntax end.
Definition counting (code : Z) (_ : Context) (n : nat) : nat * Response :=
  (S n, mkResponse code [] (JNum (Z.of_nat n))).
Definition idemReq (method : string) : Request := mkRequest method None [("Idempotency-Key", "k")] "".

(** A POST, then a PATCH of another path with the same key. *)
Lemma idempotent_replay_witness :
  exists r1 : MiniRedis,
    IdempotencyMiddleware exampleSha exampleEntryDoc exampleEntryOf Hour Hour (counting 200)
      (idemReq "PATCH") background r1 7 = (r1, 7, replay (201%Z, JNum 0)).
Proof.
  eexists.
  apply (idempotent_replay (W := nat) exampleSha exampleEntryDoc exampleEntryOf (fun st b => eq_refl)
           0 0 Hour Hour (counting 201) (counting 200) (idemReq "POST") (idemReq "PATCH") background background
           emptyRedis (rset 0 emptyRedis (idemKey exampleSha "" "k") (RDoc (exampleEntryDoc 201 (JNum 0))) idempotencyTTL).1
           (rset 0 emptyRedis (idemKey exampleSha "" "k") (RDoc (exampleEntryDoc 201 (JNum 0))) idempotencyTTL).1
           0 1 7 (mkResponse 201 [] (JNum 0)) (Some (RDoc (exampleEntryDoc 201 (JNum 0)))));
    try done; try (vm_compute; done).
Defined.
