(* ===== verification/RateLimit.v ===== *)
(** The rate limiter: shared/middleware/ratelimit.go.  A token bucket per
    address in memory (x/time/rate, an interface) and a sliding window of one
    minute per address in Redis. *)

From S2P Require Import Prelude GoStrings Json Redis Http Middleware.
From stdpp Require Import gmap.
From Stdlib Require Import Ascii.

(** ** golang.org/x/time/rate *)

Class TokenBucket (T : Type) := {
  NewLimiter : Z -> Z -> T;              (* events per second, burst *)
  Allow : Z -> T -> T * bool;
}.

Class TokenBucketLaws (T : Type) `{TokenBucket T} : Prop := {
  Allow_fresh r b now : (0 < b)%Z -> (0 <= r)%Z -> (0 <= now)%Z -> (Allow now (NewLimiter r b)).2 = true;
}.

(** ** The address of a request *)

Definition blank (c : ascii) : bool :=
  let n := nat_of_ascii c in (n =? 32) || ((9 <=? n) && (n <=? 13)).

Fixpoint trim_left (s : string) : string :=
  match s with
  | String c s' => if blank c then trim_left s' else s
  | EmptyString => s
  end.

Fixpoint trim_right (s : string) : string :=
  match s with
  | String c s' =>
      match trim_right s' with
      | EmptyString => if blank c then "" else String c ""
      | t => String c t
      end
  | EmptyString => s
  end.

(** [strings.TrimSpace] on ASCII text. *)
Definition TrimSpace (s : string) : string := trim_right (trim_left s).

(** [strings.LastIndex] of a byte. *)
Fixpoint last_index (c : ascii) (s : string) : option nat :=
  match s with
  | EmptyString => None
  | String d s' =>
      match last_index c s' with
      | Some i => Some (S i)
      | None => if Ascii.eqb d c then Some 0 else None
      end
  end.

(** [net.SplitHostPort]: the host, [None] on an error. *)
Definition SplitHost (s : string) : option string :=
  match last_index ":" s with
  | None => None
  | Some i =>
      if HasPrefix s "[" then
        match String.index 0 "]" s with
        | None => None
        | Some e =>
            if (e + 1 =? i)
               && no_byte "[" (String.substring 1 (String.length s - 1) s)
               && no_byte "]" (String.substring (e + 1) (String.length s - (e + 1)) s)
            then Some (String.substring 1 (e - 1) s) else None
        end
      else
        let host := String.substring 0 i s in
        if no_byte ":" host && no_byte "[" s && no_byte "]" s then Some host else None
  end.

Definition extractIP (r : Request) : string :=
  let real := header_get "X-Real-IP" (rqHeaders r) in
  if negb (real =s? "") then real
  else
    let forwarded := header_get "X-Forwarded-For" (rqHeaders r) in
    if negb (forwarded =s? "") then TrimSpace (hd "" (Split ","%char forwarded))
    else match SplitHost (rqRemoteAddr r) with
         | Some host => host
         | None => rqRemoteAddr r
         end.

(** ** The limiter *)

Section limiter.
Context {R T : Type} `{Redis R} `{TokenBucket T}.

Record entry := mkEntry { enLimiter : T; enLastAccess : Z }.

Record RateLimiter := mkRateLimiter {
  rlIPs : gmap string entry;
  rlRedis : option R;
  rlRate : Z;
  rlBurst : Z;
}.

Definition idleLimit : Z := (15 * Minute)%Z.

(** [cleanup]: entries idle for more than fifteen minutes. *)
Definition cleanup (now : Z) (l : RateLimiter) : RateLimiter :=
  mkRateLimiter (filter (fun kv : string * entry => (now - idleLimit <= enLastAccess kv.2)%Z) (rlIPs l))
    (rlRedis l) (rlRate l) (rlBurst l).

(** The limiter of an address, made on first use. *)
Definition limiterOf (ip : string) (l : RateLimiter) : T :=
  match rlIPs l !! ip with
  | Some e => enLimiter e
  | None => NewLimiter (rlRate l) (rlBurst l)
  end.

(** [getLimiter(ip).Allow()]: the bucket is shared, so it stays updated. *)
Definition localAllow (now : Z) (ip : string) (l : RateLimiter) : RateLimiter * bool :=
  let '(t, ok) := Allow now (limiterOf ip l) in
  (mkRateLimiter (<[ip := mkEntry t now]> (rlIPs l)) (rlRedis l) (rlRate l) (rlBurst l), ok).

Definition windowKey (ip : string) : string := "ratelimit:" +:+ ip.
Definition windowMillis : Z := (Minute / Millisecond)%Z.

(** [now.UnixNano() / int64(time.Millisecond)]. *)
Definition nowMillis (now : Z) : Z := Z.quot now Millisecond.

(** The pipeline: [ZRemRangeByScore; ZCard; ZAdd; Expire]; the second reply
    and the first error.  The member is the instant itself. *)
Definition windowCount (now : Z) (ip : string) (r : R) : R * res Z :=
  let n := nowMillis now in
  let key := windowKey ip in
  let '(r1, e1) := rzremrangebyscore now r key (n - windowMillis)%Z in
  let c := rzcard now r1 key in
  let '(r2, e3) := rzadd now r1 key n (itoa n) in
  let '(r3, e4) := rexpire now r2 key Minute in
  (r3, match e1, c, e3, e4 with
       | Some e, _, _, _ => Err e
       | None, Err e, _, _ => Err e
       | None, Ok _, Some e, _ | None, Ok _, None, Some e => Err e
       | None, Ok n, None, None => Ok n
       end).

Definition set_rlRedis (r : R) (l : RateLimiter) : RateLimiter :=
  mkRateLimiter (rlIPs l) (Some r) (rlRate l) (rlBurst l).

Definition isAllowed (now : Z) (ip : string) (l : RateLimiter) : RateLimiter * bool :=
  match localAllow now ip l with
  | (l1, false) => (l1, false)
  | (l1, true) =>
      match rlRedis l1 with
      | None => (l1, true)
      | Some r =>
          match windowCount now ip r with
          | (r', Err _) => (set_rlRedis r' l1, true)
          | (r', Ok count) => (set_rlRedis r' l1, (count <=? rlBurst l1)%Z)
          end
      end
  end.

(** The middleware. *)
Definition Limit (now : Z) (r : Request) (ctx : Context) (l : RateLimiter) : RateLimiter * verdict :=
  match isAllowed now (extractIP r) l with
  | (l', true) => (l', Pass ctx)
  | (l', false) => (l', Reject StatusTooManyRequests "Too Many Requests")
  end.
End limiter.
Arguments RateLimiter R T : clear implicits.
Arguments entry T : clear implicits.

(** ** Properties *)

(** The distinct milliseconds of a history after [b]. *)
Definition ticks (b : Z) (h : list Z) : gset Z := list_to_set (List.filter (fun s => b <? s)%Z h).

Lemma elem_of_ticks b h s : s ∈ ticks b h <-> In s h /\ (b < s)%Z.
Proof. unfold ticks. rewrite elem_of_list_to_set, list_elem_of_In, List.filter_In, Z.ltb_lt. done. Qed.

Section properties.
Context {R T : Type} `{RedisLaws R} `{TokenBucket T}.
Implicit Types l : RateLimiter R T.

(** The set holds the milliseconds of the window, each under its own text. *)
Definition holds (z : gmap string Z) (b : Z) (h : list Z) : Prop :=
  (forall m s, z !! m = Some s -> m = itoa s /\ In s h) /\
  forall s, In s h -> (b < s)%Z -> z !! itoa s = Some s.

Lemma holds_size z b h : holds z b h -> size (drop_upto b z) = size (ticks b h).
Proof.
  intros [Hz Hh].
  assert (Hp : map_to_list (drop_upto b z) ≡ₚ map (fun s => (itoa s, s)) (elements (ticks b h))).
  { apply NoDup_Permutation.
    - apply NoDup_map_to_list.
    - apply NoDup_fmap_2; [|apply NoDup_elements]. by intros x y [= _ ->].
    - intros [m s]. rewrite elem_of_map_to_list, list_elem_of_In, in_map_iff.
      unfold drop_upto. rewrite map_lookup_filter_Some. simpl. split.
      + intros [Hm Hs]. destruct (Hz m s Hm) as [-> Hin]. exists s. split; [done|].
        apply list_elem_of_In, elem_of_elements, elem_of_ticks. done.
      + intros (s' & [= <- <-] & [Hin Hs]%list_elem_of_In%elem_of_elements%elem_of_ticks).
        split; [by apply Hh|done]. }
  apply Permutation_length in Hp. rewrite length_map_to_list in Hp.
  by rewrite Hp, length_map.
Qed.

Lemma nowMillis_mono a b : (a <= b)%Z -> (nowMillis a <= nowMillis b)%Z.
Proof. intros Hab. unfold nowMillis, Millisecond. by apply Z.quot_le_mono. Qed.

Lemma nowMillis_minute now : (0 <= now)%Z -> nowMillis (now + Minute) = (nowMillis now + windowMillis)%Z.
Proof.
  intros Hn. change Minute with (windowMillis * Millisecond)%Z. unfold nowMillis, Millisecond.
  apply Z.quot_add; [done|]. change windowMillis with 60000%Z. lia.
Qed.

Definition RLInv (ip : string) (now : Z) (h : list Z) (r : R) : Prop :=
  Forall (fun s => s <= nowMillis now)%Z h /\
  forall t, (now <= t)%Z ->
  match rview t r (windowKey ip) with
  | None => Forall (fun s => s <= nowMillis t - windowMillis)%Z h
  | Some (RZSet z) => holds z (nowMillis t - windowMillis) h
  | Some _ => False
  end.

(** The first two commands. *)
Lemma window_trim ip now h (r r1 : R) :
  RLInv ip now h r -> rzremrangebyscore now r (windowKey ip) (nowMillis now - windowMillis)%Z = (r1, None) ->
  let b := (nowMillis now - windowMillis)%Z in
  match rview now r1 (windowKey ip) with
  | None => ticks b h = ∅
  | Some (RZSet z) => holds z b h /\ size z = size (ticks b h)
  | Some _ => False
  end.
Proof.
  intros [_ Hv] Hrem b. specialize (Hv now ltac:(lia)). fold b in Hv.
  destruct (rview now r (windowKey ip)) as [[| |z]|] eqn:E; try done.
  - destruct (rzrem_applied _ _ _ _ _ _ Hrem) as [_ Hz]. rewrite (Hz eq_refl z E). fold b.
    pose proof (holds_size z b h Hv) as Hs. case_decide as Hd.
    + rewrite Hd, map_size_empty in Hs. symmetry in Hs. by apply size_empty_inv, leibniz_equiv in Hs.
    + split; [|done]. destruct Hv as [Hz1 Hz2]. split.
      * intros m s [Hm _]%map_lookup_filter_Some. by apply Hz1.
      * intros s Hin Hs'. apply map_lookup_filter_Some. auto.
  - rewrite (rzrem_absent _ _ _ _ _ _ Hrem E). apply set_eq. intros s. rewrite elem_of_ticks.
    rewrite Forall_forall in Hv. split; [|set_solver].
    intros [Hin%list_elem_of_In%Hv Hs]. lia.
Qed.

(** The pipeline counts the distinct milliseconds of the earlier requests of
    the last minute, and records its own. *)
Lemma windowCount_ok ip now0 now h (r r' : R) c :
  RLInv ip now0 h r -> (now0 <= now)%Z -> (0 <= now)%Z ->
  windowCount now ip r = (r', Ok c) ->
  c = Z.of_nat (size (ticks (nowMillis now - windowMillis) h)) /\ RLInv ip now (nowMillis now :: h) r'.
Proof.
  intros [Hts0 Hv0] Hle Hnow. unfold windowCount.
  assert (Hts : Forall (fun s => s <= nowMillis now)%Z h).
  { eapply Forall_impl; [exact Hts0|]. pose proof (nowMillis_mono now0 now Hle). simpl. lia. }
  assert (HI : RLInv ip now h r) by (split; [done|intros t Ht; apply Hv0; lia]).
  destruct (rzremrangebyscore now r (windowKey ip) (nowMillis now - windowMillis)) as [r1 [e|]] eqn:E1;
    [by repeat case_match; intros [=]|].
  destruct (rzadd now r1 (windowKey ip) (nowMillis now) (itoa (nowMillis now))) as [r2 e3] eqn:E3.
  destruct (rexpire now r2 (windowKey ip) Minute) as [r3 e4] eqn:E4.
  destruct (rzcard now r1 (windowKey ip)) as [n|] eqn:E2; [|by intros [=]].
  destruct e3; [by intros [=]|]. destruct e4; [by intros [=]|]. intros [= <- <-].
  pose proof (window_trim _ _ _ _ _ HI E1) as Htrim. simpl in Htrim. set (b := (_ - _)%Z) in *.
  assert (Hn : n = Z.of_nat (size (ticks b h)) /\
               exists z, rview now r2 (windowKey ip) = Some (RZSet (<[itoa (nowMillis now) := nowMillis now]> z)) /\
                 holds z b h).
  { apply rzadd_applied in E3 as [E3|[? _]]; [|done]. specialize (E3 now (windowKey ip) ltac:(lia)).
    unfold view_of, view_touch in E3. rewrite decide_True in E3 by done.
    destruct (rview now r1 (windowKey ip)) as [[| |z]|] eqn:Ev; try done.
    - destruct Htrim as [Hh Hs]. apply rzcard_ok in E2 as [[E2 _]|(z' & E2 & ->)]; [congruence|].
      rewrite Ev in E2. injection E2 as <-. rewrite Hs. split; [done|]. by exists z.
    - apply rzcard_ok in E2 as [[_ ->]|(z' & E2 & _)]; [|congruence].
      rewrite Htrim, size_empty. split; [done|]. exists ∅. split; [exact E3|].
      split; [by intros m s ?%lookup_empty_Some|]. intros s Hin Hs. exfalso.
      assert (s ∈ ticks b h) as Hx by (by apply elem_of_ticks). rewrite Htrim in Hx. set_solver. }
  destruct Hn as [-> (z & Hz & Hh1 & Hh2)]. split; [done|].
  assert (Hts' : Forall (fun s => s <= nowMillis now)%Z (nowMillis now :: h)) by (by constructor).
  split; [done|]. intros t Ht.
  apply rexpire_applied in E4 as [E4|[? _]]; [|done]. specialize (E4 t (windowKey ip) Ht).
  unfold view_of, view_expire in E4. rewrite decide_True in E4 by done. rewrite E4, Hz.
  pose proof (nowMillis_mono now t Ht) as Hm. destruct (t <? now + Minute)%Z eqn:Et.
  - split.
    + intros m s [[<- <-]|[_ Hs]]%lookup_insert_Some; [split; [done|by left]|].
      apply Hh1 in Hs as [-> ?]. split; [done|by right].
    + intros s [<-|Hin] Hs; [by rewrite lookup_insert_eq|].
      destruct (decide (s = nowMillis now)) as [->|Hne]; [by rewrite lookup_insert_eq|].
      rewrite lookup_insert_ne; [|by intros He%itoa_inj]. apply Hh2; [done|]. unfold b. lia.
  - bool_to_prop. pose proof (nowMillis_mono _ t Et) as Hm'. rewrite nowMillis_minute in Hm' by done.
    eapply Forall_impl; [exact Hts'|]. simpl. lia.
Qed.

(** The requests of an address that reach Redis, as milliseconds, newest
    first, interleaved with anything that leaves the address's key alone. *)
Inductive rl_trace (ip : string) : Z -> list Z -> RateLimiter R T -> Prop :=
| rl_start now l r :
    (0 <= now)%Z -> rlRedis l = Some r ->
    (forall t, (now <= t)%Z -> rview t r (windowKey ip) = None) -> rl_trace ip now [] l
| rl_other now now' h l l' r r' :
    rl_trace ip now h l -> (now <= now')%Z -> rlRedis l = Some r -> rlRedis l' = Some r' ->
    (forall t, (now' <= t)%Z -> rview t r' (windowKey ip) = rview t r (windowKey ip)) ->
    rl_trace ip now' h l'
| rl_refused now now' h l :
    rl_trace ip now h l -> (now <= now')%Z -> (localAllow now' ip l).2 = false ->
    rl_trace ip now' h (isAllowed now' ip l).1
| rl_counted now now' h l r r' c :
    rl_trace ip now h l -> (now <= now')%Z -> (localAllow now' ip l).2 = true ->
    rlRedis l = Some r -> windowCount now' ip r = (r', Ok c) ->
    rl_trace ip now' (nowMillis now' :: h) (isAllowed now' ip l).1.

Lemma localAllow_rest now ip l :
  rlRedis (localAllow now ip l).1 = rlRedis l /\ rlBurst (localAllow now ip l).1 = rlBurst l.
Proof. unfold localAllow. by destruct (Allow _ _). Qed.

Lemma isAllowed_refused now ip l :
  (localAllow now ip l).2 = false -> isAllowed now ip l = ((localAllow now ip l).1, false).
Proof. unfold isAllowed. destruct (localAllow now ip l) as [l1 []]; by intros. Qed.

Lemma isAllowed_counted now ip l r r' c :
  (localAllow now ip l).2 = true -> rlRedis l = Some r -> windowCount now ip r = (r', Ok c) ->
  isAllowed now ip l = (set_rlRedis r' (localAllow now ip l).1, (c <=? rlBurst l)%Z).
Proof.
  intros Hl Hr Hc. destruct (localAllow_rest now ip l) as [Ha Hb]. unfold isAllowed.
  destruct (localAllow now ip l) as [l1 ok]. simpl in *. subst ok. rewrite Ha, Hr, Hc. by rewrite Hb.
Qed.

Lemma rl_trace_inv ip now h l :
  rl_trace ip now h l -> (0 <= now)%Z /\ exists r, rlRedis l = Some r /\ RLInv ip now h r.
Proof.
  induction 1 as [now l r Hn Hr Hv|now now' h l l' r r' _ (Hn & r0 & Hr0 & Ht & Hv) Hle Hr Hr' Heq
                 |now now' h l _ (Hn & r0 & Hr0 & Ht & Hv) Hle Href
                 |now now' h l r r' c _ (Hn & r0 & Hr0 & HI) Hle Hloc Hr Hc].
  - split; [done|]. exists r. split; [done|]. split; [constructor|]. intros t Hnt. rewrite Hv by done. constructor.
  - split; [lia|]. exists r'. split; [done|]. assert (r0 = r) as -> by congruence. split.
    + eapply Forall_impl; [exact Ht|]. pose proof (nowMillis_mono _ _ Hle). simpl. lia.
    + intros t Hnt. rewrite Heq by done. apply Hv. lia.
  - split; [lia|]. rewrite isAllowed_refused by done. simpl.
    destruct (localAllow_rest now' ip l) as [-> _]. exists r0. split; [done|]. split.
    + eapply Forall_impl; [exact Ht|]. pose proof (nowMillis_mono _ _ Hle). simpl. lia.
    + intros t Hnt. apply Hv. lia.
  - split; [lia|]. rewrite (isAllowed_counted _ _ _ _ _ _ Hloc Hr Hc). exists r'. split; [done|].
    assert (r0 = r) as -> by congruence. by destruct (windowCount_ok ip now now' h r r' c HI Hle ltac:(lia) Hc) as [_ ?].
Qed.

(** C38: The distributed rate limit.  Over any interleaving, a request that the
    in-memory bucket admits and Redis counts is let through exactly when the
    earlier requests of its address that reached Redis in the last minute,
    refused ones included, fall on at most [burst] distinct milliseconds.  The
    rate configured plays no part in it: whatever the rate, an address gets
    about [burst + 1] requests a minute. *)
Theorem isAllowed_window ip now now' h l r r' c :
  rl_trace ip now h l -> (now <= now')%Z -> (localAllow now' ip l).2 = true ->
  rlRedis l = Some r -> windowCount now' ip r = (r', Ok c) ->
  (isAllowed now' ip l).2 =
    (Z.of_nat (size (ticks (nowMillis now' - windowMillis) h)) <=? rlBurst l)%Z.
Proof.
  intros (Hn & r0 & Hr0 & HI)%rl_trace_inv Hle Hloc Hr Hc. assert (r0 = r) as -> by congruence.
  rewrite (isAllowed_counted _ _ _ _ _ _ Hloc Hr Hc). simpl.
  by destruct (windowCount_ok ip now now' h r r' c HI Hle ltac:(lia) Hc) as [-> _].
Qed.

Context `{!TokenBucketLaws T}.

(** A header chooses the address: a value that was never used gets a bucket
    and a window of its own. *)
Lemma fresh_address_allowed now ip l r r' c :
  (0 < rlBurst l)%Z -> (0 <= rlRate l)%Z -> (0 <= now)%Z -> rlIPs l !! ip = None -> rlRedis l = Some r ->
  rview now r (windowKey ip) = None -> windowCount now ip r = (r', Ok c) ->
  (isAllowed now ip l).2 = true.
Proof.
  intros Hb Hrate Hnow Hip Hr Hv Hc.
  assert (Hloc : (localAllow now ip l).2 = true).
  { unfold localAllow, limiterOf. rewrite Hip. pose proof (Allow_fresh (rlRate l) (rlBurst l) now Hb Hrate Hnow) as Ha.
    by destruct (Allow now _). }
  rewrite (isAllowed_counted _ _ _ _ _ _ Hloc Hr Hc). simpl. apply Z.leb_le.
  assert (c = 0%Z); [|lia]. revert Hc. unfold windowCount.
  destruct (rzremrangebyscore _ _ _ _) as [r1 [e|]] eqn:E1; [by repeat case_match; intros [=]|].
  pose proof (rzrem_absent _ _ _ _ _ _ E1 Hv) as Hv1.
  destruct (rzcard now r1 _) as [n|] eqn:E2; [|by repeat case_match; intros [=]].
  apply rzcard_ok in E2 as [[_ ->]|(z & Hz & _)]; [|congruence].
  by repeat case_match; intros [=].
Qed.
End properties.

(** Whoever sends [X-Real-IP] is known by its value. *)
Lemma extractIP_header r ip :
  header_get "X-Real-IP" (rqHeaders r) = ip -> ip <> "" -> extractIP r = ip.
Proof. intros <- Hne. unfold extractIP. by rewrite (proj2 (String.eqb_neq _ _) Hne). Qed.

Example SplitHost_ex :
  map SplitHost ["10.0.0.1:80"; "[::1]:8080"; "::1"; "host"; "[::1]"] =
    [Some "10.0.0.1"; Some "::1"; None; None; None].
Proof. vm_compute. reflexivity. Qed.

(** ** An instance *)

(** An exact token bucket; tokens are counted in billionths. *)
Record MiniBucket := mkMiniBucket { mbRate : Z; mbBurst : Z; mbTokens : Z; mbLast : Z }.

#[global] Instance MiniBucket_ops : TokenBucket MiniBucket :=
  {| NewLimiter r b := mkMiniBucket r b (b * Second) 0;
     Allow now t :=
       let tokens := Z.min (mbBurst t * Second) (mbTokens t + (now - mbLast t) * mbRate t) in
       if (Second <=? tokens)%Z then (mkMiniBucket (mbRate t) (mbBurst t) (tokens - Second) now, true)
       else (mkMiniBucket (mbRate t) (mbBurst t) tokens now, false) |}.

#[global] Instance MiniBucket_laws : TokenBucketLaws MiniBucket.
Proof.
  split. intros r b now Hb Hr Hn. unfold Allow, NewLimiter, MiniBucket_ops. simpl.
  rewrite (proj2 (Z.leb_le _ _)); [done|]. unfold Second, Millisecond. nia.
Qed.

Definition exampleLimiter : RateLimiter MiniRedis MiniBucket := mkRateLimiter ∅ (Some emptyRedis) 1000 1.

(** Three requests twenty seconds apart, at a rate of a thousand per second:
    the burst of one allows two in the minute. *)
Definition limiterAt (n : nat) : RateLimiter MiniRedis MiniBucket :=
  match n with
  | 0 => exampleLimiter
  | 1 => (isAllowed 0 "1.1.1.1" exampleLimiter).1
  | _ => (isAllowed (20 * Second) "1.1.1.1" (isAllowed 0 "1.1.1.1" exampleLimiter).1).1
  end.

Lemma isAllowed_window_witness : (isAllowed (40 * Second) "1.1.1.1" (limiterAt 2)).2 = false.
Proof.
  assert (Htr : rl_trace "1.1.1.1" (20 * Second) [20000; 0]%Z (limiterAt 2)).
  { eapply (rl_counted "1.1.1.1" 0 (20 * Second) [0]%Z (limiterAt 1));
      [|vm_compute; done|vm_compute; reflexivity|reflexivity|vm_compute; reflexivity].
    eapply (rl_counted "1.1.1.1" 0 0 [] (limiterAt 0));
      [|lia|vm_compute; reflexivity|reflexivity|vm_compute; reflexivity].
    by apply (rl_start _ 0 _ emptyRedis). }
  etransitivity;
    [eapply (isAllowed_window "1.1.1.1" (20 * Second) (40 * Second) [20000; 0]%Z (limiterAt 2));
       [exact Htr|vm_compute; done|vm_compute; reflexivity|reflexivity|vm_compute; reflexivity]
    |vm_compute; reflexivity].
Defined.
