(* ===== verification/Ssrf.v ===== *)
(** Outbound connections to addresses chosen by tenants:
    shared/middleware/security.go.  An address is the 128-bit number of its
    [net.IP]; resolution, [net.ParseIP], [net.SplitHostPort] and what the
    environment says of proxies are arguments. *)

From S2P Require Import Prelude.

(** ** Addresses and networks *)

Definition ipv4 (a b c d : Z) : Z := (((a * 256 + b) * 256 + c) * 256 + d)%Z.

(** The 16-byte form of an IPv4 address: ::ffff:a.b.c.d. *)
Definition mapped (x : Z) : Z := (65535 * 2 ^ 32 + x)%Z.

(** [net.IP.To4]. *)
Definition To4 (ip : Z) : option Z :=
  if (Z.shiftr ip 32 =? 65535)%Z then Some (Z.land ip (Z.ones 32)) else None.

Inductive IPNet := Net4 (base len : Z) | Net6 (base len : Z).

(** [net.IPNet.Contains]: the families have to agree. *)
Definition Contains (n : IPNet) (ip : Z) : bool :=
  match n, To4 ip with
  | Net4 base len, Some x => (Z.shiftr x (32 - len) =? Z.shiftr base (32 - len))%Z
  | Net6 base len, None => (Z.shiftr ip (128 - len) =? Z.shiftr base (128 - len))%Z
  | _, _ => false
  end.

(** The first sixteen bits of an IPv6 address. *)
Definition v6prefix (h : Z) : Z := (h * 2 ^ 112)%Z.

Definition blockedCIDRs : list IPNet := [
  Net4 (ipv4 10 0 0 0) 8;
  Net4 (ipv4 172 16 0 0) 12;
  Net4 (ipv4 192 168 0 0) 16;
  Net4 (ipv4 127 0 0 0) 8;
  Net6 1 128;                              (* ::1 *)
  Net4 (ipv4 169 254 0 0) 16;
  Net6 (v6prefix 65152) 10;                (* fe80:: *)
  Net6 (v6prefix 64768) 8;                 (* fd00:: *)
  Net4 (ipv4 0 0 0 0) 8;
  Net4 (ipv4 100 64 0 0) 10
].

Definition isBlockedIP (ip : Z) : bool := existsb (fun n => Contains n ip) blockedCIDRs.

(** ** The dialer of [NewSafeHTTPClient] *)

Inductive dialResult :=
| DialTo (rawIP port : string)          (* dialer.DialContext on the address itself *)
| DialError (e : goerr).

Section dial.
Variable ParseIP : string -> option Z.
(** [ip.String()]. *)
Variable showIP : Z -> string.

(** The loop over the addresses of the host. *)
Fixpoint dialLoop (host port : string) (ips : list string) : dialResult :=
  match ips with
  | [] => DialError (ErrNew ("SSRF guard: no allowed IP for " +:+ host))
  | rawIP :: rest =>
      match ParseIP rawIP with
      | None => dialLoop host port rest
      | Some ip =>
          if isBlockedIP ip
          then DialError (ErrNew ("SSRF guard: " +:+ (host +:+ (" resolves to blocked IP " +:+ showIP ip))))
          else DialTo rawIP port
      end
  end.

(** [splitHostPort] of the address; [lookup] resolves the host once. *)
Variable splitHostPort : string -> res (string * string).
Variable lookup : string -> res (list string).

Definition DialContext (addr : string) : dialResult :=
  match splitHostPort addr with
  | Err e => DialError e
  | Ok (host, port) =>
      match lookup host with
      | Err e => DialError (ErrWrap ("SSRF guard: cannot resolve " +:+ (host +:+ ": ")) e "")
      | Ok ips => dialLoop host port ips
      end
  end.

(** [http.ProxyFromEnvironment]: the address of the proxy that the process's
    environment names for a target, when it does. *)
Variable ProxyFromEnvironment : string -> res (option string).

(** How the client of [NewSafeHTTPClient] connects for a target: its transport
    dials the proxy when there is one, and the proxy the target. *)
Definition clientDial (target : string) : dialResult :=
  match ProxyFromEnvironment target with
  | Err e => DialError e
  | Ok proxy => DialContext (match proxy with Some p => p | None => target end)
  end.
End dial.

(** [SSRFGuardMiddleware] passes every request on. *)
Definition SSRFGuardMiddleware {A} (next : A) : A := next.

(** ** Properties *)

(** Numbers that agree above the bit [k] are those of one aligned interval. *)
Lemma shiftr_eq x base k : (0 <= k)%Z ->
  Z.shiftr x k = Z.shiftr base k <-> (base / 2 ^ k * 2 ^ k <= x < (base / 2 ^ k + 1) * 2 ^ k)%Z.
Proof.
  intros Hk. rewrite !Z.shiftr_div_pow2 by done. assert (Hp : (0 < 2 ^ k)%Z) by lia. split.
  - intros <-. pose proof (Z.mul_div_le x (2 ^ k) Hp). pose proof (Z.mul_succ_div_gt x (2 ^ k) Hp). lia.
  - intros [Hl Hu]. symmetry. apply Z.div_unique with (x - base / 2 ^ k * 2 ^ k)%Z; lia.
Qed.

Lemma To4_mapped x : (0 <= x < 2 ^ 32)%Z -> To4 (mapped x) = Some x.
Proof.
  intros Hx. unfold To4, mapped. rewrite Z.shiftr_div_pow2, Z.land_ones by done.
  rewrite Z.div_add_l, Z.div_small by lia. simpl. f_equal.
  rewrite Z.add_comm, Z.mod_add by lia. by apply Z.mod_small.
Qed.

(** The blocked ranges of IPv4, with their ends. *)
Definition blocked4 (x : Z) : Prop :=
  (ipv4 10 0 0 0 <= x < ipv4 11 0 0 0)%Z \/ (ipv4 172 16 0 0 <= x < ipv4 172 32 0 0)%Z \/
  (ipv4 192 168 0 0 <= x < ipv4 192 169 0 0)%Z \/ (ipv4 127 0 0 0 <= x < ipv4 128 0 0 0)%Z \/
  (ipv4 169 254 0 0 <= x < ipv4 169 255 0 0)%Z \/ (ipv4 0 0 0 0 <= x < ipv4 1 0 0 0)%Z \/
  (ipv4 100 64 0 0 <= x < ipv4 100 128 0 0)%Z.

(** Those of IPv6: loopback, fe80::/10 and fd00::/8. *)
Definition blocked6 (ip : Z) : Prop :=
  ip = 1%Z \/ (v6prefix 65152 <= ip < v6prefix 65216)%Z \/ (v6prefix 64768 <= ip < v6prefix 65024)%Z.

Lemma isBlockedIP_ranges ip :
  isBlockedIP ip = true <->
  match To4 ip with Some x => blocked4 x | None => blocked6 ip end.
Proof.
  unfold isBlockedIP, blockedCIDRs, existsb, Contains, blocked4, blocked6, ipv4, v6prefix.
  destruct (To4 ip) as [x|]; rewrite ?orb_false_r, ?orb_false_l, ?orb_true_iff, ?Z.eqb_eq;
    rewrite !shiftr_eq by lia;
    repeat match goal with
    | |- context [(?a / 2 ^ ?k * 2 ^ ?k)%Z] =>
        let v := eval vm_compute in (a / 2 ^ k * 2 ^ k)%Z in change (a / 2 ^ k * 2 ^ k)%Z with v
    | |- context [((?a / 2 ^ ?k + 1) * 2 ^ ?k)%Z] =>
        let v := eval vm_compute in ((a / 2 ^ k + 1) * 2 ^ k)%Z in change ((a / 2 ^ k + 1) * 2 ^ k)%Z with v
    | |- context [(?a * 2 ^ 112)%Z] =>
        let v := eval vm_compute in (a * 2 ^ 112)%Z in change (a * 2 ^ 112)%Z with v
    end; lia.
Qed.

Lemma dialLoop_to ParseIP showIP host port ips rawIP port' :
  dialLoop ParseIP showIP host port ips = DialTo rawIP port' ->
  port' = port /\ exists ip l1 l2, ips = l1 ++ rawIP :: l2 /\ ParseIP rawIP = Some ip /\
    isBlockedIP ip = false /\ forall s, In s l1 -> ParseIP s = None.
Proof.
  induction ips as [|s ips IH]; cbn [dialLoop]; [discriminate|]. destruct (ParseIP s) as [ip|] eqn:Ep.
  - destruct (isBlockedIP ip) eqn:Eb; [discriminate|]. intros [= <- <-]. split; [reflexivity|]. by exists ip, [], ips.
  - intros Hd. destruct (IH Hd) as (? & ip & l1 & l2 & -> & ? & ? & Hn). split; [assumption|].
    exists ip, (s :: l1), l2. split_and!; [reflexivity|assumption|assumption|]. intros s' [<-|Hs]; auto.
Qed.

Lemma unblocked_safe ip : isBlockedIP ip = false ->
  (forall x, To4 ip = Some x -> ~ blocked4 x) /\ (To4 ip = None -> ~ blocked6 ip).
Proof.
  intros Hb. pose proof (isBlockedIP_ranges ip) as Hr. rewrite Hb in Hr.
  split; [intros x Hx|intros Hx]; rewrite Hx in Hr; intros Hbl; discriminate (proj2 Hr Hbl).
Qed.

(** C39: The guard against server-side request forgery.  The client connects to
    an address to which the dialed host really resolved - the target's, or
    the proxy's when the environment names one for the target - and which
    lies outside the listed IPv4 networks - also in its IPv4-mapped IPv6 form -
    and is not the IPv6 loopback, a link-local or an fd00::/8 address; it is
    the first of the host's addresses that parses, so a host whose first one
    is in a listed network is never connected to. *)
Theorem DialContext_safe ParseIP showIP splitHostPort lookup ProxyFromEnvironment target rawIP port :
  clientDial ParseIP showIP splitHostPort lookup ProxyFromEnvironment target = DialTo rawIP port ->
  exists proxy host ips ip, ProxyFromEnvironment target = Ok proxy /\
    splitHostPort (match proxy with Some p => p | None => target end) = Ok (host, port) /\
    lookup host = Ok ips /\ In rawIP ips /\ ParseIP rawIP = Some ip /\
    (forall x, To4 ip = Some x -> ~ blocked4 x) /\ (To4 ip = None -> ~ blocked6 ip) /\
    exists l1 l2, ips = l1 ++ rawIP :: l2 /\ forall s, In s l1 -> ParseIP s = None.
Proof.
  unfold clientDial, DialContext. destruct (ProxyFromEnvironment target) as [proxy|]; [|done].
  destruct (splitHostPort _) as [[host port']|] eqn:Es; [|done]. destruct (lookup host) as [ips|] eqn:El; [|done].
  intros (-> & ip & l1 & l2 & -> & Hp & Hb & Hn)%dialLoop_to. apply unblocked_safe in Hb as [H4 H6].
  exists proxy, host, (l1 ++ rawIP :: l2), ip. split_and!; try done; [apply in_or_app; right; by left|by exists l1, l2].
Qed.

(** Behind a proxy the target is not looked at: whatever it is, the client
    connects as it does for any other target of that proxy. *)
Theorem proxied_target_unchecked ParseIP showIP splitHostPort lookup ProxyFromEnvironment p target target' :
  ProxyFromEnvironment target = Ok (Some p) -> ProxyFromEnvironment target' = Ok (Some p) ->
  clientDial ParseIP showIP splitHostPort lookup ProxyFromEnvironment target =
  clientDial ParseIP showIP splitHostPort lookup ProxyFromEnvironment target'.
Proof. unfold clientDial. by intros -> ->. Qed.

(** Not blocked: the unspecified address "::", which connects to the local
    host, the other half of the unique local addresses (fc00::), and the
    NAT64 form of the metadata address (64:ff9b::169.254.169.254). *)
Example unblocked_addresses :
  map isBlockedIP [0; v6prefix 64512; 100 * 2 ^ 112 + 65435 * 2 ^ 96 + ipv4 169 254 169 254;
                   mapped (ipv4 169 254 169 254); 1]%Z = [false; false; false; true; true].
Proof. vm_compute. reflexivity. Qed.

(** ** Examples *)

Module SsrfExamples.
Definition parse (s : string) : option Z :=
  if s =s? "169.254.169.254" then Some (mapped (ipv4 169 254 169 254))
  else if s =s? "8.8.8.8" then Some (mapped (ipv4 8 8 8 8)) else None.
Definition show (_ : Z) : string := "".
Definition split (addr : string) : res (string * string) := Ok (addr, "443").
(** Hosts by name; an address is its own. *)
Definition dns (host : string) : res (list string) :=
  if host =s? "h" then Ok ["x"; "8.8.8.8"; "169.254.169.254"] else if host =s? "proxy" then Ok ["8.8.8.8"] else Ok [host].
Definition direct (_ : string) : res (option string) := Ok None.
Definition proxied (_ : string) : res (option string) := Ok (Some "proxy").

(** The host resolves to a text that is no address, then to a public one. *)
Lemma DialContext_safe_witness :
  exists proxy host ips ip, direct "h" = Ok proxy /\
    split (match proxy with Some p => p | None => "h" end) = Ok (host, "443") /\
    dns host = Ok ips /\ In "8.8.8.8" ips /\ parse "8.8.8.8" = Some ip /\
    (forall x, To4 ip = Some x -> ~ blocked4 x) /\ (To4 ip = None -> ~ blocked6 ip) /\
    exists l1 l2, ips = l1 ++ "8.8.8.8" :: l2 /\ forall s, In s l1 -> parse s = None.
Proof. apply (DialContext_safe parse show split dns direct "h" "8.8.8.8" "443"). vm_compute. reflexivity. Defined.

(** The metadata service is refused, and reached through a proxy. *)
Example metadata_refused :
  clientDial parse show split dns direct "169.254.169.254" =
  DialError (ErrNew "SSRF guard: 169.254.169.254 resolves to blocked IP ").
Proof. vm_compute. reflexivity. Qed.

Example metadata_through_proxy : clientDial parse show split dns proxied "169.254.169.254" = DialTo "8.8.8.8" "443".
Proof. vm_compute. reflexivity. Qed.
End SsrfExamples.
