(* ===== verification/PolicyEngine.v ===== *)
(** The policy decision engine: services/policy/pkg/service/service.go,
    [evaluate], [matchesGlob], [validatePolicyLogic] and the data they work on.
    The CEL library is a parameter: a [CelEnv] gives its compiler, program
    builder and evaluator. *)

From S2P Require Import Prelude GoStrings Json.

(** ** Data *)

Record EvaluateRequest := mkEvaluateRequest {
  OrgID : string;
  SubjectID : string;
  UserGroups : list string;
  Action : string;
  Resource : string;
}.

Record PolicyLogic := mkPolicyLogic {
  Type_ : string;
  Subjects : list string;
  Actions : list string;
  Resources : list string;
  Expression : string;
}.

Definition zeroLogic : PolicyLogic := mkPolicyLogic "" [] [] [] "".

(** [json.Unmarshal(p.Logic, &logic)]. *)
Definition upd_PolicyLogic (k : string) (l : PolicyLogic) (j : json) : res PolicyLogic :=
  let '(mkPolicyLogic t s a r e) := l in
  if key_is "type" k then t' <-? dec_string t j; Ok (mkPolicyLogic t' s a r e)
  else if key_is "subjects" k then s' <-? dec_strings s j; Ok (mkPolicyLogic t s' a r e)
  else if key_is "actions" k then a' <-? dec_strings a j; Ok (mkPolicyLogic t s a' r e)
  else if key_is "resources" k then r' <-? dec_strings r j; Ok (mkPolicyLogic t s a r' e)
  else if key_is "expression" k then e' <-? dec_string e j; Ok (mkPolicyLogic t s a r e')
  else Ok l.

Definition decodeLogic (data : raw) : res PolicyLogic :=
  unmarshal_struct upd_PolicyLogic zeroLogic data.

(** A stored policy ([repository.Policy]); instants in nanoseconds. *)
Record Policy := mkPolicy {
  pID : string;
  pOrgID : string;
  pName : string;
  pDescription : string;
  pLogic : raw;
  pVersion : Z;
  pCreatedAt : Z;
  pUpdatedAt : Z;
}.

(** What [out.Type() == types.BoolType] and [out.Value().(bool)] see. *)
Inductive celval := CelBool (b : bool) | CelOther.

(** cel-go as the service uses it. *)
Record CelEnv := mkCelEnv {
  celAst : Type;
  celProgram : Type;
  Compile : string -> res celAst;
  Program : celAst -> res celProgram;
  Eval : celProgram -> EvaluateRequest -> res celval;
}.

(** ** Glob patterns *)

(** One pattern of the loop of [matchesGlob]. *)
Definition globMatch (p value : string) : bool :=
  if (p =s? "*") || (p =s? value) then true
  else if HasSuffix p ":*" &&
          (let prefix := TrimSuffix p ":*" in
           HasPrefix value (prefix +:+ ":") || (value =s? prefix)) then true
  else HasSuffix p "*" && HasPrefix value (TrimSuffix p "*").

Fixpoint matchesGlob (patterns : list string) (value : string) : bool :=
  match patterns with
  | [] => false
  | p :: ps => if globMatch p value then true else matchesGlob ps value
  end.

(** ** Evaluation *)

Section engine.
(** [s.celEnv]; [None] when [cel.NewEnv] failed. *)
Variable celEnv : option CelEnv.

(** The loop state: [matchedIDs], [maxVersion], [hasExplicitAllow],
    [hasExplicitDeny]. *)
Record evalState := mkEvalState {
  matchedIDs : list string;
  maxVersion : Z;
  hasExplicitAllow : bool;
  hasExplicitDeny : bool;
}.

Definition evalInit : evalState := mkEvalState [] 0 false false.

Definition bumpVersion (v maxv : Z) : Z := if (v >? maxv)%Z then v else maxv.

Definition recordAllow (p : Policy) (st : evalState) : evalState :=
  mkEvalState (matchedIDs st ++ [pID p]) (bumpVersion (pVersion p) (maxVersion st))
    true (hasExplicitDeny st).

Definition recordDeny (p : Policy) (st : evalState) : evalState :=
  mkEvalState (matchedIDs st ++ [pID p]) (bumpVersion (pVersion p) (maxVersion st))
    (hasExplicitAllow st) true.

(** The [case "cel"] branch: whether the expression evaluates to [true]. *)
Definition celMatch (req : EvaluateRequest) (logic : PolicyLogic) : bool :=
  match celEnv with
  | None => false
  | Some env =>
      if Expression logic =s? "" then false
      else match Compile env (Expression logic) with
           | Err _ => false
           | Ok ast =>
               match Program env ast with
               | Err _ => false
               | Ok program =>
                   match Eval env program req with
                   | Ok (CelBool b) => b
                   | _ => false
                   end
               end
           end
  end.

(** One iteration of the loop over [policies]. *)
Definition evalStep (req : EvaluateRequest) (st : evalState) (p : Policy) : evalState :=
  match decodeLogic (pLogic p) with
  | Err _ => st
  | Ok logic =>
      if Type_ logic =s? "deny_all" then recordDeny p st
      else if Type_ logic =s? "allow_all" then recordAllow p st
      else if Type_ logic =s? "rbac" then
        let subjectMatch := matchesGlob (Subjects logic) (SubjectID req) in
        let actionMatch := matchesGlob (Actions logic) (Action req) in
        let resourceMatch := matchesGlob (Resources logic) (Resource req) in
        if subjectMatch && actionMatch && resourceMatch then recordAllow p st else st
      else if Type_ logic =s? "cel" then
        if celMatch req logic then recordAllow p st else st
      else st
  end.

(** [(s *Service) evaluate]: effect, matched ids, max version. *)
Definition evaluate (req : EvaluateRequest) (policies : list Policy) : string * list string * Z :=
  let st := fold_left (evalStep req) policies evalInit in
  if hasExplicitDeny st then ("deny", matchedIDs st, maxVersion st)
  else if hasExplicitAllow st then ("allow", matchedIDs st, maxVersion st)
  else ("deny", matchedIDs st, maxVersion st).

Definition errCelInit : goerr := ErrNew "CEL environment not initialized".
Definition errCelExpr : goerr := ErrNew "CEL expression is required".

(** [(s *Service) validatePolicyLogic]. *)
Definition validatePolicyLogic (logic : raw) : option goerr :=
  match decodeLogic logic with
  | Err e => Some e
  | Ok l =>
      if Type_ l =s? "cel" then
        match celEnv with
        | None => Some errCelInit
        | Some env =>
            if Expression l =s? "" then Some errCelExpr
            else match Compile env (Expression l) with Err e => Some e | Ok _ => None end
        end
      else None
  end.

(** ** Specification: the verdict of one policy on one request *)

Inductive verdict := VDeny | VAllow | VNone.

Definition verdictOf (req : EvaluateRequest) (p : Policy) : verdict :=
  match decodeLogic (pLogic p) with
  | Err _ => VNone
  | Ok l =>
      if Type_ l =s? "deny_all" then VDeny
      else if Type_ l =s? "allow_all" then VAllow
      else if Type_ l =s? "rbac" then
        if matchesGlob (Subjects l) (SubjectID req) &&
           matchesGlob (Actions l) (Action req) &&
           matchesGlob (Resources l) (Resource req) then VAllow else VNone
      else if Type_ l =s? "cel" then if celMatch req l then VAllow else VNone
      else VNone
  end.

Definition applies (req : EvaluateRequest) (p : Policy) : bool :=
  match verdictOf req p with VNone => false | _ => true end.
Definition denies (req : EvaluateRequest) (p : Policy) : bool :=
  match verdictOf req p with VDeny => true | _ => false end.
Definition allows (req : EvaluateRequest) (p : Policy) : bool :=
  match verdictOf req p with VAllow => true | _ => false end.

Definition specState (req : EvaluateRequest) (ps : list Policy) (st : evalState) : evalState :=
  mkEvalState
    (matchedIDs st ++ map pID (List.filter (applies req) ps))
    (fold_left Z.max (map pVersion (List.filter (applies req) ps)) (maxVersion st))
    (hasExplicitAllow st || existsb (allows req) ps)
    (hasExplicitDeny st || existsb (denies req) ps).

Lemma bumpVersion_max v m : bumpVersion v m = Z.max m v.
Proof. unfold bumpVersion. rewrite Z.gtb_ltb. case_goal; bool_to_prop; lia. Qed.

Lemma evalStep_verdict req st p :
  evalStep req st p =
  match verdictOf req p with
  | VDeny => recordDeny p st | VAllow => recordAllow p st | VNone => st
  end.
Proof.
  unfold evalStep, verdictOf. destruct (decodeLogic (pLogic p)) as [l|e]; [|done].
  repeat (case_goal; try done).
Qed.

Lemma evaluate_fold req ps st :
  fold_left (evalStep req) ps st = specState req ps st.
Proof.
  unfold specState. revert st. induction ps as [|p ps IH]; intros st; simpl.
  - destruct st; simpl. by rewrite app_nil_r, !orb_false_r.
  - rewrite IH, evalStep_verdict. unfold applies, allows, denies.
    destruct (verdictOf req p) eqn:E; simpl;
      rewrite ?bumpVersion_max, <- ?app_assoc, ?orb_true_r; try done.
Qed.
End engine.


(** ** Lemmas on the specification *)

Lemma existsb_perm {A} (f : A -> bool) (l l' : list A) :
  Permutation l l' -> existsb f l = existsb f l'.
Proof.
  induction 1; simpl; try congruence.
  by destruct (f x), (f y).
Qed.

Lemma fold_max_perm (l l' : list Z) z :
  Permutation l l' -> fold_left Z.max l z = fold_left Z.max l' z.
Proof.
  intros H. revert z. induction H; intros z; simpl; [done|done| |congruence].
  f_equal. lia.
Qed.

Lemma fold_max_spec (l : list Z) z :
  (z <= fold_left Z.max l z)%Z /\
  (forall x, In x l -> (x <= fold_left Z.max l z)%Z) /\
  (fold_left Z.max l z = z \/ In (fold_left Z.max l z) l).
Proof.
  revert z. induction l as [|y l IH]; intros z; simpl.
  - split; [lia|]. split; [done|by left].
  - destruct (IH (Z.max z y)) as (H1 & H2 & H3). split; [lia|]. split.
    + intros x [->|Hx]; [lia|auto].
    + destruct H3 as [H3|H3]; [|auto].
      destruct (Z.max_spec z y) as [[? E]|[? E]]; rewrite E in *; auto.
Qed.

Definition globSpec (p value : string) : Prop :=
  p = value \/
  (exists q t, p = q +:+ "*" /\ value = q +:+ t) \/
  (exists q, p = q +:+ ":*" /\ value = q).

Lemma globMatch_spec p value : globMatch p value = true <-> globSpec p value.
Proof.
  unfold globMatch, globSpec. split.
  - destruct (_ || _) eqn:E1; [intros _|].
    + apply orb_true_iff in E1 as [->%String.eqb_eq| ->%String.eqb_eq]; [|by left].
      right. left. exists "", value. done.
    + destruct (HasSuffix p ":*") eqn:E2; simpl.
      * apply HasSuffix_spec in E2 as [q ->]. rewrite TrimSuffix_append.
        destruct (HasPrefix value (q +:+ ":")) eqn:E3; simpl.
        { apply HasPrefix_spec in E3 as [t ->]. intros _. right. left.
          exists (q +:+ ":"), t. by rewrite append_assoc. }
        destruct (value =s? q) eqn:E4; simpl.
        { apply String.eqb_eq in E4 as ->. intros _. right. right. by exists q. }
        intros H. right. left.
        change (q +:+ ":*") with (q +:+ (":" +:+ "*")) in *. rewrite <- append_assoc in *.
        rewrite TrimSuffix_append in H. apply andb_prop in H as [_ H].
        apply HasPrefix_spec in H as [t ->]. by exists (q +:+ ":"), t.
      * intros [H1 H2]%andb_prop. apply HasSuffix_spec in H1 as [q ->].
        rewrite TrimSuffix_append in H2. apply HasPrefix_spec in H2 as [t ->].
        right. left. by exists q, t.
  - intros [->|[(q & t & -> & ->)|(q & -> & ->)]].
    + by rewrite String.eqb_refl, orb_true_r.
    + destruct (_ || _); [done|]. destruct (_ && _) eqn:E; [done|].
      by rewrite HasSuffix_append, TrimSuffix_append, HasPrefix_append.
    + destruct (_ || _); [done|].
      by rewrite HasSuffix_append, TrimSuffix_append, String.eqb_refl, orb_true_r.
Qed.

Lemma matchesGlob_existsb ps value : matchesGlob ps value = existsb (fun p => globMatch p value) ps.
Proof. induction ps as [|p ps IH]; simpl; [done|]. rewrite IH. by destruct (globMatch p value). Qed.

Lemma evaluate_unfold env req ps :
  evaluate env req ps =
  (if existsb (denies env req) ps then "deny"
   else if existsb (allows env req) ps then "allow" else "deny",
   map pID (List.filter (applies env req) ps),
   fold_left Z.max (map pVersion (List.filter (applies env req) ps)) 0%Z).
Proof.
  unfold evaluate. rewrite evaluate_fold. unfold specState. simpl.
  destruct (existsb (denies env req) ps); [done|].
  by destruct (existsb (allows env req) ps).
Qed.

Lemma evaluate_allow_cases env req ps :
  (evaluate env req ps).1.1 = "allow" <->
  (exists p, In p ps /\ verdictOf env req p = VAllow) /\
  ~ (exists p, In p ps /\ verdictOf env req p = VDeny).
Proof.
  rewrite evaluate_unfold. simpl.
  assert (Hd : forall v f, (forall p, f p = true <-> verdictOf env req p = v) ->
    (existsb f ps = true <-> exists p, In p ps /\ verdictOf env req p = v)).
  { intros v f Hf. rewrite existsb_exists. by setoid_rewrite Hf. }
  rewrite <- (Hd VDeny (denies env req)), <- (Hd VAllow (allows env req)).
  - clear Hd. destruct (existsb (denies env req) ps), (existsb (allows env req) ps); intuition congruence.
  - intros p. unfold allows. destruct (verdictOf env req p); intuition congruence.
  - intros p. unfold denies. destruct (verdictOf env req p); intuition congruence.
Qed.

(** ** Properties *)

(** C1: default deny and deny override.  A request is allowed exactly when
    some policy of the set allows it and no policy of the set denies it; in
    every other case the effect is "deny". *)
Theorem evaluate_allow_iff env req ps :
  ((evaluate env req ps).1.1 = "allow" <->
     (exists p, In p ps /\ verdictOf env req p = VAllow) /\
     ~ (exists p, In p ps /\ verdictOf env req p = VDeny)) /\
  ((evaluate env req ps).1.1 = "allow" \/ (evaluate env req ps).1.1 = "deny").
Proof.
  split; [apply evaluate_allow_cases|]. rewrite evaluate_unfold. simpl. repeat case_match; auto.
Qed.

(** The ids and the version reported with a decision.  The matched ids are
    those of exactly the policies that allow or deny the request, in the order
    of the policy list, and the max version is an upper bound of their
    versions that is one of them (or 0). *)
Theorem evaluate_matched env req ps :
  let '(_, ids, maxv) := evaluate env req ps in
  let matched := List.filter (applies env req) ps in
  ids = map pID matched /\
  (forall p, In p matched -> (pVersion p <= maxv)%Z) /\
  (maxv = 0%Z \/ exists p, In p matched /\ pVersion p = maxv).
Proof.
  rewrite evaluate_unfold. simpl. split; [done|].
  set (vs := map pVersion _). destruct (fold_max_spec vs 0) as (_ & H2 & H3).
  split.
  - intros p Hp. apply H2. unfold vs. by apply in_map.
  - destruct H3 as [H3|H3]; [by left|right].
    apply in_map_iff in H3 as (p & Hp & Hin). eauto.
Qed.

(** the decision does not depend on the order in which the database
    returns the policies: effect and max version are the same for every
    permutation of the set, and the matched ids are a permutation. *)
Theorem evaluate_order_independent env req ps ps' :
  Permutation ps ps' ->
  let '(e, ids, v) := evaluate env req ps in
  let '(e', ids', v') := evaluate env req ps' in
  e = e' /\ v = v' /\ Permutation ids ids'.
Proof.
  intros H. rewrite !evaluate_unfold.
  rewrite (existsb_perm (denies env req) ps ps' H), (existsb_perm (allows env req) ps ps' H).
  pose proof (filter_perm (applies env req) ps ps' H) as Hf.
  split; [done|]. split.
  - by apply fold_max_perm, Permutation_map.
  - by apply Permutation_map.
Qed.

(** glob matching.  A value matches a pattern list exactly when, for some
    pattern, it equals the pattern, or extends the text before a final "*",
    or is the text before a final ":*". *)
Theorem matchesGlob_spec ps value :
  matchesGlob ps value = true <-> exists p, In p ps /\ globSpec p value.
Proof.
  rewrite matchesGlob_existsb, existsb_exists. by setoid_rewrite globMatch_spec.
Qed.

(** A CEL policy that passes validation compiles when it is evaluated:
    the engine skips it only if the program cannot be built, the evaluation
    fails, or the expression is not true. *)
Theorem validated_cel_policy_compiles env req p l :
  decodeLogic (pLogic p) = Ok l -> Type_ l = "cel" ->
  validatePolicyLogic (Some env) (pLogic p) = None ->
  exists ast, Compile env (Expression l) = Ok ast /\
    (verdictOf (Some env) req p = VAllow <->
     exists prog, Program env ast = Ok prog /\ Eval env prog req = Ok (CelBool true)).
Proof.
  unfold validatePolicyLogic, verdictOf. intros -> Ht. rewrite Ht. simpl. unfold celMatch.
  destruct (Expression l =s? "") eqn:He; [done|].
  destruct (Compile env (Expression l)) as [ast|e] eqn:Hc; [|done].
  intros _. exists ast. split; [done|].
  split.
  - destruct (Program env ast) as [prog|e]; [|discriminate]. intros H. exists prog.
    destruct (Eval env prog req) as [[[]|]|e]; done.
  - intros (prog & -> & ->). done.
Qed.

(** ** Witnesses *)

Definition exampleCel : CelEnv := {|
  celAst := string; celProgram := string;
  Compile := fun e => if e =s? "(" then Err (ErrNew "syntax") else Ok e;
  Program := fun a => Ok a;
  Eval := fun p req => Ok (CelBool (p =s? ("subject == " +:+ SubjectID req)));
|}.

Definition exampleRequest : EvaluateRequest :=
  mkEvaluateRequest "org1" "user:1" ["g1"] "read:docs" "document:7".

Definition rbacLogic : raw :=
  Some (JObj [("type", JStr "rbac"); ("subjects", JArr [JStr "user:*"]);
              ("actions", JArr [JStr "read:*"]); ("resources", JArr [JStr "document:*"])]).

Definition examplePolicies : list Policy :=
  [mkPolicy "p1" "org1" "readers" "" rbacLogic 3 0 0;
   mkPolicy "p2" "org1" "bad" "" None 9 0 0;
   mkPolicy "p3" "org1" "cel" "" (Some (JObj [("type", JStr "cel"); ("expression", JStr "subject == user:1")])) 2 0 0].

Example evaluate_example :
  evaluate (Some exampleCel) exampleRequest examplePolicies = ("allow", ["p1"; "p3"], 3%Z).
Proof. reflexivity. Qed.

Lemma evaluate_order_independent_witness :
  Permutation examplePolicies (rev examplePolicies) /\
  (evaluate (Some exampleCel) exampleRequest (rev examplePolicies)).1.1 = "allow".
Proof.
  assert (H : Permutation examplePolicies (rev examplePolicies)) by apply Permutation_rev.
  split; [exact H|].
  pose proof (evaluate_order_independent (Some exampleCel) exampleRequest _ _ H) as He.
  vm_compute in He |- *. symmetry. apply He.
Defined.

Lemma validated_cel_policy_compiles_witness :
  exists ast, Compile exampleCel "subject == user:1" = Ok ast.
Proof.
  destruct (validated_cel_policy_compiles exampleCel exampleRequest
    (mkPolicy "p3" "org1" "cel" "" (Some (JObj [("type", JStr "cel"); ("expression", JStr "subject == user:1")])) 2 0 0)
    (mkPolicyLogic "cel" [] [] [] "subject == user:1") eq_refl eq_refl eq_refl) as (ast & H & _).
  exists ast. exact H.
Defined.
