(* ===== verification/Outbox.v ===== *)
(** The transactional outbox: shared/kafka/outbox/writer.go ([Writer.WriteTx])
    and relay.go ([Relay.drain], [Relay.updateRecord]).  The table is the list
    of its rows; the broker, the connection and the rows locked by another
    relay are inputs.  [relay_step] lets [drain] run at any time; when it does
    is decided by the goroutines of [RelayLoop]. *)

From S2P Require Import Prelude Json Pg.
From Stdlib Require Import Sorting.Sorted.

Definition maxAttempts : Z := 5.

(** A row of the outbox table (services/policy/migrations/004). *)
Record OutboxRecord := mkOutboxRecord {
  oID : string;
  oOrg : string;
  oTopic : string;
  oKey : string;
  oPayload : json;
  oStatus : string;
  oAttempts : Z;
  oLastError : option string;
  oDeadAt : option Z;
  oPublishedAt : option Z;
  oCreatedAt : Z;
}.

#[global] Instance OutboxRecord_eq_dec : EqDecision OutboxRecord.
Proof. solve_decision. Defined.

(** A message handed to the broker. *)
Definition message : Type := string * string * json.
Definition msg_of (r : OutboxRecord) : message := (oTopic r, oKey r, oPayload r).

(** ** Writer *)

Section writer.
Variable pgUUID : uuidCast.
(** The [JSONB] cast of a document. *)
Variable jsonb : json -> json.

Definition ErrJSONB : goerr := ErrNew "invalid input syntax for type json".

(** The INSERT statement; [id] and [now] are the column defaults. *)
Definition insert_outbox (id : string) (now : Z) (orgID topic key : string) (payload : raw)
  (tbl : list OutboxRecord) : res (list OutboxRecord * unit) :=
  org <-? uuid_arg pgUUID orgID;
  match payload with
  | None => Err ErrJSONB
  | Some j =>
      Ok (tbl ++ [mkOutboxRecord id org topic key (jsonb j) "pending" 0 None None None now], tt)
  end.

(** The table is a part of the database of the service. *)
Context {D : Type}.
Variable tbl_of : D -> list OutboxRecord.
Variable set_tbl : list OutboxRecord -> D -> D.

Definition WriteTx (tx : Tx D) (id : string) (now : Z)
  (orgID topic key : string) (payload : raw) (fault : option goerr) : Tx D * option goerr :=
  match tx_exec tx fault (fun db =>
          r <-? insert_outbox id now orgID topic key payload (tbl_of db);
          Ok (set_tbl r.1 db, r.2)) with
  | (tx', Err e) => (tx', Some (ErrWrap "write to outbox: " e ""))
  | (tx', Ok _) => (tx', None)
  end.
End writer.

(** ** Relay *)

(** [publisher.Publish]: on an error the message may still have reached the
    broker. *)
Inductive pubOutcome := PubOk | PubErr (e : goerr) (delivered : bool).

(** The table on its own. *)
Definition WriteRow (pgUUID : uuidCast) (jsonb : json -> json) :=
  WriteTx pgUUID jsonb (fun t : list OutboxRecord => t) (fun t _ => t).

Section relay.
(** [NOW()] of the transaction. *)
Variable now : Z.

(** [UPDATE ... WHERE id = $n]. *)
Definition update_id (id : string) (f : OutboxRecord -> OutboxRecord)
  (tbl : list OutboxRecord) : list OutboxRecord :=
  map (fun r => if oID r =s? id then f r else r) tbl.

Definition set_failed (status lastErr : string) (attempts : Z) (isDead : bool)
  (r : OutboxRecord) : OutboxRecord :=
  mkOutboxRecord (oID r) (oOrg r) (oTopic r) (oKey r) (oPayload r) status attempts
    (Some lastErr) (if isDead then Some now else oDeadAt r) (oPublishedAt r) (oCreatedAt r).

Definition set_published (attempts : Z) (r : OutboxRecord) : OutboxRecord :=
  mkOutboxRecord (oID r) (oOrg r) (oTopic r) (oKey r) (oPayload r) "published" attempts
    (oLastError r) (oDeadAt r) (Some now) (oCreatedAt r).

(** The error of the statement is only logged. *)
Definition updateRecord (tx : Tx (list OutboxRecord)) (id status lastErr : string)
  (attempts : Z) (isDead : bool) (fault : option goerr) : Tx (list OutboxRecord) :=
  (tx_exec tx fault (fun tbl => Ok (update_id id (set_failed status lastErr attempts isDead) tbl, tt))).1.

(** The WHERE clause of the SELECT. *)
Definition eligible (r : OutboxRecord) : bool :=
  ((oStatus r =s? "pending") || ((oStatus r =s? "failed") && (oAttempts r <? maxAttempts)%Z))
  && match oDeadAt r with None => true | Some _ => false end.

Definition older (a b : OutboxRecord) : bool := (oCreatedAt a <=? oCreatedAt b)%Z.

Definition batch_limit : nat := 100.

(** [FOR UPDATE SKIP LOCKED LIMIT 100]; [locked] tells the rows another
    transaction holds. *)
Definition fetch (locked : string -> bool) (tbl : list OutboxRecord) : list OutboxRecord :=
  take batch_limit
    (order_by older (List.filter (fun r => eligible r && negb (locked (oID r))) tbl)).

(** What happens to one record: broker, then the statement that records it. *)
Record recordFaults := mkRecordFaults { rfPublish : pubOutcome; rfExec : option goerr }.

Definition drainOne (f : string -> recordFaults) (st : Tx (list OutboxRecord) * list message)
  (rec : OutboxRecord) : Tx (list OutboxRecord) * list message :=
  let '(tx, sent) := st in
  match rfPublish (f (oID rec)) with
  | PubErr err delivered =>
      let sent' := if delivered then sent ++ [msg_of rec] else sent in
      let newAttempts := (oAttempts rec + 1)%Z in
      if (maxAttempts <=? newAttempts)%Z
      then (updateRecord tx (oID rec) "dead" (error_text err) newAttempts true
              (rfExec (f (oID rec))), sent')
      else (updateRecord tx (oID rec) "failed" (error_text err) newAttempts false
              (rfExec (f (oID rec))), sent')
  | PubOk =>
      ((tx_exec tx (rfExec (f (oID rec)))
          (fun tbl => Ok (update_id (oID rec) (set_published (oAttempts rec + 1)) tbl, tt))).1,
       sent ++ [msg_of rec])
  end.

Record drainFaults := mkDrainFaults {
  dfBegin : option goerr;
  dfQuery : option goerr;
  dfLocked : string -> bool;
  dfScan : string -> bool;          (* rows whose Scan fails are skipped *)
  dfRecord : string -> recordFaults;
  dfCommit : commitOutcome;
}.

(** The table afterwards and the messages handed to the broker. *)
Definition drain (f : drainFaults) (tbl : list OutboxRecord)
  : list OutboxRecord * list message :=
  match dfBegin f with
  | Some _ => (tbl, [])
  | None =>
      match dfQuery f with
      | Some _ => (tbl, [])
      | None =>
          let records := List.filter (fun r => negb (dfScan f (oID r))) (fetch (dfLocked f) tbl) in
          match records with
          | [] => (tbl, [])
          | _ =>
              let '(tx, sent) := fold_left (drainOne (dfRecord f)) records (Begin tbl, []) in
              ((Commit tbl tx (dfCommit f)).1, sent)
          end
      end
  end.
End relay.

(** ** Specification: the life of one record *)

(** What one delivery attempt makes of a record. *)
Definition advance (now : Z) (o : pubOutcome) (r : OutboxRecord) : OutboxRecord :=
  match o with
  | PubOk => set_published now (oAttempts r + 1) r
  | PubErr e _ =>
      if (maxAttempts <=? oAttempts r + 1)%Z
      then set_failed now "dead" (error_text e) (oAttempts r + 1) true r
      else set_failed now "failed" (error_text e) (oAttempts r + 1) false r
  end.

Definition sent_by (o : pubOutcome) (r : OutboxRecord) : list message :=
  match o with PubOk | PubErr _ true => [msg_of r] | PubErr _ false => [] end.

Definition in_batch (batch : list OutboxRecord) (r : OutboxRecord) : bool :=
  existsb (fun b => oID b =s? oID r) batch.

Definition advance_batch (now : Z) (f : string -> recordFaults) (batch tbl : list OutboxRecord)
  : list OutboxRecord :=
  map (fun r => if in_batch batch r then advance now (rfPublish (f (oID r))) r else r) tbl.

(** The rows one drain works on. *)
Definition batch_of (f : drainFaults) (tbl : list OutboxRecord) : list OutboxRecord :=
  List.filter (fun r => negb (dfScan f (oID r))) (fetch (dfLocked f) tbl).

Definition ids (tbl : list OutboxRecord) : list string := map oID tbl.

(** The states of a record. *)
Definition wf_record (r : OutboxRecord) : Prop :=
  (oStatus r = "pending" /\ oAttempts r = 0%Z /\ oDeadAt r = None /\ oPublishedAt r = None) \/
  (oStatus r = "failed" /\ (1 <= oAttempts r < maxAttempts)%Z /\ oDeadAt r = None /\ oPublishedAt r = None) \/
  (oStatus r = "published" /\ (1 <= oAttempts r <= maxAttempts)%Z /\ oDeadAt r = None /\ oPublishedAt r <> None) \/
  (oStatus r = "dead" /\ oAttempts r = maxAttempts /\ oDeadAt r <> None /\ oPublishedAt r = None).

Definition settled (r : OutboxRecord) : Prop := oStatus r = "published" \/ oStatus r = "dead".

Lemma wf_eligible r : wf_record r -> eligible r = true <-> ~ settled r.
Proof.
  unfold settled, eligible.
  intros [(->&->&->&_)|[(->&Ha&->&_)|[(->&Ha&->&_)|(->&->&_&_)]]]; simpl.
  - split; [intros _ [?|?]; congruence|done].
  - rewrite andb_true_r. split; [intros _ [?|?]; congruence|intros _; apply Z.ltb_lt, Ha].
  - split; [done|intros H; exfalso; apply H; auto].
  - split; [done|intros H; exfalso; apply H; auto].
Qed.

Lemma wf_attempts r : wf_record r -> eligible r = true -> (0 <= oAttempts r < maxAttempts)%Z.
Proof.
  unfold maxAttempts. intros Hw He%wf_eligible; [|done]. unfold settled in He.
  destruct Hw as [(?&->&_)|[(?&?&_)|[(?&_)|(?&_)]]]; unfold maxAttempts in *; tauto || lia.
Qed.

Lemma advance_id now o r : oID (advance now o r) = oID r.
Proof. destruct o; simpl; [done|by case_match]. Qed.

Lemma advance_msg now o r : msg_of (advance now o r) = msg_of r.
Proof. destruct o; simpl; [done|by case_match]. Qed.

Lemma advance_wf now o r :
  wf_record r -> eligible r = true -> wf_record (advance now o r).
Proof.
  intros Hw He. pose proof (wf_attempts r Hw He) as Ha. apply wf_eligible in He; [|done].
  assert (Hn : oDeadAt r = None /\ oPublishedAt r = None).
  { unfold settled in He. destruct Hw as [(?&?&?&?)|[(?&?&?&?)|[(?&_)|(?&_)]]]; tauto. }
  destruct Hn as [Hd Hp]. unfold wf_record. destruct o as [|e d]; simpl.
  - right. right. left. rewrite Hd. split; [done|]. split; [lia|done].
  - destruct (maxAttempts <=? oAttempts r + 1)%Z eqn:E; bool_to_prop; simpl.
    + right. right. right. split; [done|]. split; [lia|done].
    + right. left. split; [done|]. split; [lia|done].
Qed.

(** ** The loop of [drain] *)

#[local] Arguments drainOne : simpl never.

Lemma NoDup_ids_In tbl r r' : NoDup (ids tbl) -> In r tbl -> In r' tbl -> oID r = oID r' -> r = r'.
Proof. apply NoDup_map_In. Qed.

Lemma drainOne_step now f tbl sent rec tx' sent' :
  NoDup (ids tbl) -> In rec tbl ->
  drainOne now f (mkTx tbl true, sent) rec = (tx', sent') ->
  sent' = sent ++ sent_by (rfPublish (f (oID rec))) rec /\
  (txOpen tx' = true ->
     txDB tx' = map (fun r => if oID rec =s? oID r
                              then advance now (rfPublish (f (oID rec))) r else r) tbl).
Proof.
  intros Hn Hin. unfold drainOne, updateRecord, tx_exec. simpl.
  assert (Hu : forall g, (forall r, In r tbl -> oID r = oID rec ->
                 g r = advance now (rfPublish (f (oID rec))) r) ->
    update_id (oID rec) g tbl =
    map (fun r => if oID rec =s? oID r then advance now (rfPublish (f (oID rec))) r else r) tbl).
  { intros g Hg. unfold update_id. apply map_ext_in. intros r Hr.
    rewrite (String.eqb_sym (oID rec)).
    destruct (oID r =s? oID rec) eqn:E; bool_to_prop; auto. }
  destruct (rfPublish (f (oID rec))) as [|err delivered] eqn:Ep.
  - destruct (rfExec _); intros [= <- <-]; simpl; (split; [done|]); try done.
    intros _. apply Hu. intros r Hr He. by rewrite (NoDup_ids_In tbl r rec).
  - assert (Hs : (if delivered then sent ++ [msg_of rec] else sent) =
                 sent ++ sent_by (PubErr err delivered) rec).
    { destruct delivered; simpl; [done|by rewrite app_nil_r]. }
    destruct (maxAttempts <=? oAttempts rec + 1)%Z eqn:Ea, (rfExec (f (oID rec)));
      intros [= <- <-]; simpl; (split; [done|]); try done;
      intros _; apply Hu; intros r Hr He; rewrite (NoDup_ids_In tbl r rec) by done;
      unfold advance; by rewrite Ea.
Qed.

Lemma drainOne_closed now f tx sent rec :
  txOpen tx = false ->
  txOpen (drainOne now f (tx, sent) rec).1 = false /\
  (drainOne now f (tx, sent) rec).2 = sent ++ sent_by (rfPublish (f (oID rec))) rec.
Proof.
  intros Ho. unfold drainOne, updateRecord, tx_exec. rewrite Ho.
  destruct (rfPublish _) as [|e []]; simpl; try case_match; simpl;
    rewrite ?app_nil_r; done.
Qed.

Lemma drain_loop_closed now f batch tx sent :
  txOpen tx = false ->
  let st := fold_left (drainOne now f) batch (tx, sent) in
  st.2 = sent ++ flat_map (fun r => sent_by (rfPublish (f (oID r))) r) batch /\
  txOpen st.1 = false.
Proof.
  revert tx sent. induction batch as [|r batch IH]; intros tx sent Ho; simpl; [by rewrite app_nil_r|].
  destruct (drainOne_closed now f tx sent r Ho) as [H1 H2].
  destruct (drainOne now f (tx, sent) r) as [tx1 s1]. simpl in *. subst s1.
  destruct (IH tx1 (sent ++ sent_by (rfPublish (f (oID r))) r) H1) as [-> H3].
  by rewrite <- app_assoc.
Qed.

(** One iteration on an open transaction, for the loop invariant. *)
Definition mark now (f : string -> recordFaults) (rec r : OutboxRecord) : OutboxRecord :=
  if oID rec =s? oID r then advance now (rfPublish (f (oID rec))) r else r.

Lemma mark_id now f rec r : oID (mark now f rec r) = oID r.
Proof. unfold mark. case_match; [apply advance_id|done]. Qed.

Lemma mark_other now f rec r : oID rec <> oID r -> mark now f rec r = r.
Proof. intros Hn. unfold mark. apply String.eqb_neq in Hn. by rewrite Hn. Qed.

Lemma map_mark_ids now f rec tbl : ids (map (mark now f rec) tbl) = ids tbl.
Proof. unfold ids. rewrite map_map. apply map_ext, mark_id. Qed.

Lemma advance_batch_cons now f rec batch tbl :
  ~ In (oID rec) (ids batch) ->
  advance_batch now f batch (map (mark now f rec) tbl) = advance_batch now f (rec :: batch) tbl.
Proof.
  intros Hn. unfold advance_batch. rewrite map_map. apply map_ext. intros r.
  unfold in_batch. simpl. rewrite mark_id. unfold mark.
  destruct (oID rec =s? oID r) eqn:Ee; simpl; [|done]. bool_to_prop. rewrite <- Ee in *.
  destruct (existsb _ batch) eqn:Ex; [|done].
  apply existsb_exists in Ex as (b & Hb1 & Hb2). bool_to_prop. destruct Hn.
  rewrite <- Hb2. by apply in_map.
Qed.

Lemma drain_loop now f batch : forall tbl sent,
  NoDup (ids tbl) -> NoDup (ids batch) -> (forall r, In r batch -> In r tbl) ->
  let st := fold_left (drainOne now f) batch (mkTx tbl true, sent) in
  st.2 = sent ++ flat_map (fun r => sent_by (rfPublish (f (oID r))) r) batch /\
  (txOpen st.1 = true -> txDB st.1 = advance_batch now f batch tbl).
Proof.
  induction batch as [|rec batch IH]; intros tbl sent Hn Hb Hin; simpl.
  { split; [by rewrite app_nil_r|]. intros _. unfold advance_batch. simpl. by rewrite map_id. }
  destruct (drainOne now f (mkTx tbl true, sent) rec) as [[tbl' op] sent'] eqn:E.
  destruct (drainOne_step _ _ _ _ _ _ _ Hn (Hin rec (or_introl eq_refl)) E) as [-> Htbl].
  destruct op; simpl in Htbl.
  - specialize (Htbl eq_refl). fold (mark now f rec) in Htbl.
    apply NoDup_cons in Hb as [Hrec Hb].
    assert (Hrec' : ~ In (oID rec) (ids batch)) by (by rewrite <- list_elem_of_In).
    destruct (IH tbl' (sent ++ sent_by (rfPublish (f (oID rec))) rec)) as [H1 H2]; try done.
    + by rewrite Htbl, map_mark_ids.
    + intros r Hr. rewrite Htbl. apply in_map_iff. exists r. split; [|apply Hin; by right].
      apply mark_other. intros He. apply Hrec'. rewrite He. by apply in_map.
    + split; [by rewrite H1, <- app_assoc|].
      intros Ho. rewrite (H2 Ho), Htbl. by apply advance_batch_cons.
  - destruct (drain_loop_closed now f batch (mkTx tbl' false)
      (sent ++ sent_by (rfPublish (f (oID rec))) rec) eq_refl) as [H1 H2].
    rewrite H1, <- app_assoc, H2. done.
Qed.

(** ** The batch *)

Lemma fetch_sub locked tbl : fetch locked tbl ⊆+ List.filter eligible tbl.
Proof.
  unfold fetch. etransitivity; [apply submseteq_take|]. rewrite order_by_perm.
  induction tbl as [|r tbl IH]; simpl; [constructor|].
  destruct (eligible r); simpl; [|done]. destruct (negb _); by constructor.
Qed.

Lemma batch_sub f tbl : batch_of f tbl ⊆+ List.filter eligible tbl.
Proof.
  unfold batch_of. etransitivity; [apply sublist_submseteq, filter_sublist|]. apply fetch_sub.
Qed.

Lemma batch_In f tbl r : In r (batch_of f tbl) -> In r tbl /\ eligible r = true.
Proof. intros H. by apply (submseteq_In _ _ _ (batch_sub f tbl)), filter_In in H. Qed.

Lemma batch_NoDup f tbl : NoDup (ids tbl) -> NoDup (ids (batch_of f tbl)).
Proof.
  apply NoDup_map_sub. etransitivity; [apply batch_sub|]. apply sublist_submseteq, filter_sublist.
Qed.

Lemma in_batch_spec f tbl r :
  NoDup (ids tbl) -> In r tbl ->
  in_batch (batch_of f tbl) r = true -> In r (batch_of f tbl).
Proof.
  intros Hn Hr (b & Hb & He)%existsb_exists. bool_to_prop.
  destruct (batch_In _ _ _ Hb) as [Hb' _]. by rewrite <- (NoDup_ids_In tbl b r).
Qed.

(** The messages of the drain, whether or not it commits. *)
Definition sends (f : drainFaults) (tbl : list OutboxRecord) : list message :=
  flat_map (fun r => sent_by (rfPublish (dfRecord f (oID r))) r) (batch_of f tbl).

Lemma drain_cases now f tbl tbl' sent :
  NoDup (ids tbl) -> drain now f tbl = (tbl', sent) ->
  (tbl' = tbl /\ sent = []) \/
  (sent = sends f tbl /\
   (tbl' = tbl \/ tbl' = advance_batch now (dfRecord f) (batch_of f tbl) tbl)).
Proof.
  intros Hn. unfold drain, sends. fold (batch_of f tbl).
  destruct (dfBegin f); [intros [= <- <-]; auto|].
  destruct (dfQuery f); [intros [= <- <-]; auto|].
  pose proof (drain_loop now (dfRecord f) (batch_of f tbl) tbl [] Hn (batch_NoDup f tbl Hn)
    (fun r H => proj1 (batch_In f tbl r H))) as [H1 H2].
  unfold Begin. destruct (batch_of f tbl) as [|b l]; [intros [= <- <-]; auto|].
  destruct (fold_left _ _ _) as [tx s]. simpl in H1, H2. subst s. intros [= <- <-].
  right. split; [done|].
  destruct (Commit tbl tx (dfCommit f)) as [d e] eqn:Ec.
  destruct (Commit_cases _ _ _ _ _ Ec) as [[-> _]|[-> Ho]]; simpl; auto.
Qed.

(** ** Reachable states of the table and the broker *)

(** A committed [WriteTx] of a fresh row, or one drain of some relay. *)
Inductive relay_step (pgUUID : uuidCast) (jsonb : json -> json)
  : list OutboxRecord * list message -> list OutboxRecord * list message -> Prop :=
| step_write tbl log id now orgID topic key payload fault tx :
    ~ In id (ids tbl) ->
    WriteRow pgUUID jsonb (Begin tbl) id now orgID topic key payload fault = (tx, None) ->
    relay_step pgUUID jsonb (tbl, log) (txDB tx, log)
| step_drain tbl log now f tbl' sent :
    drain now f tbl = (tbl', sent) ->
    relay_step pgUUID jsonb (tbl, log) (tbl', log ++ sent).

Definition outbox_inv (st : list OutboxRecord * list message) : Prop :=
  NoDup (ids st.1) /\ Forall wf_record st.1 /\
  Forall (fun r => oStatus r = "published" -> In (msg_of r) st.2) st.1.

Lemma advance_batch_In now f g tbl r' :
  NoDup (ids tbl) -> In r' (advance_batch now g (batch_of f tbl) tbl) ->
  exists r, In r tbl /\
    (r' = r \/ (In r (batch_of f tbl) /\ r' = advance now (rfPublish (g (oID r))) r)).
Proof.
  intros Hn (r & <- & Hr)%in_map_iff. exists r. split; [done|].
  destruct (in_batch _ r) eqn:E; [right|by left]. split; [|done].
  by apply in_batch_spec.
Qed.

Lemma advance_batch_ids now g b tbl : ids (advance_batch now g b tbl) = ids tbl.
Proof.
  unfold ids, advance_batch. rewrite map_map. apply map_ext. intros r.
  case_match; [apply advance_id|done].
Qed.

Lemma drain_inv now f tbl log tbl' sent :
  outbox_inv (tbl, log) -> drain now f tbl = (tbl', sent) -> outbox_inv (tbl', log ++ sent).
Proof.
  intros (Hn & Hw & Hp) Hd. simpl in *.
  assert (Hsame : outbox_inv (tbl, log ++ sent)).
  { split; [done|]. split; [done|]. simpl. eapply Forall_impl; [exact Hp|].
    intros r Hr Hs. apply in_or_app. auto. }
  destruct (drain_cases _ _ _ _ _ Hn Hd) as [[-> _]|[-> [->| ->]]]; [done|done|].
  split; [cbn [fst]; by rewrite advance_batch_ids|]. rewrite !Forall_forall in *.
  split; intros r' Hr'%list_elem_of_In; simpl in *;
    destruct (advance_batch_In _ _ _ _ _ Hn Hr') as (r & Hr & [->|[Hb ->]]);
    rewrite <- list_elem_of_In in Hr.
  - auto.
  - apply advance_wf; [auto|]. by eapply batch_In.
  - intros Hs. apply in_or_app. left. auto.
  - intros Hs. apply in_or_app. right. rewrite advance_msg. unfold sends.
    apply in_flat_map. exists r. split; [done|].
    destruct (rfPublish _); simpl in *; [by left|]. by case_match.
Qed.

Lemma write_inv pgUUID jsonb tbl log id now orgID topic key payload fault tx :
  outbox_inv (tbl, log) -> ~ In id (ids tbl) ->
  WriteRow pgUUID jsonb (Begin tbl) id now orgID topic key payload fault = (tx, None) ->
  outbox_inv (txDB tx, log).
Proof.
  intros (Hn & Hw & Hp) Hid. unfold WriteRow, WriteTx.
  destruct (tx_exec _ _ _) as [tx' [a|e]] eqn:E; intros [= ->].
  apply tx_exec_ok in E as (_ & _ & E & _). unfold insert_outbox in E. simpl in *.
  apply res_bind_ok in E as ([tbl' u] & E & Hx). injection Hx as <- _.
  apply res_bind_ok in E as (org & _ & E). destruct payload; [|done].
  injection E as <- _. unfold outbox_inv, ids. simpl. rewrite map_app. simpl.
  rewrite !Forall_app, !Forall_singleton. split; [|split].
  - apply NoDup_app. split; [done|]. split; [|apply NoDup_singleton].
    intros x Hx ->%list_elem_of_singleton. by rewrite list_elem_of_In in Hx.
  - split; [done|]. by left.
  - split; [done|]. done.
Qed.

Lemma relay_step_inv pgUUID jsonb st st' :
  outbox_inv st -> relay_step pgUUID jsonb st st' -> outbox_inv st'.
Proof.
  intros Hi Hs. destruct Hs; [by eapply write_inv|by eapply drain_inv].
Qed.

Lemma relay_reachable_inv pgUUID jsonb st :
  rtc (relay_step pgUUID jsonb) ([], []) st -> outbox_inv st.
Proof.
  apply (rtc_ind_r outbox_inv).
  - split; [constructor|]. by split.
  - intros s1 s2 _ Hs Hi. by eapply relay_step_inv.
Qed.

(** ** Progress *)

(** Nothing fails. *)
Definition quiet (f : drainFaults) : Prop :=
  dfBegin f = None /\ dfQuery f = None /\ dfCommit f = CommitOk /\
  forall id, dfLocked f id = false /\ dfScan f id = false /\
    dfRecord f id = mkRecordFaults PubOk None.

Definition backlog (tbl : list OutboxRecord) : nat := length (List.filter eligible tbl).

Lemma quiet_batch f tbl :
  quiet f -> batch_of f tbl = take batch_limit (order_by older (List.filter eligible tbl)).
Proof.
  intros (_ & _ & _ & Hq). unfold batch_of, fetch.
  rewrite (List.filter_ext (fun r => eligible r && negb (dfLocked f (oID r))) eligible).
  - apply forallb_filter_id, forallb_forall. intros r _. by destruct (Hq (oID r)) as (_ & -> & _).
  - intros r. destruct (Hq (oID r)) as (-> & _). by rewrite andb_true_r.
Qed.

Lemma quiet_open now f batch : forall tx sent,
  quiet f -> txOpen tx = true ->
  txOpen (fold_left (drainOne now (dfRecord f)) batch (tx, sent)).1 = true.
Proof.
  induction batch as [|r batch IH]; intros tx sent Hq Ho; simpl; [done|].
  destruct (drainOne now (dfRecord f) (tx, sent) r) as [tx' s'] eqn:E.
  apply IH; [done|]. destruct Hq as (_ & _ & _ & Hq). destruct (Hq (oID r)) as (_ & _ & Hr).
  unfold drainOne, tx_exec in E. rewrite Hr, Ho in E. simpl in E. by injection E as <- _.
Qed.

Lemma quiet_drain now f tbl :
  NoDup (ids tbl) -> quiet f ->
  drain now f tbl =
  (advance_batch now (dfRecord f) (batch_of f tbl) tbl, map msg_of (batch_of f tbl)).
Proof.
  intros Hn Hq. unfold drain. fold (batch_of f tbl).
  pose proof (drain_loop now (dfRecord f) (batch_of f tbl) tbl [] Hn (batch_NoDup f tbl Hn)
    (fun r H => proj1 (batch_In f tbl r H))) as [H1 H2].
  pose proof (quiet_open now f (batch_of f tbl) (Begin tbl) [] Hq eq_refl) as Ho.
  destruct Hq as (Hb & Hqu & Hc & Hq). rewrite Hb, Hqu.
  assert (Hs : flat_map (fun r => sent_by (rfPublish (dfRecord f (oID r))) r) (batch_of f tbl) =
               map msg_of (batch_of f tbl)).
  { generalize (batch_of f tbl). induction l as [|r l IH]; simpl; [done|].
    destruct (Hq (oID r)) as (_ & _ & ->). simpl. by rewrite IH. }
  unfold Begin in *. destruct (batch_of f tbl) as [|b l] eqn:Eb.
  - unfold advance_batch. simpl. by rewrite map_id.
  - destruct (fold_left _ _ _) as [tx s]. simpl in H1, H2, Ho. subst s.
    unfold Commit. rewrite Ho, Hc, (H2 Ho). simpl in *. by rewrite Hs.
Qed.

Lemma backlog_drain now f tbl :
  NoDup (ids tbl) -> Forall wf_record tbl -> quiet f ->
  backlog (drain now f tbl).1 = backlog tbl - batch_limit.
Proof.
  intros Hn Hw Hq. rewrite quiet_drain by done. simpl.
  assert (Hlen : length (batch_of f tbl) = Nat.min batch_limit (backlog tbl)).
  { rewrite (quiet_batch f tbl Hq), length_take, (Permutation_length (order_by_perm _ _)). done. }
  assert (Hp : length (List.filter (in_batch (batch_of f tbl)) tbl) = length (batch_of f tbl)).
  { rewrite <- (length_map oID), <- (length_map oID (batch_of f tbl)). apply Permutation_length.
    apply NoDup_Permutation.
    - eapply NoDup_map_sub; [apply sublist_submseteq, filter_sublist|done].
    - by apply batch_NoDup.
    - intros x. rewrite !list_elem_of_In, !in_map_iff. split.
      + intros (r & <- & [Hr Hb]%filter_In). exists r. split; [done|]. by apply in_batch_spec.
      + intros (r & <- & Hr). exists r. split; [done|]. apply filter_In.
        split; [by eapply batch_In|]. apply existsb_exists. exists r.
        split; [done|apply String.eqb_refl]. }
  rewrite Hlen in Hp.
  assert (Hsub : forall r, In r tbl -> in_batch (batch_of f tbl) r = true -> eligible r = true).
  { intros r Hr Hb. eapply batch_In. by apply in_batch_spec. }
  enough (Hc : backlog (advance_batch now (dfRecord f) (batch_of f tbl) tbl) +
    length (List.filter (in_batch (batch_of f tbl)) tbl) = backlog tbl) by lia.
  clear Hp Hlen Hn. revert Hsub Hw. generalize (batch_of f tbl). intros batch Hsub Hw.
  destruct Hq as (_ & _ & _ & Hq). unfold backlog, advance_batch.
  induction Hw as [|r tbl Hr Hw IH]; simpl; [done|].
  assert (IH' := IH (fun r' H => Hsub r' (or_intror H))).
  destruct (in_batch batch r) eqn:E.
  - rewrite (Hsub r (or_introl eq_refl) E). destruct (Hq (oID r)) as (_ & _ & ->). simpl. lia.
  - destruct (eligible r); simpl; lia.
Qed.

(** ** Properties *)

Section properties.
Variable pgUUID : uuidCast.
Variable jsonb : json -> json.
Definition reachable (st : list OutboxRecord * list message) : Prop :=
  rtc (relay_step pgUUID jsonb) ([], []) st.

(** C10: life cycle of an outbox record.  In every reachable state of the
    table a record is pending with no attempt, failed with one to four
    attempts, published, or dead after exactly five attempts, and a record
    marked published has been handed to the broker. *)
Theorem outbox_lifecycle tbl log r :
  reachable (tbl, log) -> In r tbl ->
  wf_record r /\ (oStatus r = "published" -> In (msg_of r) log).
Proof.
  intros (_ & Hw & Hp)%(relay_reachable_inv pgUUID jsonb) Hr. rewrite !Forall_forall in *. simpl in *.
  rewrite <- list_elem_of_In in Hr. auto.
Qed.

(** no event is lost and settled records are final.  A drain keeps every
    row: it leaves the row as it is, or records one attempt on a row that
    was neither published nor dead, which marks it published exactly when
    the broker accepted the message and dead exactly at the fifth failure. *)
Theorem drain_row_step tbl log now f tbl' sent :
  reachable (tbl, log) -> drain now f tbl = (tbl', sent) ->
  Forall2 (fun r r' =>
    r' = r \/
    (~ settled r /\ oAttempts r' = (oAttempts r + 1)%Z /\ msg_of r' = msg_of r /\ oID r' = oID r /\
     (oStatus r' = "published" <-> rfPublish (dfRecord f (oID r)) = PubOk) /\
     (oStatus r' = "dead" <-> rfPublish (dfRecord f (oID r)) <> PubOk /\ oAttempts r' = maxAttempts)))
    tbl tbl'.
Proof.
  intros (Hn & Hw & _)%(relay_reachable_inv pgUUID jsonb) Hd. simpl in *.
  assert (Hsame : tbl' = tbl \/ tbl' = advance_batch now (dfRecord f) (batch_of f tbl) tbl).
  { destruct (drain_cases _ _ _ _ _ Hn Hd) as [[-> _]|[_ H]]; auto. }
  destruct Hsame as [->| ->].
  - apply Forall_Forall2_diag, Forall_forall. auto.
  - apply Forall2_map_self. intros r Hr.
    destruct (in_batch (batch_of f tbl) r) eqn:E; [right|by left].
    apply in_batch_spec in E as [_ He]%batch_In; [|done|done].
    rewrite Forall_forall in Hw. assert (Hwr : wf_record r) by (by apply Hw, list_elem_of_In).
    pose proof (wf_attempts r Hwr He) as Ha. apply wf_eligible in He; [|done].
    split; [done|]. unfold advance.
    destruct (rfPublish _) as [|e d]; simpl; [|destruct (_ <=? _)%Z eqn:Em]; simpl; bool_to_prop;
      repeat split; intros; destruct_and?; try done; try congruence; try lia.
Qed.

(** progress.  While nothing fails, the relay delivers: each drain takes
    the hundred oldest eligible records, and after as many drains as
    hundreds of eligible records every record is published or dead. *)
Theorem relay_progress tbl log fs :
  reachable (tbl, log) ->
  Forall (fun nf => quiet nf.2) fs -> backlog tbl <= batch_limit * length fs ->
  let tbl' := fold_left (fun t nf => (drain nf.1 nf.2 t).1) fs tbl in
  ids tbl' = ids tbl /\ Forall settled tbl'.
Proof.
  intros Hi%(relay_reachable_inv pgUUID jsonb) Hq. revert tbl log Hi.
  induction Hq as [|[now f] fs Hf _ IH]; simpl; intros tbl log Hi Hb.
  - split; [done|]. destruct Hi as (_ & Hw & _). simpl in Hw.
    assert (H0 : backlog tbl = 0) by lia. unfold backlog in H0.
    apply nil_length_inv in H0. rewrite Forall_forall in *. intros r Hr.
    destruct (eligible r) eqn:E.
    + assert (Hin : In r (List.filter eligible tbl)) by (apply filter_In; by rewrite <- list_elem_of_In).
      by rewrite H0 in Hin.
    + assert (He := wf_eligible r (Hw r Hr)). rewrite E in He. unfold settled in *.
      destruct (decide (oStatus r = "published")); [by left|].
      destruct (decide (oStatus r = "dead")); [by right|].
      assert (false = true); [|done]. apply He. by intros [?|?].
  - destruct (drain now f tbl) as [t s] eqn:Ed. simpl.
    destruct (IH t (log ++ s)) as [H1 H2].
    + by eapply drain_inv.
    + destruct Hi as (Hn & Hw & _). pose proof (backlog_drain now f tbl Hn Hw Hf) as Hbl.
      rewrite Ed in Hbl. simpl in *. unfold batch_limit in *. lia.
    + split; [|done]. rewrite H1. destruct Hi as (Hn & _). simpl in Hn, Hf.
      rewrite (quiet_drain now f tbl Hn Hf) in Ed. injection Ed as <- _. apply advance_batch_ids.
Qed.

(** Order of delivery.  The messages of a drain without faults are sent
    by age of their records. *)
Theorem drain_order tbl log now f :
  reachable (tbl, log) -> quiet f ->
  (drain now f tbl).2 = map msg_of (batch_of f tbl) /\
  StronglySorted (fun a b => (oCreatedAt a <= oCreatedAt b)%Z) (batch_of f tbl) /\
  (forall r, In r tbl -> eligible r = true -> ~ In r (batch_of f tbl) ->
     forall b, In b (batch_of f tbl) -> (oCreatedAt b <= oCreatedAt r)%Z).
Proof.
  intros (Hn & _)%(relay_reachable_inv pgUUID jsonb) Hq. simpl in Hn.
  rewrite (quiet_drain now f tbl Hn Hq). split; [done|].
  rewrite (quiet_batch f tbl Hq).
  set (l := order_by older (List.filter eligible tbl)).
  assert (Hs : StronglySorted (fun a b => (oCreatedAt a <= oCreatedAt b)%Z) l).
  { assert (Ho : StronglySorted (fun a b => older a b = true) l).
    { apply order_by_sorted; unfold older; intros; rewrite ?Z.leb_le in *; lia. }
    clear -Ho. induction Ho as [|x l _ IH Hx]; constructor; [done|].
    eapply Forall_impl; [exact Hx|]. intros y. apply Z.leb_le. }
  assert (Hl : l = take batch_limit l ++ drop batch_limit l) by (by rewrite take_drop).
  rewrite Hl in Hs. apply StronglySorted_split in Hs as [Hs1 Hs2]. split; [done|].
  intros r Hr He Hb b Hbb. apply Hs2; [done|].
  assert (Hrl : In r l) by (apply order_by_In, filter_In; done).
  rewrite Hl in Hrl. by apply in_app_or in Hrl as [?|Hrd].
Qed.
End properties.

(** ** Witnesses *)

Definition exampleUUID : uuidCast := fun s => if s =s? "" then None else Some s.

Definition examplePayload : json := JObj [("event_type", JStr "policy.created")].

Definition exampleRow (id : string) (at_ : Z) : OutboxRecord :=
  mkOutboxRecord id "org1" "policy.changes" "p1" examplePayload "pending" 0 None None None at_.

Definition exampleTable : list OutboxRecord := [exampleRow "r1" 10; exampleRow "r2" 5].

Definition quietFaults : drainFaults :=
  mkDrainFaults None None (fun _ => false) (fun _ => false)
    (fun _ => mkRecordFaults PubOk None) CommitOk.

(** The broker refuses every message. *)
Definition brokerDown : drainFaults :=
  mkDrainFaults None None (fun _ => false) (fun _ => false)
    (fun _ => mkRecordFaults (PubErr (ErrNew "kafka down") false) None) CommitOk.

Lemma exampleTable_reachable :
  reachable exampleUUID (fun j => j) (exampleTable, []).
Proof.
  eapply rtc_l.
  { apply (step_write exampleUUID (fun j => j) [] [] "r1" 10 "org1" "policy.changes" "p1"
      (Some examplePayload) None); [by intros []|reflexivity]. }
  eapply rtc_l.
  { apply (step_write exampleUUID (fun j => j) [exampleRow "r1" 10] [] "r2" 5 "org1"
      "policy.changes" "p1" (Some examplePayload) None); [by intros [[=]|[]]|reflexivity]. }
  apply rtc_refl.
Qed.

Lemma quietFaults_quiet : quiet quietFaults.
Proof. done. Qed.

Lemma outbox_lifecycle_witness : wf_record (exampleRow "r1" 10).
Proof.
  apply (outbox_lifecycle _ _ exampleTable [] (exampleRow "r1" 10) exampleTable_reachable).
  by left.
Defined.

Lemma drain_row_step_witness :
  map oStatus (drain 20 brokerDown exampleTable).1 = ["failed"; "failed"] /\
  length exampleTable = length (drain 20 brokerDown exampleTable).1.
Proof.
  split; [vm_compute; reflexivity|].
  eapply Forall2_length.
  apply (drain_row_step exampleUUID (fun j => j) exampleTable [] 20 brokerDown _ _
    exampleTable_reachable eq_refl).
Defined.

Lemma relay_progress_witness : Forall settled (drain 20 quietFaults exampleTable).1.
Proof.
  apply (relay_progress exampleUUID (fun j => j) exampleTable [] [(20%Z, quietFaults)]
    exampleTable_reachable).
  - constructor; [exact quietFaults_quiet|constructor].
  - vm_compute. lia.
Defined.

Lemma drain_order_witness :
  (drain 20 quietFaults exampleTable).2 = map msg_of [exampleRow "r2" 5; exampleRow "r1" 10].
Proof.
  destruct (drain_order exampleUUID (fun j => j) exampleTable [] 20 quietFaults
    exampleTable_reachable quietFaults_quiet) as [H _].
  rewrite H. vm_compute. reflexivity.
Defined.

(** Delivery is at least once, not exactly once.  When the commit of a
    drain fails after the broker accepted a message, the next drain sends the
    same message again. *)
Theorem outbox_duplicate_delivery :
  exists f log tbl,
    rtc (relay_step exampleUUID (fun j => j)) ([], []) (tbl, log) /\
    ids tbl = ["r1"] /\ dfRecord f "r1" = mkRecordFaults PubOk None /\
    log = [msg_of (exampleRow "r1" 10); msg_of (exampleRow "r1" 10)].
Proof.
  set (f := mkDrainFaults None None (fun _ => false) (fun _ => false)
    (fun _ => mkRecordFaults PubOk None) (CommitFail (ErrNew "connection reset") false)).
  exists f, [msg_of (exampleRow "r1" 10); msg_of (exampleRow "r1" 10)],
    [set_published 30 1 (exampleRow "r1" 10)].
  split; [|done].
  eapply rtc_l.
  { apply (step_write exampleUUID (fun j => j) [] [] "r1" 10 "org1" "policy.changes" "p1"
      (Some examplePayload) None); [by intros []|reflexivity]. }
  eapply rtc_l; [apply (step_drain _ _ _ _ 20 f); vm_compute; reflexivity|].
  eapply rtc_l; [apply (step_drain _ _ _ _ 30 quietFaults); vm_compute; reflexivity|].
  apply rtc_refl.
Qed.
