(* ===== verification/RelayLoop.v ===== *)
(** The goroutines of the outbox relay: [Relay.Run] and [Relay.listenLoop] of
    shared/kafka/outbox/relay.go, which decide when the [drain] of Outbox runs.
    A state is the table and the broker's log, the tick that waits in the
    ticker's channel, the channel of notifications, where the listener stands,
    the notifications its connection has not read, and the context.  One event
    is one step of a goroutine, of a writer, of a relay in another process, or
    of the clock; [step] answers [None] where the event cannot happen. *)

From S2P Require Import Prelude Json Pg Outbox.

(** [make(chan string, 100)]. *)
Definition chanCap : nat := 100.

(** Where [listenLoop] stands. *)
Inductive listener :=
| LTop                       (** before [ctx.Err()] *)
| LAcquiring                 (** in [pool.Acquire] *)
| LBackoff                   (** the select on five seconds and the context *)
| LAcquired                  (** before the [LISTEN] statement *)
| LSleeping                  (** one second after a failed [LISTEN] *)
| LWaiting                   (** in [WaitForNotification] *)
| LSending (payload : string) (** [notifications <- notification.Payload] *)
| LEnded.

(** The listener holds a connection of the pool. *)
Definition holds (l : listener) : bool :=
  match l with LAcquired | LWaiting | LSending _ => true | _ => false end.

(** The connection it holds is subscribed to the channel [outbox_new]. *)
Definition listening (l : listener) : bool :=
  match l with LWaiting | LSending _ => true | _ => false end.

Record relayState := mkRelayState {
  rlTable : list OutboxRecord;
  rlLog : list message;
  rlTick : bool;              (** [ticker.C] holds at most one tick *)
  rlChan : list string;       (** [notifications] *)
  rlListener : listener;
  rlInbox : list string;      (** sent by the server, not yet received *)
  rlDone : bool;              (** the context is cancelled *)
  rlRunning : bool;           (** [Run] has not returned *)
}.

(** [NewRelay] and the start of [Run], on a table. *)
Definition NewRelay (tbl : list OutboxRecord) (log : list message) : relayState :=
  mkRelayState tbl log false [] LTop [] false true.

Inductive relayEvent :=
| EvWrite (id : string) (now : Z) (orgID topic key : string) (payload : raw)
| EvOther (now : Z) (f : drainFaults)      (** a relay of another process *)
| EvTick                                   (** the interval has passed *)
| EvCancel
| EvDrainTick (now : Z) (f : drainFaults)  (** [case <-ticker.C] *)
| EvDrainNotify (now : Z) (f : drainFaults) (** [case <-notifications] *)
| EvStop                                   (** [case <-ctx.Done()] *)
| EvCheck                                  (** [ctx.Err()] at the top *)
| EvAcquire (err : option goerr)
| EvAfter                                  (** [time.After] or [time.Sleep] ends *)
| EvBackoffDone                            (** [ctx.Done()] while backing off *)
| EvListen (err : option goerr)
| EvNotification
| EvWaitError                              (** connection lost or context done *)
| EvSend.

Definition set_listener (l : listener) (s : relayState) : relayState :=
  mkRelayState (rlTable s) (rlLog s) (rlTick s) (rlChan s) l
    (if listening l then rlInbox s else []) (rlDone s) (rlRunning s).

(** The table after a drain; the messages go to the broker. *)
Definition after_drain (now : Z) (f : drainFaults) (s : relayState) : relayState :=
  let '(tbl, sent) := drain now f (rlTable s) in
  mkRelayState tbl (rlLog s ++ sent) (rlTick s) (rlChan s) (rlListener s)
    (rlInbox s) (rlDone s) (rlRunning s).

Section loop.
Variable pgUUID : uuidCast.
Variable jsonb : json -> json.

(** A transaction that writes one row commits; the trigger of the table
    ([notify_outbox_insert]) sends the row's id to who listens. *)
Definition write_event (id : string) (now : Z) (orgID topic key : string) (payload : raw)
  (s : relayState) : option relayState :=
  if existsb (fun i => i =s? id) (ids (rlTable s)) then None else
  match WriteRow pgUUID jsonb (Begin (rlTable s)) id now orgID topic key payload None with
  | (tx, None) =>
      Some (mkRelayState (txDB tx) (rlLog s) (rlTick s) (rlChan s) (rlListener s)
              (if listening (rlListener s) then rlInbox s ++ [id] else [])
              (rlDone s) (rlRunning s))
  | (_, Some _) => None
  end.

(** [Run]: one turn of its select. *)
Definition run_event (e : relayEvent) (s : relayState) : option relayState :=
  if negb (rlRunning s) then None else
  match e with
  | EvDrainTick now f =>
      if rlTick s
      then Some (after_drain now f
             (mkRelayState (rlTable s) (rlLog s) false (rlChan s) (rlListener s)
                (rlInbox s) (rlDone s) true))
      else None
  | EvDrainNotify now f =>
      match rlChan s with
      | _ :: rest =>
          Some (after_drain now f
             (mkRelayState (rlTable s) (rlLog s) (rlTick s) rest (rlListener s)
                (rlInbox s) (rlDone s) true))
      | [] => None
      end
  | EvStop =>
      if rlDone s
      then Some (mkRelayState (rlTable s) (rlLog s) (rlTick s) (rlChan s) (rlListener s)
                   (rlInbox s) true false)
      else None
  | _ => None
  end.

(** [listenLoop]. *)
Definition listen_event (e : relayEvent) (s : relayState) : option relayState :=
  match rlListener s, e with
  | LTop, EvCheck => Some (set_listener (if rlDone s then LEnded else LAcquiring) s)
  | LAcquiring, EvAcquire (Some _) => Some (set_listener LBackoff s)
  | LAcquiring, EvAcquire None => Some (set_listener LAcquired s)
  | LBackoff, EvAfter => Some (set_listener LTop s)
  | LBackoff, EvBackoffDone => if rlDone s then Some (set_listener LEnded s) else None
  | LAcquired, EvListen (Some _) => Some (set_listener LSleeping s)
  | LAcquired, EvListen None => Some (set_listener LWaiting s)
  | LSleeping, EvAfter => Some (set_listener LTop s)
  | LWaiting, EvWaitError => Some (set_listener (if rlDone s then LEnded else LTop) s)
  | LWaiting, EvNotification =>
      match rlInbox s with
      | p :: rest =>
          Some (mkRelayState (rlTable s) (rlLog s) (rlTick s) (rlChan s) (LSending p)
                  rest (rlDone s) (rlRunning s))
      | [] => None
      end
  | LSending p, EvSend =>
      if (length (rlChan s) <? chanCap)%nat
      then Some (mkRelayState (rlTable s) (rlLog s) (rlTick s) (rlChan s ++ [p]) LWaiting
                   (rlInbox s) (rlDone s) (rlRunning s))
      else None
  | _, _ => None
  end.

Definition step (e : relayEvent) (s : relayState) : option relayState :=
  match e with
  | EvWrite id now orgID topic key payload => write_event id now orgID topic key payload s
  | EvOther now f => Some (after_drain now f s)
  | EvTick =>
      Some (mkRelayState (rlTable s) (rlLog s) true (rlChan s) (rlListener s) (rlInbox s)
              (rlDone s) (rlRunning s))
  | EvCancel =>
      Some (mkRelayState (rlTable s) (rlLog s) (rlTick s) (rlChan s) (rlListener s) (rlInbox s)
              true (rlRunning s))
  | EvDrainTick _ _ | EvDrainNotify _ _ | EvStop => run_event e s
  | _ => listen_event e s
  end.

(** A run of the system; [None] when an event of the list cannot happen. *)
Fixpoint steps (es : list relayEvent) (s : relayState) : option relayState :=
  match es with
  | [] => Some s
  | e :: es' => match step e s with Some s' => steps es' s' | None => None end
  end.

End loop.

(** ** Invariant *)

Section invariant.
Variable pgUUID : uuidCast.
Variable jsonb : json -> json.

Notation step := (step pgUUID jsonb).
Notation steps := (steps pgUUID jsonb).

(** The notifications on their way to [Run], oldest first. *)
Definition pending (s : relayState) : list string :=
  rlChan s ++ match rlListener s with LSending p => [p] | _ => [] end ++ rlInbox s.

(** What holds between any two events. *)
Record relay_inv (s : relayState) : Prop := mkRelayInv {
  inv_outbox : outbox_inv (rlTable s, rlLog s);
  inv_chan : length (rlChan s) <= chanCap;
  inv_inbox : listening (rlListener s) = false -> rlInbox s = [];
  inv_ids : forall id, In id (pending s) -> In id (ids (rlTable s));
  inv_stopped : rlRunning s = false -> rlDone s = true;
}.

Lemma drain_ids now f tbl : NoDup (ids tbl) -> ids (drain now f tbl).1 = ids tbl.
Proof.
  intros Hn. destruct (drain now f tbl) as [t s] eqn:E.
  destruct (drain_cases _ _ _ _ _ Hn E) as [[-> _]|[_ [->| ->]]]; [done|done|].
  apply advance_batch_ids.
Qed.

(** A drain is a step of the specification and touches nothing else. *)
Lemma after_drain_spec now f s :
  relay_inv s ->
  relay_step pgUUID jsonb (rlTable s, rlLog s)
    (rlTable (after_drain now f s), rlLog (after_drain now f s)) /\
  relay_inv (after_drain now f s).
Proof.
  intros [Ho Hc Hi Hp Hs]. unfold after_drain.
  destruct (drain now f (rlTable s)) as [t m] eqn:E. simpl. split; [by econstructor|].
  split; simpl; try done; [by eapply drain_inv|]. intros id Hid.
  destruct Ho as (Hn & _). simpl in Hn. pose proof (drain_ids now f _ Hn) as Heq.
  rewrite E in Heq. simpl in Heq. rewrite Heq. by apply Hp.
Qed.

Lemma write_event_spec id now orgID topic key payload s s' :
  relay_inv s -> write_event pgUUID jsonb id now orgID topic key payload s = Some s' ->
  relay_step pgUUID jsonb (rlTable s, rlLog s) (rlTable s', rlLog s') /\ relay_inv s'.
Proof.
  intros [Ho Hc Hi Hp Hs]. unfold write_event. destruct (existsb _ _) eqn:Ex; [done|].
  assert (Hid : ~ In id (ids (rlTable s))).
  { intros H. assert (existsb (fun i => i =s? id) (ids (rlTable s)) = true); [|congruence].
    apply existsb_exists. exists id. split; [done|apply String.eqb_refl]. }
  destruct (WriteRow _ _ _ _ _ _ _ _ _ _) as [tx [e|]] eqn:E; [done|]. intros [= <-]. simpl.
  split; [by econstructor|].
  assert (Hids : ids (txDB tx) = ids (rlTable s) ++ [id]).
  { revert E. unfold WriteRow, WriteTx.
    destruct (tx_exec _ _ _) as [tx' [a|e]] eqn:E; intros [= ->].
    apply tx_exec_ok in E as (_ & _ & E & _). unfold insert_outbox in E. simpl in *.
    apply res_bind_ok in E as ([tbl' u] & E & Hx). injection Hx as <- _.
    apply res_bind_ok in E as (org & _ & E). destruct payload; [|done].
    injection E as <- _. unfold ids. by rewrite map_app. }
  split; simpl; try done.
  - by eapply write_inv.
  - intros Hl. by rewrite Hl.
  - intros i Hin. rewrite Hids. apply in_or_app. unfold pending in Hin. simpl in Hin.
    destruct (listening (rlListener s)) eqn:El.
    + rewrite !app_assoc in Hin. apply in_app_or in Hin as [Hin|Hin]; [left|by right].
      apply Hp. unfold pending. by rewrite app_assoc.
    + left. apply Hp. unfold pending. rewrite (Hi eq_refl). exact Hin.
Qed.

Lemma set_listener_inv l s :
  relay_inv s -> (forall p, l <> LSending p) -> relay_inv (set_listener l s).
Proof.
  intros [Ho Hc Hi Hp Hs] Hl. split; try done.
  - intros Hn. unfold set_listener. simpl in *. by rewrite Hn.
  - intros i Hin. apply Hp. unfold pending in *. unfold set_listener in Hin. simpl in Hin.
    apply in_app_or in Hin as [Hin|Hin]; apply in_or_app; [by left|right].
    apply in_or_app. right. destruct l; simpl in Hin; try done. by destruct (Hl payload).
Qed.

(** The listener leaves table and log alone; what it takes from its
    connection it hands on or, when the connection goes, loses. *)
Lemma listen_event_spec e s s' :
  relay_inv s -> listen_event e s = Some s' ->
  rlTable s' = rlTable s /\ rlLog s' = rlLog s /\ relay_inv s'.
Proof.
  intros Hs. unfold listen_event.
  destruct (rlListener s) as [| | | | | |p|] eqn:El, e; try done; repeat case_match; try done;
    intros [= <-]; (split; [done|]; split; [done|]);
    try (apply set_listener_inv; [done|intros ?; done]);
    destruct Hs as [Ho Hc Hi Hp Hs]; split; try done; unfold pending in *; simpl in *;
    rewrite El in *; simpl in *.
  - intros i Hin. apply Hp. match goal with Hx : rlInbox s = _ |- _ => rewrite Hx end. exact Hin.
  - bool_to_prop. rewrite length_app. simpl. lia.
  - intros i Hin. apply Hp. rewrite <- app_assoc in Hin. exact Hin.
Qed.

Lemma run_event_spec e s s' :
  relay_inv s -> run_event e s = Some s' ->
  rtc (relay_step pgUUID jsonb) (rlTable s, rlLog s) (rlTable s', rlLog s') /\ relay_inv s'.
Proof.
  intros [Ho Hc Hi Hp Hs]. unfold run_event. destruct (rlRunning s) eqn:Er; [|done]. simpl.
  destruct e; try done; repeat case_match; try done; intros [= <-].
  - match goal with |- context [after_drain ?n ?f ?x] =>
      destruct (after_drain_spec n f x) as [H1 H2]; [by split|] end.
    split; [by apply rtc_once|done].
  - match goal with |- context [after_drain ?n ?f ?x] =>
      destruct (after_drain_spec n f x) as [H1 H2] end.
    + split; try done; simpl.
      * simpl in Hc. lia.
      * intros i Hin. apply Hp. unfold pending in *. simpl in *.
        match goal with Hx : rlChan s = _ |- _ => rewrite Hx end. by right.
    + split; [by apply rtc_once|done].
  - split; [done|]. by split.
Qed.

Lemma step_spec e s s' :
  relay_inv s -> step e s = Some s' ->
  rtc (relay_step pgUUID jsonb) (rlTable s, rlLog s) (rlTable s', rlLog s') /\ relay_inv s'.
Proof.
  intros Hi. assert (Hl : listen_event e s = Some s' ->
    rtc (relay_step pgUUID jsonb) (rlTable s, rlLog s) (rlTable s', rlLog s') /\ relay_inv s').
  { intros (-> & -> & H)%listen_event_spec; done. }
  destruct e; simpl; try exact Hl; try (by apply run_event_spec).
  - intros [H1 H2]%write_event_spec; [|done]. split; [by apply rtc_once|done].
  - intros [= <-]. destruct (after_drain_spec now f s Hi). split; [by apply rtc_once|done].
  - intros [= <-]. destruct Hi. split; [done|]. by split.
  - intros [= <-]. destruct Hi. split; [done|]. by split.
Qed.

Lemma steps_spec es : forall s s',
  relay_inv s -> steps es s = Some s' ->
  rtc (relay_step pgUUID jsonb) (rlTable s, rlLog s) (rlTable s', rlLog s') /\ relay_inv s'.
Proof.
  induction es as [|e es IH]; simpl; intros s s' Hi.
  - intros [= <-]. done.
  - destruct (step e s) as [s1|] eqn:E; [|done]. intros H.
    apply step_spec in E as [H1 Hi1]; [|done]. destruct (IH s1 s' Hi1 H) as [H2 ?].
    split; [by etransitivity|done].
Qed.

Lemma NewRelay_inv tbl log : outbox_inv (tbl, log) -> relay_inv (NewRelay tbl log).
Proof. intros H. split; simpl; try done. unfold chanCap. lia. Qed.

Lemma steps_app es1 es2 s :
  steps (es1 ++ es2) s = match steps es1 s with Some s' => steps es2 s' | None => None end.
Proof.
  revert s. induction es1 as [|e es1 IH]; intros s; simpl; [done|].
  by destruct (step e s).
Qed.

End invariant.

(** ** Progress *)

(** One event, branch by branch. *)
Ltac step_cases H :=
  repeat match type of H with context [match ?x with _ => _ end] => destruct x eqn:? end;
  try done; injection H as <-.

Section progress.
Variable pgUUID : uuidCast.
Variable jsonb : json -> json.

Notation step := (step pgUUID jsonb).
Notation steps := (steps pgUUID jsonb).

(** No drain makes the backlog grow, whatever fails in it. *)
Lemma backlog_mono now f tbl :
  NoDup (ids tbl) -> Forall wf_record tbl -> backlog (drain now f tbl).1 <= backlog tbl.
Proof.
  intros Hn Hw. destruct (drain now f tbl) as [t m] eqn:E. simpl.
  destruct (drain_cases _ _ _ _ _ Hn E) as [[-> _]|[_ [->| ->]]]; [done|done|].
  assert (Hb : forall r, In r tbl -> in_batch (batch_of f tbl) r = true -> eligible r = true).
  { intros r Hr Hi. eapply batch_In. by apply in_batch_spec. }
  clear E Hn. revert Hb Hw. generalize (batch_of f tbl). intros b Hb Hw.
  unfold backlog, advance_batch. induction Hw as [|r tbl Hr Hw IH]; simpl; [done|].
  specialize (IH (fun r' H => Hb r' (or_intror H))).
  destruct (in_batch b r) eqn:Ei.
  - rewrite (Hb r (or_introl eq_refl) Ei). simpl. case_match; simpl; lia.
  - destruct (eligible r); simpl; lia.
Qed.

Definition writes (e : relayEvent) : bool :=
  match e with EvWrite _ _ _ _ _ _ => true | _ => false end.

(** The drains of the ticker in which nothing fails. *)
Inductive quietTicks : list relayEvent -> nat -> Prop :=
| qt_nil : quietTicks [] 0
| qt_tick now f es k : quiet f -> quietTicks es k -> quietTicks (EvDrainTick now f :: es) (S k)
| qt_other e es k : quietTicks es k -> quietTicks (e :: es) k.

Lemma after_drain_backlog now f s :
  relay_inv s ->
  backlog (rlTable (after_drain now f s)) <= backlog (rlTable s) /\
  (quiet f -> backlog (rlTable (after_drain now f s)) = backlog (rlTable s) - batch_limit).
Proof.
  intros [(Hn & Hw & _) _ _ _ _]. simpl in *.
  pose proof (backlog_mono now f _ Hn Hw) as H1.
  pose proof (backlog_drain now f _ Hn Hw) as H2.
  unfold after_drain. destruct (drain now f (rlTable s)). simpl in *. auto.
Qed.

(** An event that writes nothing keeps the backlog from growing. *)
Lemma step_backlog e s s' :
  relay_inv s -> writes e = false -> step e s = Some s' ->
  backlog (rlTable s') <= backlog (rlTable s).
Proof.
  intros Hi Hw. assert (Hl : listen_event e s = Some s' ->
    backlog (rlTable s') <= backlog (rlTable s)).
  { intros (-> & _)%(listen_event_spec); done. }
  destruct e; simpl; try exact Hl; try done.
  - intros [= <-]. by apply after_drain_backlog.
  - intros [= <-]. done.
  - intros [= <-]. done.
  - unfold run_event. destruct (negb _); [done|]. destruct (rlTick s); [|done]. intros [= <-].
    destruct Hi. match goal with |- context [after_drain ?n ?g ?x] =>
      apply (after_drain_backlog n g x) end. by split.
  - unfold run_event. destruct (negb _); [done|]. destruct (rlChan s) eqn:Ec; [done|]. intros [= <-].
    destruct Hi. unfold after_drain. simpl. destruct inv_outbox0 as (Hn & Hwf & _).
    pose proof (backlog_mono now f _ Hn Hwf) as H1. simpl in H1.
    by destruct (drain now f (rlTable s)).
  - unfold run_event. destruct (negb _); [done|]. destruct (rlDone s); [|done]. intros [= <-]. done.
Qed.

Lemma tick_drain_backlog now f s s' :
  relay_inv s -> quiet f -> step (EvDrainTick now f) s = Some s' ->
  backlog (rlTable s') = backlog (rlTable s) - batch_limit.
Proof.
  intros Hi Hq. simpl. unfold run_event. destruct (negb _); [done|].
  destruct (rlTick s); [|done]. intros [= <-]. destruct Hi.
  match goal with |- context [after_drain ?n ?g ?x] =>
    apply (after_drain_backlog n g x) end; [by split|done].
Qed.

Lemma steps_backlog es k : quietTicks es k -> forall s s',
  relay_inv s -> forallb (fun e => negb (writes e)) es = true -> steps es s = Some s' ->
  backlog (rlTable s') <= backlog (rlTable s) - batch_limit * k.
Proof.
  induction 1 as [|now f es k Hq _ IH|e es k _ IH]; intros s s' Hi; cbn [forallb RelayLoop.steps].
  - intros _ [= <-]. lia.
  - intros [_ Hw]%andb_prop. destruct (step _ s) as [s1|] eqn:E; [|done]. intros Hs.
    pose proof (tick_drain_backlog _ _ _ _ Hi Hq E).
    apply step_spec in E as [_ Hi1]; [|done]. specialize (IH s1 s' Hi1 Hw Hs).
    unfold batch_limit in *. lia.
  - intros [Hw1 Hw]%andb_prop. destruct (step e s) as [s1|] eqn:E; [|done]. intros Hs.
    apply negb_true_iff in Hw1. pose proof (step_backlog _ _ _ Hi Hw1 E).
    apply step_spec in E as [_ Hi1]; [|done]. specialize (IH s1 s' Hi1 Hw Hs). lia.
Qed.

Lemma no_backlog tbl : Forall wf_record tbl -> backlog tbl = 0 -> Forall settled tbl.
Proof.
  intros Hw H0%nil_length_inv. rewrite Forall_forall in *. intros r Hr.
  pose proof (wf_eligible r (Hw r Hr)) as He.
  destruct (decide (settled r)) as [|Hn]; [done|]. apply He in Hn.
  assert (Hin : In r (List.filter eligible tbl)) by (apply filter_In; by rewrite <- list_elem_of_In).
  by rewrite H0 in Hin.
Qed.

(** ** Rows *)

(** What stays of a row whatever happens. *)
Definition same_row (r r' : OutboxRecord) : Prop := oID r' = oID r /\ msg_of r' = msg_of r.

Definition carried (t t' : list OutboxRecord) : Prop :=
  forall r, In r t -> exists r', In r' t' /\ same_row r r'.

Lemma carried_refl t : carried t t.
Proof. intros r Hr. by exists r. Qed.

Lemma carried_trans t1 t2 t3 : carried t1 t2 -> carried t2 t3 -> carried t1 t3.
Proof.
  intros H1 H2 r Hr. destruct (H1 r Hr) as (r1 & Hr1 & E1 & M1). destruct (H2 r1 Hr1) as (r2 & Hr2 & E2 & M2).
  exists r2. split; [done|]. split; congruence.
Qed.

Lemma relay_step_carried st st' :
  outbox_inv st -> relay_step pgUUID jsonb st st' -> carried st.1 st'.1.
Proof.
  intros Ho Hs. revert Ho. destruct Hs as [tbl log id now orgID topic key payload fault tx Hid Hw|tbl log now f tbl' sent Hd];
    intros (Hn & _); simpl.
  - revert Hw. unfold WriteRow, WriteTx. destruct (tx_exec _ _ _) as [tx' [a|e]] eqn:E; intros [= ->].
    apply tx_exec_ok in E as (_ & _ & E & _). unfold insert_outbox in E. simpl in *.
    apply res_bind_ok in E as ([t u] & E & Hx). injection Hx as <- _.
    apply res_bind_ok in E as (org & _ & E). destruct payload; [|done]. injection E as <- _.
    intros r Hr. exists r. split; [apply in_or_app; by left|done].
  - simpl in Hn. destruct (drain_cases _ _ _ _ _ Hn Hd) as [[-> _]|[_ [->| ->]]]; try apply carried_refl.
    intros r Hr. eexists. split; [apply in_map; exact Hr|]. cbv beta.
    destruct (in_batch _ r); [|done]. split; [apply advance_id|apply advance_msg].
Qed.

Lemma steps_carried es s s' :
  relay_inv s -> steps es s = Some s' -> carried (rlTable s) (rlTable s').
Proof.
  intros Hi Hs. apply steps_spec in Hs as [Hr _]; [|done].
  assert (Ho : outbox_inv (rlTable s, rlLog s)) by apply Hi.
  change (carried (rlTable s, rlLog s).1 (rlTable s', rlLog s').1).
  induction Hr as [|x y z Hxy _ IH]; [apply carried_refl|].
  eapply carried_trans; [by eapply relay_step_carried|]. apply IH. by eapply relay_step_inv.
Qed.

(** The event of a transaction that writes one fresh row. *)
Lemma write_event_fresh id now orgID org topic key j s :
  ~ In id (ids (rlTable s)) -> pgUUID orgID = Some org ->
  exists s1, step (EvWrite id now orgID topic key (Some j)) s = Some s1 /\
    rlTable s1 = rlTable s ++ [mkOutboxRecord id org topic key (jsonb j) "pending" 0 None None None now].
Proof.
  intros Hid Ho. simpl. unfold write_event. destruct (existsb _ _) eqn:Ex.
  { apply existsb_exists in Ex as (i & Hi & He). bool_to_prop. by subst. }
  unfold WriteRow, WriteTx, tx_exec, insert_outbox, uuid_arg. rewrite Ho. simpl. eauto.
Qed.

(** ** Order of notifications *)

Definition written (e : relayEvent) : list string :=
  match e with EvWrite id _ _ _ _ _ => [id] | _ => [] end.

Definition consumes (e : relayEvent) : nat :=
  match e with EvDrainNotify _ _ => 1 | _ => 0 end.

Definition keeps (e : relayEvent) : bool :=
  match e with EvWaitError => false | _ => true end.

Lemma step_pending e s s' :
  listening (rlListener s) = true -> keeps e = true -> step e s = Some s' ->
  listening (rlListener s') = true /\
  consumes e <= length (rlChan s) /\ pending s' = drop (consumes e) (pending s ++ written e).
Proof.
  intros Hl Hk.
  assert (Hle : listen_event e s = Some s' -> written e = [] -> consumes e = 0 ->
    listening (rlListener s') = true /\
    consumes e <= length (rlChan s) /\ pending s' = drop (consumes e) (pending s ++ written e)).
  { intros Hx -> ->. rewrite app_nil_r, drop_0. unfold listen_event in Hx. unfold pending.
    destruct (rlListener s), e; try done; simpl in Hk, Hl; try done;
step_cases Hx;
      simpl; (split; [done|]; split; [lia|]); by rewrite <- ?app_assoc. }
  destruct e; try (intros Hx; apply Hle; done); clear Hle; simpl; try done;
    intros Hx; unfold pending; unfold write_event, run_event, after_drain in Hx; step_cases Hx;
    simpl in *; rewrite ?Hl, ?app_nil_r, ?drop_0; (split; [done|]; split; [simpl; lia|]);
    by rewrite <- ?app_assoc.
Qed.

Lemma fifo es : forall s s',
  listening (rlListener s) = true -> forallb keeps es = true -> steps es s = Some s' ->
  listening (rlListener s') = true /\
  pending s' = drop (sum_list_with consumes es) (pending s ++ flat_map written es).
Proof.
  induction es as [|e es IH]; intros s s' Hl; cbn [forallb RelayLoop.steps].
  - intros _ [= <-]. simpl. by rewrite app_nil_r.
  - intros [Hk Hks]%andb_prop. destruct (step e s) as [s1|] eqn:E; [|done]. intros Hs.
    destruct (step_pending _ _ _ Hl Hk E) as (Hl1 & Hc & Hp).
    destruct (IH s1 s' Hl1 Hks Hs) as [Hl2 ->]. split; [done|]. rewrite Hp. simpl.
    assert (consumes e <= length (pending s)).
    { unfold pending. rewrite length_app. lia. }
    rewrite app_assoc, <- drop_app_le by (rewrite length_app; lia). by rewrite drop_drop.
Qed.
End progress.

(** ** Shutdown *)

#[local] Arguments Nat.leb : simpl never.
#[local] Arguments Nat.ltb : simpl never.

Section shutdown.
Variable pgUUID : uuidCast.
Variable jsonb : json -> json.

(** The listener waits for room in a channel that nobody empties any more. *)
Definition stuck (s : relayState) : bool :=
  match rlListener s with
  | LSending _ => negb (rlRunning s) && (chanCap <=? length (rlChan s))%nat
  | _ => false
  end.

Lemma stuck_forever e s s' :
  stuck s = true -> step pgUUID jsonb e s = Some s' ->
  stuck s' = true /\ rlListener s' = rlListener s.
Proof.
  unfold stuck. intros Hs. destruct (rlListener s) as [| | | | | |p|] eqn:El; try done.
  apply andb_prop in Hs as [Hr%negb_true_iff Hc].
  assert (Hk : stuck s' = true /\ rlListener s' = LSending p <->
    rlListener s' = LSending p /\ rlRunning s' = false /\ chanCap <= length (rlChan s')).
  { unfold stuck. split.
    - intros [Hs' Hl]. rewrite Hl in Hs'. apply andb_prop in Hs' as [->%negb_true_iff H].
      apply Nat.leb_le in H. done.
    - intros (Hl & Hr' & H). rewrite Hl, Hr'. split; [|done]. by apply Nat.leb_le in H. }
  fold (stuck s'). intros Hx. apply Hk. clear Hk. apply Nat.leb_le in Hc.
  destruct e; simpl in Hx; unfold write_event, run_event, listen_event, after_drain in Hx;
    rewrite ?El, ?Hr in Hx; simpl in Hx; step_cases Hx; simpl; try done.
  bool_to_prop. lia.
Qed.

(** Once the context is cancelled, the way out of the listener. *)
Definition way_out (s : relayState) : list relayEvent :=
  match rlListener s with
  | LTop => [EvCheck]
  | LAcquiring => [EvAcquire (Some (ErrNew "context canceled")); EvBackoffDone]
  | LBackoff => [EvBackoffDone]
  | LAcquired => [EvListen (Some (ErrNew "context canceled")); EvAfter; EvCheck]
  | LSleeping => [EvAfter; EvCheck]
  | LWaiting => [EvWaitError]
  | LSending _ => [EvSend; EvWaitError]
  | LEnded => []
  end.

Lemma way_out_ends s :
  rlDone s = true -> stuck s = false -> rlRunning s = false ->
  exists s', steps pgUUID jsonb (way_out s) s = Some s' /\ rlListener s' = LEnded.
Proof.
  unfold stuck, way_out. intros Hd Hs Hr.
  destruct (rlListener s) as [| | | | | |p|] eqn:El; simpl; unfold listen_event, set_listener;
    rewrite ?El; simpl; rewrite ?Hd; try (eexists; split; [reflexivity|]; done).
  rewrite Hr in Hs. simpl in Hs. apply Nat.leb_gt in Hs. apply Nat.ltb_lt in Hs. rewrite Hs.
  eexists; split; [reflexivity|]. done.
Qed.

Lemma stuck_never_ends es : forall s s',
  stuck s = true -> steps pgUUID jsonb es s = Some s' -> rlListener s' = rlListener s.
Proof.
  induction es as [|e es IH]; simpl; intros s s' Hs; [by intros [= <-]|].
  destruct (step pgUUID jsonb e s) as [s1|] eqn:E; [|done]. intros H.
  destruct (stuck_forever _ _ _ Hs E) as [H1 H2]. by rewrite (IH s1 s' H1 H).
Qed.
End shutdown.

(** ** Properties *)

Section properties.
Variable pgUUID : uuidCast.
Variable jsonb : json -> json.

Notation step := (step pgUUID jsonb).
Notation steps := (steps pgUUID jsonb).

(** C31: The ticker alone delivers everything.  In any reachable state a tick
    and the drain it starts are possible, whatever the listener is doing; and
    in any run without new rows whose ticks have drained quietly once per
    hundred rows of backlog, however other drains failed and wherever the
    listener was, every row is published or dead. *)
Theorem ticks_settle es s es' s' k :
  steps es (NewRelay [] []) = Some s -> rlRunning s = true ->
  (forall now f, exists t, steps [EvTick; EvDrainTick now f] s = Some t /\
                           rlListener t = rlListener s) /\
  (steps es' s = Some s' -> forallb (fun e => negb (writes e)) es' = true ->
   quietTicks es' k -> backlog (rlTable s) <= batch_limit * k ->
   Forall settled (rlTable s')).
Proof.
  intros Hs Hr. split.
  - intros now f. simpl. unfold run_event. simpl. rewrite Hr. simpl. eexists. split; [reflexivity|].
    unfold after_drain. simpl. by destruct (drain now f (rlTable s)).
  - intros Hs' Hw Hq Hb. apply steps_spec in Hs as [_ Hi].
    + pose proof (steps_backlog _ _ _ _ Hq _ _ Hi Hw Hs'). apply steps_spec in Hs' as [_ Hi']; [|done].
      destruct Hi' as [(_ & Hwf & _) _ _ _ _]. apply no_backlog; [done|lia].
    + apply NewRelay_inv. split; [constructor|]. by split.
Qed.

(** From the notification under way longest to the drain it starts. *)
Definition delivery (s : relayState) : list relayEvent :=
  match rlChan s, rlListener s with
  | _ :: _, _ => []
  | [], LSending _ => [EvSend]
  | [], _ => [EvNotification; EvSend]
  end.

Lemma delivery_drains s now f :
  relay_inv s -> listening (rlListener s) = true -> rlRunning s = true -> pending s <> [] -> quiet f ->
  exists t, steps (delivery s ++ [EvDrainNotify now f]) s = Some t /\
    backlog (rlTable t) = backlog (rlTable s) - batch_limit.
Proof.
  intros Hi Hl Hr Hp Hq.
  assert (Hd : forall c l inbox, exists t, Some (after_drain now f (mkRelayState (rlTable s) (rlLog s) (rlTick s) c l inbox (rlDone s) true)) = Some t /\
    backlog (rlTable t) = backlog (rlTable s) - batch_limit).
  { intros c l inbox. eexists. split; [done|]. destruct (inv_outbox _ Hi) as (Hn & Hw & _).
    pose proof (backlog_drain now f _ Hn Hw Hq) as Hb. simpl in Hb. rewrite <- Hb. unfold after_drain. simpl. by destruct (drain now f (rlTable s)). }
  destruct s as [tbl log tick chan l inbox dn run]. simpl in *. subst run. unfold pending, delivery in *. simpl in *.
  destruct chan as [|c chan]; [|unfold RelayLoop.step, run_event; apply Hd].
  destruct l; try done; simpl in *.
  - destruct inbox as [|p inbox]; [done|]. unfold RelayLoop.step, run_event. simpl. apply Hd.
  - unfold RelayLoop.step, run_event. simpl. apply Hd.
Qed.

(** C11: No wake-up is lost while the connection lives.  From any reachable
    state in which the listener is subscribed, through any events but an
    error of its connection, the notifications under way are the old ones and
    the ids of the rows written since, in that order, less the first one for
    each drain that a notification started: none is dropped, doubled or
    overtaken.  At most a hundred of them wait in the channel, each names a
    row of the table, and as long as one is under way and the relay runs, it
    can be received and then starts a drain, which shortens the backlog by a
    hundred rows if nothing fails in it. *)
Theorem notifications_in_order es0 s es s' :
  steps es0 (NewRelay [] []) = Some s ->
  listening (rlListener s) = true -> forallb keeps es = true -> steps es s = Some s' ->
  pending s' = drop (sum_list_with consumes es) (pending s ++ flat_map written es) /\
  length (rlChan s') <= 100 /\
  (forall id, In id (pending s') -> In id (ids (rlTable s'))) /\
  (pending s' <> [] -> rlRunning s' = true -> forall now f, quiet f ->
     exists t, steps (delivery s' ++ [EvDrainNotify now f]) s' = Some t /\
       backlog (rlTable t) = backlog (rlTable s') - 100).
Proof.
  intros H0 Hl Hk Hs. destruct (fifo _ _ _ _ _ Hl Hk Hs) as [Hl' Hp].
  assert (Hi : relay_inv s').
  { apply steps_spec in H0 as [_ H0]; [|apply NewRelay_inv; split; [constructor|by split]].
    by apply steps_spec in Hs as [_ Hs]. }
  split; [done|]. split; [exact (inv_chan _ Hi)|]. split; [exact (inv_ids _ Hi)|].
  intros Hne Hr now f Hq. by apply delivery_drains.
Qed.

(** When the relay can shut down.  After the context is cancelled and
    [Run] has returned, the listener still ends and gives back its connection
    unless it is sending into a full channel; then it never does, and the
    pool, whose [Close] waits for every connection, does not close. *)
Theorem listener_ends_unless_stuck s :
  rlDone s = true -> rlRunning s = false ->
  (stuck s = false <-> exists es s', steps es s = Some s' /\ holds (rlListener s') = false) /\
  (stuck s = false -> exists s', steps (way_out s) s = Some s' /\ rlListener s' = LEnded).
Proof.
  intros Hd Hr. split; [|intros Hs; by apply way_out_ends]. split.
  - intros Hs. destruct (way_out_ends pgUUID jsonb s Hd Hs Hr) as (s' & H & Hl).
    exists (way_out s), s'. by rewrite Hl.
  - intros (es & s' & H & Hh). apply not_true_iff_false. intros Hs.
    rewrite (stuck_never_ends _ _ _ _ _ Hs H) in Hh. unfold stuck in Hs.
    by destruct (rlListener s).
Qed.
End properties.

(** ** Witnesses *)

Module RelayExamples.

#[local] Notation runs es := (steps exampleUUID (fun j => j) es (NewRelay [] [])).

Definition write (id : string) (at_ : Z) : relayEvent :=
  EvWrite id at_ "org1" "policy.changes" "p1" (Some examplePayload).

Definition listen_up : list relayEvent := [EvCheck; EvAcquire None; EvListen None].

(** Distinct identifiers. *)
Fixpoint tally (n : nat) : string :=
  match n with O => "r" | S n' => ("1" ++ tally n')%string end.

(** [n] rows written, and their notifications passed to the channel. *)
Definition burst (n : nat) : list relayEvent :=
  flat_map (fun i => [write (tally i) (Z.of_nat i); EvNotification; EvSend]) (seq 0 n).

(** A hundred and one rows arrive while [Run] is in a long drain, then the
    service is told to stop. *)
Definition stop_full : list relayEvent :=
  listen_up ++ burst 100 ++ [write (tally 100) 100; EvNotification; EvCancel; EvStop].

Definition stopped : relayState :=
  match runs stop_full with Some s => s | None => NewRelay [] [] end.

Example stop_full_stuck :
  runs stop_full = Some stopped /\ stuck stopped = true /\ holds (rlListener stopped) = true.
Proof. split; [|split]; vm_compute; reflexivity. Qed.

Lemma listener_ends_unless_stuck_witness :
  ~ exists es s', steps exampleUUID (fun j => j) es stopped = Some s' /\
                  holds (rlListener s') = false.
Proof.
  intros H. destruct (listener_ends_unless_stuck exampleUUID (fun j => j) stopped) as [[_ Hs] _];
    [vm_compute; reflexivity|vm_compute; reflexivity|].
  apply Hs in H. vm_compute in H. discriminate H.
Defined.

Definition two_rows : list relayEvent :=
  listen_up ++ [write "r1" 10; EvNotification; EvSend; write "r2" 5].

Definition two_rows_state : relayState :=
  match runs two_rows with Some s => s | None => NewRelay [] [] end.

(** The connection is lost: only a tick finds the rows. *)
Definition lost_then_tick : list relayEvent :=
  [EvWaitError; EvDrainNotify 20 brokerDown; EvTick; EvDrainTick 30 quietFaults].

Lemma ticks_settle_witness :
  exists s', steps exampleUUID (fun j => j) lost_then_tick two_rows_state = Some s' /\
             Forall settled (rlTable s').
Proof.
  eexists. split; [vm_compute; reflexivity|].
  apply (proj2 (ticks_settle exampleUUID (fun j => j) two_rows two_rows_state lost_then_tick _ 1
    ltac:(vm_compute; reflexivity) ltac:(vm_compute; reflexivity))).
  - vm_compute. reflexivity.
  - reflexivity.
  - apply qt_other, qt_other, qt_other, qt_tick, qt_nil. exact quietFaults_quiet.
  - vm_compute. lia.
Defined.

Definition listening_state : relayState :=
  match runs listen_up with Some s => s | None => NewRelay [] [] end.

Lemma notifications_in_order_witness :
  pending two_rows_state = ["r1"; "r2"] /\
  exists t, steps exampleUUID (fun j => j) [EvDrainNotify 30 quietFaults] two_rows_state = Some t /\
    backlog (rlTable t) = 0.
Proof.
  destruct (notifications_in_order exampleUUID (fun j => j) listen_up listening_state
    [write "r1" 10; EvNotification; EvSend; write "r2" 5] two_rows_state) as (Hp & _ & _ & Hd);
    [vm_compute; reflexivity..|].
  split; [exact Hp|]. destruct (Hd ltac:(discriminate) ltac:(vm_compute; reflexivity) 30%Z quietFaults quietFaults_quiet) as (t & Ht & Hb).
  exists t. split; [exact Ht|]. rewrite Hb. vm_compute. reflexivity.
Defined.

(** A row written while nobody listens wakes nobody. *)
Example missed_wakeup :
  option_map (fun s => (ids (rlTable s), pending s)) (runs (write "r1" 10 :: listen_up))
  = Some (["r1"], []).
Proof. vm_compute. reflexivity. Qed.

End RelayExamples.
