(* ===== verification/PolicyStore.v ===== *)
(** The policy service's storage: services/policy/pkg/repository/repository.go
    on the schema of services/policy/migrations.  The database is the record of
    its tables; each SQL statement is a function on it, with the row-level
    security of the migrations; connections and errors are inputs. *)

From S2P Require Import Prelude Json Pg Outbox PolicyEngine.
From Stdlib Require Import Sorting.Sorted.

(** ** Data *)

Definition ErrNotFound : goerr := ErrNew "policy not found".
Definition ErrNoRows : goerr := ErrNew "no rows in result set".
Definition ErrUnique : goerr := ErrNew "duplicate key value violates unique constraint".
Definition ErrForeignKey : goerr := ErrNew "violates foreign key constraint".
Definition ErrNotNull : goerr := ErrNew "null value violates not-null constraint".
Definition ErrIntRange : goerr := ErrNew "integer out of range".

Record EvalLog := mkEvalLog {
  elID : string;
  elOrgID : string;
  elSubjectID : string;
  elAction : string;
  elResource : string;
  elEffect : string;
  elMatchedPolicyIDs : option (list string);    (* [None] is the nil slice *)
  elCacheHit : string;
  elLatencyMs : Z;
  elEvaluatedAt : Z;
}.

Record Assignment := mkAssignment {
  aID : string;
  aOrgID : string;
  aPolicyID : string;
  aSubjectID : string;
  aSubjectType : string;
  aCreatedAt : Z;
}.

#[global] Instance raw_eq_dec : EqDecision raw.
Proof. unfold raw. apply _. Defined.
#[global] Instance Policy_eq_dec : EqDecision Policy.
Proof. solve_decision. Defined.
#[global] Instance Assignment_eq_dec : EqDecision Assignment.
Proof. solve_decision. Defined.

(** The tables of the policy database. *)
Record DB := mkDB {
  policies : list Policy;
  policy_assignments : list Assignment;
  policy_eval_log : list EvalLog;
  outbox_records : list OutboxRecord;
}.

Definition set_policies (ps : list Policy) (db : DB) : DB :=
  mkDB ps (policy_assignments db) (policy_eval_log db) (outbox_records db).
Definition set_assignments (l : list Assignment) (db : DB) : DB :=
  mkDB (policies db) l (policy_eval_log db) (outbox_records db).
Definition set_eval_log (l : list EvalLog) (db : DB) : DB :=
  mkDB (policies db) (policy_assignments db) l (outbox_records db).
Definition set_outbox (l : list OutboxRecord) (db : DB) : DB :=
  mkDB (policies db) (policy_assignments db) (policy_eval_log db) l.

Definition newest_policy (a b : Policy) : bool := (pCreatedAt b <=? pCreatedAt a)%Z.
Definition oldest_policy (a b : Policy) : bool := (pCreatedAt a <=? pCreatedAt b)%Z.
Definition newest_log (a b : EvalLog) : bool := (elEvaluatedAt b <=? elEvaluatedAt a)%Z.

Section store.
Context {S : Type} `{PgSession S}.
Variable pgUUID : uuidCast.
(** [uuid.Parse(s) == nil] of google/uuid. *)
Variable uuidParse : string -> bool.
(** The [JSONB] cast of a document. *)
Variable jsonb : json -> json.
(** How pgx encodes a slice argument; [None] is SQL's [NULL]. *)
Variable pgxArray : option (list string) -> option (list string).
(** The role of the connection pool. *)
Variable ro : role.

Definition filter_of (sess : S) : res (string -> bool) :=
  rls_filter pgUUID ro (current_setting sess app_org).

(** ** SQL statements *)

Definition select_policies (sess : S) (db : DB) : res (list Policy) :=
  vis <-? filter_of sess; Ok (List.filter (fun p => vis (pOrgID p)) (policies db)).

Definition insert_policy (sess : S) (id : string) (now : Z)
  (orgID name description : string) (logic : raw) (db : DB) : res (DB * Policy) :=
  id' <-? uuid_arg pgUUID id;
  org <-? uuid_arg pgUUID orgID;
  match logic with
  | None => Err ErrJSONB
  | Some j =>
      vis <-? filter_of sess;
      if existsb (fun p => pID p =s? id') (policies db) then Err ErrUnique
      else if negb (vis org) then Err ErrRLS
      else let p := mkPolicy id' org name description (Some (jsonb j)) 1 now now in
           Ok (set_policies (policies db ++ [p]) db, p)
  end.

Definition update_row (now : Z) (name description : string) (j : json) (p : Policy) : Policy :=
  mkPolicy (pID p) (pOrgID p) name description (Some (jsonb j)) (pVersion p + 1)
    (pCreatedAt p) now.

Definition int4_max : Z := 2147483647.

Definition update_policy (sess : S) (now : Z) (policyID orgID name description : string)
  (logic : raw) (db : DB) : res (DB * Policy) :=
  id <-? uuid_arg pgUUID policyID;
  org <-? uuid_arg pgUUID orgID;
  match logic with
  | None => Err ErrJSONB
  | Some j =>
      vis <-? filter_of sess;
      let hit p := (pID p =s? id) && (pOrgID p =s? org) && vis (pOrgID p) in
      match find hit (policies db) with
      | None => Err ErrNoRows
      | Some p =>
          if (int4_max <? pVersion p + 1)%Z then Err ErrIntRange
          else Ok (set_policies
                     (map (fun q => if hit q then update_row now name description j q else q)
                        (policies db)) db,
                   update_row now name description j p)
      end
  end.

(** The foreign key of [policy_assignments] cascades. *)
Definition delete_policy (sess : S) (policyID orgID : string) (db : DB) : res (DB * nat) :=
  id <-? uuid_arg pgUUID policyID;
  org <-? uuid_arg pgUUID orgID;
  vis <-? filter_of sess;
  let hit p := (pID p =s? id) && (pOrgID p =s? org) && vis (pOrgID p) in
  let gone := List.filter hit (policies db) in
  Ok (set_policies (List.filter (fun p => negb (hit p)) (policies db))
        (set_assignments
           (List.filter (fun a => negb (existsb (fun p => pID p =s? aPolicyID a) gone))
              (policy_assignments db)) db),
      length gone).

(** [policies p LEFT JOIN policy_assignments pa ON p.id = pa.policy_id]. *)
Definition left_join (ps : list Policy) (asg : list Assignment)
  : list (Policy * option Assignment) :=
  flat_map (fun p =>
    match List.filter (fun a => aPolicyID a =s? pID p) asg with
    | [] => [(p, None)]
    | l => map (fun a => (p, Some a)) l
    end) ps.

Definition select_join (sess : S) (db : DB) : res (list (Policy * option Assignment)) :=
  vis <-? filter_of sess;
  Ok (left_join (List.filter (fun p => vis (pOrgID p)) (policies db))
                (List.filter (fun a => vis (aOrgID a)) (policy_assignments db))).

(** The policies without an assignment. *)
Definition select_global (sess : S) (org : string) (db : DB) : res (list Policy) :=
  rows <-? select_join sess db;
  Ok (order_by oldest_policy
        (map fst (List.filter (fun r =>
           (pOrgID r.1 =s? org) && match r.2 with None => true | Some _ => false end) rows))).

Fixpoint uuid_args (l : list string) : res (list string) :=
  match l with
  | [] => Ok []
  | s :: l' => u <-? uuid_arg pgUUID s; us <-? uuid_args l'; Ok (u :: us)
  end.

(** The WHERE condition on the assignment. *)
Definition assigned_to (subject : string) (groups : list string) (pa : option Assignment) : bool :=
  match pa with
  | None => true
  | Some a =>
      ((aSubjectID a =s? subject) && (aSubjectType a =s? "user")) ||
      (existsb (fun g => aSubjectID a =s? g) groups && (aSubjectType a =s? "group"))
  end.

Definition select_matching (sess : S) (org subject : string) (gs : list string)
  (db : DB) : res (list Policy) :=
  rows <-? select_join sess db;
  Ok (order_by oldest_policy
        (remove_dups
           (map fst (List.filter (fun r => (pOrgID r.1 =s? org) && assigned_to subject gs r.2) rows)))).

(** ** Connections *)

(** [withOrgContext]: [ctxOrg] is the tenant of the context, [conn] the
    connection the pool hands out. *)
Definition withOrgContext {A} (ctxOrg : string) (conn : S) (f : Faults)
  (fn : S -> DB -> DB * res A) (db : DB) : DB * res A :=
  if ctxOrg =s? "" then (db, Err (ErrNew "withOrgContext: org_id missing from context"))
  else match fAcquire f with
  | Some e => (db, Err (ErrWrap "withOrgContext: acquire connection: " e ""))
  | None =>
      match SetSessionVar conn ctxOrg (fSet f) with
      | (_, Some e) => (db, Err (ErrWrap "withOrgContext: set session var: " e ""))
      | (conn', None) => fn conn' db
      end
  end.

(** [conn.Query]: it reports what goes wrong before the statement runs
    (sending it, and the encoding [args] of its arguments); what goes wrong
    while it runs ends the rows and is left for [rows.Err()].  [wrap] is what
    the caller makes of a reported error. *)
Definition query {A B} (wrap : goerr -> goerr) (f : Faults) (args : res A)
  (sel : A -> DB -> res (list B)) (db : DB) : res (Rows B) :=
  match fQuery f with
  | Some e => Err (wrap e)
  | None =>
      match args with
      | Err e => Err (wrap e)
      | Ok a =>
          match sel a db with
          | Err e => Ok (mkRows [] (Some e))
          | Ok l => Ok (deliver (fRows f) l)
          end
      end
  end.

(** [fmt.Errorf("...: %w", err)]. *)
Definition wrapf (text : string) (e : goerr) : goerr := ErrWrap text e "".

(** [scanPolicies] and the like: the loop stops at the last row delivered;
    [rows.Err()] is not consulted. *)
Definition scanRows {A} (rows : Rows A) : res (list A) := Ok (rows_list rows).

(** ** Operations of the repository *)

Definition ListPolicies (ctxOrg : string) (conn : S) (f : Faults) (db : DB)
  : DB * res (list Policy) :=
  withOrgContext ctxOrg conn f (fun sess db =>
    (db, rows <-? query (wrapf "list policies: ") f (Ok tt)
                    (fun _ db => ps <-? select_policies sess db; Ok (order_by newest_policy ps)) db;
         scanRows rows)) db.

Definition GetPolicy (ctxOrg policyID : string) (conn : S) (f : Faults) (db : DB)
  : DB * res Policy :=
  withOrgContext ctxOrg conn f (fun sess db =>
    (db, match fQuery f with
         | Some e => Err (ErrWrap "get policy: " e "")
         | None =>
             match id <-? uuid_arg pgUUID policyID; ps <-? select_policies sess db;
                   Ok (find (fun p => pID p =s? id) ps) with
             | Err e => Err (ErrWrap "get policy: " e "")
             | Ok None => Err ErrNotFound
             | Ok (Some p) => Ok p
             end
         end)) db.

(** The error handling of the three write operations. *)
Definition wrap_err {A} (wrap : string) (r : res A) : res A :=
  match r with
  | Ok a => Ok a
  | Err e => if errors_is e ErrNoRows then Err ErrNotFound else Err (ErrWrap wrap e "")
  end.

Definition CreatePolicy (ctxOrg : string) (conn : S) (f : Faults) (id : string) (now : Z)
  (orgID name description : string) (logic : raw) (db : DB) : DB * res Policy :=
  withOrgContext ctxOrg conn f (fun sess db =>
    let '(db', r) := autocommit f (insert_policy sess id now orgID name description logic) db in
    (db', match r with Ok p => Ok p | Err e => Err (ErrWrap "create policy: " e "") end)) db.

Definition UpdatePolicy (ctxOrg : string) (conn : S) (f : Faults) (now : Z)
  (orgID policyID name description : string) (logic : raw) (db : DB) : DB * res Policy :=
  withOrgContext ctxOrg conn f (fun sess db =>
    let '(db', r) := autocommit f (update_policy sess now policyID orgID name description logic) db in
    (db', wrap_err "update policy: " r)) db.

Definition affected (wrap : string) (r : res nat) : res unit :=
  match r with
  | Err e => Err (ErrWrap wrap e "")
  | Ok 0 => Err ErrNotFound
  | Ok (Datatypes.S _) => Ok tt
  end.

Definition DeletePolicy (ctxOrg : string) (conn : S) (f : Faults)
  (orgID policyID : string) (db : DB) : DB * res unit :=
  withOrgContext ctxOrg conn f (fun sess db =>
    let '(db', r) := autocommit f (delete_policy sess policyID orgID) db in
    (db', affected "delete policy: " r)) db.

(** The three operations inside a transaction. *)
Definition in_tx {A B} (tx : S * Tx DB) (f : Faults) (orgID : string)
  (stmt : S -> DB -> res (DB * A)) (finish : res A -> res B) : (S * Tx DB) * res B :=
  match TxSetSessionVar tx.1 orgID (if txOpen tx.2 then fSet f else Some ErrTxAborted) with
  | (sess, Some e) => ((sess, mkTx (txDB tx.2) false), Err (ErrWrap "set rls: " e ""))
  | (sess, None) =>
      let '(t, r) := tx_exec tx.2 (fQuery f) (stmt sess) in ((sess, t), finish r)
  end.

Definition CreatePolicyTx (tx : S * Tx DB) (f : Faults) (id : string) (now : Z)
  (orgID name description : string) (logic : raw) : (S * Tx DB) * res Policy :=
  in_tx tx f orgID (fun sess => insert_policy sess id now orgID name description logic)
    (fun r => match r with Ok p => Ok p | Err e => Err (ErrWrap "create policy: " e "") end).

Definition UpdatePolicyTx (tx : S * Tx DB) (f : Faults) (now : Z)
  (orgID policyID name description : string) (logic : raw) : (S * Tx DB) * res Policy :=
  in_tx tx f orgID (fun sess => update_policy sess now policyID orgID name description logic)
    (wrap_err "update policy: ").

Definition DeletePolicyTx (tx : S * Tx DB) (f : Faults) (orgID policyID : string)
  : (S * Tx DB) * res unit :=
  in_tx tx f orgID (fun sess => delete_policy sess policyID orgID) (affected "delete policy: ").

Definition validGroups (groups : list string) : list string :=
  List.filter uuidParse groups.

(** The three arguments of the query, as the driver encodes them. *)
Definition matching_args (orgID subjectID : string) (groups : list string)
  : res (string * string * list string) :=
  org <-? uuid_arg pgUUID orgID;
  subject <-? uuid_arg pgUUID subjectID;
  gs <-? uuid_args groups;
  Ok (org, subject, gs).

Definition GetMatchingPolicies (ctxOrg : string) (conn : S) (f : Faults)
  (orgID subjectID : string) (userGroups : list string) (db : DB) : DB * res (list Policy) :=
  withOrgContext ctxOrg conn f (fun sess db =>
    (db, if negb (uuidParse subjectID) then
           rows <-? query (wrapf "get global policies: ") f (uuid_arg pgUUID orgID)
                      (select_global sess) db;
           scanRows rows
         else
           rows <-? query (wrapf "get matching policies: ") f
                      (matching_args orgID subjectID (validGroups userGroups))
                      (fun '(org, subject, gs) => select_matching sess org subject gs) db;
           scanRows rows)) db.

Definition insert_eval_log (sess : S) (id : string) (now : Z) (log : EvalLog) (db : DB)
  : res (DB * unit) :=
  org <-? uuid_arg pgUUID (elOrgID log);
  match pgxArray (elMatchedPolicyIDs log) with
  | None => Err ErrNotNull
  | Some mids =>
      ids <-? uuid_args mids;
      vis <-? filter_of sess;
      if negb (vis org) then Err ErrRLS
      else Ok (set_eval_log (policy_eval_log db ++
                 [mkEvalLog id org (elSubjectID log) (elAction log) (elResource log)
                    (elEffect log) (Some ids) (elCacheHit log) (elLatencyMs log) now]) db, tt)
  end.

Definition WriteEvalLog (ctxOrg : string) (conn : S) (f : Faults) (id : string) (now : Z)
  (log : EvalLog) (db : DB) : DB * res unit :=
  withOrgContext ctxOrg conn f (fun sess db => autocommit f (insert_eval_log sess id now log) db) db.

Definition logLimit (limit : Z) : Z :=
  if (limit <=? 0)%Z || (1000 <? limit)%Z then 100 else limit.

Definition ListEvalLogs (ctxOrg : string) (conn : S) (f : Faults) (orgID : string) (limit : Z)
  (db : DB) : DB * res (list EvalLog) :=
  withOrgContext ctxOrg conn f (fun sess db =>
    (db, rows <-? query (wrapf "list eval logs: ") f (uuid_arg pgUUID orgID)
           (fun org db => vis <-? filter_of sess;
              Ok (take (Z.to_nat (logLimit limit))
                    (order_by newest_log
                       (List.filter (fun l => (elOrgID l =s? org) && vis (elOrgID l))
                          (policy_eval_log db))))) db;
         scanRows rows)) db.

Definition ListAssignments (ctxOrg : string) (conn : S) (f : Faults) (db : DB)
  : DB * res (list Assignment) :=
  withOrgContext ctxOrg conn f (fun sess db =>
    (db, rows <-? query (fun e => e) f (Ok tt)
           (fun _ db => vis <-? filter_of sess;
              Ok (List.filter (fun a => vis (aOrgID a)) (policy_assignments db))) db;
         scanRows rows)) db.

Definition insert_assignment (sess : S) (id : string) (now : Z)
  (orgID policyID subjectID subjectType : string) (db : DB) : res (DB * Assignment) :=
  org <-? uuid_arg pgUUID orgID;
  pol <-? uuid_arg pgUUID policyID;
  sub <-? uuid_arg pgUUID subjectID;
  vis <-? filter_of sess;
  if negb (vis org) then Err ErrRLS
  else if negb (existsb (fun p => pID p =s? pol) (policies db)) then Err ErrForeignKey
  else let a := mkAssignment id org pol sub subjectType now in
       Ok (set_assignments (policy_assignments db ++ [a]) db, a).

Definition CreateAssignment (ctxOrg : string) (conn : S) (f : Faults) (id : string) (now : Z)
  (orgID policyID subjectID subjectType : string) (db : DB) : DB * res Assignment :=
  withOrgContext ctxOrg conn f (fun sess db =>
    autocommit f (insert_assignment sess id now orgID policyID subjectID subjectType) db) db.

Definition delete_assignment (sess : S) (assignmentID orgID : string) (db : DB) : res (DB * nat) :=
  id <-? uuid_arg pgUUID assignmentID;
  org <-? uuid_arg pgUUID orgID;
  vis <-? filter_of sess;
  let hit a := (aID a =s? id) && (aOrgID a =s? org) && vis (aOrgID a) in
  Ok (set_assignments (List.filter (fun a => negb (hit a)) (policy_assignments db)) db,
      length (List.filter hit (policy_assignments db))).

Definition DeleteAssignment (ctxOrg : string) (conn : S) (f : Faults)
  (orgID assignmentID : string) (db : DB) : DB * res unit :=
  withOrgContext ctxOrg conn f (fun sess db =>
    let '(db', r) := autocommit f (delete_assignment sess assignmentID orgID) db in
    (db', match r with
          | Err e => Err e
          | Ok 0 => Err ErrNotFound
          | Ok (Datatypes.S _) => Ok tt
          end)) db.
End store.

#[global] Arguments filter_of : simpl never.

(** ** Well-formed databases *)

(** Keys are unique, foreign keys resolve, versions fit their column. *)
Record wf_db (db : DB) : Prop := {
  wf_ids : NoDup (map pID (policies db));
  wf_fk : forall a, In a (policy_assignments db) ->
          In (aPolicyID a) (map pID (policies db));
  wf_version : forall p, In p (policies db) -> (1 <= pVersion p <= int4_max)%Z;
}.

Lemma filter_negb_filter {A} (f : A -> bool) l x :
  In x l -> In x (List.filter f l) \/ In x (List.filter (fun y => negb (f y)) l).
Proof. rewrite !filter_In. intros Hx. destruct (f x) eqn:E; simpl; auto. Qed.

Section store_lemmas.
Context {S : Type} `{PgSessionLaws S}.
Variable pgUUID : uuidCast.
Variable uuidParse : string -> bool.
Variable jsonb : json -> json.
Variable pgxArray : option (list string) -> option (list string).
Variable ro : role.

Lemma insert_policy_inv sess id now orgID name description logic db db' p :
  insert_policy pgUUID jsonb ro sess id now orgID name description logic db = Ok (db', p) ->
  db' = set_policies (policies db ++ [p]) db /\ ~ In (pID p) (map pID (policies db)) /\
  pgUUID id = Some (pID p) /\ pgUUID orgID = Some (pOrgID p) /\ pName p = name /\
  pDescription p = description /\ (exists j, logic = Some j /\ pLogic p = Some (jsonb j)) /\
  pVersion p = 1%Z /\ pCreatedAt p = now /\ pUpdatedAt p = now.
Proof.
  unfold insert_policy, uuid_arg. intros Hi.
  destruct (pgUUID id) as [u|]; [|done]. destruct (pgUUID orgID) as [o|]; [|done]. simpl in Hi.
  destruct logic as [j|]; [|done]. apply res_bind_ok in Hi as (vis & _ & Hi).
  destruct (existsb _ _) eqn:Ex; [done|]. destruct (negb (vis o)); [done|].
  injection Hi as <- <-. simpl. split; [done|]. split; [|by eauto 10].
  intros (q & Hq & Hin)%in_map_iff. assert (existsb (fun p => pID p =s? u) (policies db) = true); [|congruence].
  apply existsb_exists. exists q. by rewrite Hq, String.eqb_refl.
Qed.

(** A row is a given policy of a given tenant. *)
Definition policy_of (id org : string) (p : Policy) : bool := (pID p =s? id) && (pOrgID p =s? org).

(** Where the tenant is visible, the filter of row-level security is void. *)
Lemma policy_of_vis id org (vis : string -> bool) p :
  vis org = true -> policy_of id org p && vis (pOrgID p) = policy_of id org p.
Proof.
  intros Hv. unfold policy_of. destruct (pOrgID p =s? org) eqn:E; [|by rewrite andb_false_r].
  bool_to_prop. by rewrite E, Hv, !andb_true_r.
Qed.

Lemma update_policy_inv sess now policyID orgID name description logic db db' p' :
  update_policy pgUUID jsonb ro sess now policyID orgID name description logic db = Ok (db', p') ->
  exists id org j p,
    pgUUID policyID = Some id /\ pgUUID orgID = Some org /\ logic = Some j /\
    In p (policies db) /\ pID p = id /\ pOrgID p = org /\
    p' = update_row jsonb now name description j p /\ (pVersion p' <= int4_max)%Z /\
    db' = set_policies (map (fun q => if policy_of id org q then update_row jsonb now name description j q else q)
                          (policies db)) db.
Proof.
  unfold update_policy, uuid_arg. intros Hi.
  destruct (pgUUID policyID) as [u|]; [|done]. destruct (pgUUID orgID) as [o|]; [|done]. simpl in Hi.
  destruct logic as [j|]; [|done]. apply res_bind_ok in Hi as (vis & _ & Hi).
  destruct (find _ _) as [p|] eqn:Ef; [|done]. apply find_some in Ef as [Hin Hh].
  destruct (_ <? _)%Z eqn:Ev; [done|]. apply Z.ltb_ge in Ev. injection Hi as <- <-.
  exists u, o, j, p. bool_to_prop. repeat (split; [first [done|by bool_to_prop]|]). f_equal.
  apply map_ext. intros q. fold (policy_of u o q). rewrite (policy_of_vis u o vis); [done|congruence].
Qed.

Lemma delete_policy_inv sess policyID orgID db db' n :
  delete_policy pgUUID ro sess policyID orgID db = Ok (db', n) ->
  exists id org hit,
    pgUUID policyID = Some id /\ pgUUID orgID = Some org /\
    (0 < n -> forall q, hit q = policy_of id org q) /\
    n = length (List.filter hit (policies db)) /\
    db' = set_policies (List.filter (fun p => negb (hit p)) (policies db))
            (set_assignments
              (List.filter (fun a => negb (existsb (fun p => pID p =s? aPolicyID a)
                                             (List.filter hit (policies db))))
                 (policy_assignments db)) db).
Proof.
  unfold delete_policy, uuid_arg. intros Hi.
  destruct (pgUUID policyID) as [u|]; [|done]. destruct (pgUUID orgID) as [o|]; [|done]. simpl in Hi.
  apply res_bind_ok in Hi as (vis & _ & Hi). injection Hi as <- <-.
  exists u, o, (fun p => (pID p =s? u) && (pOrgID p =s? o) && vis (pOrgID p)).
  repeat (split; [done|]). split; [|done]. intros Hn q. fold (policy_of u o q).
  destruct (List.filter _ _) as [|p l] eqn:Ef; [simpl in Hn; lia|].
  assert (Hp : In p (p :: l)) by (by left). rewrite <- Ef in Hp. apply filter_In in Hp as [_ Hp].
  bool_to_prop. apply policy_of_vis. congruence.
Qed.

Lemma insert_policy_wf sess id now orgID name description logic db db' p :
  insert_policy pgUUID jsonb ro sess id now orgID name description logic db = Ok (db', p) ->
  wf_db db -> wf_db db'.
Proof.
  intros (-> & Hn & _ & _ & _ & _ & _ & Hv & _)%insert_policy_inv [H1 H2 H3].
  split; simpl; rewrite ?map_app; simpl.
  - apply NoDup_app. split; [done|]. split; [|apply NoDup_singleton].
    intros x Hx ->%list_elem_of_singleton. by rewrite list_elem_of_In in Hx.
  - intros a Ha. apply in_or_app. left. auto.
  - intros q [Hq|[->|[]]]%in_app_or; [auto|]. unfold int4_max. lia.
Qed.

Lemma update_policy_wf sess now policyID orgID name description logic db db' p' :
  update_policy pgUUID jsonb ro sess now policyID orgID name description logic db = Ok (db', p') ->
  wf_db db -> wf_db db'.
Proof.
  intros (id & org & j & p & _ & _ & _ & Hp & Hid & Ho & -> & Hv & ->)%update_policy_inv.
  intros [H1 H2 H3].
  assert (Hm : map pID (map (fun q => if policy_of id org q then update_row jsonb now name description j q else q)
                  (policies db)) = map pID (policies db)).
  { rewrite map_map. apply map_ext. intros q. by destruct (policy_of id org q). }
  split; simpl; rewrite ?Hm; [done|done|].
  intros q (r & <- & Hr)%in_map_iff. destruct (policy_of id org r) eqn:Er; [|auto].
  assert (r = p) as ->.
  { unfold policy_of in Er. bool_to_prop. apply (NoDup_map_In pID (policies db)); congruence. }
  simpl in *. specialize (H3 p Hp). lia.
Qed.

Lemma delete_policy_wf sess policyID orgID db db' n :
  delete_policy pgUUID ro sess policyID orgID db = Ok (db', n) -> wf_db db -> wf_db db'.
Proof.
  intros (id & org & hit & _ & _ & _ & _ & ->)%delete_policy_inv [H1 H2 H3]. split; simpl.
  - eapply NoDup_map_sub; [apply sublist_submseteq, filter_sublist|done].
  - intros a [Ha Hg]%filter_In. specialize (H2 a Ha). apply in_map_iff in H2 as (p & Hp & Hin).
    rewrite <- Hp. apply in_map. destruct (filter_negb_filter hit _ _ Hin) as [Hd|Hd]; [|done].
    exfalso. assert (Ht : existsb (fun p => pID p =s? aPolicyID a) (List.filter hit (policies db)) = true).
    { apply existsb_exists. exists p. by rewrite Hp, String.eqb_refl. }
    by rewrite Ht in Hg.
  - intros p [Hp _]%filter_In. auto.
Qed.

Lemma insert_assignment_wf sess id now orgID policyID subjectID subjectType db db' a :
  insert_assignment pgUUID ro sess id now orgID policyID subjectID subjectType db = Ok (db', a) ->
  wf_db db -> wf_db db'.
Proof.
  unfold insert_assignment. intros (org & _ & Hi)%res_bind_ok. apply res_bind_ok in Hi as (pol & _ & Hi).
  apply res_bind_ok in Hi as (sub & _ & Hi). apply res_bind_ok in Hi as (vis & _ & Hi).
  destruct (negb (vis org)); [done|]. destruct (existsb _ _) eqn:Ex; [|done]. injection Hi as <- <-.
  intros [H1 H2 H3]. split; simpl; [done| |done].
  intros b [Hb|[<-|[]]]%in_app_or; [auto|]. simpl.
  apply existsb_exists in Ex as (p & Hp & He). bool_to_prop. subst. by apply in_map.
Qed.

Lemma delete_assignment_wf sess id orgID db db' n :
  delete_assignment pgUUID ro sess id orgID db = Ok (db', n) -> wf_db db -> wf_db db'.
Proof.
  unfold delete_assignment. intros (u & _ & Hi)%res_bind_ok. apply res_bind_ok in Hi as (org & _ & Hi).
  apply res_bind_ok in Hi as (vis & _ & Hi). injection Hi as <- _.
  intros [H1 H2 H3]. split; simpl; [done| |done]. intros a [Ha _]%filter_In. auto.
Qed.

Lemma insert_eval_log_wf sess id now log db db' u :
  insert_eval_log pgUUID pgxArray ro sess id now log db = Ok (db', u) -> wf_db db -> wf_db db'.
Proof.
  unfold insert_eval_log. intros (org & _ & Hi)%res_bind_ok. destruct (pgxArray _); [|done].
  apply res_bind_ok in Hi as (ids & _ & Hi). apply res_bind_ok in Hi as (vis & _ & Hi).
  destruct (negb _); [done|]. injection Hi as <- _. intros [H1 H2 H3]. by split.
Qed.

(** What holds after every statement holds after the operation. *)
Lemma withOrgContext_db {A} (P : DB -> Prop) ctxOrg conn f (fn : S -> DB -> DB * res A) db :
  P db -> (forall sess, P (fn sess db).1) -> P (withOrgContext ctxOrg conn f fn db).1.
Proof.
  intros Hp Hf. unfold withOrgContext. repeat (case_goal; try done); apply Hf.
Qed.

Lemma autocommit_db {D A} (P : D -> Prop) f (stmt : D -> res (D * A)) db :
  P db -> (forall db' a, stmt db = Ok (db', a) -> P db') -> P (autocommit f stmt db).1.
Proof.
  intros Hp Hs. unfold autocommit. destruct (fQuery f); [done|].
  destruct (stmt db) as [[db' a]|] eqn:E; simpl; [by eapply Hs|done].
Qed.

Lemma tx_exec_db {D A} (P : D -> Prop) tx f (stmt : D -> res (D * A)) :
  P (txDB tx) -> (forall db' a, stmt (txDB tx) = Ok (db', a) -> P db') ->
  P (txDB (tx_exec tx f stmt).1).
Proof.
  intros Hp Hs. unfold tx_exec. destruct (txOpen tx); [|done]. destruct f; [done|].
  destruct (stmt _) as [[db' a]|] eqn:E; simpl; [by eapply Hs|done].
Qed.

Lemma in_tx_db {A B} (P : DB -> Prop) tx f orgID (stmt : S -> DB -> res (DB * A)) (fin : res A -> res B) :
  P (txDB tx.2) -> (forall sess db' a, stmt sess (txDB tx.2) = Ok (db', a) -> P db') ->
  P (txDB (in_tx tx f orgID stmt fin).1.2).
Proof.
  intros Hp Hs. unfold in_tx. destruct (TxSetSessionVar _ _ _) as [sess [e|]]; [done|].
  pose proof (tx_exec_db P tx.2 (fQuery f) (stmt sess) Hp (Hs sess)) as Ht.
  by destruct (tx_exec _ _ _).
Qed.
End store_lemmas.

(** ** Which policies are fetched *)

(** The assignments of a policy. *)
Definition assignments_of (db : DB) (p : Policy) : list Assignment :=
  List.filter (fun a => aPolicyID a =s? pID p) (policy_assignments db).

(** A policy is in scope of a subject: it has no assignment, or one for the
    subject or one of its groups. *)
Definition in_scope (db : DB) (subject : string) (groups : list string) (p : Policy) : Prop :=
  assignments_of db p = [] \/
  exists a, In a (assignments_of db p) /\ assigned_to subject groups (Some a) = true.

Lemma left_join_In ps asg p oa :
  In (p, oa) (left_join ps asg) <->
  In p ps /\
  match oa with
  | None => List.filter (fun a => aPolicyID a =s? pID p) asg = []
  | Some a => In a asg /\ aPolicyID a = pID p
  end.
Proof.
  unfold left_join. rewrite in_flat_map. split.
  - intros (q & Hq & Hin). destruct (List.filter _ asg) as [|a0 l] eqn:El.
    + destruct Hin as [[= <- <-]|[]]. done.
    + rewrite <- El in Hin. apply in_map_iff in Hin as (a & [= <- <-] & Ha).
      apply filter_In in Ha as [Ha Hp]. bool_to_prop. done.
  - intros [Hp Hoa]. exists p. split; [done|]. destruct oa as [a|].
    + destruct (List.filter _ asg) as [|a0 l] eqn:El.
      * assert (Hn : In a (List.filter (fun a => aPolicyID a =s? pID p) asg)).
        { apply filter_In. destruct Hoa as [? ->]. by rewrite String.eqb_refl. }
        by rewrite El in Hn.
      * rewrite <- El. apply in_map_iff. exists a. split; [done|]. apply filter_In.
        destruct Hoa as [? ->]. by rewrite String.eqb_refl.
    + rewrite Hoa. by left.
Qed.

Lemma In_remove_dups {A} `{EqDecision A} (l : list A) x : In x (remove_dups l) <-> In x l.
Proof. rewrite <- !list_elem_of_In. apply elem_of_remove_dups. Qed.

Lemma filter_true {A} (l : list A) : List.filter (fun _ => true) l = l.
Proof. induction l; simpl; congruence. Qed.

Section store_properties.
Context {S : Type} `{PgSessionLaws S}.
Variable pgUUID : uuidCast.
Variable uuidParse : string -> bool.
Variable jsonb : json -> json.
Variable pgxArray : option (list string) -> option (list string).

Lemma withOrgContext_quiet {A} ctxOrg conn f (fn : S -> DB -> DB * res A) db :
  ctxOrg <> "" -> fAcquire f = None -> fSet f = None ->
  withOrgContext ctxOrg conn f fn db = fn (pg_set_config conn app_org ctxOrg true) db.
Proof.
  intros Ho Ha Hs. unfold withOrgContext, SetSessionVar. apply String.eqb_neq in Ho.
  by rewrite Ho, Ha, Hs.
Qed.

(** the policies a decision is based on.  For a role that bypasses
    row-level security and a request of a well-formed subject, the query
    delivers exactly the tenant's policies that have no assignment or are
    assigned to the subject or one of its (well-formed) groups, oldest
    first, each once. *)
Theorem GetMatchingPolicies_spec ctxOrg conn orgID org subjectID subject groups gs db :
  ctxOrg <> "" -> uuidParse subjectID = true ->
  pgUUID orgID = Some org -> pgUUID subjectID = Some subject ->
  uuid_args pgUUID (validGroups uuidParse groups) = Ok gs ->
  exists l,
    GetMatchingPolicies pgUUID uuidParse RoleBypass ctxOrg conn noFaults orgID subjectID groups db
      = (db, Ok l) /\
    NoDup l /\ StronglySorted (fun a b => (pCreatedAt a <= pCreatedAt b)%Z) l /\
    forall p, In p l <->
      In p (policies db) /\ pOrgID p = org /\ in_scope db subject gs p.
Proof.
  intros Hc Hp Ho Hs Hg. unfold GetMatchingPolicies.
  rewrite withOrgContext_quiet by done. rewrite Hp. simpl.
  unfold query, matching_args, select_matching, uuid_arg, select_join, filter_of, rls_filter. simpl.
  rewrite Ho, Hs, Hg. simpl. rewrite !filter_true. eexists. split; [reflexivity|]. cbn [rows_list].
  set (rows := remove_dups _). split; [|split].
  - rewrite order_by_perm. apply NoDup_remove_dups.
  - assert (Hso : StronglySorted (fun a b => oldest_policy a b = true) (order_by oldest_policy rows)).
    { apply order_by_sorted; unfold oldest_policy; intros; rewrite ?Z.leb_le in *; lia. }
    clear -Hso. induction Hso as [|x l _ IH Hx]; constructor; [done|].
    eapply Forall_impl; [exact Hx|]. intros y. apply Z.leb_le.
  - intros p. rewrite order_by_In. unfold rows. rewrite In_remove_dups, in_map_iff.
    unfold in_scope, assignments_of. split.
    + intros ([q oa] & <- & [Hj Hw]%filter_In). simpl in *. bool_to_prop.
      apply left_join_In in Hj as [Hin Hoa]. split; [done|]. split; [done|].
      destruct oa as [a|]; [right|by left]. exists a. split; [|done].
      apply filter_In. destruct Hoa as [? ->]. by rewrite String.eqb_refl.
    + intros (Hin & <- & Hsc). destruct Hsc as [Hn|(a & [Ha Hpa]%filter_In & Hasg)]; bool_to_prop.
      * exists (p, None). split; [done|]. apply filter_In. simpl.
        rewrite String.eqb_refl. split; [|done]. by apply left_join_In.
      * exists (p, Some a). split; [done|]. apply filter_In. simpl in *.
        rewrite String.eqb_refl. split; [|done]. by apply left_join_In.
Qed.

(** the tenant set outside a transaction is lost.  On any connection of
    the pool, for a role subject to row-level security, the reads of the
    repository see no row at all and its autocommit inserts are refused,
    whatever the database holds. *)
Theorem pooled_reads_see_nothing ctxOrg conn db orgID subjectID groups :
  pooled conn -> ctxOrg <> "" -> pgUUID orgID <> None ->
  (ListPolicies pgUUID RoleSubject ctxOrg conn noFaults db).2 = Ok [] /\
  (ListAssignments pgUUID RoleSubject ctxOrg conn noFaults db).2 = Ok [] /\
  (forall r, GetMatchingPolicies pgUUID uuidParse RoleSubject ctxOrg conn noFaults orgID
               subjectID groups db = (db, Ok r) -> r = []) /\
  (forall now id name descr logic, exists e,
     CreatePolicy pgUUID jsonb RoleSubject ctxOrg conn noFaults id now orgID name descr logic db
       = (db, Err e)).
Proof.
  intros Hpool Hc Ho. destruct (pooled_unset conn Hpool) as [Htx Hset].
  assert (Hf : filter_of pgUUID RoleSubject (pg_set_config conn app_org ctxOrg true)
               = Ok (fun _ => false)).
  { unfold filter_of. rewrite pg_set_local_autocommit, Hset by done. done. }
  assert (Hnil : forall A (l : list A), List.filter (fun _ => false) l = []).
  { intros A l'. by induction l'. }
  unfold ListPolicies, ListAssignments, GetMatchingPolicies, CreatePolicy.
  split; [|split; [|split]].
  - rewrite withOrgContext_quiet by done. simpl. unfold query, select_policies. simpl.
    rewrite Hf. simpl. by rewrite Hnil.
  - rewrite withOrgContext_quiet by done. simpl. unfold query. simpl. rewrite Hf. simpl. by rewrite Hnil.
  - intros r. rewrite withOrgContext_quiet by done. simpl.
    unfold query, matching_args, select_matching, select_global, select_join. simpl.
    unfold uuid_arg. destruct (pgUUID orgID) as [o|]; [simpl|done].
    destruct (negb _); simpl; rewrite ?Hf; simpl; rewrite ?Hnil; [by intros [= <-]|].
    destruct (pgUUID subjectID) as [u|]; simpl; [|by intros [= ?]].
    destruct (uuid_args _ _); simpl; rewrite ?Hf; simpl; rewrite ?Hnil; [by intros [= <-]|by intros [= ?]].
  - intros now id name descr logic. rewrite withOrgContext_quiet by done.
    unfold autocommit, insert_policy, uuid_arg. simpl.
    destruct (pgUUID id); simpl; [|by eexists]. destruct (pgUUID orgID); simpl; [|by eexists].
    destruct logic; [|by eexists]. rewrite Hf. simpl. destruct (existsb _ _); by eexists.
Qed.

(** With a role that bypasses row-level security, listing policies and
    reading one by id are not confined to the caller's tenant: they see the
    rows of every tenant. *)
Theorem bypass_reads_all_tenants ctxOrg conn db p :
  ctxOrg <> "" -> pgUUID (pID p) = Some (pID p) -> NoDup (map pID (policies db)) ->
  In p (policies db) ->
  (exists l, ListPolicies pgUUID RoleBypass ctxOrg conn noFaults db = (db, Ok l) /\
     Permutation l (policies db)) /\
  GetPolicy pgUUID RoleBypass ctxOrg (pID p) conn noFaults db = (db, Ok p).
Proof.
  intros Hc Hu Hn Hin. split.
  - unfold ListPolicies. rewrite withOrgContext_quiet by done. unfold query, select_policies,
      filter_of, rls_filter. simpl. rewrite filter_true. eexists. split; [done|].
    apply order_by_perm.
  - unfold GetPolicy. rewrite withOrgContext_quiet by done. unfold select_policies,
      filter_of, rls_filter, uuid_arg. simpl. rewrite Hu. simpl. rewrite filter_true.
    induction (policies db) as [|q l IH]; [done|]. simpl in *.
    apply NoDup_cons in Hn as [Hq Hn]. destruct (pID q =s? pID p) eqn:E; bool_to_prop.
    + destruct Hin as [->|Hin]; [done|]. destruct Hq. rewrite E, list_elem_of_In. by apply in_map.
    + destruct Hin as [->|Hin]; [done|auto].
Qed.

(** A lost connection truncates the policy set.  The rows delivered
    before the connection is lost are taken for the whole result: the
    operation reports success with the first [n] policies. *)
Theorem GetMatchingPolicies_truncated ro ctxOrg conn f orgID subjectID groups db n e l :
  (GetMatchingPolicies pgUUID uuidParse ro ctxOrg conn (cut_rows None f) orgID subjectID groups db).2 = Ok l ->
  GetMatchingPolicies pgUUID uuidParse ro ctxOrg conn (cut_rows (Some (n, e)) f)
    orgID subjectID groups db = (db, Ok (take n l)).
Proof.
  unfold GetMatchingPolicies, withOrgContext. simpl. destruct (ctxOrg =s? ""); [done|].
  destruct (fAcquire f); [done|]. destruct (SetSessionVar _ _ _) as [sess [e'|]]; [done|].
  unfold query. simpl. destruct (fQuery f); [by destruct (negb _)|]. destruct (negb _).
  - destruct (uuid_arg _ _) as [org|]; simpl; [|done].
    destruct (select_global _ _ _ _ _); simpl; intros [= <-]; by rewrite ?take_nil.
  - destruct (matching_args _ _ _ _) as [[[org subject] gs]|]; simpl; [|done].
    destruct (select_matching _ _ _ _ _ _ _); simpl; intros [= <-]; by rewrite ?take_nil.
Qed.

(** Whatever is delivered are policies of the database, of the tenant asked for. *)
Lemma GetMatchingPolicies_sound ro ctxOrg conn f orgID subjectID groups db db' ps p :
  GetMatchingPolicies pgUUID uuidParse ro ctxOrg conn f orgID subjectID groups db = (db', Ok ps) ->
  In p ps -> In p (policies db) /\ pgUUID orgID = Some (pOrgID p).
Proof.
  assert (Hjoin : forall sess rows q oa (P : Policy * option Assignment -> bool) org,
    select_join pgUUID ro sess db = Ok rows -> uuid_arg pgUUID orgID = Ok org ->
    In (q, oa) (List.filter (fun r => (pOrgID r.1 =s? org) && P r) rows) ->
    In q (policies db) /\ pgUUID orgID = Some (pOrgID q)).
  { intros sess rows q oa P org (vis & _ & [= <-])%res_bind_ok Ho [Hin Hq]%filter_In.
    apply left_join_In in Hin as [[Hin _]%filter_In _]. split; [done|]. simpl in Hq. bool_to_prop.
    unfold uuid_arg in Ho. destruct (pgUUID orgID); [|done]. congruence. }
  assert (Hcut : forall (l : list Policy), In p (rows_list (deliver (fRows f) l)) -> In p l).
  { intros l. unfold deliver. destruct (fRows f) as [[k e]|]; simpl; [|done].
    intros Hp. rewrite <- (take_drop k l). apply in_or_app. by left. }
  unfold GetMatchingPolicies, withOrgContext, query, scanRows.
  destruct (ctxOrg =s? ""); [done|]. destruct (fAcquire f); [done|].
  destruct (SetSessionVar _ _ _) as [sess [e|]]; [done|].
  destruct (fQuery f); [by destruct (negb _)|]. destruct (negb _).
  - destruct (uuid_arg pgUUID orgID) as [org|] eqn:Eo; [|done]. simpl.
    unfold select_global. destruct (select_join _ _ _ _) as [rows|] eqn:Er; simpl; intros [= _ <-]; [|done].
    intros Hp%Hcut. apply order_by_In, in_map_iff in Hp as ([q oa] & <- & Hq). eapply Hjoin; [exact Er|first [exact Eo|reflexivity]|exact Hq].
  - destruct (matching_args _ _ _ _) as [[[org subject] gs]|] eqn:Ea; [|done].
    apply res_bind_ok in Ea as (org' & Eo & Ea). apply res_bind_ok in Ea as (u & _ & Ea).
    apply res_bind_ok in Ea as (us & _ & [= -> -> ->]). simpl.
    unfold select_matching. destruct (select_join _ _ _ _) as [rows|] eqn:Er; simpl; intros [= _ <-]; [|done].
    intros Hp%Hcut. apply order_by_In, In_remove_dups, in_map_iff in Hp as ([q oa] & <- & Hq). eapply Hjoin; [exact Er|first [exact Eo|reflexivity]|exact Hq].
Qed.

(** The failures that the fetch reports. *)
Lemma GetMatchingPolicies_reported ro ctxOrg conn f orgID subjectID groups db :
  ctxOrg = "" \/ is_Some (fAcquire f) \/ is_Some (fSet f) \/ is_Some (fQuery f) ->
  exists e, (GetMatchingPolicies pgUUID uuidParse ro ctxOrg conn f orgID subjectID groups db).2 = Err e.
Proof.
  unfold GetMatchingPolicies, withOrgContext, SetSessionVar, query.
  intros Hf. destruct (ctxOrg =s? "") eqn:Ec; [eauto|]. bool_to_prop.
  destruct (fAcquire f); [eauto|]. destruct (fSet f); [eauto|].
  destruct Hf as [?|[[? ?]|[[? ?]|[x ->]]]]; [done..|]. destruct (negb _); simpl; eauto.
Qed.

(** an update inside a transaction.  When [UpdatePolicyTx] succeeds it
    returns the row it stored, whose version is one more than before and
    within the column's range; rows of another id or another tenant are
    unchanged, and so are the other tables. *)
Theorem UpdatePolicyTx_spec ro sess db f now orgID policyID name description logic tx' p' :
  wf_db db ->
  UpdatePolicyTx pgUUID jsonb ro (sess, Begin db) f now orgID policyID name description logic
    = (tx', Ok p') ->
  let db' := txDB tx'.2 in
  exists p, In p (policies db) /\ In p' (policies db') /\
    pgUUID policyID = Some (pID p) /\ pgUUID orgID = Some (pOrgID p) /\
    pID p' = pID p /\ pOrgID p' = pOrgID p /\ pName p' = name /\ pDescription p' = description /\
    pVersion p' = (pVersion p + 1)%Z /\ (pVersion p' <= int4_max)%Z /\
    policy_assignments db' = policy_assignments db /\
    Forall2 (fun q q' => q' = q \/ (q = p /\ q' = p')) (policies db) (policies db').
Proof.
  intros Hwf. unfold UpdatePolicyTx, in_tx. simpl.
  destruct (TxSetSessionVar sess orgID (fSet f)) as [s [e|]]; [done|].
  destruct (tx_exec _ _ _) as [t r] eqn:E. intros [= <- Hr]. simpl.
  destruct r as [q|e]; [|by simpl in Hr; case_match]. simpl in Hr. injection Hr as ->.
  apply tx_exec_ok in E as (_ & _ & E & _). simpl in E.
  apply update_policy_inv in E as (id & org & j & p & Hid & Horg & -> & Hin & <- & <- & -> & Hv & ->).
  exists p. simpl in *. repeat (split; [done|]).
  split. { apply in_map_iff. exists p. by unfold policy_of; rewrite !String.eqb_refl. }
  repeat (split; [done|]).
  apply Forall2_map_self. intros q Hq. destruct (policy_of _ _ q) eqn:Eq; [right|by left].
  assert (q = p) as ->; [|done].
  destruct Hwf as [Hn _ _]. unfold policy_of in Eq. bool_to_prop.
  by apply (NoDup_map_In pID (policies db)).
Qed.
End store_properties.

(** ** Witnesses *)

Definition exampleDB : DB :=
  mkDB [mkPolicy "p1" "org1" "readers" "" (Some (JObj [("type", JStr "allow_all")])) 1 10 10;
        mkPolicy "p2" "org1" "frozen" "" (Some (JObj [("type", JStr "deny_all")])) 4 20 20;
        mkPolicy "p3" "org2" "other" "" (Some (JObj [("type", JStr "allow_all")])) 1 15 15]
       [mkAssignment "a1" "org1" "p2" "user1" "user" 30] [] [].

Definition exampleParse (s : string) : bool := negb (s =s? "").

Lemma exampleDB_wf : wf_db exampleDB.
Proof.
  split.
  - apply (bool_decide_unpack _). vm_compute. exact I.
  - intros a [<-|[]]. right. left. reflexivity.
  - intros p Hp. unfold int4_max. repeat destruct Hp as [<-|Hp]; simpl; lia || done.
Qed.

Lemma GetMatchingPolicies_spec_witness :
  exists l, GetMatchingPolicies exampleUUID exampleParse RoleBypass "org1" (pg_fresh : MiniPg) noFaults
              "org1" "user1" ["g1"] exampleDB = (exampleDB, Ok l) /\ length l = 2.
Proof.
  destruct (GetMatchingPolicies_spec exampleUUID exampleParse "org1" (pg_fresh : MiniPg) "org1" "org1"
    "user1" "user1" ["g1"] ["g1"] exampleDB) as (l & Hl & _); [discriminate|reflexivity..|].
  exists l. split; [exact Hl|]. vm_compute in Hl. injection Hl as <-. reflexivity.
Defined.

Lemma pooled_reads_see_nothing_witness :
  (ListPolicies exampleUUID RoleSubject "org1" (pg_fresh : MiniPg) noFaults exampleDB).2 = Ok [].
Proof.
  destruct (pooled_reads_see_nothing exampleUUID exampleParse (fun j => j) "org1" (pg_fresh : MiniPg)
    exampleDB "org1" "user1" []) as [Hl _]; [constructor|discriminate|discriminate|exact Hl].
Defined.

Lemma bypass_reads_all_tenants_witness :
  exists l, ListPolicies exampleUUID RoleBypass "org1" (pg_fresh : MiniPg) noFaults exampleDB
            = (exampleDB, Ok l) /\ Permutation l (policies exampleDB).
Proof.
  destruct (bypass_reads_all_tenants exampleUUID "org1" (pg_fresh : MiniPg) exampleDB
    (mkPolicy "p3" "org2" "other" "" (Some (JObj [("type", JStr "allow_all")])) 1 15 15)) as [Hl _];
    [discriminate|reflexivity|apply exampleDB_wf|right; right; by left|exact Hl].
Defined.

Lemma GetMatchingPolicies_truncated_witness :
  exists l, GetMatchingPolicies exampleUUID exampleParse RoleBypass "org1" (pg_fresh : MiniPg)
    (cut_rows (Some (1, ErrNew "unexpected EOF")) noFaults) "org1" "user1" [] exampleDB
    = (exampleDB, Ok (take 1 l)) /\ length l = 2.
Proof.
  eexists. split.
  - apply (GetMatchingPolicies_truncated exampleUUID exampleParse RoleBypass "org1" (pg_fresh : MiniPg) noFaults).
    vm_compute. reflexivity.
  - reflexivity.
Defined.

Lemma UpdatePolicyTx_spec_witness :
  exists p, In p (policies exampleDB) /\ pID p = "p2" /\ pVersion p = 4%Z.
Proof.
  set (x := UpdatePolicyTx exampleUUID (fun j => j) RoleSubject
    (pg_begin (pg_fresh : MiniPg), Begin exampleDB) noFaults 50 "org1" "p2" "thawed" ""
    (Some (JObj [("type", JStr "allow_all")]))).
  destruct (UpdatePolicyTx_spec exampleUUID (fun j => j) RoleSubject (pg_begin (pg_fresh : MiniPg))
    exampleDB noFaults 50 "org1" "p2" "thawed" "" (Some (JObj [("type", JStr "allow_all")])) x.1
    (mkPolicy "p2" "org1" "thawed" "" (Some (JObj [("type", JStr "allow_all")])) 5 20 50) exampleDB_wf)
    as (p & Hin & _ & Hid & _ & _ & _ & _ & _ & Hv & _); [vm_compute; reflexivity|].
  exists p. split; [exact Hin|]. split; [|simpl in Hv; lia].
  unfold exampleUUID in Hid. simpl in Hid. congruence.
Defined.
