(* ===== verification/PolicyService.v ===== *)
(** The policy service: services/policy/pkg/service/service.go.  Decisions with
    the Redis cache (stale-while-revalidate), singleflight and the breaker;
    policy mutations with their outbox event; assignments and invalidation.
    Goroutines the service starts are pending work of its state
    ([World]); their runs are steps of [world_step]. *)

From S2P Require Import Prelude GoStrings Json Redis Resilience Pg Outbox PolicyEngine PolicyStore.

(** ** Data *)

Record EvaluateResponse := mkEvaluateResponse {
  Effect : string;
  MatchedPolicyIDs : option (list string);     (* [None] is the nil slice *)
  MaxVersion : Z;
  CacheHit : string;
  LatencyMs : Z;
}.

Record cachedDecision := mkCachedDecision {
  cdEffect : string;
  cdMatchedPolicyIDs : option (list string);
  cdMaxVersion : Z;
  cdExpiresAt : Z;
}.

Definition cachePrefix : string := "policy:eval:".
Definition cacheTTL : Z := (60 * Second)%Z.
Definition staleWindow : Z := (5 * Second)%Z.
Definition maxRetryDelay : Z := (5 * Second)%Z.
Definition refreshCap : nat := 100.
Definition logCap : nat := 1000.

(** The JSON form of [time.Time]. *)
Class TimeCodec := {
  time_json : Z -> json;
  time_of : json -> res Z;
}.
Class TimeCodecLaws `{TimeCodec} : Prop := {
  time_roundtrip z : time_of (time_json z) = Ok z;
  time_not_null z : time_json z <> JNull;
}.

(** A nil slice marshals to [null]. *)
Definition json_strings (l : option (list string)) : json :=
  match l with None => JNull | Some ss => JArr (map JStr ss) end.

(** [append]ing to a nil slice: nil exactly when nothing was appended. *)
Definition slice_of (l : list string) : option (list string) :=
  match l with [] => None | _ => Some l end.

Section codec.
Context `{TimeCodec}.

Definition encode_decision (d : cachedDecision) : json :=
  JObj [("effect", JStr (cdEffect d));
        ("matched_policy_ids", json_strings (cdMatchedPolicyIDs d));
        ("max_version", JNum (cdMaxVersion d));
        ("expires_at", time_json (cdExpiresAt d))].

Definition dec_time (cur : Z) (j : json) : res Z :=
  match j with JNull => Ok cur | _ => time_of j end.

Definition dec_slice (cur : option (list string)) (j : json) : res (option (list string)) :=
  match j with
  | JNull => Ok None
  | JArr l => ss <-? dec_elems l; Ok (Some ss)
  | _ => Err ErrUnmarshalType
  end.

Definition upd_decision (k : string) (d : cachedDecision) (j : json) : res cachedDecision :=
  let '(mkCachedDecision e m v x) := d in
  if key_is "effect" k then e' <-? dec_string e j; Ok (mkCachedDecision e' m v x)
  else if key_is "matched_policy_ids" k then m' <-? dec_slice m j; Ok (mkCachedDecision e m' v x)
  else if key_is "max_version" k then v' <-? dec_int v j; Ok (mkCachedDecision e m v' x)
  else if key_is "expires_at" k then x' <-? dec_time x j; Ok (mkCachedDecision e m v x')
  else Ok d.

Definition decode_decision (data : raw) : res cachedDecision :=
  unmarshal_struct upd_decision (mkCachedDecision "" None 0 0) data.

Lemma dec_elems_map ss : dec_elems (map JStr ss) = Ok ss.
Proof. induction ss as [|s ss IH]; simpl; [done|]. by rewrite IH. Qed.

Lemma dec_time_json `{!TimeCodecLaws} c x : dec_time c (time_json x) = Ok x.
Proof.
  unfold dec_time. pose proof (time_not_null x) as Hn. pose proof (time_roundtrip x) as Ht.
  by destruct (time_json x).
Qed.

Lemma decode_steps d :
  decode_decision (Some (encode_decision d)) =
  (m' <-? dec_slice None (json_strings (cdMatchedPolicyIDs d));
   v' <-? dec_int 0 (JNum (cdMaxVersion d));
   x' <-? dec_time 0 (time_json (cdExpiresAt d));
   Ok (mkCachedDecision (cdEffect d) m' v' x')).
Proof.
  unfold decode_decision, encode_decision, unmarshal_struct. cbn [dec_members].
  unfold upd_decision. json_keys. cbn [dec_string res_bind].
  destruct (dec_slice _ _); cbn [res_bind]; [|done].
  destruct (dec_int _ _); cbn [res_bind]; [|done].
  by destruct (dec_time _ _).
Qed.

(** Whatever of a cached document decodes is what was cached. *)
Lemma decode_encode `{!TimeCodecLaws} d d' :
  decode_decision (Some (encode_decision d)) = Ok d' -> d' = d.
Proof.
  destruct d as [e m v x]. rewrite decode_steps. simpl cdMatchedPolicyIDs. simpl cdMaxVersion.
  simpl cdExpiresAt. rewrite dec_time_json.
  intros (m' & Em & Hd)%res_bind_ok. apply res_bind_ok in Hd as (v' & Ev & [= <-]). f_equal.
  - destruct m as [ss|]; simpl in Em; [|congruence]. rewrite dec_elems_map in Em. simpl in Em. congruence.
  - unfold dec_int in Ev. destruct (_ && _); congruence.
Qed.

Lemma decode_encode_ok `{!TimeCodecLaws} d :
  (- 2 ^ 63 <= cdMaxVersion d < 2 ^ 63)%Z ->
  decode_decision (Some (encode_decision d)) = Ok d.
Proof.
  intros [Hv1 Hv2]. destruct d as [e m v x]. rewrite decode_steps. simpl cdMatchedPolicyIDs.
  simpl cdMaxVersion in *. simpl cdExpiresAt. rewrite dec_time_json. unfold dec_int.
  apply Z.leb_le in Hv1. apply Z.ltb_lt in Hv2. rewrite Hv1, Hv2.
  destruct m; simpl; [by rewrite dec_elems_map|done].
Qed.
End codec.

(** ** State *)

Record World (S R B : Type) := mkWorld {
  wDB : DB;
  wRedis : option R;                               (* [s.rdb]; nil is [None] *)
  wBreaker : B;                                    (* [s.dbBreaker] *)
  wRefresh : list (EvaluateRequest * string);      (* background refreshes holding [refreshSem] *)
  wLog : list (EvaluateRequest * EvaluateResponse); (* [s.logCh] *)
  wInval : list string;                            (* pending invalidations *)
}.
Arguments mkWorld {S R B} _ _ _ _ _ _.
Arguments wDB {S R B} _.
Arguments wRedis {S R B} _.
Arguments wBreaker {S R B} _.
Arguments wRefresh {S R B} _.
Arguments wLog {S R B} _.
Arguments wInval {S R B} _.

(** Faults of a transaction of the service. *)
Record TxFaults := mkTxFaults {
  tfBegin : option goerr;
  tfStmt : Faults;
  tfOutbox : option goerr;
  tfCommit : commitOutcome;
}.

Section service.
Context {S R B : Type} `{PgSession S} `{Redis R} `{Breaker B} `{TimeCodec}.
Variable pgUUID : uuidCast.
Variable uuidParse : string -> bool.
Variable jsonb : json -> json.
Variable pgxArray : option (list string) -> option (list string).
Variable ro : role.
Variable celEnv : option CelEnv.
(** The hexadecimal SHA-256 digest of a document's [json.Marshal] bytes. *)
Variable sha256hex : json -> string.

Definition set_db (db : DB) (w : World S R B) : World S R B :=
  mkWorld db (wRedis w) (wBreaker w) (wRefresh w) (wLog w) (wInval w).
Definition set_redis (r : option R) (w : World S R B) : World S R B :=
  mkWorld (wDB w) r (wBreaker w) (wRefresh w) (wLog w) (wInval w).
Definition set_breaker (b : B) (w : World S R B) : World S R B :=
  mkWorld (wDB w) (wRedis w) b (wRefresh w) (wLog w) (wInval w).
Definition set_refresh (l : list (EvaluateRequest * string)) (w : World S R B) : World S R B :=
  mkWorld (wDB w) (wRedis w) (wBreaker w) l (wLog w) (wInval w).
Definition set_log (l : list (EvaluateRequest * EvaluateResponse)) (w : World S R B) : World S R B :=
  mkWorld (wDB w) (wRedis w) (wBreaker w) (wRefresh w) l (wInval w).
Definition set_inval (l : list string) (w : World S R B) : World S R B :=
  mkWorld (wDB w) (wRedis w) (wBreaker w) (wRefresh w) (wLog w) l.

(** ** Keys *)

(** The map that is marshalled, members in the order of [json.Marshal]; a
    nil group list is represented as an empty one. *)
Definition inputDoc (req : EvaluateRequest) : json :=
  JObj [("action", JStr (Action req)); ("org_id", JStr (OrgID req));
        ("resource", JStr (Resource req)); ("subject_id", JStr (SubjectID req));
        ("user_groups", JArr (map JStr (UserGroups req)))].

Definition cacheKey (req : EvaluateRequest) : string :=
  cachePrefix +:+ (OrgID req +:+ (":" +:+ sha256hex (inputDoc req))).

Definition orgIndexKey (orgID : string) : string := "policy:index:" +:+ orgID.

(** ** Evaluation *)

(** [pipe.Set; pipe.SAdd; pipe.Expire; pipe.Exec], the error discarded. *)
Definition cacheDecision (now : Z) (key orgID : string) (d : cachedDecision) (r : R) : R :=
  (pipe_then (fun r => rset now r key (RDoc (encode_decision d)) cacheTTL)
     (pipe_then (fun r => rsadd now r (orgIndexKey orgID) key)
                (fun r => rexpire now r (orgIndexKey orgID) (24 * Hour))) r).1.

(** [ctxOrg] is the tenant of the context; [tFetch] and [tWrite] are the
    instants of the fetch and of [time.Now()] before caching. *)
Definition evaluateFromDB (tFetch tWrite : Z) (ctxOrg : string) (conn : S) (f : Faults)
  (req : EvaluateRequest) (key : string) (w : World S R B) : World S R B * EvaluateResponse :=
  let '(cb, _, policies) :=
    Call tFetch (wBreaker w) (50 * Millisecond)
      (fun _ db => GetMatchingPolicies pgUUID uuidParse ro ctxOrg conn f
                     (OrgID req) (SubjectID req) (UserGroups req) db) (wDB w) in
  let w1 := set_breaker cb w in
  match policies with
  | Err _ => (w1, mkEvaluateResponse "deny" (Some []) 0 "none" 0)
  | Ok ps =>
      let '(effect, matchedIDs, maxVersion) := evaluate celEnv req ps in
      let resp := mkEvaluateResponse effect (slice_of matchedIDs) maxVersion "none" 0 in
      match wRedis w1 with
      | None => (w1, resp)
      | Some r =>
          let decision := mkCachedDecision effect (slice_of matchedIDs) maxVersion
                            (tWrite + (cacheTTL - staleWindow)) in
          (set_redis (Some (cacheDecision tWrite key (OrgID req) decision r)) w1, resp)
      end
  end.

(** Tier 1: the cached decision, if there is one that decodes. *)
Definition cacheLookup (now : Z) (key : string) (w : World S R B) : option cachedDecision :=
  match wRedis w with
  | None => None
  | Some r =>
      match rget now r key with
      | Ok (Some cached) =>
          match decode_decision (rval_raw cached) with Ok d => Some d | Err _ => None end
      | _ => None
      end
  end.

(** The outcome of [sfGroup.DoChan] and of the [select] on it. *)
Inductive flight :=
| Lead                            (* this call runs the function and receives its result *)
| Join (resp : EvaluateResponse)  (* it receives the result of a call in flight *)
| Cancelled (e : goerr) (leads : bool).  (* [ctx.Done()] comes first *)

Definition with_latency (ms : Z) (r : EvaluateResponse) : EvaluateResponse :=
  mkEvaluateResponse (Effect r) (MatchedPolicyIDs r) (MaxVersion r) (CacheHit r) ms.

Definition enqueueLog (req : EvaluateRequest) (resp : EvaluateResponse) (w : World S R B) : World S R B :=
  if length (wLog w) <? logCap then set_log (wLog w ++ [(req, resp)]) w else w.

Definition Evaluate (now tFetch tWrite latency : Z) (ctxOrg : string) (conn : S) (f : Faults)
  (sf : flight) (req : EvaluateRequest) (w : World S R B) : World S R B * res EvaluateResponse :=
  let key := cacheKey req in
  match cacheLookup now key w with
  | Some decision =>
      let isStale := (cdExpiresAt decision <? now)%Z in
      let w' := if isStale && (length (wRefresh w) <? refreshCap)
                then set_refresh (wRefresh w ++ [(req, key)]) w else w in
      (w', Ok (mkEvaluateResponse (cdEffect decision) (cdMatchedPolicyIDs decision)
                 (cdMaxVersion decision) "redis" latency))
  | None =>
      match sf with
      | Lead =>
          let '(w1, resp0) := evaluateFromDB tFetch tWrite ctxOrg conn f req key w in
          let resp := with_latency latency resp0 in
          (enqueueLog req resp w1, Ok resp)
      | Join resp0 =>
          let resp := with_latency latency resp0 in
          (enqueueLog req resp w, Ok resp)
      | Cancelled e leads =>
          ((if leads then (evaluateFromDB tFetch tWrite ctxOrg conn f req key w).1 else w), Err e)
      end
  end.

(** One of the pending refreshes runs, in a context of its own tenant. *)
Definition backgroundRefresh (tFetch tWrite : Z) (conn : S) (f : Faults) (i : nat) (w : World S R B) : World S R B :=
  match wRefresh w !! i with
  | None => w
  | Some (req, key) =>
      let w1 := set_refresh (delete i (wRefresh w)) w in
      (evaluateFromDB tFetch tWrite (OrgID req) conn f req key w1).1
  end.

(** [logWorker] takes one entry: [processWriteEvalLog]. *)
Definition logWorker (now : Z) (conn : S) (f : Faults) (id : string) (w : World S R B) : World S R B :=
  match wLog w with
  | [] => w
  | (req, resp) :: rest =>
      set_db (WriteEvalLog pgUUID pgxArray ro (OrgID req) conn f id now
                (mkEvalLog "" (OrgID req) (SubjectID req) (Action req) (Resource req)
                   (Effect resp) (MatchedPolicyIDs resp) (CacheHit resp) (LatencyMs resp) 0)
                (wDB w)).1 (set_log rest w)
  end.

(** ** Policy mutations *)

Definition changePayload (orgID policyID eventType : string) : raw :=
  Some (JObj [("event_type", JStr eventType); ("org_id", JStr orgID); ("policy_id", JStr policyID)]).

Definition PublishPolicyChange (tx : Tx DB) (oid : string) (now : Z)
  (orgID policyID eventType : string) (fault : option goerr) : Tx DB * option goerr :=
  WriteTx pgUUID jsonb outbox_records set_outbox tx oid now orgID "policy.changes" policyID
    (changePayload orgID policyID eventType) fault.

(** The part of the mutations after the policy statement: publish, commit;
    any error rolls back. *)
Definition publishAndCommit {A} (db : DB) (tx : Tx DB) (oid : string) (now : Z)
  (orgID policyID eventType : string) (tf : TxFaults) (a : A) : DB * res A :=
  match PublishPolicyChange tx oid now orgID policyID eventType (tfOutbox tf) with
  | (_, Some e) => (db, Err (ErrWrap "publish change: " e ""))
  | (tx2, None) =>
      match Commit db tx2 (tfCommit tf) with
      | (db', Some e) => (db', Err e)
      | (db', None) => (db', Ok a)
      end
  end.

Definition CreatePolicy (conn : S) (tf : TxFaults) (id oid : string) (now : Z)
  (orgID name description : string) (logic : raw) (db : DB) : DB * res Policy :=
  match tfBegin tf with
  | Some e => (db, Err e)
  | None =>
      match validatePolicyLogic celEnv logic with
      | Some e => (db, Err (ErrWrap "invalid policy logic: " e ""))
      | None =>
          match CreatePolicyTx pgUUID jsonb ro (pg_begin conn, Begin db) (tfStmt tf) id now
                  orgID name description logic with
          | (_, Err e) => (db, Err e)
          | (tx, Ok p) =>
              publishAndCommit db tx.2 oid now orgID (pID p) "policy.created" tf p
          end
      end
  end.

Definition UpdatePolicy (conn : S) (tf : TxFaults) (oid : string) (now : Z)
  (orgID policyID name description : string) (logic : raw) (db : DB) : DB * res Policy :=
  match tfBegin tf with
  | Some e => (db, Err e)
  | None =>
      match validatePolicyLogic celEnv logic with
      | Some e => (db, Err (ErrWrap "invalid policy logic: " e ""))
      | None =>
          match UpdatePolicyTx pgUUID jsonb ro (pg_begin conn, Begin db) (tfStmt tf) now
                  orgID policyID name description logic with
          | (_, Err e) => (db, Err e)
          | (tx, Ok p) =>
              publishAndCommit db tx.2 oid now orgID (pID p) "policy.updated" tf p
          end
      end
  end.

Definition DeletePolicy (conn : S) (tf : TxFaults) (oid : string) (now : Z)
  (orgID policyID : string) (db : DB) : DB * res unit :=
  match tfBegin tf with
  | Some e => (db, Err e)
  | None =>
      match DeletePolicyTx pgUUID ro (pg_begin conn, Begin db) (tfStmt tf) orgID policyID with
      | (_, Err e) => (db, Err e)
      | (tx, Ok _) => publishAndCommit db tx.2 oid now orgID policyID "policy.deleted" tf tt
      end
  end.

(** ** Assignments and invalidation *)

Definition CreateAssignment (ctxOrg : string) (conn : S) (f : Faults) (id : string) (now : Z)
  (orgID policyID subjectID subjectType : string) (w : World S R B) : World S R B * res Assignment :=
  match PolicyStore.CreateAssignment pgUUID ro ctxOrg conn f id now orgID policyID subjectID
          subjectType (wDB w) with
  | (db', Err e) => (set_db db' w, Err e)
  | (db', Ok a) => (set_inval (wInval w ++ [orgID]) (set_db db' w), Ok a)
  end.

Definition DeleteAssignment (ctxOrg : string) (conn : S) (f : Faults)
  (orgID assignmentID : string) (w : World S R B) : World S R B * res unit :=
  match PolicyStore.DeleteAssignment pgUUID ro ctxOrg conn f orgID assignmentID (wDB w) with
  | (db', Err e) => (set_db db' w, Err e)
  | (db', Ok _) => (set_inval (wInval w ++ [orgID]) (set_db db' w), Ok tt)
  end.

Definition InvalidateOrgCache (now : Z) (orgID : string) (w : World S R B) : World S R B * option goerr :=
  match wRedis w with
  | None => (w, None)
  | Some r =>
      let indexKey := orgIndexKey orgID in
      match rsmembers now r indexKey with
      | Err e => (w, Some (ErrWrap "get indexed keys: " e ""))
      | Ok [] => (w, None)
      | Ok keys =>
          match pipe_then (fun r => rdel now r keys) (fun r => rdel now r [indexKey]) r with
          | (r', Some e) => (set_redis (Some r') w, Some (ErrWrap "invalidate keys: " e ""))
          | (r', None) => (set_redis (Some r') w, None)
          end
      end
  end.

(** The goroutine started by the assignment operations. *)
Definition runInvalidation (now : Z) (i : nat) (w : World S R B) : World S R B :=
  match wInval w !! i with
  | None => w
  | Some orgID => (InvalidateOrgCache now orgID (set_inval (delete i (wInval w)) w)).1
  end.
End service.

(** ** Cache keys *)

Section keys.
Variable sha256hex : json -> string.
Hypothesis sha256hex_length : forall j, String.length (sha256hex j) = 64.

(** tenant isolation of the decision cache.  Two requests share a cache
    key only if they are of the same tenant and their documents have the
    same digest; an index key never is a cache key. *)
Theorem cacheKey_isolation r1 r2 org :
  (cacheKey sha256hex r1 = cacheKey sha256hex r2 ->
     OrgID r1 = OrgID r2 /\ sha256hex (inputDoc r1) = sha256hex (inputDoc r2)) /\
  cacheKey sha256hex r1 <> orgIndexKey org.
Proof.
  split; [|done]. unfold cacheKey. intros He%append_inv_head.
  assert (He' : (OrgID r1 +:+ ":") +:+ sha256hex (inputDoc r1) =
                (OrgID r2 +:+ ":") +:+ sha256hex (inputDoc r2)) by (by rewrite !append_assoc).
  apply append_eq_length_r in He' as [Ho Hs]; [|by rewrite !sha256hex_length].
  split; [|done]. by apply append_eq_length_r in Ho as [? _].
Qed.
End keys.

Lemma cacheKey_prefix sha req : HasPrefix (cacheKey sha req) cachePrefix = true.
Proof. apply HasPrefix_append. Qed.

Lemma index_not_prefix org : HasPrefix (orgIndexKey org) cachePrefix = false.
Proof. reflexivity. Qed.

(** ** The steps of the service *)

Section dynamics.
Context {S R B : Type} `{PgSession S} `{RedisLaws R} `{Breaker B} `{TimeCodecLaws}.
Variable pgUUID : uuidCast.
Variable uuidParse : string -> bool.
Variable jsonb : json -> json.
Variable pgxArray : option (list string) -> option (list string).
Variable ro : role.
Variable celEnv : option CelEnv.
Variable sha256hex : json -> string.

Notation evaluateFromDB := (evaluateFromDB pgUUID uuidParse ro celEnv).
Notation cacheKey := (cacheKey sha256hex).
Notation Evaluate := (Evaluate pgUUID uuidParse ro celEnv sha256hex).

(** A fetch that succeeded, with the database it read. *)
Record evalRec := mkEvalRec {
  erReq : EvaluateRequest;
  erDB : DB;
  erPolicies : list Policy;
  erWrite : Z;
}.

Definition fetch (tFetch : Z) (ctxOrg : string) (conn : S) (f : Faults)
  (req : EvaluateRequest) (w : World S R B) : res (list Policy) :=
  (Call tFetch (wBreaker w) (50 * Millisecond)
     (fun _ db => GetMatchingPolicies pgUUID uuidParse ro ctxOrg conn f
                    (OrgID req) (SubjectID req) (UserGroups req) db) (wDB w)).2.

Lemma fetch_reported tFetch ctxOrg conn f req (w : World S R B) :
  is_Some (beforeRequest tFetch (wBreaker w)).2 \/ ctxOrg = "" \/
    is_Some (fAcquire f) \/ is_Some (fSet f) \/ is_Some (fQuery f) ->
  exists e, fetch tFetch ctxOrg conn f req w = Err e.
Proof.
  intros Hf. unfold fetch. destruct (Call _ _ _ _ _) as [[cb db] [ps|e]] eqn:E; [|eauto].
  apply Call_ok in E as (cb1 & Eb & Eg). destruct Hf as [Hb|Hf].
  - rewrite Eb in Hb. by destruct Hb.
  - apply (GetMatchingPolicies_reported pgUUID uuidParse ro ctxOrg conn f (OrgID req) (SubjectID req)
      (UserGroups req) (wDB w)) in Hf as [e He].
    exfalso. rewrite Eg in He. discriminate He.
Qed.

Lemma fetch_truncated tFetch ctxOrg conn f req (w : World S R B) k e ps :
  fetch tFetch ctxOrg conn (cut_rows None f) req w = Ok ps ->
  fetch tFetch ctxOrg conn (cut_rows (Some (k, e)) f) req w = Ok (take k ps).
Proof.
  unfold fetch. destruct (Call _ _ _ _ _) as [[cb db] [ps'|]] eqn:E; [|done]. intros [= ->].
  apply Call_ok in E as (cb1 & Eb & Eg). unfold Call, Execute. rewrite Eb.
  by rewrite (GetMatchingPolicies_truncated _ _ _ _ _ _ _ _ _ _ k e ps) by (by rewrite Eg).
Qed.

Definition record (tFetch tWrite : Z) (ctxOrg : string) (conn : S) (f : Faults)
  (req : EvaluateRequest) (w : World S R B) : list evalRec :=
  match fetch tFetch ctxOrg conn f req w with
  | Ok ps => [mkEvalRec req (wDB w) ps tWrite]
  | Err _ => []
  end.

Definition decisionOf (rec : evalRec) : cachedDecision :=
  let '(effect, ids, maxv) := evaluate celEnv (erReq rec) (erPolicies rec) in
  mkCachedDecision effect (slice_of ids) maxv (erWrite rec + (cacheTTL - staleWindow)).

(** Whether a call of [Evaluate] runs [evaluateFromDB] itself. *)
Definition leads (now : Z) (sf : flight) (req : EvaluateRequest) (w : World S R B) : bool :=
  match cacheLookup now (cacheKey req) w with
  | Some _ => false
  | None => match sf with Lead => true | Cancelled _ l => l | Join _ => false end
  end.

(** Eviction, restart, outage: live decisions may disappear, none appears. *)
Definition redis_env (now : Z) (r r' : R) : Prop :=
  forall t k, (now <= t)%Z -> HasPrefix k cachePrefix = true ->
    rview t r' k = rview t r k \/ rview t r' k = None.

(** State: the clock, the service and the fetches so far. *)
Inductive world_step : Z * World S R B * list evalRec -> Z * World S R B * list evalRec -> Prop :=
| ws_evaluate n w g now tFetch tWrite latency ctxOrg conn f sf req w' r :
    (n <= now)%Z -> (now <= tFetch)%Z -> (tFetch <= tWrite)%Z ->
    Evaluate now tFetch tWrite latency ctxOrg conn f sf req w = (w', r) ->
    world_step (n, w, g)
      (tWrite, w', g ++ if leads now sf req w then record tFetch tWrite ctxOrg conn f req w else [])
| ws_refresh n w g tFetch tWrite conn f i req key :
    (n <= tFetch)%Z -> (tFetch <= tWrite)%Z -> wRefresh w !! i = Some (req, key) ->
    world_step (n, w, g)
      (tWrite, backgroundRefresh pgUUID uuidParse ro celEnv tFetch tWrite conn f i w,
       g ++ record tFetch tWrite (OrgID req) conn f req w)
| ws_log n w g now conn f id :
    (n <= now)%Z ->
    world_step (n, w, g) (now, logWorker pgUUID pgxArray ro now conn f id w, g)
| ws_create n w g now conn tf id oid orgID name descr logic db' r :
    (n <= now)%Z ->
    CreatePolicy pgUUID jsonb ro celEnv conn tf id oid now orgID name descr logic (wDB w) = (db', r) ->
    world_step (n, w, g) (now, set_db db' w, g)
| ws_update n w g now conn tf oid orgID policyID name descr logic db' r :
    (n <= now)%Z ->
    UpdatePolicy pgUUID jsonb ro celEnv conn tf oid now orgID policyID name descr logic (wDB w) = (db', r) ->
    world_step (n, w, g) (now, set_db db' w, g)
| ws_delete n w g now conn tf oid orgID policyID db' r :
    (n <= now)%Z ->
    DeletePolicy pgUUID jsonb ro conn tf oid now orgID policyID (wDB w) = (db', r) ->
    world_step (n, w, g) (now, set_db db' w, g)
| ws_assign n w g now ctxOrg conn f id orgID policyID subjectID subjectType w' r :
    (n <= now)%Z ->
    CreateAssignment pgUUID ro ctxOrg conn f id now orgID policyID subjectID subjectType w = (w', r) ->
    world_step (n, w, g) (now, w', g)
| ws_unassign n w g now ctxOrg conn f orgID assignmentID w' r :
    (n <= now)%Z ->
    DeleteAssignment pgUUID ro ctxOrg conn f orgID assignmentID w = (w', r) ->
    world_step (n, w, g) (now, w', g)
| ws_invalidate n w g now i :
    (n <= now)%Z -> world_step (n, w, g) (now, runInvalidation now i w, g)
| ws_env n w g now r r' :
    (n <= now)%Z -> wRedis w = Some r -> redis_env now r r' ->
    world_step (n, w, g) (now, set_redis (Some r') w, g).

(** ** The cache invariant *)

(** Every live decision was computed from a recorded fetch. *)
Definition entry_ok (n : Z) (g : list evalRec) (k : string) (t : Z) (v : rval) : Prop :=
  exists rec, In rec g /\ k = cacheKey (erReq rec) /\
    v = RDoc (encode_decision (decisionOf rec)) /\
    (erWrite rec <= n)%Z /\ (t < erWrite rec + cacheTTL)%Z.

Definition cache_ok (n : Z) (g : list evalRec) (r : R) : Prop :=
  forall k t v, (n <= t)%Z -> HasPrefix k cachePrefix = true ->
    rview t r k = Some (RStr v) -> entry_ok n g k t v.

Definition world_inv (st : Z * World S R B * list evalRec) : Prop :=
  let '(n, w, g) := st in
  (forall r, wRedis w = Some r -> cache_ok n g r) /\
  Forall (fun p => p.2 = cacheKey p.1) (wRefresh w) /\
  wf_db (wDB w) /\
  length (wRefresh w) <= refreshCap /\ length (wLog w) <= logCap.

Lemma cache_ok_weaken n n' g g' r r' :
  cache_ok n g r -> (n <= n')%Z ->
  (forall t k, (n' <= t)%Z -> HasPrefix k cachePrefix = true ->
     rview t r' k = rview t r k \/ rview t r' k = None) ->
  cache_ok n' (g ++ g') r'.
Proof.
  intros Hc Hn Hv k t v Ht Hk Hr.
  destruct (Hv t k Ht Hk) as [E|E]; rewrite Hr in E; [|done].
  destruct (Hc k t v) as (rec & Hin & ? & ? & ? & ?); [lia|done|done|].
  exists rec. split; [by apply in_or_app; left|]. repeat split; try done; lia.
Qed.

Lemma cacheDecision_view now key org d r t k :
  (now <= t)%Z -> HasPrefix k cachePrefix = true ->
  rview t (cacheDecision now key org d r) k = rview t r k \/
  (k = key /\ rview t (cacheDecision now key org d r) k =
     if (t <? now + cacheTTL)%Z then Some (RStr (RDoc (encode_decision d))) else None).
Proof.
  intros Ht Hk. unfold cacheDecision, pipe_then.
  destruct (rset now r key _ cacheTTL) as [r1 e1] eqn:E1.
  destruct (rsadd now r1 _ key) as [r2 e2] eqn:E2.
  destruct (rexpire now r2 _ _) as [r3 e3] eqn:E3. simpl.
  assert (Hne : k <> orgIndexKey org).
  { intros ->. by rewrite index_not_prefix in Hk. }
  rewrite (rexpire_frame _ _ _ _ _ _ _ _ E3 Ht Hne), (rsadd_frame _ _ _ _ _ _ _ _ E2 Ht Hne).
  destruct (rset_applied _ _ _ _ _ _ _ E1) as [Ha|[_ Ha]]; unfold view_of in Ha;
    rewrite Ha by done; [|by left].
  unfold view_set. destruct (decide (k = key)) as [->|]; [by right|by left].
Qed.

Lemma evaluateFromDB_cases tFetch tWrite ctxOrg conn f req key (w w' : World S R B) resp :
  evaluateFromDB tFetch tWrite ctxOrg conn f req key w = (w', resp) ->
  wDB w' = wDB w /\ wRefresh w' = wRefresh w /\ wLog w' = wLog w /\ wInval w' = wInval w /\
  match fetch tFetch ctxOrg conn f req w with
  | Err _ => wRedis w' = wRedis w /\ Effect resp = "deny" /\ MatchedPolicyIDs resp = Some []
  | Ok ps =>
      Effect resp = (evaluate celEnv req ps).1.1 /\
      MatchedPolicyIDs resp = slice_of (evaluate celEnv req ps).1.2 /\
      MaxVersion resp = (evaluate celEnv req ps).2 /\
      wRedis w' = match wRedis w with
                  | None => None
                  | Some r => Some (cacheDecision tWrite key (OrgID req)
                                (decisionOf (mkEvalRec req (wDB w) ps tWrite)) r)
                  end
  end.
Proof.
  unfold PolicyService.evaluateFromDB, fetch, decisionOf.
  destruct (Call _ _ _ _ _) as [[cb db1] [ps|e]]; simpl.
  - destruct (evaluate celEnv req ps) as [[eff ids] mv] eqn:Ee.
    destruct (wRedis w) eqn:Er; intros [= <- <-]; simpl; rewrite ?Er; auto 10.
  - intros [= <- <-]. auto 10.
Qed.

Lemma evaluateFromDB_inv n g tFetch tWrite ctxOrg conn f req key (w w' : World S R B) resp :
  world_inv (n, w, g) -> (n <= tWrite)%Z -> key = cacheKey req ->
  evaluateFromDB tFetch tWrite ctxOrg conn f req key w = (w', resp) ->
  world_inv (tWrite, w', g ++ record tFetch tWrite ctxOrg conn f req w).
Proof.
  intros (Hc & Hr & Hw & Hl1 & Hl2) Hn -> He.
  destruct (evaluateFromDB_cases _ _ _ _ _ _ _ _ _ _ He) as (Hd & Hrf & Hlg & _ & Hf).
  unfold world_inv. rewrite Hd, Hrf, Hlg. split; [|by split]. intros r' Hr'. unfold record.
  destruct (fetch tFetch ctxOrg conn f req w) as [ps|e].
  - destruct Hf as (_ & _ & _ & Hf). rewrite Hr' in Hf.
    destruct (wRedis w) as [r|]; [|done]. injection Hf as ->.
    intros k t v Ht Hk Hv.
    destruct (cacheDecision_view tWrite (cacheKey req) (OrgID req)
      (decisionOf (mkEvalRec req (wDB w) ps tWrite)) r t k Ht Hk) as [E|[-> E]]; rewrite Hv in E.
    + apply (cache_ok_weaken n tWrite g [mkEvalRec req (wDB w) ps tWrite] r r); auto.
    + destruct (t <? tWrite + cacheTTL)%Z eqn:Et; [|done]. bool_to_prop. injection E as ->.
      eexists. split; [apply in_or_app; right; by left|]. simpl. repeat split; [lia|done].
  - destruct Hf as [Hf _]. rewrite Hf in Hr'.
    apply (cache_ok_weaken n tWrite g [] r' r'); auto.
Qed.

(** ** Well-formedness of the database *)

Lemma set_outbox_wf l db : wf_db db -> wf_db (set_outbox l db).
Proof. intros [H1' H2' H3']. by split. Qed.

Lemma publishAndCommit_db {A} (P : DB -> Prop) db tx oid now orgID policyID ev tf (a : A) :
  P db -> P (txDB tx) -> (forall l d, P d -> P (set_outbox l d)) ->
  P (publishAndCommit pgUUID jsonb db tx oid now orgID policyID ev tf a).1.
Proof.
  intros Hp Ht Ho. unfold publishAndCommit, PublishPolicyChange, WriteTx.
  destruct (tx_exec _ _ _) as [tx2 r] eqn:E.
  assert (Hx : P (txDB tx2)).
  { change tx2 with ((tx2, r).1). rewrite <- E. apply tx_exec_db; [done|].
    intros db' u ([tbl u'] & _ & [= <- _])%res_bind_ok. by apply Ho. }
  destruct r; [|done]. destruct (Commit db tx2 (tfCommit tf)) as [db' e'] eqn:Ec.
  destruct (Commit_cases _ _ _ _ _ Ec) as [[-> _]|[-> _]]; by destruct e'.
Qed.

Lemma CreatePolicy_wf conn tf id oid now orgID name descr logic db :
  wf_db db ->
  wf_db (CreatePolicy pgUUID jsonb ro celEnv conn tf id oid now orgID name descr logic db).1.
Proof.
  intros Hw. unfold CreatePolicy, CreatePolicyTx. destruct (tfBegin tf); [done|].
  destruct (validatePolicyLogic _ _); [done|].
  pose proof (in_tx_db wf_db (pg_begin conn, Begin db) (tfStmt tf) orgID
    (fun sess => insert_policy pgUUID jsonb ro sess id now orgID name descr logic)
    (fun r => match r with Ok p => Ok p | Err e => Err (ErrWrap "create policy: " e "") end) Hw) as Ht.
  destruct (in_tx _ _ _ _ _) as [tx [p|e]]; [|done]. apply publishAndCommit_db; [done| |].
  - apply Ht. intros sess db' a Hi. by eapply insert_policy_wf.
  - apply set_outbox_wf.
Qed.

Lemma UpdatePolicy_wf conn tf oid now orgID policyID name descr logic db :
  wf_db db ->
  wf_db (UpdatePolicy pgUUID jsonb ro celEnv conn tf oid now orgID policyID name descr logic db).1.
Proof.
  intros Hw. unfold UpdatePolicy, UpdatePolicyTx. destruct (tfBegin tf); [done|].
  destruct (validatePolicyLogic _ _); [done|].
  pose proof (in_tx_db wf_db (pg_begin conn, Begin db) (tfStmt tf) orgID
    (fun sess => update_policy pgUUID jsonb ro sess now policyID orgID name descr logic)
    (wrap_err "update policy: ") Hw) as Ht.
  destruct (in_tx _ _ _ _ _) as [tx [p|e]]; [|done]. apply publishAndCommit_db; [done| |].
  - apply Ht. intros sess db' a Hi. by eapply update_policy_wf.
  - apply set_outbox_wf.
Qed.

Lemma DeletePolicy_wf conn tf oid now orgID policyID db :
  wf_db db ->
  wf_db (DeletePolicy pgUUID jsonb ro conn tf oid now orgID policyID db).1.
Proof.
  intros Hw. unfold DeletePolicy, DeletePolicyTx. destruct (tfBegin tf); [done|].
  pose proof (in_tx_db wf_db (pg_begin conn, Begin db) (tfStmt tf) orgID
    (fun sess => delete_policy pgUUID ro sess policyID orgID)
    (affected "delete policy: ") Hw) as Ht.
  destruct (in_tx _ _ _ _ _) as [tx [p|e]]; [|done]. apply publishAndCommit_db; [done| |].
  - apply Ht. intros sess db' a Hi. by eapply delete_policy_wf.
  - apply set_outbox_wf.
Qed.

Lemma CreateAssignment_world ctxOrg conn f id now orgID policyID subjectID subjectType (w : World S R B) :
  let w' := (CreateAssignment pgUUID ro ctxOrg conn f id now orgID policyID subjectID subjectType w).1 in
  (wf_db (wDB w) -> wf_db (wDB w')) /\ wRedis w' = wRedis w /\ wRefresh w' = wRefresh w /\ wLog w' = wLog w.
Proof.
  unfold CreateAssignment, PolicyStore.CreateAssignment. simpl.
  assert (Hwf : wf_db (wDB w) -> wf_db (withOrgContext ctxOrg conn f
    (fun sess db => autocommit f (insert_assignment pgUUID ro sess id now orgID policyID subjectID
       subjectType) db) (wDB w)).1).
  { intros Hw. apply withOrgContext_db; [done|]. intros sess. apply autocommit_db; [done|].
    intros db' a Hi. by eapply insert_assignment_wf. }
  by destruct (withOrgContext _ _ _ _ _) as [db' []].
Qed.

Lemma DeleteAssignment_world ctxOrg conn f orgID assignmentID (w : World S R B) :
  let w' := (DeleteAssignment pgUUID ro ctxOrg conn f orgID assignmentID w).1 in
  (wf_db (wDB w) -> wf_db (wDB w')) /\ wRedis w' = wRedis w /\ wRefresh w' = wRefresh w /\ wLog w' = wLog w.
Proof.
  unfold DeleteAssignment, PolicyStore.DeleteAssignment. simpl.
  match goal with |- context [withOrgContext ?a ?b ?c ?g ?d] =>
    assert (Hwf : wf_db (wDB w) -> wf_db (withOrgContext a b c g d).1) end.
  { intros Hw. apply withOrgContext_db; [done|]. intros sess.
    assert (Hx := autocommit_db wf_db f (delete_assignment pgUUID ro sess assignmentID orgID) (wDB w) Hw).
    destruct (autocommit _ _ _) as [db' r]. apply Hx.
    intros db'' a Hi. by eapply delete_assignment_wf. }
  by destruct (withOrgContext _ _ _ _ _) as [db' []].
Qed.

Lemma logWorker_world now conn f id (w : World S R B) :
  let w' := logWorker pgUUID pgxArray ro now conn f id w in
  (wf_db (wDB w) -> wf_db (wDB w')) /\ wRedis w' = wRedis w /\ wRefresh w' = wRefresh w /\
  length (wLog w') <= length (wLog w).
Proof.
  unfold logWorker. destruct (wLog w) as [|[req resp] rest] eqn:El; simpl.
  - by rewrite El.
  - split; [|split; [done|split; [done|simpl; lia]]]. intros Hw. unfold WriteEvalLog. apply withOrgContext_db; [done|].
    intros sess. apply autocommit_db; [done|]. intros db' a Hi. by eapply insert_eval_log_wf.
Qed.

(** ** Invalidation *)

Lemma InvalidateOrgCache_cases now org (w w' : World S R B) e :
  InvalidateOrgCache now org w = (w', e) ->
  wDB w' = wDB w /\ wRefresh w' = wRefresh w /\ wLog w' = wLog w /\
  match wRedis w with
  | None => wRedis w' = None
  | Some r => exists r', wRedis w' = Some r' /\
      forall t k, (now <= t)%Z -> rview t r' k = rview t r k \/ rview t r' k = None
  end.
Proof.
  unfold InvalidateOrgCache. destruct (wRedis w) as [r|] eqn:Er; [|intros [= <- _]; auto].
  destruct (rsmembers now r _) as [[|k ks]|e1]; [intros [= <- _]; eauto 10| |intros [= <- _]; eauto 10].
  unfold pipe_then. destruct (rdel now r (k :: ks)) as [r1 e1] eqn:E1.
  destruct (rdel now r1 [orgIndexKey org]) as [r2 e2] eqn:E2.
  assert (Hv : forall t k', (now <= t)%Z -> rview t r2 k' = rview t r k' \/ rview t r2 k' = None).
  { intros t k' Ht.
    destruct (rdel_applied _ _ _ _ _ E1) as [H1'|[_ H1']], (rdel_applied _ _ _ _ _ E2) as [H2'|[_ H2']];
      unfold view_of in *; rewrite H2' by done; unfold view_del; repeat case_match; auto;
      rewrite H1' by done; unfold view_del; repeat case_match; auto. }
  destruct e1, e2; intros [= <- _]; simpl; eauto 10.
Qed.

(** Time passes, the database changes, decisions disappear. *)
Lemma world_inv_step n now g (w w' : World S R B) :
  world_inv (n, w, g) -> (n <= now)%Z ->
  (wf_db (wDB w) -> wf_db (wDB w')) -> wRefresh w' = wRefresh w ->
  length (wLog w') <= length (wLog w) ->
  (forall r', wRedis w' = Some r' -> exists r, wRedis w = Some r /\
     forall t k, (now <= t)%Z -> HasPrefix k cachePrefix = true ->
       rview t r' k = rview t r k \/ rview t r' k = None) ->
  world_inv (now, w', g).
Proof.
  intros (Hc & Hr & Hw & Hl1 & Hl2) Hn Hdb Hrf Hlg Hred. unfold world_inv.
  rewrite Hrf. split; [|split; [done|split; [auto|lia]]]. intros r' Hr'.
  destruct (Hred r' Hr') as (r & Hrr & Hv). rewrite <- (app_nil_r g).
  apply (cache_ok_weaken n now g [] r r'); auto.
Qed.

Lemma same_redis now (w w' : World S R B) :
  wRedis w' = wRedis w ->
  forall r', wRedis w' = Some r' -> exists r, wRedis w = Some r /\
     forall t k, (now <= t)%Z -> HasPrefix k cachePrefix = true ->
       rview t r' k = rview t r k \/ rview t r' k = None.
Proof. intros E r' Hr'. exists r'. rewrite <- E. auto. Qed.

Lemma world_inv_db n now g (w : World S R B) db' :
  world_inv (n, w, g) -> (n <= now)%Z -> wf_db db' -> world_inv (now, set_db db' w, g).
Proof.
  intros Hi Hn Hw. eapply world_inv_step; [exact Hi|done|done|done|done|]. by apply same_redis.
Qed.

Lemma enqueueLog_inv n g req resp (w : World S R B) :
  world_inv (n, w, g) -> world_inv (n, enqueueLog req resp w, g).
Proof.
  intros (Hc & Hr & Hw & Hl1 & Hl2). unfold enqueueLog.
  destruct (length (wLog w) <? logCap) eqn:E; [bool_to_prop|done].
  unfold world_inv. simpl. rewrite length_app. simpl. split; [done|]. repeat (split; [done|]). lia.
Qed.

Lemma Evaluate_inv n now tFetch tWrite latency ctxOrg conn f sf req (w w' : World S R B) g r :
  world_inv (n, w, g) -> (n <= now)%Z -> (now <= tFetch)%Z -> (tFetch <= tWrite)%Z ->
  Evaluate now tFetch tWrite latency ctxOrg conn f sf req w = (w', r) ->
  world_inv (tWrite, w',
    g ++ if leads now sf req w then record tFetch tWrite ctxOrg conn f req w else []).
Proof.
  intros Hi Hn1 Hn2 Hn3. unfold PolicyService.Evaluate, leads.
  assert (Hlater : forall w', wDB w' = wDB w -> wRefresh w' = wRefresh w -> wLog w' = wLog w ->
    wRedis w' = wRedis w -> world_inv (tWrite, w', g)).
  { intros w1 E1 E2 E3 E4. eapply world_inv_step; [exact Hi|lia|by rewrite E1|done|by rewrite E3|].
    by apply same_redis. }
  destruct (cacheLookup _ _ _) as [d|].
  - rewrite app_nil_r. destruct (_ && _) eqn:E; intros [= <- _]; [|by apply Hlater].
    bool_to_prop. destruct (Hlater w) as (Hc & Hr & Hw & Hl1 & Hl2); [done..|].
    unfold world_inv. simpl. rewrite length_app, Forall_app, Forall_singleton. simpl.
    split; [done|]. split; [done|]. split; [done|]. split; [lia|done].
  - destruct sf as [|resp|e [|]]; rewrite ?app_nil_r.
    + destruct (PolicyService.evaluateFromDB _ _ _ _ _ _ _ _ _ _ _) as [w1 resp] eqn:E.
      intros [= <- _]. apply enqueueLog_inv. eapply (evaluateFromDB_inv n); [done|lia|done|done].
    + intros [= <- _]. apply enqueueLog_inv. by apply Hlater.
    + destruct (PolicyService.evaluateFromDB _ _ _ _ _ _ _ _ _ _ _) as [w1 resp] eqn:E.
      intros [= <- _]. eapply (evaluateFromDB_inv n); [done|lia|done|done].
    + intros [= <- _]. by apply Hlater.
Qed.

Lemma backgroundRefresh_inv n tFetch tWrite conn f i req key (w : World S R B) g :
  world_inv (n, w, g) -> (n <= tFetch)%Z -> (tFetch <= tWrite)%Z ->
  wRefresh w !! i = Some (req, key) ->
  world_inv (tWrite, backgroundRefresh pgUUID uuidParse ro celEnv tFetch tWrite conn f i w,
    g ++ record tFetch tWrite (OrgID req) conn f req w).
Proof.
  intros (Hc & Hr & Hw & Hl1 & Hl2) Hn1 Hn2 Hk. unfold backgroundRefresh. rewrite Hk.
  destruct (PolicyService.evaluateFromDB _ _ _ _ _ _ _ _ _ _ _) as [w1 resp] eqn:E. simpl.
  assert (Hkey : key = cacheKey req).
  { rewrite Forall_lookup in Hr. by apply (Hr i (req, key)). }
  change (record tFetch tWrite (OrgID req) conn f req w) with
    (record tFetch tWrite (OrgID req) conn f req (set_refresh (delete i (wRefresh w)) w)).
  eapply (evaluateFromDB_inv n); [|lia|exact Hkey|exact E].
  split; [done|]. simpl. split; [by apply Forall_delete|]. split; [done|]. split; [|done].
  pose proof (length_delete (wRefresh w) i ltac:(by eexists)). lia.
Qed.

Lemma world_step_inv st st' : world_inv st -> world_step st st' -> world_inv st'.
Proof.
  intros Hi Hs.
  destruct Hs as [n w g now tF tW lat ctxOrg conn f sf req w' r Hn1 Hn2 Hn3 He
                 |n w g tF tW conn f i req key Hn1 Hn2 Hk
                 |n w g now conn f id Hn
                 |n w g now conn tf id oid orgID name descr logic db' r Hn He
                 |n w g now conn tf oid orgID policyID name descr logic db' r Hn He
                 |n w g now conn tf oid orgID policyID db' r Hn He
                 |n w g now ctxOrg conn f id orgID policyID subjectID subjectType w' r Hn He
                 |n w g now ctxOrg conn f orgID assignmentID w' r Hn He
                 |n w g now i Hn
                 |n w g now r r' Hn Hr He].
  - by eapply Evaluate_inv.
  - by eapply backgroundRefresh_inv.
  - destruct (logWorker_world now conn f id w) as (H1' & H2' & H3' & H4').
    apply (world_inv_step n now g w); auto. by apply same_redis.
  - apply (world_inv_db n); [done|done|]. change db' with ((db', r).1). rewrite <- He. apply CreatePolicy_wf, Hi.
  - apply (world_inv_db n); [done|done|]. change db' with ((db', r).1). rewrite <- He. apply UpdatePolicy_wf, Hi.
  - apply (world_inv_db n); [done|done|]. change db' with ((db', r).1). rewrite <- He. apply DeletePolicy_wf, Hi.
  - destruct (CreateAssignment_world ctxOrg conn f id now orgID policyID subjectID subjectType w)
      as (H1' & H2' & H3' & H4'). rewrite He in *. simpl in *.
    apply (world_inv_step n now g w); auto; [by rewrite H4'|by apply same_redis].
  - destruct (DeleteAssignment_world ctxOrg conn f orgID assignmentID w)
      as (H1' & H2' & H3' & H4'). rewrite He in *. simpl in *.
    apply (world_inv_step n now g w); auto; [by rewrite H4'|by apply same_redis].
  - unfold runInvalidation. destruct (wInval w !! i) as [org|].
    + destruct (InvalidateOrgCache now org (set_inval (delete i (wInval w)) w)) as [w' e] eqn:E. simpl.
      destruct (InvalidateOrgCache_cases _ _ _ _ _ E) as (H1' & H2' & H3' & H4'). simpl in *.
      apply (world_inv_step n now g w); [done|done|by rewrite H1'|done|by rewrite H3'|].
      intros r' Hr'. destruct (wRedis w) as [r|]; [|congruence].
      destruct H4' as (r2 & Hr2 & Hv). exists r. split; [done|]. rewrite Hr2 in Hr'. injection Hr' as <-. auto.
    + apply (world_inv_step n now g w); auto. by apply same_redis.
  - apply (world_inv_step n now g w); auto. simpl. intros r2 [= <-]. eauto.
Qed.

(** ** Properties *)

(** A service whose cache holds no decision yet. *)
Definition initial (st : Z * World S R B * list evalRec) : Prop :=
  let '(n, w, g) := st in
  g = [] /\ wRefresh w = [] /\ wLog w = [] /\ wf_db (wDB w) /\
  forall r, wRedis w = Some r ->
    forall t k, (n <= t)%Z -> HasPrefix k cachePrefix = true -> rview t r k = None.

Lemma initial_inv st : initial st -> world_inv st.
Proof.
  destruct st as [[n w] g]. intros (-> & Hr & Hl & Hw & Hv). unfold world_inv. rewrite Hr, Hl.
  split; [|split; [constructor|split; [done|unfold refreshCap, logCap; simpl; lia]]].
  intros r Hrr k t v Ht Hk He. by rewrite (Hv r Hrr t k Ht Hk) in He.
Qed.

Lemma reachable_inv st0 st : initial st0 -> rtc world_step st0 st -> world_inv st.
Proof.
  intros Hinit Hs. revert Hs. apply (rtc_ind_r world_inv); [by apply initial_inv|].
  intros s1 s2 _ Hst Hi. by eapply world_step_inv.
Qed.

(** C3: bounded staleness of cached decisions.  In every reachable state, a
    decision served from the cache is the verdict of the engine on policies
    that were really fetched for a request of the same tenant and digest,
    and it was written less than sixty seconds ago. *)
Theorem cached_decision_bounded_staleness st0 n w g now tFetch tWrite latency ctxOrg conn f sf req w' resp :
  (forall j, String.length (sha256hex j) = 64) ->
  initial st0 -> rtc world_step st0 (n, w, g) -> (n <= now)%Z ->
  Evaluate now tFetch tWrite latency ctxOrg conn f sf req w = (w', Ok resp) ->
  is_Some (cacheLookup now (cacheKey req) w) ->
  exists rec, In rec g /\ OrgID (erReq rec) = OrgID req /\
    sha256hex (inputDoc (erReq rec)) = sha256hex (inputDoc req) /\
    (erWrite rec <= now)%Z /\ (now < erWrite rec + 60 * Second)%Z /\
    Effect resp = (evaluate celEnv (erReq rec) (erPolicies rec)).1.1 /\
    MatchedPolicyIDs resp = slice_of (evaluate celEnv (erReq rec) (erPolicies rec)).1.2 /\
    MaxVersion resp = (evaluate celEnv (erReq rec) (erPolicies rec)).2 /\ CacheHit resp = "redis".
Proof.
  intros Hlen Hinit Hr Hn He [d Hd].
  assert (Hi := reachable_inv _ _ Hinit Hr). destruct Hi as (Hc & _).
  unfold PolicyService.Evaluate in He. rewrite Hd in He. injection He as _ <-. simpl.
  unfold cacheLookup in Hd. destruct (wRedis w) as [r|] eqn:Er; [|done].
  destruct (rget now r (cacheKey req)) as [[v|]|] eqn:Eg; [|done|done].
  apply rget_ok in Eg.
  destruct (Hc r eq_refl (cacheKey req) now v Hn (cacheKey_prefix _ _) Eg)
    as (rec & Hin & Hk & -> & Hw1 & Hw2).
  cbn [rval_raw] in Hd. destruct (decode_decision _) as [d'|] eqn:Ed; [|done]. injection Hd as ->.
  apply decode_encode in Ed as ->.
  destruct (cacheKey_isolation sha256hex Hlen req (erReq rec) "") as [Hiso _].
  destruct (Hiso Hk) as [Ho Hs].
  exists rec. split; [done|]. split; [done|]. split; [done|]. split; [lia|].
  split; [unfold cacheTTL in Hw2; lia|].
  unfold decisionOf. by destruct (evaluate celEnv (erReq rec) (erPolicies rec)) as [[eff ids] mv].
Qed.

(** What a recorded fetch delivered came from the policies of its tenant. *)
Definition rec_real (rec : evalRec) : Prop :=
  forall p, In p (erPolicies rec) ->
    In p (policies (erDB rec)) /\ pgUUID (OrgID (erReq rec)) = Some (pOrgID p).

Lemma fetch_sound tFetch ctxOrg conn f req (w : World S R B) ps p :
  fetch tFetch ctxOrg conn f req w = Ok ps -> In p ps ->
  In p (policies (wDB w)) /\ pgUUID (OrgID req) = Some (pOrgID p).
Proof.
  unfold fetch. destruct (Call _ _ _ _ _) as [[cb db] [ps'|]] eqn:E; [|done]. intros [= ->].
  apply Call_ok in E as (cb1 & _ & Eg). by eapply GetMatchingPolicies_sound.
Qed.

Lemma record_real tFetch tWrite ctxOrg conn f req (w : World S R B) :
  Forall rec_real (record tFetch tWrite ctxOrg conn f req w).
Proof.
  unfold record. destruct (fetch tFetch ctxOrg conn f req w) as [ps|] eqn:E; [|constructor].
  constructor; [|constructor]. intros p Hp. by eapply fetch_sound.
Qed.

Lemma reachable_real st0 n w g : initial st0 -> rtc world_step st0 (n, w, g) -> Forall rec_real g.
Proof.
  intros Hinit Hr. change g with ((n, w, g).2). revert Hr. generalize (n, w, g). intros st Hr. revert Hr.
  apply (rtc_ind_r (fun st => Forall rec_real st.2)).
  - destruct st0 as [[n0 w0] g0]. destruct Hinit as (-> & _). constructor.
  - intros s1 s2 _ Hs Hi. destruct Hs; simpl in *; try done; apply Forall_app; split; try done.
    + destruct (leads _ _ _ _); [apply record_real|constructor].
    + apply record_real.
Qed.

(** The result of singleflight for a key is what some call of the function
    for that key returned. *)
Definition flight_of (sf : flight) (key : string) (leader : EvaluateRequest) (ps : res (list Policy))
  (db : DB) : Prop :=
  match sf with
  | Join resp =>
      exists tFetch tWrite conn f (w0 : World S R B), cacheKey leader = key /\ wDB w0 = db /\
        fetch tFetch (OrgID leader) conn f leader w0 = ps /\
        resp = (evaluateFromDB tFetch tWrite (OrgID leader) conn f leader key w0).2
  | _ => True
  end.

(** Where the verdict on a request comes from: its own fetch, the fetch of
    the call in flight that it joined, or a decision cached less than sixty
    seconds ago. *)
Inductive verdict_of_fetch (now tFetch : Z) (conn : S) (f : Faults) (sf : flight) (req : EvaluateRequest)
  (w : World S R B) (g : list evalRec) : EvaluateRequest -> DB -> list Policy -> Prop :=
| vf_own ps :
    sf = Lead -> fetch tFetch (OrgID req) conn f req w = Ok ps ->
    verdict_of_fetch now tFetch conn f sf req w g req (wDB w) ps
| vf_joined resp leader db ps :
    sf = Join resp -> flight_of sf (cacheKey req) leader (Ok ps) db ->
    verdict_of_fetch now tFetch conn f sf req w g leader db ps
| vf_cached rec :
    In rec g -> cacheKey (erReq rec) = cacheKey req ->
    (erWrite rec <= now)%Z -> (now < erWrite rec + 60 * Second)%Z ->
    verdict_of_fetch now tFetch conn f sf req w g (erReq rec) (erDB rec) (erPolicies rec).

(** An allow comes from a fetch whose policies the engine allows. *)
Lemma Evaluate_allow_fetch n (w w' : World S R B) g now tFetch tWrite latency conn f sf req leader psL dbL resp :
  world_inv (n, w, g) -> (n <= now)%Z -> flight_of sf (cacheKey req) leader psL dbL ->
  Evaluate now tFetch tWrite latency (OrgID req) conn f sf req w = (w', Ok resp) ->
  Effect resp = "allow" ->
  exists req0 db ps, verdict_of_fetch now tFetch conn f sf req w g req0 db ps /\
    cacheKey req0 = cacheKey req /\ (evaluate celEnv req0 ps).1.1 = "allow".
Proof.
  intros (Hc & _) Hn Hfl He Ha. unfold PolicyService.Evaluate in He.
  destruct (cacheLookup now (cacheKey req) w) as [d|] eqn:Ed.
  - injection He as _ <-. simpl in Ha. unfold cacheLookup in Ed.
    destruct (wRedis w) as [r|] eqn:Er; [|done].
    destruct (rget now r (cacheKey req)) as [[v|]|] eqn:Eg; [|done|done].
    apply rget_ok in Eg.
    destruct (Hc r eq_refl (cacheKey req) now v Hn (cacheKey_prefix _ _) Eg) as (rec & Hin & Hk & -> & Hw1 & Hw2).
    cbn [rval_raw] in Ed. destruct (decode_decision _) as [d'|] eqn:Ex; [|done]. injection Ed as ->.
    apply decode_encode in Ex as ->. exists (erReq rec), (erDB rec), (erPolicies rec).
    split; [apply vf_cached; unfold cacheTTL in *; first [done|lia]|]. split; [done|].
    revert Ha. unfold decisionOf. by destruct (evaluate celEnv (erReq rec) (erPolicies rec)) as [[eff ids] mv].
  - destruct sf as [|resp0|e b].
    + destruct (PolicyService.evaluateFromDB _ _ _ _ _ _ _ _ _ _ _) as [w1 resp0] eqn:E. injection He as _ <-.
      destruct (evaluateFromDB_cases _ _ _ _ _ _ _ _ _ _ E) as (_ & _ & _ & _ & Hf).
      destruct (fetch tFetch (OrgID req) conn f req w) as [ps|e] eqn:Ef; simpl in Ha.
      * exists req, (wDB w), ps. destruct Hf as (Hf & _).
        split; [by apply vf_own|]. split; [done|congruence].
      * destruct Hf as (_ & Hf & _). congruence.
    + injection He as _ <-. simpl in Ha. assert (Hfl' := Hfl).
      destruct Hfl as (tF & tW & conn0 & f0 & w0 & Hk & Hdb & Hf & ->).
      destruct (PolicyService.evaluateFromDB _ _ _ _ _ _ _ _ _ _ _) as [w1 resp0] eqn:E. simpl in Ha.
      destruct (evaluateFromDB_cases _ _ _ _ _ _ _ _ _ _ E) as (_ & _ & _ & _ & Hc0). rewrite Hf in Hc0.
      destruct psL as [ps|e]; [|destruct Hc0 as (_ & Hd & _); congruence].
      exists leader, dbL, ps. split; [by eapply vf_joined|]. split; [done|]. destruct Hc0 as (Hd & _). congruence.
    + done.
Qed.

(** The policies behind a verdict are those of the tenant. *)
Lemma verdict_policies now tFetch conn f sf req (w : World S R B) g req0 db ps p :
  Forall rec_real g -> verdict_of_fetch now tFetch conn f sf req w g req0 db ps -> In p ps ->
  In p (policies db) /\ pgUUID (OrgID req0) = Some (pOrgID p).
Proof.
  intros Hg [ps' -> Hf|resp leader db' ps' -> Hf|rec Hin _ _ _] Hp.
  - by eapply fetch_sound.
  - destruct Hf as (tF & tW & conn0 & f0 & w0 & _ & <- & Hf & _). by eapply fetch_sound.
  - rewrite List.Forall_forall in Hg. by apply (Hg rec Hin).
Qed.

(** C2: Failures that are reported fail closed.  A call answered by its own
    evaluation answers "allow" exactly when the fetch of the policies reported
    success and the engine allows the request on what was fetched.  The
    breaker's refusal, a missing tenant, and an error of acquiring the
    connection, of setting its tenant or of sending the query are reported:
    the answer is "deny" with no matched policy, and nothing is cached.  Not
    reported, since [rows.Err()] is never read, is an error that ends the rows
    early: then the answer is the engine's verdict on the [k] policies that
    had arrived, as [truncated_fetch_allows] shows with an allow. *)
Theorem Evaluate_fails_closed now tFetch tWrite latency ctxOrg conn f req (w w' : World S R B) resp :
  cacheLookup now (cacheKey req) w = None ->
  Evaluate now tFetch tWrite latency ctxOrg conn f Lead req w = (w', Ok resp) ->
  (Effect resp = "allow" <->
     exists ps, fetch tFetch ctxOrg conn f req w = Ok ps /\
       (evaluate celEnv req ps).1.1 = "allow") /\
  (forall e, fetch tFetch ctxOrg conn f req w = Err e ->
     Effect resp = "deny" /\ MatchedPolicyIDs resp = Some [] /\ wRedis w' = wRedis w) /\
  (is_Some (beforeRequest tFetch (wBreaker w)).2 \/ ctxOrg = "" \/
     is_Some (fAcquire f) \/ is_Some (fSet f) \/ is_Some (fQuery f) ->
     Effect resp = "deny" /\ MatchedPolicyIDs resp = Some [] /\ wRedis w' = wRedis w) /\
  (forall k e ps, fRows f = Some (k, e) -> fetch tFetch ctxOrg conn (cut_rows None f) req w = Ok ps ->
     Effect resp = (evaluate celEnv req (take k ps)).1.1).
Proof.
  intros Hc He.
  enough ((Effect resp = "allow" <->
     exists ps, fetch tFetch ctxOrg conn f req w = Ok ps /\ (evaluate celEnv req ps).1.1 = "allow") /\
    (forall e, fetch tFetch ctxOrg conn f req w = Err e ->
       Effect resp = "deny" /\ MatchedPolicyIDs resp = Some [] /\ wRedis w' = wRedis w) /\
    (forall ps, fetch tFetch ctxOrg conn f req w = Ok ps -> Effect resp = (evaluate celEnv req ps).1.1))
    as (G1 & G2 & G3).
  { split; [done|]. split; [done|]. split.
    - intros [e Hf]%(fetch_reported tFetch ctxOrg conn f req). by apply (G2 e).
    - intros k e ps Hk Hf. apply G3. apply (fetch_truncated _ _ _ _ _ _ k e) in Hf. by destruct f; simpl in *; subst. }
  unfold PolicyService.Evaluate in He. rewrite Hc in He.
  destruct (PolicyService.evaluateFromDB _ _ _ _ _ _ _ _ _ _ _) as [w1 resp0] eqn:E.
  injection He as <- <-.
  destruct (evaluateFromDB_cases _ _ _ _ _ _ _ _ _ _ E) as (_ & _ & _ & _ & Hf).
  assert (Hred : wRedis (enqueueLog req (with_latency latency resp0) w1) = wRedis w1).
  { unfold enqueueLog. by destruct (length (wLog w1) <? logCap). }
  rewrite Hred. destruct (fetch tFetch ctxOrg conn f req w) as [ps|e].
  - destruct Hf as (Hf & _). split; [|split; [done|by intros ps' [= <-]]]. simpl. rewrite Hf. split; [eauto|].
    by intros (ps' & [= <-] & ?).
  - destruct Hf as (Hf1 & Hf2 & Hf3). split; [|split; [intros e' _; simpl; auto|done]].
    simpl. rewrite Hf2. split; [done|]. by intros (? & ? & _).
Qed.

(** the invariants of the service.  In every reachable state the policy
    database is well formed (unique ids, resolved foreign keys, versions in
    range), at most 100 background refreshes and 1000 log entries are
    pending, and every pending refresh carries the key of its request. *)
Theorem service_invariants st0 n w g :
  initial st0 -> rtc world_step st0 (n, w, g) ->
  wf_db (wDB w) /\ length (wRefresh w) <= 100 /\ length (wLog w) <= 1000 /\
  Forall (fun p => p.2 = cacheKey p.1) (wRefresh w).
Proof. intros Hinit Hr. destruct (reachable_inv _ _ Hinit Hr) as (_ & ? & ? & ? & ?). done. Qed.

(** ** Atomicity of the mutations *)

Definition change_event (now : Z) (oid org policyID eventType orgID : string) : OutboxRecord :=
  mkOutboxRecord oid org "policy.changes" policyID
    (jsonb (JObj [("event_type", JStr eventType); ("org_id", JStr orgID); ("policy_id", JStr policyID)]))
    "pending" 0 None None None now.

Lemma publishAndCommit_cases {A} db tx oid now orgID policyID ev tf (a : A) db' r :
  publishAndCommit pgUUID jsonb db tx oid now orgID policyID ev tf a = (db', r) ->
  (db' = db /\ exists e, r = Err e) \/
  (txOpen tx = true /\ exists org, pgUUID orgID = Some org /\
     db' = set_outbox (outbox_records (txDB tx) ++ [change_event now oid org policyID ev orgID]) (txDB tx) /\
     (r = Ok a \/ exists e, r = Err e /\ tfCommit tf = CommitFail e true)).
Proof.
  unfold publishAndCommit, PublishPolicyChange, WriteTx.
  destruct (tx_exec _ _ _) as [tx2 [u|e]] eqn:E; [|intros [= <- <-]; left; eauto].
  apply tx_exec_ok in E as (Ho & _ & E & Ho2).
  apply res_bind_ok in E as ([tbl u'] & Ei & [= Htx _]). unfold insert_outbox, uuid_arg in Ei.
  destruct (pgUUID orgID) as [org|]; [|done]. simpl in Ei. injection Ei as <- _.
  unfold Commit. rewrite Ho2. destruct (tfCommit tf) as [|e [|]]; intros [= <- <-].
  - right. split; [done|]. exists org. split; [done|]. by rewrite <- Htx; auto.
  - right. split; [done|]. exists org. split; [done|]. rewrite <- Htx. eauto 10.
  - left. eauto.
Qed.

(** A committed mutation: the database is [db1] with the event of the change
    appended to the outbox, and the answer is a success, or the error of a
    commit that went through unacknowledged. *)
Definition committed {A} (tf : TxFaults) (db db1 db' : DB) (event : OutboxRecord) (a : A) (r : res A) : Prop :=
  db' = set_outbox (outbox_records db ++ [event]) db1 /\
  (r = Ok a \/ exists e, r = Err e /\ tfCommit tf = CommitFail e true).

Lemma create_policy_cases conn tf id oid now orgID name descr logic db db' r :
  CreatePolicy pgUUID jsonb ro celEnv conn tf id oid now orgID name descr logic db = (db', r) ->
  (db' = db /\ exists e, r = Err e) \/
  exists pid org j, pgUUID id = Some pid /\ pgUUID orgID = Some org /\ logic = Some j /\
    validatePolicyLogic celEnv logic = None /\ ~ In pid (map pID (policies db)) /\
    let p := mkPolicy pid org name descr (Some (jsonb j)) 1 now now in
    committed tf db (set_policies (policies db ++ [p]) db) db'
      (change_event now oid org pid "policy.created" orgID) p r.
Proof.
  unfold CreatePolicy, CreatePolicyTx, in_tx. destruct (tfBegin tf); [intros [= <- <-]; eauto|].
  destruct (validatePolicyLogic celEnv logic) eqn:Ev; [intros [= <- <-]; eauto|].
  simpl. destruct (TxSetSessionVar _ _ _) as [sess [e|]]; [intros [= <- <-]; eauto|].
  destruct (tx_exec _ _ _) as [tx [p|e]] eqn:E; [|intros [= <- <-]; eauto].
  apply tx_exec_ok in E as (_ & _ & E & _).
  apply insert_policy_inv in E as (Hdb & Hn & Hid & Ho & Hna & Hde & (j & -> & Hj) & Hv & Hc & Hu). simpl.
  intros [?|(_ & org & Ho' & -> & Hr)]%publishAndCommit_cases; [by left|right].
  exists (pID p), org, j. do 5 (split; [done|]). rewrite Hdb.
  assert (p = mkPolicy (pID p) org name descr (Some (jsonb j)) 1 now now) as Hp
    by (destruct p; simpl in *; congruence).
  rewrite <- Hp. done.
Qed.

Lemma update_policy_cases conn tf oid now orgID policyID name descr logic db db' r :
  UpdatePolicy pgUUID jsonb ro celEnv conn tf oid now orgID policyID name descr logic db = (db', r) ->
  (db' = db /\ exists e, r = Err e) \/
  exists pid org j p, pgUUID policyID = Some pid /\ pgUUID orgID = Some org /\ logic = Some j /\
    validatePolicyLogic celEnv logic = None /\
    In p (policies db) /\ pID p = pid /\ pOrgID p = org /\ (pVersion p < int4_max)%Z /\
    let new q := mkPolicy (pID q) (pOrgID q) name descr (Some (jsonb j)) (pVersion q + 1) (pCreatedAt q) now in
    committed tf db
      (set_policies (map (fun q => if policy_of pid org q then new q else q) (policies db)) db) db'
      (change_event now oid org pid "policy.updated" orgID) (new p) r.
Proof.
  unfold UpdatePolicy, UpdatePolicyTx, in_tx. destruct (tfBegin tf); [intros [= <- <-]; eauto|].
  destruct (validatePolicyLogic celEnv logic) eqn:Ev; [intros [= <- <-]; eauto|].
  simpl. destruct (TxSetSessionVar _ _ _) as [sess [e|]]; [intros [= <- <-]; eauto|].
  destruct (tx_exec _ _ _) as [tx [p|e]] eqn:E; simpl; [|destruct (errors_is e ErrNoRows); intros [= <- <-]; eauto].
  apply tx_exec_ok in E as (_ & _ & E & _).
  apply update_policy_inv in E as (id' & org & j & q & Hid & Horg & -> & Hin & Hq & Hqo & -> & Hv & Hdb).
  intros [?|(_ & org' & Ho' & -> & Hr)]%publishAndCommit_cases; [by left|right].
  rewrite Horg in Ho'. injection Ho' as <-. simpl in *.
  exists id', org, j, q. do 7 (split; [done|]). split; [lia|]. rewrite Hdb. simpl.
  by rewrite <- Hq.
Qed.

Lemma delete_policy_cases conn tf oid now orgID policyID db db' r :
  DeletePolicy pgUUID jsonb ro conn tf oid now orgID policyID db = (db', r) ->
  (db' = db /\ exists e, r = Err e) \/
  exists pid org p, pgUUID policyID = Some pid /\ pgUUID orgID = Some org /\
    In p (policies db) /\ pID p = pid /\ pOrgID p = org /\
    committed tf db
      (set_policies (List.filter (fun q => negb (policy_of pid org q)) (policies db))
         (set_assignments (List.filter (fun a => negb (aPolicyID a =s? pid)) (policy_assignments db)) db)) db'
      (change_event now oid org policyID "policy.deleted" orgID) tt r.
Proof.
  unfold DeletePolicy, DeletePolicyTx, in_tx. destruct (tfBegin tf); [intros [= <- <-]; eauto|].
  simpl. destruct (TxSetSessionVar _ _ _) as [sess [e|]]; [intros [= <- <-]; eauto|].
  destruct (tx_exec _ _ _) as [tx [[|k]|e]] eqn:E; [intros [= <- <-]; eauto| |intros [= <- <-]; eauto].
  apply tx_exec_ok in E as (_ & _ & E & _).
  apply delete_policy_inv in E as (pid & org & hit & Hid & Horg & Hh & Hk & Hdb). simpl.
  specialize (Hh ltac:(lia)).
  intros [?|(_ & org' & Ho' & -> & Hr)]%publishAndCommit_cases; [by left|right].
  rewrite Horg in Ho'. injection Ho' as <-.
  rewrite (List.filter_ext hit (policy_of pid org) Hh) in Hk.
  change (txDB (Begin db)) with db in *.
  destruct (List.filter (policy_of pid org) (policies db)) as [|p l] eqn:Ex; [discriminate Hk|].
  assert (Hp : In p (List.filter (policy_of pid org) (policies db))) by (rewrite Ex; by left).
  clear Hk Ex. apply filter_In in Hp as [Hin Hp]. unfold policy_of in Hp. bool_to_prop.
  exists pid, org, p. do 5 (split; [done|]). rewrite Hdb. simpl. split; [|done]. f_equal.
  f_equal; [apply List.filter_ext; intros q; by rewrite Hh|].
  f_equal. apply List.filter_ext_in. intros a _. f_equal.
  rewrite (List.filter_ext hit (policy_of pid org) Hh). apply eq_true_iff_eq. rewrite existsb_exists. split.
  - intros (q & [_ Hq]%filter_In & He). unfold policy_of in Hq. bool_to_prop.
    apply String.eqb_eq. congruence.
  - intros He. bool_to_prop. exists p. split; [apply filter_In; unfold policy_of; split; [done|]; apply andb_true_intro; split; by apply String.eqb_eq|]. apply String.eqb_eq. congruence.
Qed.

(** C16: atomicity of policy mutations with their event.  Creating, updating
    or deleting a policy either leaves the database as it was and reports
    an error, or does exactly this: creating adds one row of the caller's
    tenant under a new id, version 1; updating replaces name, description,
    logic, version (one more, within its column) and time of the rows of
    that id and tenant, of which there is one at least, and of no other; deleting
    removes exactly those rows and the assignments of that policy; and
    either way one pending "policy.changes" record of that policy and event
    is appended and nothing else of the database changes.  Success is
    reported only in the second case, and there an error only when the
    commit went through without being acknowledged. *)
Theorem mutations_atomic conn tf id oid now orgID policyID name descr logic db :
  (forall db' r,
     CreatePolicy pgUUID jsonb ro celEnv conn tf id oid now orgID name descr logic db = (db', r) ->
     (db' = db /\ exists e, r = Err e) \/
     exists pid org j, pgUUID id = Some pid /\ pgUUID orgID = Some org /\ logic = Some j /\
       validatePolicyLogic celEnv logic = None /\ ~ In pid (map pID (policies db)) /\
       let p := mkPolicy pid org name descr (Some (jsonb j)) 1 now now in
       committed tf db (set_policies (policies db ++ [p]) db) db'
         (change_event now oid org pid "policy.created" orgID) p r) /\
  (forall db' r,
     UpdatePolicy pgUUID jsonb ro celEnv conn tf oid now orgID policyID name descr logic db = (db', r) ->
     (db' = db /\ exists e, r = Err e) \/
     exists pid org j p, pgUUID policyID = Some pid /\ pgUUID orgID = Some org /\ logic = Some j /\
       validatePolicyLogic celEnv logic = None /\
       In p (policies db) /\ pID p = pid /\ pOrgID p = org /\ (pVersion p < int4_max)%Z /\
       let new q := mkPolicy (pID q) (pOrgID q) name descr (Some (jsonb j)) (pVersion q + 1) (pCreatedAt q) now in
       committed tf db
         (set_policies (map (fun q => if policy_of pid org q then new q else q) (policies db)) db) db'
         (change_event now oid org pid "policy.updated" orgID) (new p) r) /\
  (forall db' r,
     DeletePolicy pgUUID jsonb ro conn tf oid now orgID policyID db = (db', r) ->
     (db' = db /\ exists e, r = Err e) \/
     exists pid org p, pgUUID policyID = Some pid /\ pgUUID orgID = Some org /\
       In p (policies db) /\ pID p = pid /\ pOrgID p = org /\
       committed tf db
         (set_policies (List.filter (fun q => negb (policy_of pid org q)) (policies db))
            (set_assignments (List.filter (fun a => negb (aPolicyID a =s? pid)) (policy_assignments db)) db)) db'
         (change_event now oid org policyID "policy.deleted" orgID) tt r).
Proof.
  split; [|split]; intros db' r; [apply create_policy_cases|apply update_policy_cases|apply delete_policy_cases].
Qed.

(** Denials without a matching policy are not logged.  An answer with no
    matched policy id is queued for the evaluation log, but the driver
    encodes its nil slice as NULL, the column refuses it, and the entry is
    dropped. *)
Theorem default_deny_not_logged now conn f id req resp rest (w : World S R B) :
  pgxArray None = None -> MatchedPolicyIDs resp = None -> wLog w = (req, resp) :: rest ->
  let w' := logWorker pgUUID pgxArray ro now conn f id w in
  wLog w' = rest /\ policy_eval_log (wDB w') = policy_eval_log (wDB w).
Proof.
  intros Hp Hm Hl. unfold logWorker. rewrite Hl. simpl. split; [done|].
  unfold WriteEvalLog, withOrgContext. destruct (_ =s? ""); [done|]. destruct (fAcquire f); [done|].
  destruct (SetSessionVar _ _ _) as [sess [e|]]; [done|].
  unfold autocommit, insert_eval_log. destruct (fQuery f); [done|].
  simpl. rewrite Hm, Hp. destruct (uuid_arg _ _); done.
Qed.
End dynamics.

Section invalidation.
Context {S R B : Type} `{RedisLaws R}.

(** invalidation.  When [InvalidateOrgCache] reports no error, every key
    indexed for the tenant is gone, no other decision is touched, and so is
    nothing else of the service. *)
Theorem InvalidateOrgCache_spec now org (w w' : World S R B) r members k t :
  wRedis w = Some r -> rview now r (orgIndexKey org) = Some (RSet members) ->
  InvalidateOrgCache now org w = (w', None) -> (now <= t)%Z ->
  exists r', wRedis w' = Some r' /\ wDB w' = wDB w /\
    (k ∈ members -> rview t r' k = None) /\
    (k ∉ members -> k <> orgIndexKey org -> rview t r' k = rview t r k).
Proof.
  intros Hr Hm Hi Ht. unfold InvalidateOrgCache in Hi. rewrite Hr in Hi.
  destruct (rsmembers now r (orgIndexKey org)) as [ks|e] eqn:Ek; [|done].
  apply rsmembers_ok in Ek as [[Hn _]|(s & Hs & Hks)]; [congruence|].
  rewrite Hm in Hs. injection Hs as <-.
  destruct ks as [|k0 ks].
  - injection Hi as <-. exists r. split; [done|]. split; [done|]. split; [|done].
    intros Hk%Hks. by apply not_elem_of_nil in Hk.
  - destruct (pipe_then _ _ _) as [r' [e|]] eqn:Ep; [done|]. injection Hi as <-.
    apply pipe_then_ok in Ep as (r1 & E1 & E2). exists r'. split; [done|]. split; [done|].
    assert (V1 := rdel_ok _ _ _ _ E1 t k Ht). assert (V2 := rdel_ok _ _ _ _ E2 t k Ht).
    unfold view_del, view_of in V1, V2. split.
    + intros Hk%Hks. rewrite V2. destruct (decide (k ∈ [orgIndexKey org])); [done|].
      rewrite V1. by rewrite decide_True.
    + intros Hk Hne. rewrite V2. rewrite decide_False by set_solver. rewrite V1.
      rewrite decide_False; [done|]. by rewrite Hks.
Qed.

End invalidation.

(** ** Witnesses *)

#[global] Instance MiniTime : TimeCodec := {
  time_json z := JNum z;
  time_of j := match j with JNum z => Ok z | _ => Err ErrUnmarshalType end;
}.

#[global] Instance MiniTime_laws : TimeCodecLaws.
Proof. split; done. Qed.

(** A digest of the right length. *)
Definition exampleSha (j : json) : string :=
  "e3b0c44298fc1c149afbf4c8996fb92427ae41e4649b934ca495991b7852b855".

Definition exampleWorld : World MiniPg MiniRedis MiniBreaker :=
  mkWorld exampleDB (Some emptyRedis) closedBreaker [] [] [].

Definition exampleEval (user : string) : EvaluateRequest :=
  mkEvaluateRequest "org1" user [] "read:docs" "document:7".

(** The world after one evaluation for [user2], at one second. *)
Definition exampleRun :=
  Evaluate exampleUUID exampleParse RoleBypass (Some exampleCel) exampleSha
    Second Second Second 3 "org1" (pg_fresh : MiniPg) noFaults Lead (exampleEval "user2") exampleWorld.

Lemma exampleWorld_initial : initial (0%Z, exampleWorld, []).
Proof.
  split; [done|]. split; [done|]. split; [done|]. split; [apply exampleDB_wf|].
  intros r [= <-] t k _ _. done.
Qed.

Definition exampleEvals : list evalRec :=
  record exampleUUID exampleParse RoleBypass Second Second "org1" (pg_fresh : MiniPg) noFaults
    (exampleEval "user2") exampleWorld.

Lemma exampleRun_reachable :
  rtc (world_step exampleUUID exampleParse (fun j => j) (fun l => l) RoleBypass (Some exampleCel) exampleSha)
    (0%Z, exampleWorld, []) (Second, exampleRun.1, exampleEvals).
Proof.
  eapply rtc_l; [|apply rtc_refl].
  change exampleEvals with ([] ++ if leads exampleSha Second Lead (exampleEval "user2") exampleWorld
    then exampleEvals else []).
  eapply (ws_evaluate _ _ _ _ _ _ _ 0%Z exampleWorld [] Second Second Second 3 "org1" pg_fresh noFaults Lead
    (exampleEval "user2") exampleRun.1 exampleRun.2); [done|done|done|].
  unfold exampleRun. apply surjective_pairing.
Qed.

Lemma cached_decision_bounded_staleness_witness :
  exists rec, In rec exampleEvals /\ erWrite rec = Second.
Proof.
  destruct (cached_decision_bounded_staleness exampleUUID exampleParse (fun j => j) (fun l => l) RoleBypass
    (Some exampleCel) exampleSha (0%Z, exampleWorld, []) Second exampleRun.1 exampleEvals
    (30 * Second) (30 * Second) (30 * Second) 1 "org1" (pg_fresh : MiniPg) noFaults Lead
    (exampleEval "user2") exampleRun.1
    (mkEvaluateResponse "allow" (Some ["p1"]) 1 "redis" 1))
    as (rec & Hin & _ & _ & Hw & _).
  - reflexivity.
  - exact exampleWorld_initial.
  - exact exampleRun_reachable.
  - done.
  - vm_compute. reflexivity.
  - vm_compute. eauto.
  - exists rec. split; [exact Hin|]. vm_compute in Hin. destruct Hin as [<-|[]]. reflexivity.
Defined.

(** The connection is refused. *)
Definition dbDown : Faults := mkFaults (Some (ErrNew "connection refused")) None None None None.

Lemma Evaluate_fails_closed_witness :
  Effect (mkEvaluateResponse "deny" (Some []) 0 "none" 3) = "deny".
Proof.
  destruct (Evaluate_fails_closed exampleUUID exampleParse RoleBypass (Some exampleCel) exampleSha
    Second Second Second 3 "org1" (pg_fresh : MiniPg) dbDown (exampleEval "user2") exampleWorld
    (Evaluate exampleUUID exampleParse RoleBypass (Some exampleCel) exampleSha
       Second Second Second 3 "org1" (pg_fresh : MiniPg) dbDown Lead (exampleEval "user2") exampleWorld).1
    (mkEvaluateResponse "deny" (Some []) 0 "none" 3)) as (_ & _ & Hd & _).
  - reflexivity.
  - vm_compute. reflexivity.
  - apply Hd. right. right. left. by eexists.
Defined.

Lemma service_invariants_witness :
  wf_db (wDB exampleRun.1) /\ length (wLog exampleRun.1) = 1.
Proof.
  split; [|vm_compute; reflexivity].
  apply (service_invariants exampleUUID exampleParse (fun j => j) (fun l => l) RoleBypass
    (Some exampleCel) exampleSha (0%Z, exampleWorld, []) Second exampleRun.1 exampleEvals
    exampleWorld_initial exampleRun_reachable).
Defined.

Lemma cacheKey_isolation_witness :
  cacheKey exampleSha (exampleEval "user1") <> orgIndexKey "org1".
Proof.
  destruct (cacheKey_isolation exampleSha (fun _ => eq_refl) (exampleEval "user1") (exampleEval "user2") "org1")
    as [_ Hn]. exact Hn.
Defined.

(** A commit that fails keeps the database. *)
Lemma mutations_atomic_witness :
  (CreatePolicy exampleUUID (fun j => j) RoleSubject (Some exampleCel) (pg_fresh : MiniPg)
     (mkTxFaults None noFaults None (CommitFail (ErrNew "reset") false)) "p9" "o1" 40 "org1" "n" ""
     (Some (JObj [("type", JStr "deny_all")])) exampleDB).1 = exampleDB.
Proof.
  destruct (mutations_atomic exampleUUID (fun j => j) RoleSubject (Some exampleCel) (pg_fresh : MiniPg)
    (mkTxFaults None noFaults None (CommitFail (ErrNew "reset") false)) "p9" "o1" 40 "org1" "p2" "n" ""
    (Some (JObj [("type", JStr "deny_all")])) exampleDB) as [Hc _].
  destruct (Hc exampleDB (Err (ErrNew "reset")) ltac:(vm_compute; reflexivity))
    as [[_ _]|(pid & org & j & _ & _ & _ & _ & _ & _ & [Hr|(e & Hr & Hf)])].
  - vm_compute. reflexivity.
  - discriminate Hr.
  - discriminate Hf.
Defined.

(** A tenant whose index holds one key. *)
Definition indexedRedis : MiniRedis :=
  mkMiniRedis {[ "policy:index:org1" := (RSet {[ "policy:eval:org1:x" ]}, None);
                 "policy:eval:org1:x" := (RStr (RText "v"), Some (60 * Second)%Z) ]} false.

Lemma InvalidateOrgCache_spec_witness :
  exists r', wRedis (InvalidateOrgCache Second "org1"
    (mkWorld (S := MiniPg) exampleDB (Some indexedRedis) closedBreaker [] [] [])).1 = Some r' /\
    rview (2 * Second) r' "policy:eval:org1:x" = None.
Proof.
  destruct (InvalidateOrgCache_spec Second "org1"
    (mkWorld (S := MiniPg) exampleDB (Some indexedRedis) closedBreaker [] [] [])
    (InvalidateOrgCache Second "org1"
      (mkWorld (S := MiniPg) exampleDB (Some indexedRedis) closedBreaker [] [] [])).1
    indexedRedis {[ "policy:eval:org1:x" ]} "policy:eval:org1:x" (2 * Second)) as (r' & Hr & _ & Hk & _).
  - reflexivity.
  - vm_compute. reflexivity.
  - vm_compute. reflexivity.
  - done.
  - exists r'. split; [exact Hr|]. apply Hk. by apply elem_of_singleton.
Defined.

Lemma default_deny_not_logged_witness :
  policy_eval_log (wDB (logWorker exampleUUID (fun l => l) RoleBypass 1 (pg_fresh : MiniPg) noFaults "l1"
    (mkWorld exampleDB (Some emptyRedis) closedBreaker []
       [(exampleEval "user9", mkEvaluateResponse "deny" None 0 "none" 1)] []))) = [].
Proof.
  destruct (default_deny_not_logged exampleUUID (fun l => l) RoleBypass 1 (pg_fresh : MiniPg) noFaults "l1"
    (exampleEval "user9") (mkEvaluateResponse "deny" None 0 "none" 1) []
    (mkWorld exampleDB (Some emptyRedis) closedBreaker []
       [(exampleEval "user9", mkEvaluateResponse "deny" None 0 "none" 1)] [])) as [_ Hl];
    [reflexivity..|]. rewrite Hl. reflexivity.
Defined.

(** a truncated fetch can turn a denial into a permission.  A connection
    lost after the first row makes the evaluation answer "allow" where the
    full policy set denies, although the query failed. *)
Theorem truncated_fetch_allows :
  let eval f := (Evaluate exampleUUID exampleParse RoleBypass (Some exampleCel) exampleSha
                   Second Second Second 3 "org1" (pg_fresh : MiniPg) f Lead (exampleEval "user1")
                   exampleWorld).2 in
  eval noFaults = Ok (mkEvaluateResponse "deny" (Some ["p1"; "p2"]) 4 "none" 3) /\
  eval (mkFaults None None None None (Some (1, ErrNew "unexpected EOF"))) =
    Ok (mkEvaluateResponse "allow" (Some ["p1"]) 1 "none" 3).
Proof. split; vm_compute; reflexivity. Qed.
