(* ===== verification/PolicyEvents.v ===== *)
(** From a policy that was changed to the message that says so: the mutations
    of [PolicyService] write into the outbox that the goroutines of
    [RelayLoop] empty. *)

From S2P Require Import Prelude Json Redis Pg Resilience PolicyEngine Outbox RelayLoop PolicyStore PolicyService.

Section events.
Context {S : Type} `{PgSession S}.
Variable pgUUID : uuidCast.
Variable jsonb : json -> json.
Variable ro : role.
Variable celEnv : option CelEnv.

#[local] Notation step := (RelayLoop.step pgUUID jsonb).
#[local] Notation steps := (RelayLoop.steps pgUUID jsonb).

(** A mutation that the service reported as done: the tenant and the kind of
    its event, and the database before and after. *)
Inductive mutated (oid : string) (now : Z) (orgID : string) : string -> DB -> DB -> Prop :=
| mutated_create conn tf id name descr logic db db' p :
    CreatePolicy pgUUID jsonb ro celEnv conn tf id oid now orgID name descr logic db = (db', Ok p) ->
    mutated oid now orgID "policy.created" db db'
| mutated_update conn tf policyID name descr logic db db' p :
    UpdatePolicy pgUUID jsonb ro celEnv conn tf oid now orgID policyID name descr logic db = (db', Ok p) ->
    mutated oid now orgID "policy.updated" db db'
| mutated_delete conn tf policyID db db' :
    DeletePolicy pgUUID jsonb ro conn tf oid now orgID policyID db = (db', Ok tt) ->
    mutated oid now orgID "policy.deleted" db db'.

Lemma mutated_event oid now orgID ev db db' :
  mutated oid now orgID ev db db' ->
  exists org key, pgUUID orgID = Some org /\
    outbox_records db' = outbox_records db ++ [change_event jsonb now oid org key ev orgID].
Proof.
  intros [conn tf id name descr logic db0 db1 p Hm|conn tf policyID name descr logic db0 db1 p Hm|conn tf policyID db0 db1 Hm].
  - apply create_policy_cases in Hm as [(_ & e & Hr)|(pid & org & j & _ & Ho & _ & _ & _ & Hd & _)]; [done|rewrite Hd; simpl; eauto].
  - apply update_policy_cases in Hm as [(_ & e & Hr)|(pid & org & j & q & _ & Ho & _ & _ & _ & _ & _ & _ & Hd & _)]; [done|rewrite Hd; simpl; eauto].
  - apply delete_policy_cases in Hm as [(_ & e & Hr)|(pid & org & q & _ & Ho & _ & _ & _ & Hd & _)]; [done|rewrite Hd; simpl; eauto].
Qed.

(** The message of a mutation. *)
Definition change_message (orgID key ev : string) : message :=
  ("policy.changes", key,
   jsonb (JObj [("event_type", JStr ev); ("org_id", JStr orgID); ("policy_id", JStr key)])).

(** C17: A policy that was changed is announced.  When the service reports that
    it created, changed or deleted a policy, what its transaction did to the
    outbox is one write that the relay sees, in whatever state the relay's
    goroutines are; and after any events of them without further writes, with
    as many quiet ticks as the backlog has hundreds, the message of that
    change has been handed to the broker, or its record is dead after five
    attempts that the broker refused.  No interleaving loses it. *)
Theorem change_announced oid now orgID ev db db' es0 s :
  mutated oid now orgID ev db db' ->
  steps es0 (NewRelay [] []) = Some s -> rlTable s = outbox_records db -> ~ In oid (ids (outbox_records db)) ->
  exists key s1,
    step (EvWrite oid now orgID "policy.changes" key (changePayload orgID key ev)) s = Some s1 /\
    rlTable s1 = outbox_records db' /\
    forall es s' k, steps es s1 = Some s' -> forallb (fun e => negb (writes e)) es = true ->
      quietTicks es k -> backlog (rlTable s1) <= batch_limit * k ->
      In (change_message orgID key ev) (rlLog s') \/
      exists r, In r (rlTable s') /\ oID r = oid /\ oStatus r = "dead" /\ oAttempts r = maxAttempts.
Proof.
  intros (org & key & Ho & Hd)%mutated_event Hs Ht Hid.
  assert (Hi : relay_inv s).
  { eapply steps_spec; [|exact Hs]. apply NewRelay_inv. split; [constructor|]. by split. }
  rewrite <- Ht in Hid.
  destruct (write_event_fresh pgUUID jsonb oid now orgID org "policy.changes" key
    (JObj [("event_type", JStr ev); ("org_id", JStr orgID); ("policy_id", JStr key)]) s Hid Ho) as (s1 & H1 & Ht1).
  exists key, s1. split; [exact H1|]. split; [by rewrite Ht1, Hd, Ht|].
  intros es s' k Hs' Hw Hq Hb.
  assert (Hi1 : relay_inv s1) by (by eapply step_spec).
  pose proof (steps_backlog _ _ _ _ Hq _ _ Hi1 Hw Hs') as Hbl.
  destruct (steps_carried _ _ _ _ _ Hi1 Hs' (change_event jsonb now oid org key ev orgID)) as (r & Hr & Hro & Hrm).
  { rewrite Ht1. apply in_or_app. right. by left. }
  apply steps_spec in Hs' as [_ [(_ & Hwf & Hp) _ _ _ _]]; [|done]. simpl in *.
  assert (Hset : Forall settled (rlTable s')) by (apply no_backlog; [done|lia]).
  rewrite Forall_forall in *. rewrite <- list_elem_of_In in Hr.
  destruct (Hset r Hr) as [Hst|Hst].
  - left. specialize (Hp r Hr Hst). by rewrite Hrm in Hp.
  - right. exists r. rewrite <- list_elem_of_In. split; [done|]. split; [done|]. split; [done|].
    destruct (Hwf r Hr) as [(E & _)|[(E & _)|[(E & _)|(_ & E & _)]]]; congruence.
Qed.
End events.

(** ** Examples *)

Module EventExamples.

Definition fine : TxFaults := mkTxFaults None noFaults None CommitOk.

Definition deleted : DB :=
  (DeletePolicy exampleUUID (fun j => j) RoleBypass (pg_fresh : MiniPg) fine "o1" 40 "org1" "p2" exampleDB).1.

(** The broker is down at first. *)
Definition later : list relayEvent :=
  [EvCheck; EvTick; EvDrainTick 50 brokerDown; EvAcquire (Some (ErrNew "no connection")); EvTick;
   EvDrainTick 60 quietFaults].

Lemma change_announced_witness :
  exists key s1 s', steps exampleUUID (fun j => j) later s1 = Some s' /\ rlTable s1 = outbox_records deleted /\
    (In (change_message (fun j => j) "org1" key "policy.deleted") (rlLog s') \/
     exists r, In r (rlTable s') /\ oID r = "o1" /\ oStatus r = "dead" /\ oAttempts r = maxAttempts).
Proof.
  destruct (change_announced exampleUUID (fun j => j) RoleBypass (Some exampleCel) (S := MiniPg) "o1" 40 "org1"
    "policy.deleted" exampleDB deleted [] (NewRelay [] [])) as (key & s1 & Hstep & Ht & Hrun).
  - apply (mutated_delete _ _ _ _ _ _ _ (pg_fresh : MiniPg) fine "p2"). vm_compute. reflexivity.
  - reflexivity.
  - reflexivity.
  - by intros [].
  - exists key, s1. simpl in Hstep. unfold write_event in Hstep. simpl in Hstep. injection Hstep as <-.
    eexists. split; [vm_compute; reflexivity|]. split; [exact Ht|].
    eapply (Hrun later _ 1).
    + vm_compute. reflexivity.
    + reflexivity.
    + do 5 apply qt_other. apply qt_tick, qt_nil. exact quietFaults_quiet.
    + vm_compute. lia.
Defined.

(** It is announced. *)
Example deletion_announced :
  option_map rlLog (steps exampleUUID (fun j => j) later (NewRelay (outbox_records deleted) [])) =
  Some [change_message (fun j => j) "org1" "p2" "policy.deleted"].
Proof. vm_compute. reflexivity. Qed.

End EventExamples.
