(* ===== verification/PolicyHandlers.v ===== *)
(** The HTTP handlers of the policy service:
    services/policy/pkg/handlers/handler.go.  They are written against the
    interface [PolicySvc]; [serviceOps] is the service of [PolicyService]. *)

From S2P Require Import Prelude GoStrings Json Http Redis Resilience Pg Outbox PolicyEngine PolicyStore PolicyService.

(** ** Interface of the service *)

Class PolicySvc (W : Type) := {
  svcEvaluate : EvaluateRequest -> W -> W * res EvaluateResponse;
  svcListPolicies : string -> W -> W * res (list Policy);
  svcCreatePolicy : string -> string -> string -> raw -> W -> W * res Policy;
  svcGetPolicy : string -> string -> W -> W * res Policy;
  svcUpdatePolicy : string -> string -> string -> string -> raw -> W -> W * res Policy;
  svcDeletePolicy : string -> string -> W -> W * res unit;
  svcListEvalLogs : string -> Z -> W -> W * res (list EvalLog);
  svcListAssignments : string -> W -> W * res (list Assignment);
  svcCreateAssignment : string -> string -> string -> string -> W -> W * res Assignment;
  svcDeleteAssignment : string -> string -> W -> W * res unit;
}.

(** ** Request bodies *)

Definition upd_EvaluateRequest (k : string) (r : EvaluateRequest) (j : json) : res EvaluateRequest :=
  let '(mkEvaluateRequest o s g a x) := r in
  if key_is "org_id" k then o' <-? dec_string o j; Ok (mkEvaluateRequest o' s g a x)
  else if key_is "subject_id" k then s' <-? dec_string s j; Ok (mkEvaluateRequest o s' g a x)
  else if key_is "user_groups" k then g' <-? dec_strings g j; Ok (mkEvaluateRequest o s g' a x)
  else if key_is "action" k then a' <-? dec_string a j; Ok (mkEvaluateRequest o s g a' x)
  else if key_is "resource" k then x' <-? dec_string x j; Ok (mkEvaluateRequest o s g a x')
  else Ok r.

Definition zeroRequest : EvaluateRequest := mkEvaluateRequest "" "" [] "" "".

Record PolicyBody := mkPolicyBody { pbName : string; pbDescription : string; pbLogic : raw }.

Definition upd_PolicyBody (k : string) (b : PolicyBody) (j : json) : res PolicyBody :=
  let '(mkPolicyBody n d l) := b in
  if key_is "name" k then n' <-? dec_string n j; Ok (mkPolicyBody n' d l)
  else if key_is "description" k then d' <-? dec_string d j; Ok (mkPolicyBody n d' l)
  else if key_is "logic" k then l' <-? dec_raw l j; Ok (mkPolicyBody n d l')
  else Ok b.

Record AssignmentBody := mkAssignmentBody { abPolicyID : string; abSubjectID : string; abSubjectType : string }.

Definition upd_AssignmentBody (k : string) (b : AssignmentBody) (j : json) : res AssignmentBody :=
  let '(mkAssignmentBody p s t) := b in
  if key_is "policy_id" k then p' <-? dec_string p j; Ok (mkAssignmentBody p' s t)
  else if key_is "subject_id" k then s' <-? dec_string s j; Ok (mkAssignmentBody p s' t)
  else if key_is "subject_type" k then t' <-? dec_string t j; Ok (mkAssignmentBody p s t')
  else Ok b.

(** ** Response documents *)

Section docs.
Context `{TimeCodec}.

Definition policyDoc (p : Policy) : json :=
  JObj [("id", JStr (pID p)); ("org_id", JStr (pOrgID p)); ("name", JStr (pName p));
        ("description", JStr (pDescription p));
        ("logic", match pLogic p with Some j => j | None => JNull end);
        ("version", JNum (pVersion p)); ("created_at", time_json (pCreatedAt p));
        ("updated_at", time_json (pUpdatedAt p))].

Definition evalLogDoc (l : EvalLog) : json :=
  JObj [("id", JStr (elID l)); ("org_id", JStr (elOrgID l)); ("subject_id", JStr (elSubjectID l));
        ("action", JStr (elAction l)); ("resource", JStr (elResource l));
        ("effect", JStr (elEffect l));
        ("matched_policy_ids", json_opt_strings (elMatchedPolicyIDs l));
        ("cache_hit", JStr (elCacheHit l)); ("latency_ms", JNum (elLatencyMs l));
        ("evaluated_at", time_json (elEvaluatedAt l))].

Definition assignmentDoc (a : Assignment) : json :=
  JObj [("id", JStr (aID a)); ("org_id", JStr (aOrgID a)); ("policy_id", JStr (aPolicyID a));
        ("subject_id", JStr (aSubjectID a)); ("subject_type", JStr (aSubjectType a));
        ("created_at", time_json (aCreatedAt a))].
End docs.

Definition responseDoc (r : EvaluateResponse) : json :=
  JObj [("effect", JStr (Effect r)); ("matched_policy_ids", json_opt_strings (MatchedPolicyIDs r));
        ("max_version", JNum (MaxVersion r)); ("cache_hit", JStr (CacheHit r));
        ("latency_ms", JNum (LatencyMs r))].

(** [fmt.Sprintf(`%q-v%d`, ...)] of the handlers. *)
Definition etag (id : string) (version : Z) : string :=
  String (Ascii.ascii_of_nat 34) (id +:+ ("-v" +:+ (itoa version +:+ String (Ascii.ascii_of_nat 34) ""))).

(** ** Handlers *)

Section handlers.
Context {W : Type} `{PolicySvc W} `{TimeCodec}.

Definition missingOrg : Response := writeError StatusInternalServerError "missing org context".

(** [ctxOrg] is [rls.OrgID(r.Context())], [b] the request body. *)
Definition HandleEvaluate (ctxOrg : string) (b : raw) (w : W) : W * Response :=
  if ctxOrg =s? "" then (w, missingOrg)
  else match decode_body upd_EvaluateRequest zeroRequest b with
  | Err _ => (w, writeError StatusBadRequest "invalid request body")
  | Ok req =>
      if (SubjectID req =s? "") || (Action req =s? "") || (Resource req =s? "") then
        (w, writeError StatusBadRequest "subject_id, action, and resource are required")
      else
        let req := mkEvaluateRequest ctxOrg (SubjectID req) (UserGroups req) (Action req) (Resource req) in
        match svcEvaluate req w with
        | (w', Err _) => (w', writeError StatusInternalServerError "evaluation failed")
        | (w', Ok resp) =>
            (w', writeJSON [("ETag", etag (OrgID req) (MaxVersion resp)); ("Cache-Control", "no-store")]
                   StatusOK (responseDoc resp))
        end
  end.

Definition HandleListPolicies (ctxOrg : string) (w : W) : W * Response :=
  if ctxOrg =s? "" then (w, missingOrg)
  else match svcListPolicies ctxOrg w with
  | (w', Err _) => (w', writeError StatusInternalServerError "failed to list policies")
  | (w', Ok ps) =>
      (w', writeJSON [] StatusOK (JObj [("policies", JArr (map policyDoc ps));
                                        ("total", JNum (Z.of_nat (length ps)))]))
  end.

Definition HandleCreatePolicy (ctxOrg : string) (b : raw) (w : W) : W * Response :=
  if ctxOrg =s? "" then (w, missingOrg)
  else match decode_body upd_PolicyBody (mkPolicyBody "" "" None) b with
  | Err _ => (w, writeError StatusBadRequest "invalid request body")
  | Ok body =>
      if (pbName body =s? "") || match pbLogic body with None => true | Some _ => false end then
        (w, writeError StatusBadRequest "name and logic are required")
      else match unmarshal_map (pbLogic body) with
      | Err _ => (w, writeError StatusBadRequest "logic must be valid JSON")
      | Ok _ =>
          match svcCreatePolicy ctxOrg (pbName body) (pbDescription body) (pbLogic body) w with
          | (w', Err _) => (w', writeError StatusInternalServerError "failed to create policy")
          | (w', Ok p) => (w', writeJSON [("ETag", etag (pID p) (pVersion p))] StatusCreated (policyDoc p))
          end
      end
  end.

Definition HandleGetPolicy (ctxOrg policyID : string) (w : W) : W * Response :=
  if ctxOrg =s? "" then (w, missingOrg)
  else if policyID =s? "" then (w, writeError StatusBadRequest "id is required")
  else match svcGetPolicy ctxOrg policyID w with
  | (w', Err e) =>
      if errors_is e ErrNotFound then (w', writeError StatusNotFound "policy not found")
      else (w', writeError StatusInternalServerError "failed to get policy")
  | (w', Ok p) => (w', writeJSON [("ETag", etag (pID p) (pVersion p))] StatusOK (policyDoc p))
  end.

Definition HandleUpdatePolicy (ctxOrg policyID : string) (b : raw) (w : W) : W * Response :=
  if ctxOrg =s? "" then (w, missingOrg)
  else match decode_body upd_PolicyBody (mkPolicyBody "" "" None) b with
  | Err _ => (w, writeError StatusBadRequest "invalid request body")
  | Ok body =>
      if policyID =s? "" then (w, writeError StatusBadRequest "id is required")
      else match svcUpdatePolicy ctxOrg policyID (pbName body) (pbDescription body) (pbLogic body) w with
      | (w', Err e) =>
          if errors_is e ErrNotFound then (w', writeError StatusNotFound "policy not found")
          else (w', writeError StatusInternalServerError "failed to update policy")
      | (w', Ok p) => (w', writeJSON [("ETag", etag (pID p) (pVersion p))] StatusOK (policyDoc p))
      end
  end.

Definition deleted : Response := writeJSON [] StatusOK (JObj [("status", JStr "deleted")]).

Definition HandleDeletePolicy (ctxOrg policyID : string) (w : W) : W * Response :=
  if ctxOrg =s? "" then (w, missingOrg)
  else if policyID =s? "" then (w, writeError StatusBadRequest "id is required")
  else match svcDeletePolicy ctxOrg policyID w with
  | (w', Err e) =>
      if errors_is e ErrNotFound then (w', writeError StatusNotFound "policy not found")
      else (w', writeError StatusInternalServerError "failed to delete policy")
  | (w', Ok _) => (w', deleted)
  end.

Definition maxLimit : Z := 500.

(** The limit of the query string; [l] is [""] when it is absent. *)
Definition requestLimit (l : string) : Z :=
  let limit :=
    if l =s? "" then 100%Z
    else match Atoi l with Some n => if (0 <? n)%Z then n else 100%Z | None => 100%Z end in
  if (maxLimit <? limit)%Z then maxLimit else limit.

Definition HandleListEvalLogs (ctxOrg limitParam : string) (w : W) : W * Response :=
  if ctxOrg =s? "" then (w, missingOrg)
  else match svcListEvalLogs ctxOrg (requestLimit limitParam) w with
  | (w', Err _) => (w', writeError StatusInternalServerError "failed to list eval logs")
  | (w', Ok logs) =>
      (w', writeJSON [] StatusOK (JObj [("logs", JArr (map evalLogDoc logs));
                                        ("total", JNum (Z.of_nat (length logs)))]))
  end.

(** An empty result is a nil slice, which marshals to [null]. *)
Definition HandleListAssignments (ctxOrg : string) (w : W) : W * Response :=
  if ctxOrg =s? "" then (w, missingOrg)
  else match svcListAssignments ctxOrg w with
  | (w', Err _) => (w', writeError StatusInternalServerError "failed to list assignments")
  | (w', Ok l) =>
      (w', writeJSON [] StatusOK
             (JObj [("assignments", match l with [] => JNull | _ => JArr (map assignmentDoc l) end);
                    ("total", JNum (Z.of_nat (length l)))]))
  end.

Definition HandleCreateAssignment (ctxOrg : string) (b : raw) (w : W) : W * Response :=
  if ctxOrg =s? "" then (w, missingOrg)
  else match decode_body upd_AssignmentBody (mkAssignmentBody "" "" "") b with
  | Err _ => (w, writeError StatusBadRequest "invalid request body")
  | Ok body =>
      if (abPolicyID body =s? "") || (abSubjectID body =s? "") then
        (w, writeError StatusBadRequest "policy_id and subject_id are required")
      else match svcCreateAssignment ctxOrg (abPolicyID body) (abSubjectID body) (abSubjectType body) w with
      | (w', Err _) => (w', writeError StatusInternalServerError "failed to create assignment")
      | (w', Ok a) => (w', writeJSON [] StatusCreated (assignmentDoc a))
      end
  end.

Definition HandleDeleteAssignment (ctxOrg assignmentID : string) (w : W) : W * Response :=
  if ctxOrg =s? "" then (w, missingOrg)
  else if assignmentID =s? "" then (w, writeError StatusBadRequest "id is required")
  else match svcDeleteAssignment ctxOrg assignmentID w with
  | (w', Err e) =>
      if errors_is e ErrNotFound then (w', writeError StatusNotFound "assignment not found")
      else (w', writeError StatusInternalServerError "failed to delete assignment")
  | (w', Ok _) => (w', deleted)
  end.

(** ** Properties *)

(** The request the service is asked to evaluate. *)
Definition effectiveRequest (ctxOrg : string) (r : EvaluateRequest) : EvaluateRequest :=
  mkEvaluateRequest ctxOrg (SubjectID r) (UserGroups r) (Action r) (Resource r).

Lemma HandleEvaluate_ok ctxOrg b w w' r :
  HandleEvaluate ctxOrg b w = (w', r) -> status r = StatusOK ->
  exists req resp, decode_body upd_EvaluateRequest zeroRequest b = Ok req /\ ctxOrg <> "" /\
    SubjectID req <> "" /\ Action req <> "" /\ Resource req <> "" /\
    svcEvaluate (effectiveRequest ctxOrg req) w = (w', Ok resp) /\ body r = responseDoc resp.
Proof.
  unfold HandleEvaluate. destruct (ctxOrg =s? "") eqn:Eo; [by intros [= <- <-]|].
  destruct (decode_body _ _ b) as [req|e]; [|by intros [= <- <-]].
  destruct (_ || _ || _) eqn:Ef; [by intros [= <- <-]|].
  fold (effectiveRequest ctxOrg req).
  destruct (svcEvaluate (effectiveRequest ctxOrg req) w) as [w1 [resp|e]] eqn:Es; [|by intros [= <- <-]].
  intros [= <- <-] _. exists req, resp. bool_to_prop. done.
Qed.

(** The tenant of a decision comes from the token.  Whatever [org_id]
    the body carries, the service is asked about the context's tenant: two
    bodies that differ only in it get the same response and effect, and
    without a tenant in the context the service is not called. *)
Theorem HandleEvaluate_org_from_context ctxOrg b b' r r' w :
  decode_body upd_EvaluateRequest zeroRequest b = Ok r ->
  decode_body upd_EvaluateRequest zeroRequest b' = Ok r' ->
  effectiveRequest ctxOrg r = effectiveRequest ctxOrg r' ->
  HandleEvaluate ctxOrg b w = HandleEvaluate ctxOrg b' w /\
  HandleEvaluate "" b w = (w, missingOrg).
Proof.
  intros Hb Hb' He. split; [|done]. unfold HandleEvaluate. rewrite Hb, Hb'.
  unfold effectiveRequest in He. injection He as Hs Hg Ha Hx. by rewrite Hs, Hg, Ha, Hx.
Qed.

(** The page size asked of the store is between 1 and 500. *)
Theorem requestLimit_bounds l : (1 <= requestLimit l <= 500)%Z.
Proof.
  unfold requestLimit, maxLimit. repeat case_goal; bool_to_prop; lia.
Qed.

(** Error mapping of the item handlers.  For a request with a tenant and
    an id, the status is 200 when the service succeeds, 404 exactly when
    its error is "policy not found", and 500 for every other error. *)
Theorem item_handlers_status ctxOrg policyID w :
  ctxOrg <> "" -> policyID <> "" ->
  let code {A} (r : res A) :=
    match r with
    | Ok _ => StatusOK
    | Err e => if errors_is e ErrNotFound then StatusNotFound else StatusInternalServerError
    end in
  status (HandleGetPolicy ctxOrg policyID w).2 = code (svcGetPolicy ctxOrg policyID w).2 /\
  status (HandleDeletePolicy ctxOrg policyID w).2 = code (svcDeletePolicy ctxOrg policyID w).2 /\
  status (HandleDeleteAssignment ctxOrg policyID w).2 = code (svcDeleteAssignment ctxOrg policyID w).2 /\
  (forall b body, decode_body upd_PolicyBody (mkPolicyBody "" "" None) b = Ok body ->
     status (HandleUpdatePolicy ctxOrg policyID b w).2 =
     code (svcUpdatePolicy ctxOrg policyID (pbName body) (pbDescription body) (pbLogic body) w).2).
Proof.
  intros Ho%String.eqb_neq Hp%String.eqb_neq code.
  unfold HandleGetPolicy, HandleDeletePolicy, HandleDeleteAssignment, HandleUpdatePolicy.
  rewrite Ho, Hp. split; [|split; [|split]].
  - destruct (svcGetPolicy ctxOrg policyID w) as [w' [p|e]]; simpl; [done|]. by destruct (errors_is e _).
  - destruct (svcDeletePolicy ctxOrg policyID w) as [w' [p|e]]; simpl; [done|]. by destruct (errors_is e _).
  - destruct (svcDeleteAssignment ctxOrg policyID w) as [w' [p|e]]; simpl; [done|]. by destruct (errors_is e _).
  - intros b body ->. destruct (svcUpdatePolicy _ _ _ _ _ _) as [w' [p|e]]; simpl; [done|].
    by destruct (errors_is e _).
Qed.
End handlers.

(** ** The service behind the handlers *)

(** Everything a call meets outside the process. *)
Record CallEnv (S : Type) := mkCallEnv {
  ceNow : Z;
  ceFetch : Z;
  ceWrite : Z;
  ceLatency : Z;
  ceConn : S;
  ceFaults : Faults;
  ceTx : TxFaults;
  ceID : string;
  ceOutboxID : string;
  ceFlight : flight;
}.
Arguments ceNow {S} _.
Arguments ceFetch {S} _.
Arguments ceWrite {S} _.
Arguments ceLatency {S} _.
Arguments ceConn {S} _.
Arguments ceFaults {S} _.
Arguments ceTx {S} _.
Arguments ceID {S} _.
Arguments ceOutboxID {S} _.
Arguments ceFlight {S} _.
Arguments mkCallEnv {S} _ _ _ _ _ _ _ _ _ _.

Section compose.
Context {S R B : Type} `{PgSession S} `{Redis R} `{Breaker B} `{TimeCodec}.
Variable pgUUID : uuidCast.
Variable uuidParse : string -> bool.
Variable jsonb : json -> json.
Variable ro : role.
Variable celEnv : option CelEnv.
Variable sha256hex : json -> string.
Variable env : CallEnv S.

Definition on_db {A} (x : DB * res A) (w : World S R B) : World S R B * res A := (set_db x.1 w, x.2).

(** The calls of the service, in the context of the tenant. *)
Definition serviceOps : PolicySvc (World S R B) := {|
  svcEvaluate req w :=
    Evaluate pgUUID uuidParse ro celEnv sha256hex (ceNow env) (ceFetch env) (ceWrite env)
      (ceLatency env) (OrgID req) (ceConn env) (ceFaults env) (ceFlight env) req w;
  svcListPolicies orgID w := on_db (ListPolicies pgUUID ro orgID (ceConn env) (ceFaults env) (wDB w)) w;
  svcCreatePolicy orgID name description logic w :=
    on_db (CreatePolicy pgUUID jsonb ro celEnv (ceConn env) (ceTx env) (ceID env) (ceOutboxID env)
             (ceNow env) orgID name description logic (wDB w)) w;
  svcGetPolicy orgID policyID w := on_db (GetPolicy pgUUID ro orgID policyID (ceConn env) (ceFaults env) (wDB w)) w;
  svcUpdatePolicy orgID policyID name description logic w :=
    on_db (UpdatePolicy pgUUID jsonb ro celEnv (ceConn env) (ceTx env) (ceOutboxID env)
             (ceNow env) orgID policyID name description logic (wDB w)) w;
  svcDeletePolicy orgID policyID w :=
    on_db (DeletePolicy pgUUID jsonb ro (ceConn env) (ceTx env) (ceOutboxID env) (ceNow env) orgID policyID (wDB w)) w;
  svcListEvalLogs orgID limit w :=
    on_db (ListEvalLogs pgUUID ro orgID (ceConn env) (ceFaults env) orgID limit (wDB w)) w;
  svcListAssignments orgID w := on_db (ListAssignments pgUUID ro orgID (ceConn env) (ceFaults env) (wDB w)) w;
  svcCreateAssignment orgID policyID subjectID subjectType w :=
    CreateAssignment pgUUID ro orgID (ceConn env) (ceFaults env) (ceID env) (ceNow env)
      orgID policyID subjectID subjectType w;
  svcDeleteAssignment orgID assignmentID w :=
    DeleteAssignment pgUUID ro orgID (ceConn env) (ceFaults env) orgID assignmentID w;
|}.
End compose.

(** ** The meaning of an allow *)

Lemma inputDoc_inj r1 r2 : inputDoc r1 = inputDoc r2 -> r1 = r2.
Proof.
  destruct r1, r2. unfold inputDoc. simpl. intros [= -> -> -> -> Hg].
  assert (UserGroups = UserGroups0) as ->; [|done]. revert Hg. apply (list_fmap_eq_inj JStr). by intros ? ? [= ->].
Qed.

Section allow.
Context {S R B : Type} `{PgSession S} `{RedisLaws R} `{Breaker B} `{TimeCodecLaws}.
Variable pgUUID : uuidCast.
Variable uuidParse : string -> bool.
Variable jsonb : json -> json.
Variable pgxArray : option (list string) -> option (list string).
Variable ro : role.
Variable celEnv : option CelEnv.
Variable sha256hex : json -> string.
Variable env : CallEnv S.

(** C4: what an "allow" over HTTP means.  In every reachable state of the
    service, whatever the database and Redis do, a 200 response that says
    "allow" for the tenant of the context rests on policies that the policy
    query delivered (its rows may be cut short, see C2), all of them of that
    tenant: one of them allows the question and none denies it.  They were
    delivered to this call, to the call in flight for the same cache key that
    it joined, or to an evaluation cached less than sixty seconds ago; and
    the question is the caller's own, unless it is another one of the same
    tenant whose document has the same SHA-256 digest. *)
Theorem http_allow_is_justified st0 n (w w' : World S R B) g ctxOrg b r resp :
  let now := ceNow env in
  (forall j, String.length (sha256hex j) = 64) ->
  initial st0 ->
  rtc (world_step pgUUID uuidParse jsonb pgxArray ro celEnv sha256hex) st0 (n, w, g) -> (n <= now)%Z ->
  (forall req, decode_body upd_EvaluateRequest zeroRequest b = Ok req ->
     exists leader psL dbL, flight_of (S := S) (R := R) (B := B) pgUUID uuidParse ro celEnv sha256hex (ceFlight env)
       (cacheKey sha256hex (effectiveRequest ctxOrg req)) leader psL dbL) ->
  HandleEvaluate (H := serviceOps pgUUID uuidParse jsonb ro celEnv sha256hex env) ctxOrg b w = (w', r) ->
  status r = StatusOK -> body r = responseDoc resp -> Effect resp = "allow" ->
  exists body req db ps,
    decode_body upd_EvaluateRequest zeroRequest b = Ok body /\ ctxOrg <> "" /\ OrgID req = ctxOrg /\
    (req = effectiveRequest ctxOrg body \/
     inputDoc req <> inputDoc (effectiveRequest ctxOrg body) /\
     sha256hex (inputDoc req) = sha256hex (inputDoc (effectiveRequest ctxOrg body))) /\
    verdict_of_fetch pgUUID uuidParse ro celEnv sha256hex now (ceFetch env) (ceConn env) (ceFaults env)
      (ceFlight env) (effectiveRequest ctxOrg body) w g req db ps /\
    (forall p, In p ps -> In p (policies db) /\ pgUUID ctxOrg = Some (pOrgID p)) /\
    (exists p, In p ps /\ verdictOf celEnv req p = VAllow) /\
    ~ (exists p, In p ps /\ verdictOf celEnv req p = VDeny).
Proof.
  intros now Hlen Hinit Hr Hn Hfl Hh Hst Hbody Hallow.
  apply HandleEvaluate_ok in Hh as (q & resp' & Hb & Ho & _ & _ & _ & He & Hbody'); [|done].
  assert (Effect resp' = "allow") as Ha.
  { rewrite Hbody in Hbody'. injection Hbody' as Hx. congruence. }
  assert (Hi := reachable_inv _ _ _ _ _ _ _ _ _ Hinit Hr).
  destruct (Hfl q Hb) as (leader & psL & dbL & Hq).
  destruct (Evaluate_allow_fetch pgUUID uuidParse ro celEnv sha256hex n w w' g now (ceFetch env) (ceWrite env)
    (ceLatency env) (ceConn env) (ceFaults env) (ceFlight env) (effectiveRequest ctxOrg q) leader psL dbL resp'
    Hi Hn Hq He Ha) as (req & db & ps & Hv & Hk & Hal).
  destruct (cacheKey_isolation sha256hex Hlen req (effectiveRequest ctxOrg q) "") as [Hiso _].
  destruct (Hiso Hk) as [Horg Hd]. simpl in Horg.
  exists q, req, db, ps. split; [done|]. split; [done|]. split; [done|]. split; [|split; [done|split]].
  - destruct (decide (inputDoc req = inputDoc (effectiveRequest ctxOrg q))) as [E|E]; [left|by right].
    by apply inputDoc_inj.
  - intros p Hp. rewrite <- Horg.
    eapply (verdict_policies pgUUID uuidParse ro celEnv sha256hex); [|exact Hv|exact Hp].
    by eapply reachable_real.
  - by apply evaluate_allow_cases.
Qed.
End allow.

(** ** Witnesses *)

Definition exampleEnv : CallEnv MiniPg :=
  mkCallEnv Second Second Second 3 (pg_fresh : MiniPg) noFaults (mkTxFaults None noFaults None CommitOk)
    "id1" "id2" Lead.

Definition exampleBody (org : string) : raw :=
  Some (JObj [("org_id", JStr org); ("subject_id", JStr "user2"); ("action", JStr "read:docs");
              ("resource", JStr "document:7")]).

#[local] Instance exampleOps : PolicySvc (World MiniPg MiniRedis MiniBreaker) :=
  serviceOps exampleUUID exampleParse (fun j => j) RoleBypass (Some exampleCel) exampleSha exampleEnv.

Lemma HandleEvaluate_org_from_context_witness :
  HandleEvaluate "org1" (exampleBody "org1") exampleWorld = HandleEvaluate "org1" (exampleBody "org2") exampleWorld.
Proof.
  destruct (HandleEvaluate_org_from_context "org1" (exampleBody "org1") (exampleBody "org2")
    (mkEvaluateRequest "org1" "user2" [] "read:docs" "document:7")
    (mkEvaluateRequest "org2" "user2" [] "read:docs" "document:7") exampleWorld) as [Hs _];
    [vm_compute; reflexivity|vm_compute; reflexivity|reflexivity|exact Hs].
Defined.

Lemma item_handlers_status_witness :
  status (HandleGetPolicy "org1" "p9" exampleWorld).2 = StatusNotFound.
Proof.
  destruct (item_handlers_status "org1" "p9" exampleWorld) as [Hs _]; [discriminate|discriminate|].
  rewrite Hs. vm_compute. reflexivity.
Defined.

(** The answer is that of the decision cached by [exampleRun]. *)
Lemma http_allow_is_justified_witness :
  exists p, In p (policies exampleDB) /\ pOrgID p = "org1".
Proof.
  destruct (http_allow_is_justified exampleUUID exampleParse (fun j => j) (fun l => l) RoleBypass (Some exampleCel)
    exampleSha exampleEnv (0%Z, exampleWorld, []) Second exampleRun.1
    (HandleEvaluate "org1" (exampleBody "org1") exampleRun.1).1 exampleEvals "org1" (exampleBody "org1")
    (HandleEvaluate "org1" (exampleBody "org1") exampleRun.1).2
    (mkEvaluateResponse "allow" (Some ["p1"]) 1 "redis" 3))
    as (body & req & db & ps & _ & _ & _ & _ & Hv & Hps & (p & Hp & _) & _).
  - reflexivity.
  - exact exampleWorld_initial.
  - exact exampleRun_reachable.
  - done.
  - intros q _. by exists zeroRequest, (Ok []), exampleDB.
  - apply surjective_pairing.
  - vm_compute. reflexivity.
  - vm_compute. reflexivity.
  - reflexivity.
  - destruct (Hps p Hp) as [Hin Ho]. injection Ho as Ho.
    exists p. split; [|done]. destruct Hv as [ps Hl _|resp leader db ps Hj _|rec Hin' _ _ _].
    + exact Hin.
    + discriminate Hj.
    + vm_compute in Hin'. destruct Hin' as [<-|[]]. exact Hin.
Defined.
