(* ===== verification/Sdk.v ===== *)
(** The client library: sdk/cache.go, sdk/client.go and sdk/policy.go.  The
    replies of the network, the clock and the cancellation of the caller's
    context are inputs. *)

From S2P Require Import Prelude GoStrings Json Resilience Http PolicyService PolicyHandlers.
From stdpp Require Import gmap.

(** ** The local cache *)

Record cacheEntry := mkCacheEntry { ceValue : bool; ceExpiresAt : Z }.

Record localCache := mkLocalCache { lcData : gmap string cacheEntry; lcTTL : Z }.

Definition newLocalCache (ttl : Z) : localCache := mkLocalCache ∅ ttl.

Definition gracePeriod : Z := (60 * Second)%Z.

(** One pass of [evictionLoop]. *)
Definition evict (now : Z) (c : localCache) : localCache :=
  mkLocalCache
    (filter (fun kv : string * cacheEntry => (now - gracePeriod <= ceExpiresAt kv.2)%Z) (lcData c)) (lcTTL c).

(** [Get]: the fresh entries only. *)
Definition cacheGet (now : Z) (key : string) (c : localCache) : option bool :=
  match lcData c !! key with
  | Some e => if (ceExpiresAt e <? now)%Z then None else Some (ceValue e)
  | None => None
  end.

Definition GetOrStale (now : Z) (key : string) (c : localCache) : option bool :=
  match lcData c !! key with
  | None => None
  | Some e =>
      if (now <? ceExpiresAt e)%Z then Some (ceValue e)
      else if (now <? ceExpiresAt e + gracePeriod)%Z then Some (ceValue e)
      else None
  end.

Definition cacheSet (now : Z) (key : string) (value : bool) (c : localCache) : localCache :=
  mkLocalCache (<[key := mkCacheEntry value (now + lcTTL c)]> (lcData c)) (lcTTL c).

(** ** The client *)

Record Client := mkClient {
  clOrg : string;                  (* WithOrgID *)
  clFailOpen : bool;               (* WithFailOpen *)
  clRetryMax : Z;                  (* WithRetry *)
}.

(** What one request yields. *)
Inductive httpReply :=
| NetError (e : goerr)                     (* httpClient.Do *)
| Reply (code : Z) (body : raw).

Definition StatusRequestTimeout : Z := 408.
Definition StatusGatewayTimeout : Z := 504.

(** [isTransient]: told from the text of the error. *)
Definition isTransient (e : goerr) : bool :=
  let msg := error_text e in
  Contains msg "transient" || Contains msg "timeout" || Contains msg "connection refused".

Section do_.
Context {B A : Type} `{Breaker B}.
(** [json.Decoder.Decode(out)], from the value of [out] so far. *)
Variable decode : A -> raw -> res A.

(** The function [operation] of [do], after the request was sent. *)
Definition operation (zero : A) (r : httpReply) : res A :=
  match r with
  | NetError e => Err e
  | Reply code body =>
      if (code =? StatusTooManyRequests)%Z || (500 <=? code)%Z
      then Err (ErrNew ("transient api error: status " +:+ itoa code))
      else if (code =? StatusRequestTimeout)%Z || (code =? StatusGatewayTimeout)%Z
      then Err (ErrNew ("transient network timeout: status " +:+ itoa code))
      else if (400 <=? code)%Z
      then Err (ErrNew ("permanent api error: status " +:+ itoa code))
      else decode zero body
  end.

(** The attempts that are left, the [i]-th next.  [reply i] is what the [i]-th
    request would get, [at_ i] its instant, [cancel i] tells that the context
    ends while waiting after it.  Besides the result, the number of requests
    sent. *)
Fixpoint doLoop (zero : A) (at_ : nat -> Z) (reply : nat -> httpReply) (cancel : nat -> option goerr)
  (left i : nat) (b : option B) : option B * nat * res A :=
  let '(b', sent, r) :=
    match b with
    | Some cb =>
        let '(cb', n, r) := Execute (at_ i) cb (fun n => (S n, operation zero (reply i))) 0 in
        (Some cb', n, r)
    | None => (None, 1, operation zero (reply i))
    end in
  match r with
  | Ok a => (b', sent, Ok a)
  | Err e =>
      if negb (isTransient e) then (b', sent, Err e)
      else match left with
           | 0 => (b', sent, Err e)
           | S left' =>
               match cancel i with
               | Some ce => (b', sent, Err ce)
               | None =>
                   let '(b'', n, r') := doLoop zero at_ reply cancel left' (S i) b' in
                   (b'', sent + n, r')
               end
           end
  end.

(** [do]: with a negative number of retries the loop body never runs and the
    error is nil. *)
Definition do_ (zero : A) (at_ : nat -> Z) (reply : nat -> httpReply) (cancel : nat -> option goerr)
  (retryMax : Z) (b : option B) : option B * nat * res A :=
  if (retryMax <? 0)%Z then (b, 0, Ok zero)
  else doLoop zero at_ reply cancel (Z.to_nat retryMax) 0 b.
End do_.

(** ** Policy decisions *)

Record EvaluationResponse := mkEvaluationResponse { Allowed : bool; Reason : string }.

Definition upd_EvaluationResponse (k : string) (r : EvaluationResponse) (j : json) : res EvaluationResponse :=
  if key_is "allowed" k then b <-? dec_bool (Allowed r) j; Ok (mkEvaluationResponse b (Reason r))
  else if key_is "reason" k then s <-? dec_string (Reason r) j; Ok (mkEvaluationResponse (Allowed r) s)
  else Ok r.

Definition noResponse : EvaluationResponse := mkEvaluationResponse false "".

Definition decisionKey (orgID subjectID action resource : string) : string :=
  orgID +:+ (":" +:+ (subjectID +:+ (":" +:+ (action +:+ (":" +:+ resource))))).

Section allow.
Context {B : Type} `{Breaker B}.

(** [Allow]: [now] is the look-up, [tSet] the end of the request; the error it
    returns is always nil.  Besides, the number of requests sent. *)
Definition Allow (now tSet : Z) (at_ : nat -> Z) (reply : nat -> httpReply) (cancel : nat -> option goerr)
  (c : Client) (subjectID action resource : string) (cache : localCache) (b : option B)
  : localCache * option B * nat * bool :=
  let key := decisionKey (clOrg c) subjectID action resource in
  match GetOrStale now key cache with
  | Some v => (cache, b, 0, v)
  | None =>
      match do_ (unmarshal_struct upd_EvaluationResponse) noResponse at_ reply cancel (clRetryMax c) b with
      | (b', n, Err _) => (cache, b', n, clFailOpen c)
      | (b', n, Ok resp) => (cacheSet tSet key (Allowed resp) cache, b', n, Allowed resp)
      end
  end.
End allow.

(** ** Properties *)

Section do_properties.
Context {B A : Type} `{Breaker B}.
Variable decode : A -> raw -> res A.
Variable zero : A.
Variable at_ : nat -> Z.
Variable reply : nat -> httpReply.
Variable cancel : nat -> option goerr.

Lemma Execute_count (now : Z) (cb cb' : B) (op : res A) n r :
  Execute now cb (fun n => (S n, op)) 0 = (cb', n, r) ->
  n <= 1 /\ ((n = 1 /\ r = op) \/ (n = 0 /\ exists e, r = Err e)).
Proof.
  unfold Execute. destruct (beforeRequest now cb) as [cb1 [e|]]; intros [= _ <- <-]; split; try lia; eauto.
Qed.

(** The attempts: success comes from a reply, and all the attempts before it
    failed with transient errors. *)
Lemma doLoop_spec left i b b' sent r :
  doLoop decode zero at_ reply cancel left i b = (b', sent, r) ->
  sent <= S left /\
  forall a, r = Ok a -> exists k, i <= k <= i + left /\ operation decode zero (reply k) = Ok a.
Proof.
  revert i b b' sent r. induction left as [|left IH]; intros i b b' sent r; cbn [doLoop].
  all: set (first := match b with Some cb => _ | None => _ end).
  all: assert (Hf : first.1.2 <= 1 /\ forall a, first.2 = Ok a -> operation decode zero (reply i) = Ok a);
    [unfold first; destruct b as [cb|]; [|by simpl];
     destruct (Execute _ _ _ _) as [[cb' n] r0] eqn:Ex;
     apply Execute_count in Ex as [Hn Hr]; simpl; split; [done|]; intros a ->;
     destruct Hr as [[_ ->]|[_ [e He]]]; [done|discriminate]|].
  all: destruct first as [[b1 n] [a|e]]; simpl in Hf; destruct Hf as [Hn Hf].
  - intros [= _ <- <-]. split; [done|]. intros a' [= <-]. exists i. split; [lia|auto].
  - destruct (negb (isTransient e)); intros [= _ <- <-]; by split; [lia|].
  - intros [= _ <- <-]. split; [lia|]. intros a' [= <-]. exists i. split; [lia|auto].
  - destruct (negb (isTransient e)); [intros [= _ <- <-]; by split; [lia|]|].
    destruct (cancel i); [intros [= _ <- <-]; by split; [lia|]|].
    destruct (doLoop _ _ _ _ _ left (S i) b1) as [[b2 n2] r2] eqn:Ed. intros [= _ <- <-].
    apply IH in Ed as [Hs Hr]. split; [lia|]. intros a Ha. destruct (Hr a Ha) as (k & Hk & Ho).
    exists k. split; [lia|done].
Qed.

Lemma do_spec retryMax b b' sent r :
  do_ decode zero at_ reply cancel retryMax b = (b', sent, r) ->
  (Z.of_nat sent <= Z.max 0 (retryMax + 1))%Z /\
  forall a, r = Ok a ->
    (exists k, operation decode zero (reply k) = Ok a) \/ ((retryMax < 0)%Z /\ a = zero).
Proof.
  unfold do_. destruct (retryMax <? 0)%Z eqn:E; bool_to_prop.
  - intros [= _ <- <-]. split; [lia|]. intros a [= <-]. auto.
  - intros [Hs Hr]%doLoop_spec. split; [lia|]. intros a Ha. destruct (Hr a Ha) as (k & _ & Hk). eauto.
Qed.
End do_properties.

Section allow_properties.
Context {B : Type} `{Breaker B}.
Variable c : Client.

(** A permission the server gave for a cache key: the instant it was noted. *)
Record grant := mkGrant { grAt : Z; grKey : string }.

(** The reply allows. *)
Definition grants (r : httpReply) : Prop :=
  exists resp, operation (unmarshal_struct upd_EvaluationResponse) noResponse r = Ok resp /\ Allowed resp = true.

(** The calls of [Allow] and the passes of the eviction loop, in any order. *)
Inductive sdk_trace : Z -> list grant -> localCache -> Prop :=
| sdk_start now ttl : sdk_trace now [] (newLocalCache ttl)
| sdk_evict now now' gs cache : sdk_trace now gs cache -> (now <= now')%Z -> sdk_trace now' gs (evict now' cache)
| sdk_served now t tSet at_ reply cancel s a r gs cache cache' b b' n v :
    sdk_trace now gs cache -> (now <= t <= tSet)%Z ->
    Allow t tSet at_ reply cancel c s a r cache b = (cache', b', n, v) ->
    v = false \/ GetOrStale t (decisionKey (clOrg c) s a r) cache <> None ->
    sdk_trace tSet gs cache'
| sdk_granted now t tSet at_ reply cancel s a r gs cache cache' b b' n k :
    sdk_trace now gs cache -> (now <= t <= tSet)%Z ->
    Allow t tSet at_ reply cancel c s a r cache b = (cache', b', n, true) ->
    GetOrStale t (decisionKey (clOrg c) s a r) cache = None -> grants (reply k) ->
    sdk_trace tSet (mkGrant tSet (decisionKey (clOrg c) s a r) :: gs) cache'.

Definition entries_ok (now : Z) (gs : list grant) (cache : localCache) : Prop :=
  forall key e, lcData cache !! key = Some e -> ceValue e = true ->
    exists t, In (mkGrant t key) gs /\ (t <= now)%Z /\ ceExpiresAt e = (t + lcTTL cache)%Z.

Lemma Allow_cases t tSet at_ reply cancel s a r cache cache' b b' n v :
  Allow t tSet at_ reply cancel c s a r cache b = (cache', b', n, v) ->
  let key := decisionKey (clOrg c) s a r in
  (exists e, lcData cache !! key = Some e /\ ceValue e = v /\ (t < ceExpiresAt e + gracePeriod)%Z /\
     cache' = cache /\ n = 0) \/
  (GetOrStale t key cache = None /\
   ((cache' = cache /\ v = clFailOpen c) \/
    (exists resp, v = Allowed resp /\ cache' = cacheSet tSet key v cache /\
       ((exists k, operation (unmarshal_struct upd_EvaluationResponse) noResponse (reply k) = Ok resp) \/
        ((clRetryMax c < 0)%Z /\ resp = noResponse))))).
Proof.
  intros Ha key. unfold Allow in Ha. fold key in Ha.
  destruct (GetOrStale t key cache) as [v0|] eqn:Eg.
  - injection Ha as <- _ <- <-. left. unfold GetOrStale in Eg.
    destruct (lcData cache !! key) as [e|]; [|done]. exists e.
    assert (0 < gracePeriod)%Z by (vm_compute; done).
    destruct (t <? ceExpiresAt e)%Z eqn:E1; [|destruct (t <? ceExpiresAt e + gracePeriod)%Z eqn:E2];
      simplify_eq; bool_to_prop; split_and!; try done; lia.
  - right. split; [done|]. destruct (do_ _ _ _ _ _ _ b) as [[b1 n1] [resp|e]] eqn:Ed;
      injection Ha as <- _ <- <-; [right|by left].
    exists resp. split_and!; [done|done|]. apply do_spec in Ed as [_ Hd]. by apply Hd.
Qed.

(** When failing closed, a positive answer that was not served by the cache
    was given by the server during the call: every call is a step of
    [sdk_trace]. *)
Lemma Allow_true_miss t tSet at_ reply cancel s a r cache cache' b b' n :
  clFailOpen c = false ->
  Allow t tSet at_ reply cancel c s a r cache b = (cache', b', n, true) ->
  GetOrStale t (decisionKey (clOrg c) s a r) cache = None ->
  exists k, grants (reply k).
Proof.
  intros Hf Ha Hg. apply Allow_cases in Ha as [(e & Hl & _ & Ht & _)|[_ Hc]].
  - exfalso. unfold GetOrStale in Hg. rewrite Hl in Hg.
    destruct (t <? ceExpiresAt e)%Z; [done|]. by rewrite (proj2 (Z.ltb_lt _ _) Ht) in Hg.
  - destruct Hc as [[_ Hv]|(resp & Hv & _ & [[k Hk]|[_ ->]])]; [congruence| |done].
    exists k, resp. done.
Qed.

Lemma sdk_trace_inv now gs cache : clFailOpen c = false -> sdk_trace now gs cache -> entries_ok now gs cache.
Proof.
  intros Hf. induction 1 as [now ttl|now now' gs cache _ IH Hle
    |now t tSet at_ reply cancel s a r gs cache cache' b b' n v _ IH Ht Ha Hv
    |now t tSet at_ reply cancel s a r gs cache cache' b b' n k _ IH Ht Ha Hg Hk].
  - intros key e Hl. simpl in Hl. by rewrite lookup_empty in Hl.
  - intros key e [Hl _]%map_lookup_filter_Some Hv. destruct (IH key e Hl Hv) as (t & Hin & Hn & He).
    exists t. split; [done|]. split; [lia|done].
  - intros key e Hl Hval.
    assert (Hold : lcData cache !! key = Some e -> exists t0, In (mkGrant t0 key) gs /\ (t0 <= tSet)%Z /\
              ceExpiresAt e = (t0 + lcTTL cache)%Z).
    { intros Hl0. destruct (IH key e Hl0 Hval) as (t0 & Hin & Hn & He).
      exists t0. split; [done|]. split; [lia|done]. }
    apply Allow_cases in Ha as [(e0 & _ & _ & _ & -> & _)|[Hg [[-> _]|(resp & -> & -> & _)]]]; auto.
    destruct Hv as [Hv|Hv]; [|done]. simpl in Hl. apply lookup_insert_Some in Hl as [[_ <-]|[_ Hl]]; [|auto].
    simpl in Hval. congruence.
  - intros key e Hl Hval. apply Allow_cases in Ha as [(e0 & Hl0 & _ & Ht0 & _)|[_ Hc]].
    { exfalso. unfold GetOrStale in Hg. rewrite Hl0 in Hg.
      destruct (t <? ceExpiresAt e0)%Z; [done|]. by rewrite (proj2 (Z.ltb_lt _ _) Ht0) in Hg. }
    destruct Hc as [[_ Hv]|(resp & Hv & -> & _)]; [congruence|].
    simpl in Hl. apply lookup_insert_Some in Hl as [[<- <-]|[_ Hl]].
    + exists tSet. split; [by left|]. simpl. split; [lia|done].
    + destruct (IH key e Hl Hval) as (t0 & Hin & Hn & He). exists t0. split; [by right|]. split; [lia|done].
Qed.

(** C35: Decisions of the client library are fail closed and boundedly stale.
    Unless configured to fail open, [Allow] answers true only when the server
    allowed during the call, or when it had allowed for the same cache key
    less than the cache's lifetime and sixty seconds before - for that key, so
    possibly for another question with the same one ([decisionKey_ambiguous]);
    network errors, error statuses, exhausted retries and an open breaker deny.
    At most [retryMax + 1] requests are sent. *)
Theorem Allow_justified now t tSet at_ reply cancel s a r gs cache cache' b b' n v :
  clFailOpen c = false -> sdk_trace now gs cache -> (now <= t)%Z ->
  Allow t tSet at_ reply cancel c s a r cache b = (cache', b', n, v) ->
  (v = true ->
     (exists k, grants (reply k)) \/
     (exists t0, In (mkGrant t0 (decisionKey (clOrg c) s a r)) gs /\
        (t0 <= t < t0 + lcTTL cache + gracePeriod)%Z)) /\
  (Z.of_nat n <= Z.max 0 (clRetryMax c + 1))%Z.
Proof.
  intros Hf Htr Hle Ha. pose proof (sdk_trace_inv _ _ _ Hf Htr) as Hinv. split.
  - intros ->. pose proof Ha as Hc. apply Allow_cases in Hc as [(e & Hl & Hval & Ht & _ & _)|[Hg _]].
    + right. destruct (Hinv _ e Hl Hval) as (t0 & Hin & Hn & He). exists t0. split; [done|]. lia.
    + left. by eapply Allow_true_miss.
  - unfold Allow in Ha. destruct (GetOrStale _ _ _); [injection Ha as _ _ <- _; lia|].
    destruct (do_ _ _ _ _ _ _ b) as [[b1 n1] [resp|e]] eqn:Ed; injection Ha as _ _ <- _;
      by apply do_spec in Ed as [? _].
Qed.
End allow_properties.

(** The cache answers before the server is asked, stale entries included: in
    the minute after its expiry a decision is served although the server
    could be reached. *)
Lemma stale_before_request {B} `{Breaker B} c t tSet at_ reply cancel s a r cache (b : option B) e :
  lcData cache !! decisionKey (clOrg c) s a r = Some e ->
  (ceExpiresAt e <= t < ceExpiresAt e + gracePeriod)%Z ->
  Allow t tSet at_ reply cancel c s a r cache b = (cache, b, 0, ceValue e).
Proof.
  intros Hl Ht. unfold Allow, GetOrStale. rewrite Hl.
  rewrite (proj2 (Z.ltb_ge _ _)), (proj2 (Z.ltb_lt _ _)) by lia. done.
Qed.

(** Two different questions with one cache key. *)
Example decisionKey_ambiguous :
  decisionKey "o" "alice" "read:doc" "1" = decisionKey "o" "alice" "read" "doc:1".
Proof. reflexivity. Qed.

(** The client library and the policy service disagree on the reply: the
    service's successful answer has an "effect" and no "allowed" member, so
    whatever it decided, the client reads it as a denial, and caches that. *)
Theorem policy_reply_denies {B} `{Breaker B} c t tSet at_ reply cancel s a r cache (b b' : option B) cache' n v resp :
  GetOrStale t (decisionKey (clOrg c) s a r) cache = None -> (0 <= clRetryMax c)%Z ->
  (forall i, reply i = Reply StatusOK (Some (responseDoc resp))) -> b = None ->
  Allow t tSet at_ reply cancel c s a r cache b = (cache', b', n, v) ->
  v = false /\ n = 1 /\ cache' = cacheSet tSet (decisionKey (clOrg c) s a r) false cache.
Proof.
  intros Hg Hr Hreply -> Ha. unfold Allow in Ha. rewrite Hg in Ha. unfold do_ in Ha.
  rewrite (proj2 (Z.ltb_ge _ _)) in Ha by lia.
  assert (Hop : operation (unmarshal_struct upd_EvaluationResponse) noResponse (reply 0) = Ok noResponse)
    by (rewrite Hreply; reflexivity).
  destruct (Z.to_nat (clRetryMax c)); cbn [doLoop] in Ha; rewrite Hop in Ha; by injection Ha as <- _ <- <-.
Qed.

(** ** Witnesses *)

Definition exampleClient : Client := mkClient "org1" false 1.
Definition allowReply : httpReply := Reply StatusOK (Some (JObj [("allowed", JBool true)])).
Definition outage : nat -> httpReply := fun _ => NetError (ErrNew "dial tcp: connection refused").
Definition never : nat -> option goerr := fun _ => None.

Definition allowAt (t : Z) (reply : nat -> httpReply) (cache : localCache) :=
  Allow (B := MiniBreaker) t t (fun _ => t) reply never exampleClient "u" "read" "doc" cache None.

Definition warmCache : localCache := (allowAt 0 (fun _ => allowReply) (newLocalCache Minute)).1.1.1.

(** During an outage, a minute and a half after the server allowed. *)
Lemma Allow_justified_witness :
  (allowAt (90 * Second) outage warmCache).2 = true /\
  ((exists k, grants (outage k)) \/
   (exists t0, In (mkGrant t0 (decisionKey "org1" "u" "read" "doc"))
                 [mkGrant 0 (decisionKey "org1" "u" "read" "doc")] /\
      (t0 <= 90 * Second < t0 + Minute + gracePeriod)%Z)).
Proof.
  assert (Htr : sdk_trace (B := MiniBreaker) exampleClient 0
                  [mkGrant 0 (decisionKey "org1" "u" "read" "doc")] warmCache).
  { eapply (sdk_granted exampleClient 0 0 0 (fun _ => 0%Z) (fun _ => allowReply) never "u" "read" "doc" []
              (newLocalCache Minute) _ None None 1 0);
      [apply sdk_start|lia|vm_compute; reflexivity|reflexivity|].
    by eexists. }
  split; [vm_compute; reflexivity|].
  destruct (Allow_justified (B := MiniBreaker) exampleClient 0 (90 * Second) (90 * Second)
              (fun _ => 90 * Second)%Z outage never "u" "read" "doc" _ warmCache warmCache None None 0 true
              eq_refl Htr) as [Hv _]; [vm_compute; done|vm_compute; reflexivity|by apply Hv].
Defined.

Lemma policy_reply_denies_witness :
  (allowAt 0 (fun _ => Reply StatusOK (Some (responseDoc (mkEvaluateResponse "allow" None 1 "none" 2))))
     (newLocalCache Minute)).2 = false.
Proof.
  apply (policy_reply_denies (B := MiniBreaker) exampleClient 0 0 (fun _ => 0%Z)
           (fun _ => Reply StatusOK (Some (responseDoc (mkEvaluateResponse "allow" None 1 "none" 2)))) never
           "u" "read" "doc" (newLocalCache Minute) None None
           (cacheSet 0 (decisionKey "org1" "u" "read" "doc") false (newLocalCache Minute)) 1 _
           (mkEvaluateResponse "allow" None 1 "none" 2));
    [reflexivity|vm_compute; discriminate|done|done|vm_compute; reflexivity].
Defined.
