(* ===== verification/AuditChain.v ===== *)
(** The audit trail: services/audit/pkg/repository/repository.go and
    pkg/consumer/consumer.go.  The hash-chain and event collections are the
    state ([Audit]); [flush] is one batch of one consumer; the consumers of the
    seven topics interleave at their database operations ([chain_step]); a
    consumer's position in its partition is [Consumer]. *)

From S2P Require Import Prelude GoStrings Json.
From Stdlib Require Import Sorting.Sorted.

(** ** Data *)

(** A decoded event: [map[string]interface{}], not nil. *)
Notation event := (gmap string json) (only parsing).

(** A document of [hash_chains]. *)
Record ChainHead := mkChainHead { chHash : string; chSequence : Z }.

(** [hash_chains]: the documents of each tenant, in their natural order.  No
    unique index keeps a tenant to one document. *)
Record Audit := mkAudit {
  hash_chains : gmap string (list ChainHead);
  audit_events : list event;
}.

Definition chain_docs (a : Audit) (orgID : string) : list ChainHead := default [] (hash_chains a !! orgID).

Definition set_chains (c : gmap string (list ChainHead)) (a : Audit) : Audit := mkAudit c (audit_events a).
Definition set_events (l : list event) (a : Audit) : Audit := mkAudit (hash_chains a) l.

(** [x, _ := event[k].(string)]. *)
Definition event_string (e : event) (k : string) : string :=
  match e !! k with Some (JStr s) => s | _ => "" end.

(** ** Repository *)

(** An operation fails before or after it took effect. *)
Definition opFault : Type := option (goerr * bool).

Definition zeroHead : ChainHead := mkChainHead "" 0.

(** [FindOneAndUpdate] with [$inc], [$setOnInsert] and upsert: the first
    document of the tenant is updated, and without one a document is inserted.
    [missed]: the query part ran while there was none, so that a document is
    inserted whatever other upserts have inserted since. *)
Definition ReserveSequence (orgID : string) (count : Z) (missed : bool) (fault : opFault) (a : Audit)
  : Audit * res (Z * string) :=
  let '(new, docs') :=
    match chain_docs a orgID, missed with
    | d :: ds, false =>
        let new := mkChainHead (chHash d) (chSequence d + count) in (new, new :: ds)
    | ds, _ => let new := mkChainHead "" count in (new, ds ++ [new])
    end in
  let a' := set_chains (<[orgID := docs']> (hash_chains a)) a in
  match fault with
  | None => (a', Ok ((chSequence new - count)%Z, chHash new))
  | Some (e, applied) => ((if applied then a' else a), Err e)
  end.

(** The first document with the hash is given the new one. *)
Fixpoint swap_hash (prevHash newHash : string) (docs : list ChainHead) : list ChainHead :=
  match docs with
  | [] => []
  | d :: ds =>
      if chHash d =s? prevHash then mkChainHead newHash (chSequence d) :: ds
      else d :: swap_hash prevHash newHash ds
  end.

(** [UpdateOne] on [{org_id, hash: prevHash}]. *)
Definition UpdateHashChainCAS (orgID prevHash newHash : string) (fault : opFault) (a : Audit)
  : Audit * res bool :=
  let hit := existsb (fun d => chHash d =s? prevHash) (chain_docs a orgID) in
  let a' := if hit
            then set_chains (<[orgID := swap_hash prevHash newHash (chain_docs a orgID)]> (hash_chains a)) a
            else a in
  match fault with
  | None => (a', Ok hit)
  | Some (e, applied) => ((if applied then a' else a), Err e)
  end.

Definition ErrDuplicateKey : goerr := ErrNew "E11000 duplicate key error".

(** The unique sparse index on [event_id]. *)
Definition duplicate (stored : list event) (e : event) : bool :=
  match e !! "event_id" with
  | None => false
  | Some j => existsb (fun e' => bool_decide (e' !! "event_id" = Some j)) stored
  end.

(** Ordered [BulkWrite] of [InsertOne]s: it stops at the first failure;
    [budget] is a failure of the connection after that many inserts. *)
Fixpoint BulkWrite (events : list event) (budget : option (nat * goerr)) (stored : list event)
  : list event * option goerr :=
  match events with
  | [] => (stored, None)
  | e :: es =>
      match budget with
      | Some (0, err) => (stored, Some err)
      | _ =>
          if duplicate stored e then (stored, Some ErrDuplicateKey)
          else BulkWrite es (match budget with Some (S n, err) => Some (n, err) | b => b end)
                 (stored ++ [e])
      end
  end.

(** ** The consumer *)

Section consumer.
(** HMAC-SHA256 in hexadecimal, of key and data. *)
Variable hmac : string -> string -> string.
(** [AUDIT_SECRET_KEY]. *)
Variable secretKey : string.
(** [fmt.Sprintf("%v", x)] of a number, array or object. *)
Variable fmt_other : json -> string.

Definition fmt_v (v : option json) : string :=
  match v with
  | None | Some JNull => "<nil>"
  | Some (JStr s) => s
  | Some (JBool true) => "true"
  | Some (JBool false) => "false"
  | Some j => fmt_other j
  end.

(** The data that is authenticated. *)
Definition eventData (e : event) (prev : string) : string :=
  fmt_v (e !! "event_id") +:+ ("|" +:+ prev).

(** Step 2 of [flush]: sequence numbers and hashes; the result is the updated
    events and the last hash. *)
Fixpoint computeChain (seq : Z) (prev : string) (events : list event) : list event * string :=
  match events with
  | [] => ([], prev)
  | e :: es =>
      let e1 := <["sequence" := JNum seq]> e in
      if secretKey =s? "" then
        let '(es', h) := computeChain (seq + 1) prev es in (e1 :: es', h)
      else
        let currentHash := hmac secretKey (eventData e1 prev) in
        let '(es', h) := computeChain (seq + 1) currentHash es in
        (<["integrity_hash" := JStr currentHash]> e1 :: es', h)
  end.

Record attemptFaults := mkAttemptFaults {
  afReserve : opFault;
  afCtxDone : bool;           (* [ctx.Done()] during the pause *)
  afCAS : opFault;
}.

(** The loop of [flush], with no other consumer in between (their
    interleavings are [chain_step]); [None] when the batch is given up. *)
Fixpoint attempts (n : nat) (f : nat -> attemptFaults) (orgID : string) (events : list event) (a : Audit)
  : Audit * option (list event) :=
  match n with
  | 0 => (a, None)
  | S n' =>
      match ReserveSequence orgID (Z.of_nat (length events)) false (afReserve (f n)) a with
      | (a1, Err _) => if afCtxDone (f n) then (a1, None) else attempts n' f orgID events a1
      | (a1, Ok (startSeq, prevHash)) =>
          let '(events', currentHash) := computeChain startSeq prevHash events in
          if negb (secretKey =s? "") && negb (currentHash =s? "") then
            match UpdateHashChainCAS orgID prevHash currentHash (afCAS (f n)) a1 with
            | (a2, Err _) => (a2, None)
            | (a2, Ok false) => attempts n' f orgID events' a2
            | (a2, Ok true) => (a2, Some events')
            end
          else (a1, Some events')
      end
  end.

(** Decoding of the batch: unparsable messages are skipped; [None] is the
    panic of the assignment to a nil map, when a message is [null].
    [timestamp] is the document of [time.Now()]. *)
Fixpoint decodeBatch (timestamp : json) (batch : list raw) : option (list event) :=
  match batch with
  | [] => Some []
  | m :: ms =>
      match unmarshal_map m with
      | Err _ => decodeBatch timestamp ms
      | Ok None => None
      | Ok (Some g) =>
          match decodeBatch timestamp ms with
          | Some es => Some (<["timestamp" := timestamp]> g :: es)
          | None => None
          end
      end
  end.

Inductive flushOutcome := FlushCommitted | FlushDropped | FlushPanic.

Record flushFaults := mkFlushFaults {
  ffAttempt : nat -> attemptFaults;
  ffBulk : option (nat * goerr);
  ffCommit : option goerr;        (* only logged *)
}.

Definition maxFlushAttempts : nat := 5.

Definition flush (timestamp : json) (f : flushFaults) (batch : list raw) (a : Audit)
  : Audit * flushOutcome :=
  match decodeBatch timestamp batch with
  | None => (a, FlushPanic)
  | Some [] => (a, FlushDropped)
  | Some ((e0 :: _) as events) =>
      let orgID := event_string e0 "org_id" in
      if orgID =s? "" then (a, FlushDropped)
      else match attempts maxFlushAttempts (ffAttempt f) orgID events a with
      | (a1, None) => (a1, FlushDropped)
      | (a1, Some events') =>
          match BulkWrite events' (ffBulk f) (audit_events a1) with
          | (stored, Some _) => (set_events stored a1, FlushDropped)
          | (stored, None) =>
              (set_events stored a1,
               match ffCommit f with None => FlushCommitted | Some _ => FlushDropped end)
          end
      end
  end.

(** ** Interleaved consumers *)

(** What a consumer is doing between two database operations. *)
Inductive phase :=
| Idle
| Retry (orgID : string) (events : list event)
| Upserting (orgID : string) (events : list event)   (* the upsert found no document *)
| Reserved (orgID : string) (events : list event) (startSeq : Z) (prevHash : string)
| Chained (orgID : string) (events : list event).

(** An entry of the chain of a tenant, ghost: what was authenticated. *)
Record entry := mkEntry { enData : string; enSeq : Z; enHash : string }.

Definition entry_of (e : event) : entry :=
  mkEntry (fmt_v (e !! "event_id")) 
    (match e !! "sequence" with Some (JNum z) => z | _ => 0%Z end) (event_string e "integrity_hash").

(** State: the collections, the phase of each consumer and, ghost, the
    entries of each tenant in the order of the successful updates. *)
Record chainState := mkChainState {
  csAudit : Audit;
  csPhase : nat -> phase;
  csLog : string -> list entry;
}.

Definition set_phase (i : nat) (p : phase) (f : nat -> phase) : nat -> phase :=
  fun j => if j =? i then p else f j.
Definition extend_log (org : string) (l : list entry) (f : string -> list entry) : string -> list entry :=
  fun o => if o =s? org then f o ++ l else f o.

(** Who may run the upsert: a consumer at the start of an attempt, in one
    step, or one whose query found no document before. *)
Definition reserving (missed : bool) (p : phase) (org : string) (events : list event) : Prop :=
  if missed then p = Upserting org events else p = Idle \/ p = Retry org events.

Inductive chain_step : chainState -> chainState -> Prop :=
| cs_miss a ph lg i org events :
    (ph i = Idle \/ ph i = Retry org events) -> org <> "" -> events <> [] -> chain_docs a org = [] ->
    chain_step (mkChainState a ph lg) (mkChainState a (set_phase i (Upserting org events) ph) lg)
| cs_reserve a ph lg i org events missed a' start prev :
    reserving missed (ph i) org events -> org <> "" -> events <> [] ->
    ReserveSequence org (Z.of_nat (length events)) missed None a = (a', Ok (start, prev)) ->
    chain_step (mkChainState a ph lg)
      (mkChainState a' (set_phase i (Reserved org events start prev) ph) lg)
| cs_reserve_lost a ph lg i org events missed e applied a' x :
    reserving missed (ph i) org events -> org <> "" -> events <> [] ->
    ReserveSequence org (Z.of_nat (length events)) missed (Some (e, applied)) a = (a', x) ->
    chain_step (mkChainState a ph lg) (mkChainState a' (set_phase i (Retry org events) ph) lg)
| cs_cas a ph lg i org events start prev events' hash a' :
    ph i = Reserved org events start prev ->
    computeChain start prev events = (events', hash) -> hash <> "" ->
    UpdateHashChainCAS org prev hash None a = (a', Ok true) ->
    chain_step (mkChainState a ph lg)
      (mkChainState a' (set_phase i (Chained org events') ph) (extend_log org (map entry_of events') lg))
| cs_cas_mismatch a ph lg i org events start prev events' hash a' :
    ph i = Reserved org events start prev ->
    computeChain start prev events = (events', hash) -> hash <> "" ->
    UpdateHashChainCAS org prev hash None a = (a', Ok false) ->
    chain_step (mkChainState a ph lg) (mkChainState a' (set_phase i (Retry org events') ph) lg)
| cs_cas_lost a ph lg i org events start prev events' hash a' e x :
    ph i = Reserved org events start prev ->
    computeChain start prev events = (events', hash) -> hash <> "" ->
    UpdateHashChainCAS org prev hash (Some (e, false)) a = (a', x) ->
    chain_step (mkChainState a ph lg) (mkChainState a' (set_phase i Idle ph) lg)
| cs_cas_unknown a ph lg i org events start prev events' hash a' :
    (* applied, but the acknowledgement is lost: the batch is given up *)
    ph i = Reserved org events start prev ->
    computeChain start prev events = (events', hash) -> hash <> "" ->
    UpdateHashChainCAS org prev hash None a = (a', Ok true) ->
    chain_step (mkChainState a ph lg)
      (mkChainState a' (set_phase i Idle ph) (extend_log org (map entry_of events') lg))
| cs_bulk a ph lg i org events budget stored r :
    ph i = Chained org events ->
    BulkWrite events budget (audit_events a) = (stored, r) ->
    chain_step (mkChainState a ph lg) (mkChainState (set_events stored a) (set_phase i Idle ph) lg)
| cs_drop a ph lg i :
    chain_step (mkChainState a ph lg) (mkChainState a (set_phase i Idle ph) lg).

(** ** The chain property *)

(** Each entry authenticates its data and the previous hash. *)
Fixpoint chained (prev : string) (l : list entry) : Prop :=
  match l with
  | [] => True
  | x :: l' => enHash x = hmac secretKey (enData x +:+ ("|" +:+ prev)) /\ chained (enHash x) l'
  end.

Fixpoint last_hash (prev : string) (l : list entry) : string :=
  match l with
  | [] => prev
  | x :: l' => last_hash (enHash x) l'
  end.

(** ** Chain computation *)

Hypothesis secretKey_set : secretKey <> "".

Lemma computeChain_spec events : forall start prev events' h,
  computeChain start prev events = (events', h) ->
  chained prev (map entry_of events') /\ h = last_hash prev (map entry_of events') /\
  length events' = length events /\
  map enSeq (map entry_of events') = map (fun i => start + Z.of_nat i)%Z (seq 0 (length events)).
Proof.
  apply String.eqb_neq in secretKey_set as Hk.
  induction events as [|e es IH]; intros start prev events' h; cbn [computeChain].
  - intros [= <- <-]. done.
  - rewrite Hk. destruct (computeChain _ _ es) as [es' h'] eqn:E. intros [= <- <-].
    destruct (IH _ _ _ _ E) as (Hc & -> & Hl & Hs). cbn [map chained length].
    assert (He : entry_of (<["integrity_hash" := JStr (hmac secretKey (eventData (<["sequence" := JNum start]> e) prev))]>
                   (<["sequence" := JNum start]> e)) =
                 mkEntry (fmt_v (e !! "event_id")) start
                   (hmac secretKey (fmt_v (e !! "event_id") +:+ ("|" +:+ prev)))).
    { unfold entry_of, event_string, eventData.
      rewrite lookup_insert_eq, !(lookup_insert_ne _ "integrity_hash"), lookup_insert_eq,
        !(lookup_insert_ne _ "sequence") by done. done. }
    rewrite He. cbn [enHash enSeq enData].
    assert (Hh : hmac secretKey (eventData (<["sequence" := JNum start]> e) prev) =
                 hmac secretKey (fmt_v (e !! "event_id") +:+ ("|" +:+ prev))).
    { unfold eventData. by rewrite lookup_insert_ne. }
    rewrite Hh in *. split; [by split|]. split; [done|]. split; [by rewrite Hl|].
    rewrite Hs. cbn [seq map]. rewrite <- seq_shift, map_map. f_equal; [lia|]. apply map_ext. intros i. lia.
Qed.

Lemma chained_app prev l1 l2 :
  chained prev (l1 ++ l2) <-> chained prev l1 /\ chained (last_hash prev l1) l2.
Proof. revert prev. induction l1 as [|x l1 IH]; intros prev; simpl; [|rewrite IH]; naive_solver. Qed.

Lemma last_hash_app prev l1 l2 : last_hash prev (l1 ++ l2) = last_hash (last_hash prev l1) l2.
Proof. revert prev. induction l1 as [|x l1 IH]; intros prev; simpl; auto. Qed.

(** ** The invariant of one tenant *)

(** The document that an operation on a tenant finds. *)
Definition head_of (a : Audit) (org : string) : ChainHead := default zeroHead (head (chain_docs a org)).

Definition seqs_below (n : Z) (l : list entry) : Prop := Forall (fun x => (enSeq x < n)%Z) l.

(** Where a reservation stands: after the first [pos] entries of the chain. *)
Definition reservation_ok (a : Audit) (org : string) (lg : list entry) (events : list event)
  (start : Z) (prev : string) : Prop :=
  (0 <= start)%Z /\ (start + Z.of_nat (length events) <= chSequence (head_of a org))%Z /\ events <> [] /\
  exists pos, pos <= length lg /\ prev = last_hash "" (take pos lg) /\ seqs_below start (take pos lg).

(** The hashes of a chain, from the empty one. *)
Definition hashes (lg : list entry) : list string := "" :: map enHash lg.

Definition tenant_inv (st : chainState) (org : string) : Prop :=
  let lg := csLog st org in
  chained "" lg /\ chHash (head_of (csAudit st) org) = last_hash "" lg /\
  (0 <= chSequence (head_of (csAudit st) org))%Z /\
  seqs_below (chSequence (head_of (csAudit st) org)) lg /\
  StronglySorted Z.lt (map enSeq lg) /\
  (forall i events start prev, csPhase st i = Reserved org events start prev ->
     reservation_ok (csAudit st) org lg events start prev).

Lemma last_hash_lookup lg pos : pos <= length lg -> hashes lg !! pos = Some (last_hash "" (take pos lg)).
Proof.
  unfold hashes. assert (Hg : forall lg pos h, pos <= length lg ->
    (h :: map enHash lg) !! pos = Some (last_hash h (take pos lg))).
  { clear. induction lg as [|x lg IH]; intros [|pos] h Hp; simpl in *; try done; [lia|].
    apply IH. lia. }
  apply Hg.
Qed.

(** With distinct hashes the head is the hash of the whole chain only. *)
Lemma reservation_current lg pos :
  NoDup (hashes lg) -> pos <= length lg ->
  last_hash "" lg = last_hash "" (take pos lg) -> pos = length lg.
Proof.
  intros Hn Hp He. apply (NoDup_lookup (hashes lg) pos (length lg) (last_hash "" lg)); [done| |].
  - by rewrite last_hash_lookup, He.
  - rewrite last_hash_lookup by done. by rewrite take_ge.
Qed.

Lemma seqs_range start n (l : list Z) :
  l = map (fun i => start + Z.of_nat i)%Z (seq 0 n) ->
  StronglySorted Z.lt l /\ Forall (fun z => (start <= z < start + Z.of_nat n)%Z) l.
Proof.
  intros ->. split.
  - generalize 0. induction n as [|n IH]; intros k; simpl; constructor; [apply IH|].
    apply Forall_forall. intros z. rewrite list_elem_of_In, in_map_iff.
    intros (i & <- & Hi%in_seq). lia.
  - apply Forall_forall. intros z. rewrite list_elem_of_In, in_map_iff.
    intros (i & <- & Hi%in_seq). lia.
Qed.

Lemma StronglySorted_append l1 l2 :
  StronglySorted Z.lt l1 -> StronglySorted Z.lt l2 ->
  (forall x y, In x l1 -> In y l2 -> (x < y)%Z) -> StronglySorted Z.lt (l1 ++ l2).
Proof.
  intros H1 H2 H12. induction H1 as [|x l1 H1 IH Hx]; simpl; [done|]. constructor.
  - apply IH. intros a b Ha Hb. apply H12; [by right|done].
  - apply Forall_app. split; [done|]. apply Forall_forall. intros y Hy%list_elem_of_In.
    apply H12; [by left|done].
Qed.


(** ** Preservation *)

Lemma reservation_mono a a' org lg events start prev :
  reservation_ok a org lg events start prev ->
  (chSequence (head_of a org) <= chSequence (head_of a' org))%Z ->
  reservation_ok a' org lg events start prev.
Proof. intros (H1 & H2 & H3 & H4) Hle. split; [done|]. split; [lia|]. done. Qed.

Lemma reservation_extend a org lg l events start prev :
  reservation_ok a org lg events start prev -> reservation_ok a org (lg ++ l) events start prev.
Proof.
  intros (H1 & H2 & H3 & pos & Hp & Hpr & Hb). repeat (split; [done|]).
  exists pos. rewrite length_app, take_app_le by done. split; [lia|done].
Qed.

(** A step that leaves the chain of [org] as it is. *)
Lemma tenant_inv_keep a ph lg a' ph' lg' org :
  tenant_inv (mkChainState a ph lg) org ->
  lg' org = lg org -> chHash (head_of a' org) = chHash (head_of a org) ->
  (chSequence (head_of a org) <= chSequence (head_of a' org))%Z ->
  (forall i events start prev, ph' i = Reserved org events start prev ->
     ph i = Reserved org events start prev \/ reservation_ok a' org (lg org) events start prev) ->
  tenant_inv (mkChainState a' ph' lg') org.
Proof.
  intros (H1 & H2 & H3 & H4 & H5 & H6) Hlg Hh Hs Hr. unfold tenant_inv in *. simpl in *.
  rewrite Hlg, Hh. split; [done|]. split; [done|]. split; [lia|]. split.
  { eapply Forall_impl; [exact H4|]. simpl. intros; lia. }
  split; [done|].
  intros i events start prev [Hi|Hi]%Hr; [|done]. eapply reservation_mono; [by eapply H6|done].
Qed.

Lemma chain_docs_insert a org org' ds :
  chain_docs (set_chains (<[org := ds]> (hash_chains a)) a) org' =
  if org' =s? org then ds else chain_docs a org'.
Proof.
  unfold chain_docs. simpl. destruct (org' =s? org) eqn:E; bool_to_prop.
  - subst. by rewrite lookup_insert_eq.
  - by rewrite lookup_insert_ne by congruence.
Qed.

Lemma swap_hash_length p h ds : length (swap_hash p h ds) = length ds.
Proof. induction ds as [|d ds IH]; simpl; [done|]. destruct (_ =s? _); simpl; by rewrite ?IH. Qed.

(** No operation removes a document. *)
Lemma ReserveSequence_docs org n missed fault a a' x o :
  ReserveSequence org n missed fault a = (a', x) ->
  length (chain_docs a o) <= length (chain_docs a' o) /\ audit_events a' = audit_events a.
Proof.
  unfold ReserveSequence. destruct (match chain_docs a org with [] => _ | _ => _ end) as [new docs'] eqn:E.
  assert (Hd : length (chain_docs a org) <= length docs').
  { destruct (chain_docs a org) as [|d ds], missed; injection E as <- <-; simpl; rewrite ?length_app; simpl; lia. }
  destruct fault as [[e [|]]|]; intros [= <- <-]; (split; [|done]); rewrite ?chain_docs_insert;
    destruct (o =s? org) eqn:Eo; bool_to_prop; subst; lia.
Qed.

Lemma CAS_docs org prev hash fault a a' x o :
  UpdateHashChainCAS org prev hash fault a = (a', x) ->
  length (chain_docs a' o) = length (chain_docs a o) /\ audit_events a' = audit_events a.
Proof.
  unfold UpdateHashChainCAS. destruct (existsb _ _), fault as [[e [|]]|]; intros [= <- <-]; split; try done;
    rewrite chain_docs_insert; destruct (o =s? org) eqn:Eo; bool_to_prop; subst; by rewrite ?swap_hash_length.
Qed.

Lemma ReserveSequence_fault org n missed fault a a' x :
  ReserveSequence org n missed fault a = (a', x) ->
  match x, fault with Ok _, None | Err _, Some _ => True | _, _ => False end.
Proof.
  unfold ReserveSequence. destruct (match chain_docs a org with [] => _ | _ => _ end) as [new docs'].
  by destruct fault as [[e ap]|]; intros [= _ <-].
Qed.

(** A tenant with one document after the reservation, or none. *)
Lemma ReserveSequence_head org n missed fault a a' x o :
  (0 <= n)%Z -> ReserveSequence org n missed fault a = (a', x) -> length (chain_docs a' o) <= 1 ->
  chHash (head_of a' o) = chHash (head_of a o) /\
  (chSequence (head_of a o) <= chSequence (head_of a' o))%Z /\
  (o = org -> forall start prev, x = Ok (start, prev) ->
     start = chSequence (head_of a org) /\ prev = chHash (head_of a org) /\
     chSequence (head_of a' org) = (start + n)%Z).
Proof.
  intros Hn. unfold ReserveSequence, head_of.
  destruct (match chain_docs a org with [] => _ | _ => _ end) as [new docs'] eqn:E.
  assert (Hd : length docs' <= 1 -> chHash new = chHash (default zeroHead (head (chain_docs a org))) /\
    chSequence new = (chSequence (default zeroHead (head (chain_docs a org))) + n)%Z /\ head docs' = Some new).
  { destruct (chain_docs a org) as [|d ds], missed; injection E as <- <-; simpl; rewrite ?length_app; simpl; [done..|lia|done]. }
  clear E. destruct fault as [[e [|]]|]; intros [= <- <-]; rewrite ?chain_docs_insert;
    destruct (o =s? org) eqn:Eo; bool_to_prop; subst; intros Hl; try (split; [done|]; split; [lia|done]).
  - destruct (Hd Hl) as (H1 & H2 & ->). simpl. rewrite H1, H2. split; [done|]. split; [lia|done].
  - destruct (Hd Hl) as (H1 & H2 & H3). rewrite H3. simpl. split; [done|]. split; [lia|].
    intros _ start prev [= <- <-]. rewrite ?String.eqb_refl, ?H3. simpl. split; [lia|]. split; [done|lia].
Qed.

Lemma CAS_ok org prev hash a a' :
  UpdateHashChainCAS org prev hash None a = (a', Ok true) ->
  (length (chain_docs a' org) <= 1 -> chHash (head_of a org) = prev /\
     head_of a' org = mkChainHead hash (chSequence (head_of a org))) /\
  (forall o, o <> org -> head_of a' o = head_of a o).
Proof.
  unfold UpdateHashChainCAS, head_of. destruct (existsb _ _) eqn:Eh; [|done]. intros [= <-]. split.
  - rewrite chain_docs_insert, String.eqb_refl, swap_hash_length.
    destruct (chain_docs a org) as [|d [|d' ds]]; simpl in *; [done| |lia].
    rewrite orb_false_r in Eh. rewrite Eh. simpl. bool_to_prop. done.
  - intros o Ho%String.eqb_neq. by rewrite chain_docs_insert, Ho.
Qed.

Lemma CAS_same org prev hash fault a a' x :
  UpdateHashChainCAS org prev hash fault a = (a', x) ->
  (x = Ok false /\ fault = None) \/ (exists e, fault = Some (e, false)) -> a' = a.
Proof.
  unfold UpdateHashChainCAS. intros Hc [[-> ->]|[e ->]]; [destruct (existsb _ _)|]; congruence.
Qed.

(** A successful update appends the batch to the chain of its tenant. *)
Lemma tenant_inv_cas a ph lg org events start prev events' hash a' i ph' :
  tenant_inv (mkChainState a ph lg) org -> NoDup (hashes (lg org)) -> length (chain_docs a' org) <= 1 ->
  ph i = Reserved org events start prev ->
  computeChain start prev events = (events', hash) ->
  UpdateHashChainCAS org prev hash None a = (a', Ok true) ->
  (forall j, ph' j = ph j \/ (j = i /\ (ph' j = Idle \/ ph' j = Chained org events'))) ->
  tenant_inv (mkChainState a' ph' (extend_log org (map entry_of events') lg)) org.
Proof.
  intros (H1 & H2 & H3 & H4 & H5 & H6) Hnd Hone Hi Hcc Hcas Hph. simpl in *.
  destruct (H6 _ _ _ _ Hi) as (Hs0 & Hs1 & Hne & pos & Hpos & Hprev & Hbelow).
  destruct (computeChain_spec _ _ _ _ _ Hcc) as (Hch & -> & Hlen & Hseq).
  destruct (CAS_ok _ _ _ _ _ Hcas) as [Hh _]. destruct (Hh Hone) as [Hhead Hall].
  assert (Hcur : pos = length (lg org)).
  { apply reservation_current; [done|done|]. by rewrite <- H2, Hhead, Hprev. }
  subst pos. rewrite take_ge in Hprev, Hbelow by done.
  destruct (seqs_range _ _ _ Hseq) as [Hsort Hrange].
  unfold tenant_inv. simpl. unfold extend_log. rewrite String.eqb_refl, Hall.
  simpl. rewrite map_app, last_hash_app, <- Hprev.
  split; [apply chained_app; by rewrite <- Hprev|]. split; [done|]. split; [done|]. split.
  { apply Forall_app. split; [done|]. apply Forall_forall. intros x Hx%list_elem_of_In.
    rewrite Forall_forall in Hrange. specialize (Hrange (enSeq x)).
    rewrite list_elem_of_In, in_map_iff in Hrange. specialize (Hrange (ex_intro _ x (conj eq_refl Hx))). lia. }
  split.
  { apply StronglySorted_append; [done|done|]. intros x y (u & <- & Hu)%in_map_iff Hy.
    rewrite Forall_forall in Hrange. unfold seqs_below in Hbelow. rewrite Forall_forall in Hbelow.
    apply list_elem_of_In in Hu, Hy. specialize (Hbelow u Hu). specialize (Hrange y Hy). simpl in *. lia. }
  intros j ev s p Hj. destruct (Hph j) as [E|[-> [E|E]]]; rewrite E in Hj; [|done|done].
  apply reservation_extend. eapply reservation_mono; [by eapply H6|]. by rewrite Hall.
Qed.

Lemma set_phase_cases i p ph j q :
  set_phase i p ph j = q -> (j = i /\ q = p) \/ (j <> i /\ ph j = q).
Proof. unfold set_phase. destruct (j =? i) eqn:E; intros <-; [left|right]; split; try done; by apply Nat.eqb_eq || by apply Nat.eqb_neq. Qed.

Lemma chain_step_log st st' org :
  chain_step st st' -> exists l, csLog st' org = csLog st org ++ l.
Proof.
  intros Hs. destruct Hs; simpl; try (exists []; by rewrite app_nil_r);
    unfold extend_log; (destruct (org =s? _); [by eexists|exists []; by rewrite app_nil_r]).
Qed.

Lemma hashes_prefix lg l : NoDup (hashes (lg ++ l)) -> NoDup (hashes lg).
Proof. unfold hashes. rewrite map_app. change (?a :: ?b ++ ?c) with ((a :: b) ++ c). by intros [? _]%NoDup_app. Qed.

(** A tenant that the invariant is about: at most one document, and no two
    hashes that collide. *)
Definition sound_tenant (st : chainState) (org : string) : Prop :=
  length (chain_docs (csAudit st) org) <= 1 /\ NoDup (hashes (csLog st org)).

(** Every stored event is an entry of some chain, and so is every event about
    to be stored. *)
Definition stored_ok (st : chainState) : Prop :=
  (forall e, In e (audit_events (csAudit st)) -> exists org, In (entry_of e) (csLog st org)) /\
  (forall i org events, csPhase st i = Chained org events -> forall e, In e events -> In (entry_of e) (csLog st org)).

Definition audit_inv (st : chainState) : Prop :=
  (forall org, sound_tenant st org -> tenant_inv st org) /\ stored_ok st.

Lemma BulkWrite_spec events : forall budget stored stored' r,
  BulkWrite events budget stored = (stored', r) ->
  exists k, stored' = stored ++ take k events /\ (r = None -> take k events = events).
Proof.
  induction events as [|e es IH]; intros budget stored stored' r; simpl.
  - intros [= <- <-]. exists 0. by rewrite app_nil_r.
  - assert (Hstep : forall b, (if duplicate stored e then (stored, Some ErrDuplicateKey)
                     else BulkWrite es b (stored ++ [e])) = (stored', r) ->
             exists k, stored' = stored ++ take k (e :: es) /\ (r = None -> take k (e :: es) = e :: es)).
    { intros b. destruct (duplicate stored e); [intros [= <- <-]; exists 0; by rewrite app_nil_r|].
      intros (k & -> & Hr)%IH. exists (S k). simpl. split; [by rewrite <- app_assoc|]. intros Hn. by rewrite Hr. }
    destruct budget as [[[|n] err]|]; [intros [= <- <-]; exists 0; by rewrite app_nil_r|apply Hstep|apply Hstep].
Qed.

Lemma extend_In org l lg o x : In x (lg o) -> In x (extend_log org l lg o).
Proof. unfold extend_log. destruct (o =s? org); [|done]. intros H. apply in_or_app. by left. Qed.

Lemma chain_step_docs st st' org :
  chain_step st st' -> length (chain_docs (csAudit st) org) <= length (chain_docs (csAudit st') org).
Proof.
  intros Hs. destruct Hs as [| ? ? ? ? ? ? ? ? ? ? ? ? ? Hr | ? ? ? ? ? ? ? ? ? ? ? ? ? ? Hr
    | ? ? ? ? ? ? ? ? ? ? ? ? ? ? Hr | ? ? ? ? ? ? ? ? ? ? ? ? ? ? Hr | ? ? ? ? ? ? ? ? ? ? ? ? ? ? ? ? Hr
    | ? ? ? ? ? ? ? ? ? ? ? ? ? ? Hr | |]; simpl; try done;
    first [by eapply ReserveSequence_docs|apply (CAS_docs _ _ _ _ _ _ _ org) in Hr as [-> _]; done].
Qed.

Lemma sound_tenant_back st st' org : chain_step st st' -> sound_tenant st' org -> sound_tenant st org.
Proof.
  intros Hs [H1 H2]. split.
  - pose proof (chain_step_docs _ _ org Hs). lia.
  - destruct (chain_step_log _ _ org Hs) as [l Hl]. rewrite Hl in H2. by eapply hashes_prefix.
Qed.

(** A step that stores nothing keeps [stored_ok]. *)
Lemma stored_extend a a' ph ph' lg lg' :
  stored_ok (mkChainState a ph lg) -> audit_events a' = audit_events a ->
  (forall org x, In x (lg org) -> In x (lg' org)) ->
  (forall i org ev, ph' i = Chained org ev -> ph i = Chained org ev \/ forall e, In e ev -> In (entry_of e) (lg' org)) ->
  stored_ok (mkChainState a' ph' lg').
Proof.
  unfold stored_ok. simpl. intros [Hs Hc] He Hl Hp. split.
  - intros e. rewrite He. intros (org & Ho)%Hs. eauto.
  - intros i org ev [E|E]%Hp e Hin; eauto.
Qed.

Lemma chain_step_stored st st' : chain_step st st' -> stored_ok st -> stored_ok st'.
Proof.
  intros Hstep Hs. assert (Hs' := Hs). destruct Hs' as [Hs1 Hs2].
  destruct Hstep as [a ph lg i org ev Hph Ho Hne Hd
                    |a ph lg i org ev missed a' start prev Hph Horg Hne Hr
                    |a ph lg i org ev missed e ap a' x Hph Horg Hne Hr
                    |a ph lg i org ev start prev ev' h a' Hph Hc Hh Hcas
                    |a ph lg i org ev start prev ev' h a' Hph Hc Hh Hcas
                    |a ph lg i org ev start prev ev' h a' e x Hph Hc Hh Hcas
                    |a ph lg i org ev start prev ev' h a' Hph Hc Hh Hcas
                    |a ph lg i org ev b stored r Hph Hb
                    |a ph lg i];
    try (lazymatch goal with Hb : BulkWrite _ _ _ = _ |- _ => fail | _ => eapply stored_extend; [exact Hs| | |] end); try done;
    try (by eapply ReserveSequence_docs); try (by eapply CAS_docs);
    try (by intros o x0; apply extend_In);
    try (intros j o ev2 [[_ E]|[_ E]]%set_phase_cases; [done|by left]).
  - intros j o ev2 [[_ E]|[_ E]]%set_phase_cases; [right|by left]. injection E as -> ->.
    intros e He. unfold extend_log. rewrite String.eqb_refl. apply in_or_app. right. by apply in_map.
  - apply BulkWrite_spec in Hb as (k & -> & _). split; simpl in *.
    + intros e [He|He]%in_app_or; [by apply Hs1|]. exists org. apply (Hs2 i org ev Hph).
      rewrite <- (take_drop k ev). apply in_or_app. by left.
    + intros j o ev2 [[_ E]|[_ E]]%set_phase_cases; [done|]. eauto.
Qed.

Lemma chain_step_tenant st st' org :
  chain_step st st' -> sound_tenant st' org -> tenant_inv st org -> tenant_inv st' org.
Proof.
  intros Hstep Hone' Hi. assert (Hone := sound_tenant_back _ _ _ Hstep Hone').
  destruct Hone as [Hl Hnd], Hone' as [Hl' _].
  assert (Hquiet : forall i p ph (a : Audit) lg, (forall ev s pr, p <> Reserved org ev s pr) ->
    tenant_inv (mkChainState a ph lg) org -> tenant_inv (mkChainState a (set_phase i p ph) lg) org).
  { intros i p ph a lg Hp Ht. eapply tenant_inv_keep; [exact Ht|done|done|done|].
    intros j ev s pr [[_ E]|[_ E]]%set_phase_cases; [by destruct (Hp ev s pr)|by left]. }
  destruct Hstep as [a ph lg i o ev Hph Ho Hne Hd
                    |a ph lg i o ev missed a' start prev Hph Horg Hne Hr
                    |a ph lg i o ev missed e ap a' x Hph Horg Hne Hr
                    |a ph lg i o ev start prev ev' h a' Hph Hc Hh Hcas
                    |a ph lg i o ev start prev ev' h a' Hph Hc Hh Hcas
                    |a ph lg i o ev start prev ev' h a' e x Hph Hc Hh Hcas
                    |a ph lg i o ev start prev ev' h a' Hph Hc Hh Hcas
                    |a ph lg i o ev b stored r Hph Hb
                    |a ph lg i]; cbn [csAudit csPhase csLog] in *.
  - by apply Hquiet.
  - apply (ReserveSequence_head _ _ _ _ _ _ _ org) in Hr as (H1 & H2 & H3); [|lia|done].
    eapply tenant_inv_keep; [exact Hi|done|done|done|].
    intros j ev' s p [[-> E]|[_ E]]%set_phase_cases; [right|by left]. injection E as <- -> -> ->.
    destruct (H3 eq_refl start prev eq_refl) as (Hst & Hpr & Hsq).
    destruct Hi as (J1 & J2 & J3 & J4 & _). simpl in *.
    split; [lia|]. split; [lia|]. split; [done|]. exists (length (lg org)).
    rewrite take_ge by done. split; [done|]. split; [congruence|]. by rewrite Hst.
  - apply (ReserveSequence_head _ _ _ _ _ _ _ org) in Hr as (H1 & H2 & _); [|lia|done].
    apply Hquiet; [done|]. eapply tenant_inv_keep; [exact Hi|done|done|done|]. by left.
  - destruct (decide (org = o)) as [->|Ho].
    + eapply (tenant_inv_cas a ph lg o ev start prev ev' h a' i); eauto.
      intros j. unfold set_phase. destruct (j =? i) eqn:E; [apply Nat.eqb_eq in E|]; auto.
    + destruct (CAS_ok _ _ _ _ _ Hcas) as [_ Hall]. apply Hquiet; [done|].
      eapply (tenant_inv_keep a ph lg); [exact Hi| |by rewrite Hall|by rewrite Hall|by left].
      unfold extend_log. apply String.eqb_neq in Ho. by rewrite Ho.
  - rewrite (CAS_same _ _ _ _ _ _ _ Hcas) by auto. by apply Hquiet.
  - rewrite (CAS_same _ _ _ _ _ _ _ Hcas) by eauto. by apply Hquiet.
  - destruct (decide (org = o)) as [->|Ho].
    + eapply (tenant_inv_cas a ph lg o ev start prev ev' h a' i); eauto.
      intros j. unfold set_phase. destruct (j =? i) eqn:E; [apply Nat.eqb_eq in E|]; auto.
    + destruct (CAS_ok _ _ _ _ _ Hcas) as [_ Hall]. apply Hquiet; [done|].
      eapply (tenant_inv_keep a ph lg); [exact Hi| |by rewrite Hall|by rewrite Hall|by left].
      unfold extend_log. apply String.eqb_neq in Ho. by rewrite Ho.
  - apply Hquiet; [done|]. exact Hi.
  - by apply Hquiet.
Qed.

(** An audit database without chains, all consumers idle. *)
Definition chain_start : chainState := mkChainState (mkAudit ∅ []) (fun _ => Idle) (fun _ => []).

Lemma chain_reachable_inv st : rtc chain_step chain_start st -> audit_inv st.
Proof.
  revert st. apply (rtc_ind_r audit_inv).
  - split; [|by split; [intros e []|]]. intros org _. unfold tenant_inv, chain_start. simpl.
    repeat split; try done; constructor.
  - intros s1 s2 _ Hs [IH1 IH2]. split; [|by eapply chain_step_stored].
    intros org Hone. eapply chain_step_tenant; [done|done|]. apply IH1. by eapply sound_tenant_back.
Qed.

(** ** [flush] as steps *)

(** A digest is not the empty string. *)
Hypothesis hmac_nonempty : forall k d, hmac k d <> "".

Lemma computeChain_nonempty events : forall start prev events' h,
  events <> [] -> computeChain start prev events = (events', h) -> h <> "" /\ events' <> [].
Proof.
  apply String.eqb_neq in secretKey_set as Hk.
  induction events as [|e es IH]; intros start prev events' h Hne; [done|]. cbn [computeChain]. rewrite Hk.
  destruct (computeChain _ _ es) as [es' h'] eqn:E. intros [= <- <-]. split; [|done].
  destruct es as [|e2 es]; [|by eapply IH]. simpl in E. injection E as _ <-. apply hmac_nonempty.
Qed.

Lemma attempts_refines i : forall n f org events a a' r ph lg,
  ph i = Idle \/ ph i = Retry org events -> org <> "" -> events <> [] ->
  attempts n f org events a = (a', r) ->
  exists ph' lg', rtc chain_step (mkChainState a ph lg) (mkChainState a' ph' lg') /\
    match r with Some events' => ph' i = Chained org events' | None => True end.
Proof.
  apply String.eqb_neq in secretKey_set as Hk.
  induction n as [|n IH]; intros f org events a a' r ph lg Hph Horg Hne; simpl.
  { intros [= <- <-]. exists ph, lg. split; [apply rtc_refl|done]. }
  destruct (ReserveSequence _ _ _ (afReserve (f (S n))) a) as [a1 [[start prev]|e]] eqn:Er.
  - assert (Hq : afReserve (f (S n)) = None).
    { apply ReserveSequence_fault in Er. by destruct (afReserve (f (S n))). }
    rewrite Hq in Er. destruct (computeChain start prev events) as [ev' h] eqn:Ec.
    destruct (computeChain_nonempty _ _ _ _ _ Hne Ec) as [Hh Hne'].
    assert (Hres : chain_step (mkChainState a ph lg)
      (mkChainState a1 (set_phase i (Reserved org events start prev) ph) lg)).
    { by eapply (cs_reserve _ _ _ i org events false). }
    assert (Hi : set_phase i (Reserved org events start prev) ph i = Reserved org events start prev).
    { unfold set_phase. by rewrite Nat.eqb_refl. }
    apply String.eqb_neq in Hh as Hh'. rewrite Hk, Hh'. simpl.
    destruct (UpdateHashChainCAS org prev h (afCAS (f (S n))) a1) as [a2 [[|]|e]] eqn:Ecas.
    + assert (Hf : afCAS (f (S n)) = None).
      { unfold UpdateHashChainCAS in Ecas. destruct (afCAS (f (S n))) as [[? []]|]; congruence. }
      rewrite Hf in Ecas. intros [= <- <-].
      exists (set_phase i (Chained org ev') (set_phase i (Reserved org events start prev) ph)),
        (extend_log org (map entry_of ev') lg).
      split; [|unfold set_phase; by rewrite Nat.eqb_refl].
      eapply rtc_l; [exact Hres|]. eapply rtc_l; [|apply rtc_refl]. by eapply cs_cas.
    + assert (Hf : afCAS (f (S n)) = None).
      { unfold UpdateHashChainCAS in Ecas. destruct (afCAS (f (S n))) as [[? []]|]; congruence. }
      rewrite Hf in Ecas. intros Ha.
      destruct (IH f org ev' a2 a' r
        (set_phase i (Retry org ev') (set_phase i (Reserved org events start prev) ph)) lg)
        as (ph' & lg' & Hs & Hr); [|done|done|done|].
      { right. unfold set_phase. by rewrite Nat.eqb_refl. }
      exists ph', lg'. split; [|done]. eapply rtc_l; [exact Hres|].
      eapply rtc_l; [|exact Hs]. by eapply cs_cas_mismatch.
    + intros [= <- <-]. destruct (afCAS (f (S n))) as [[e' [|]]|] eqn:Ef.
      * destruct (UpdateHashChainCAS org prev h None a1) as [a3 [[|]|]] eqn:E0.
        -- assert (a2 = a3) as -> by (unfold UpdateHashChainCAS in *; congruence).
           eexists _, (extend_log org (map entry_of ev') lg). split; [|done].
           eapply rtc_l; [exact Hres|]. eapply rtc_l; [|apply rtc_refl]. by eapply cs_cas_unknown.
        -- assert (a2 = a1) as ->.
           { transitivity a3; [unfold UpdateHashChainCAS in *; congruence|].
             eapply CAS_same; [exact E0|auto]. }
           eexists _, lg. split; [|done]. eapply rtc_l; [exact Hres|]. eapply rtc_l; [|apply rtc_refl].
           apply (cs_drop a1 _ lg i).
        -- done.
      * eexists _, lg. split; [|done]. eapply rtc_l; [exact Hres|]. eapply rtc_l; [|apply rtc_refl].
        by eapply cs_cas_lost.
      * unfold UpdateHashChainCAS in Ecas. congruence.
  - destruct (afReserve (f (S n))) as [[e' ap]|] eqn:Eq; [|by apply ReserveSequence_fault in Er].
    assert (Hl : chain_step (mkChainState a ph lg) (mkChainState a1 (set_phase i (Retry org events) ph) lg)).
    { by eapply (cs_reserve_lost _ _ _ i org events false). }
    destruct (afCtxDone (f (S n))).
    + intros [= <- <-]. eexists _, lg. split; [|done]. eapply rtc_l; [exact Hl|apply rtc_refl].
    + intros Ha. destruct (IH f org events a1 a' r (set_phase i (Retry org events) ph) lg)
        as (ph' & lg' & Hs & Hr); [|done|done|done|].
      { right. unfold set_phase. by rewrite Nat.eqb_refl. }
      exists ph', lg'. split; [|done]. by eapply rtc_l.
Qed.

(** refinement.  Whatever fails during it, one flush of a consumer is a
    run of the step relation: it takes the database to a state that the
    interleaved consumers can reach, so the chain property holds after it. *)
Theorem flush_refines_steps i timestamp f batch a a' o ph lg :
  ph i = Idle -> flush timestamp f batch a = (a', o) ->
  exists ph' lg', rtc chain_step (mkChainState a ph lg) (mkChainState a' ph' lg').
Proof.
  intros Hi. unfold flush. destruct (decodeBatch timestamp batch) as [[|e0 es]|];
    [intros [= <- _]; exists ph, lg; apply rtc_refl| |intros [= <- _]; exists ph, lg; apply rtc_refl].
  destruct (event_string e0 "org_id" =s? "") eqn:Eo; [intros [= <- _]; exists ph, lg; apply rtc_refl|].
  bool_to_prop. destruct (attempts _ _ _ _ a) as [a1 r] eqn:Ea.
  destruct (attempts_refines i _ _ _ (e0 :: es) _ _ _ ph lg (or_introl Hi) Eo ltac:(done) Ea)
    as (ph' & lg' & Hs & Hr).
  destruct r as [ev'|]; [|intros [= <- _]; by exists ph', lg'].
  destruct (BulkWrite ev' (ffBulk f) (audit_events a1)) as [stored rb] eqn:Eb.
  assert (Hb : chain_step (mkChainState a1 ph' lg')
    (mkChainState (set_events stored a1) (set_phase i Idle ph') lg')) by (by eapply cs_bulk).
  intros He. assert (a' = set_events stored a1) as -> by (destruct rb; congruence).
  exists (set_phase i Idle ph'), lg'. eapply rtc_r; [exact Hs|exact Hb].
Qed.

End consumer.

(** ** Integrity *)

Section integrity.
Variable hmac : string -> string -> string.
Variable secretKey : string.
Variable fmt_other : json -> string.

(** C5: integrity of the audit chain.  The consumers have a secret key; they
    interleave, fail and give up as they like.  Every stored event then is an
    entry of some tenant's chain.  For a tenant with at most one document in
    [hash_chains] (the code creates no unique index, and two first
    reservations that race leave two: [raced_upsert_forks]) and no two
    hashes that collide, the recorded entries form a hash chain from the
    empty hash to the stored head, each hash authenticating its event id and
    the hash before it, and their sequence numbers increase strictly along it
    and stay below the stored sequence. *)
Theorem audit_chain_integrity st :
  secretKey <> "" -> rtc (chain_step hmac secretKey fmt_other) chain_start st ->
  (forall e, In e (audit_events (csAudit st)) -> exists o, In (entry_of fmt_other e) (csLog st o)) /\
  (forall org, length (chain_docs (csAudit st) org) <= 1 -> NoDup (hashes (csLog st org)) ->
     chained hmac secretKey "" (csLog st org) /\
     chHash (head_of (csAudit st) org) = last_hash "" (csLog st org) /\
     StronglySorted Z.lt (map enSeq (csLog st org)) /\
     forall x, In x (csLog st org) -> (enSeq x < chSequence (head_of (csAudit st) org))%Z).
Proof.
  intros Hk Hr. destruct (chain_reachable_inv hmac secretKey fmt_other Hk st Hr) as [Hi [Hs _]].
  split; [exact Hs|]. intros org Ho Hn. destruct (Hi org (conj Ho Hn)) as (H1 & H2 & _ & H4 & H5 & _).
  repeat (split; [done|]). unfold seqs_below in H4. rewrite Forall_forall in H4. intros x Hx.
  by apply H4, list_elem_of_In.
Qed.
End integrity.

(** ** What a flush stores *)

Section delivery.
Variable hmac : string -> string -> string.
Variable secretKey : string.
Variable fmt_other : json -> string.
Notation flush := (flush hmac secretKey fmt_other).
Notation attempts := (attempts hmac secretKey fmt_other).
Notation computeChain := (computeChain hmac secretKey fmt_other).

(** The members the consumer writes. *)
Definition stamped : list string := ["timestamp"; "sequence"; "integrity_hash"].

Definition same_core (e e' : event) : Prop := forall k, k ∉ stamped -> e' !! k = e !! k.

Lemma computeChain_core events : forall start prev events' h,
  computeChain start prev events = (events', h) -> Forall2 same_core events events'.
Proof.
  induction events as [|e es IH]; intros start prev events' h; cbn [AuditChain.computeChain].
  - intros [= <- _]. constructor.
  - assert (H1 : same_core e (<["sequence" := JNum start]> e)).
    { intros k Hk. apply lookup_insert_ne. set_solver. }
    destruct (secretKey =s? "").
    + destruct (computeChain (start + 1) prev es) as [es' h'] eqn:E. intros [= <- _]. constructor; [done|eauto].
    + destruct (computeChain (start + 1) _ es) as [es' h'] eqn:E. intros [= <- _]. constructor; [|eauto].
      intros k Hk. rewrite lookup_insert_ne by set_solver. by apply H1.
Qed.

Lemma same_core_trans e1 e2 e3 : same_core e1 e2 -> same_core e2 e3 -> same_core e1 e3.
Proof. intros H1 H2 k Hk. rewrite H2 by done. by apply H1. Qed.

Lemma attempts_core : forall n f org events a a' ev',
  attempts n f org events a = (a', Some ev') ->
  audit_events a' = audit_events a /\ Forall2 same_core events ev'.
Proof.
  assert (Hr : forall org c m x a a1 r, ReserveSequence org c m x a = (a1, r) -> audit_events a1 = audit_events a).
  { intros org c m x a a1 r Hr. by apply (ReserveSequence_docs _ _ _ _ _ _ _ org) in Hr as [_ ?]. }
  assert (Hcas : forall org p h x a a1 r, UpdateHashChainCAS org p h x a = (a1, r) -> audit_events a1 = audit_events a).
  { intros org p h x a a1 r Hr'. by apply (CAS_docs _ _ _ _ _ _ _ org) in Hr' as [_ ?]. }
  induction n as [|n IH]; intros f org events a a' ev'; simpl; [done|].
  destruct (ReserveSequence _ _ _ _ a) as [a1 [[start prev]|e]] eqn:Er.
  - destruct (computeChain start prev events) as [ev1 h] eqn:Ec.
    pose proof (computeChain_core _ _ _ _ _ Ec) as Hc.
    destruct (_ && _).
    + destruct (UpdateHashChainCAS _ _ _ _ a1) as [a2 [[|]|]] eqn:Eu; [| |done].
      * intros [= <- <-]. rewrite (Hcas _ _ _ _ _ _ _ Eu), (Hr _ _ _ _ _ _ _ Er). done.
      * intros [He Hf]%IH. rewrite He, (Hcas _ _ _ _ _ _ _ Eu), (Hr _ _ _ _ _ _ _ Er). split; [done|].
        clear -Hc Hf. revert ev' Hf. induction Hc as [|x y l l' Hxy _ IH]; intros ev' Hf;
          inversion Hf; subst; constructor; [by eapply same_core_trans|auto].
    + intros [= <- <-]. by rewrite (Hr _ _ _ _ _ _ _ Er).
  - destruct (afCtxDone _); [done|]. intros [He Hf]%IH. by rewrite He, (Hr _ _ _ _ _ _ _ Er).
Qed.

(** The message [m] is stored. *)
Definition stored_as (a : Audit) (m : raw) : Prop :=
  exists g e, unmarshal_map m = Ok (Some g) /\ In e (audit_events a) /\ same_core g e.

Definition unparsable (m : raw) : Prop := exists e, unmarshal_map m = Err e.

Lemma decodeBatch_In ts batch : forall events m,
  decodeBatch ts batch = Some events -> In m batch ->
  unparsable m \/ exists g e, unmarshal_map m = Ok (Some g) /\ In e events /\ same_core g e.
Proof.
  induction batch as [|x ms IH]; intros events m; [done|]. simpl.
  destruct (unmarshal_map x) as [[g|]|e] eqn:Eu; [|done|].
  - destruct (decodeBatch ts ms) as [es|] eqn:Ed; [|done]. intros [= <-] [->|Hm].
    + right. exists g, (<["timestamp" := ts]> g). split; [done|]. split; [by left|].
      intros k Hk. apply lookup_insert_ne. set_solver.
    + destruct (IH es m eq_refl Hm) as [?|(g' & e' & ? & ? & ?)]; [by left|right].
      exists g', e'. split; [done|]. split; [by right|done].
  - intros Hd [->|Hm]; [left; by exists e|eauto].
Qed.

Lemma Forall2_In_l {A B} (R : A -> B -> Prop) l l' x : Forall2 R l l' -> In x l -> exists y, In y l' /\ R x y.
Proof.
  induction 1 as [|a b l l' Hab _ IH]; simpl; [done|]. intros [->|Hx]; [eauto|].
  destruct (IH Hx) as (y & ? & ?). eauto.
Qed.

(** A flush appends; when it commits, every message it could parse is among
    the documents it appended. *)
Lemma flush_appends ts f batch a a' o :
  flush ts f batch a = (a', o) ->
  exists l, audit_events a' = audit_events a ++ l /\
  (o = FlushCommitted -> forall m, In m batch ->
     unparsable m \/ exists g e, unmarshal_map m = Ok (Some g) /\ In e l /\ same_core g e).
Proof.
  unfold AuditChain.flush. destruct (decodeBatch ts batch) as [events|] eqn:Ed;
    [|intros [= <- <-]; exists []; by rewrite app_nil_r].
  destruct events as [|e0 es]; [intros [= <- <-]; exists []; by rewrite app_nil_r|].
  destruct (event_string e0 "org_id" =s? ""); [intros [= <- <-]; exists []; by rewrite app_nil_r|].
  destruct (attempts _ _ _ _ a) as [a1 [ev'|]] eqn:Ea.
  - apply attempts_core in Ea as [He Hf]. destruct (BulkWrite ev' _ _) as [stored r] eqn:Eb.
    apply BulkWrite_spec in Eb as (k & -> & Hr). rewrite He.
    destruct r as [e|]; intros [= <- <-]; exists (take k ev'); (split; [done|]); [done|].
    intros _ m Hm. destruct (decodeBatch_In _ _ _ _ Ed Hm) as [?|(g & e & Hg & Hin & Hc)]; [by left|right].
    destruct (Forall2_In_l _ _ _ _ Hf Hin) as (e' & Hin' & Hc'). exists g, e'. split; [done|].
    split; [|by eapply same_core_trans]. by rewrite Hr.
  - intros [= <- <-].
    assert (Hsame : audit_events a1 = audit_events a).
    { revert a a1 Ea. generalize (ffAttempt f) (event_string e0 "org_id") (e0 :: es).
      intros g org ev. generalize maxFlushAttempts. intros n.
      revert ev. induction n as [|n IH]; intros ev a a1; simpl; [congruence|].
      destruct (ReserveSequence _ _ _ _ a) as [a2 [[start prev]|e]] eqn:Er;
        (assert (H2 : audit_events a2 = audit_events a) by (by apply (ReserveSequence_docs _ _ _ _ _ _ _ "") in Er as [_ ?])).
      - destruct (computeChain start prev ev) as [ev1 h].
        destruct (_ && _); [|done].
        destruct (UpdateHashChainCAS _ _ _ _ a2) as [a3 x] eqn:Eu.
        assert (H3 : audit_events a3 = audit_events a2) by (by apply (CAS_docs _ _ _ _ _ _ _ org) in Eu as [_ ?]).
        destruct x as [[|]|]; [done| |intros [= <-]; congruence].
        intros Hx%IH. congruence.
      - destruct (afCtxDone _); [intros [= <-]; done|]. intros Hx%IH. congruence. }
    exists []. by rewrite app_nil_r.
Qed.

Lemma flush_events ts f batch a a' o :
  flush ts f batch a = (a', o) ->
  (exists l, audit_events a' = audit_events a ++ l) /\
  (o = FlushCommitted -> forall m, In m batch -> unparsable m \/ stored_as a' m).
Proof.
  intros (l & Hl & Hc)%flush_appends. split; [by exists l|]. intros Ho m Hm.
  destruct (Hc Ho m Hm) as [?|(g & e & Hg & He & Hcore)]; [by left|right]. exists g, e. split; [done|]. split; [|done].
  rewrite Hl. apply in_or_app. by right.
Qed.

Lemma BulkWrite_no_duplicate events : forall budget stored stored' e,
  BulkWrite events budget stored = (stored', None) -> In e events -> duplicate stored e = false.
Proof.
  induction events as [|x es IH]; intros budget stored stored' e; simpl; [done|].
  assert (Hd : forall l y z, duplicate (l ++ [y]) z = false -> duplicate l z = false).
  { intros l y z. unfold duplicate. destruct (z !! "event_id"); [|done].
    rewrite existsb_app. by intros [? _]%orb_false_elim. }
  assert (Hstep : forall b, (if duplicate stored x then (stored, Some ErrDuplicateKey)
                     else BulkWrite es b (stored ++ [x])) = (stored', None) ->
                  x = e \/ In e es -> duplicate stored e = false).
  { intros b. destruct (duplicate stored x) eqn:E; [done|]. intros Hb [->|Hin]; [done|].
    eapply Hd, IH; eauto. }
  destruct budget as [[[|n] err]|]; [done|apply Hstep|apply Hstep].
Qed.

(** a redelivered batch never commits.  When some event of a batch is
    already stored under its id, no flush of the batch commits its offsets,
    whatever happens: the ordered insert reports the duplicate key as a
    failure. *)
Theorem redelivered_batch_never_commits ts f batch a e0 j :
  In e0 (default [] (decodeBatch ts batch)) -> e0 !! "event_id" = Some j ->
  (exists e, In e (audit_events a) /\ e !! "event_id" = Some j) ->
  (flush ts f batch a).2 <> FlushCommitted.
Proof.
  intros Hin Hid (e & He & Hj). unfold AuditChain.flush.
  destruct (decodeBatch ts batch) as [events|]; [|done]. simpl in Hin.
  destruct events as [|ev0 es]; [done|]. destruct (event_string ev0 "org_id" =s? ""); [done|].
  destruct (attempts _ _ _ _ a) as [a1 [ev'|]] eqn:Ea; [|done].
  apply attempts_core in Ea as [Hsame Hf]. destruct (Forall2_In_l _ _ _ _ Hf Hin) as (e1 & Hin1 & Hc).
  destruct (BulkWrite ev' _ _) as [stored [r|]] eqn:Eb; [done|].
  apply (BulkWrite_no_duplicate _ _ _ _ _ Eb) in Hin1. rewrite Hsame in Hin1.
  exfalso. unfold duplicate in Hin1. rewrite Hc, Hid in Hin1 by set_solver.
  assert (Ht : existsb (fun e' : event => bool_decide (e' !! "event_id" = Some j)) (audit_events a) = true).
  { apply existsb_exists. exists e. split; [done|]. by apply bool_decide_eq_true. }
  congruence.
Qed.

(** ** One consumer and its partition *)

(** [AuditConsumer.Start]: position of the reader, the batch being
    accumulated, the committed offset and, ghost, the offsets given up. *)
Record Consumer := mkConsumer {
  cNext : nat;
  cBatch : list nat;
  cCommitted : nat;
  cDropped : list nat;
}.

Variable topic : list raw.

Definition msg_at (o : nat) : raw := default None (topic !! o).

Inductive cons_step : Consumer * Audit -> Consumer * Audit -> Prop :=
| co_fetch n b c d a :
    n < length topic -> cons_step (mkConsumer n b c d, a) (mkConsumer (S n) (b ++ [n]) c d, a)
| co_flush n b c d a ts f a' o :
    b <> [] -> flush ts f (map msg_at b) a = (a', o) ->
    cons_step (mkConsumer n b c d, a)
      (match o with
       | FlushCommitted => mkConsumer n [] n d     (* the highest offset of the batch is [n - 1] *)
       | FlushDropped => mkConsumer n [] c (d ++ b)
       | FlushPanic => mkConsumer c [] c d
       end, a')
| co_restart n b c d a : cons_step (mkConsumer n b c d, a) (mkConsumer c [] c d, a)
| co_others n b c d a a' l :
    audit_events a' = audit_events a ++ l ->
    cons_step (mkConsumer n b c d, a) (mkConsumer n b c d, a').

Definition handled (st : Consumer * Audit) (o : nat) : Prop :=
  unparsable (msg_at o) \/ stored_as st.2 (msg_at o) \/ In o (cDropped st.1).

Definition cons_inv (st : Consumer * Audit) : Prop :=
  cCommitted st.1 <= cNext st.1 /\
  (forall o, In o (cBatch st.1) -> o < cNext st.1) /\
  (forall o, o < cNext st.1 -> ~ In o (cBatch st.1) -> handled st o) /\
  (forall o, o < cCommitted st.1 -> handled st o).

Lemma stored_mono a a' l m : audit_events a' = audit_events a ++ l -> stored_as a m -> stored_as a' m.
Proof.
  intros E (g & e & Hg & Hin & Hc). exists g, e. rewrite E. split; [done|]. split; [|done].
  apply in_or_app. by left.
Qed.

Lemma cons_step_inv st st' : cons_inv st -> cons_step st st' -> cons_inv st'.
Proof.
  intros (H1 & H2 & H3 & H4) Hs.
  destruct Hs as [n b c d a Hn|n b c d a ts f a' o Hne Hf|n b c d a|n b c d a a' l He];
    unfold cons_inv, handled in *; simpl in *.
  - split; [lia|]. split; [|split; [|done]].
    + intros o [Ho%H2|[<-|[]]]%in_app_or; lia.
    + intros o Ho Hb. apply H3; [|intros Hin; apply Hb, in_or_app; by left].
      assert (o <> n); [|lia]. intros ->. apply Hb, in_or_app. right. by left.
  - destruct (flush_events _ _ _ _ _ _ Hf) as [[l Hl] Hc].
    assert (Hm : forall o, unparsable (msg_at o) \/ stored_as a (msg_at o) \/ In o d ->
                   unparsable (msg_at o) \/ stored_as a' (msg_at o) \/ In o d).
    { intros o' [?|[?|?]]; auto. right. left. by eapply stored_mono. }
    destruct o; simpl.
    + assert (Hall : forall o, o < n -> unparsable (msg_at o) \/ stored_as a' (msg_at o) \/ In o d).
      { intros o Ho. destruct (in_dec Nat.eq_dec o b) as [Hin|Hn]; [|auto].
        destruct (Hc eq_refl (msg_at o)) as [?|?]; [by apply in_map|auto|auto]. }
      repeat split; auto; done.
    + split; [lia|]. split; [done|]. split.
      * intros o Ho _. destruct (in_dec Nat.eq_dec o b) as [Hin|Hn].
        -- right. right. apply in_or_app. by right.
        -- destruct (Hm o (H3 o Ho Hn)) as [?|[?|?]]; auto. right. right. apply in_or_app. by left.
      * intros o Ho. destruct (Hm o (H4 o Ho)) as [?|[?|?]]; auto. right. right. apply in_or_app. by left.
    + split; [lia|]. split; [done|]. split; intros; auto.
  - split; [lia|]. split; [done|]. split; intros; auto.
  - assert (Hm : forall o, unparsable (msg_at o) \/ stored_as a (msg_at o) \/ In o d ->
                   unparsable (msg_at o) \/ stored_as a' (msg_at o) \/ In o d).
    { intros o' [?|[?|?]]; auto. right. left. by eapply stored_mono. }
    split; [done|]. split; [done|]. split; intros; apply Hm; auto.
Qed.

(** what the committed offset guarantees.  In every reachable state of a
    consumer, a message below the committed offset is not a JSON object, or
    its event is stored with all its own members, or it belongs to a batch
    that a failed flush gave up. *)
Theorem committed_offset_meaning st o :
  rtc cons_step (mkConsumer 0 [] 0 [], mkAudit ∅ []) st -> o < cCommitted st.1 ->
  unparsable (msg_at o) \/ stored_as st.2 (msg_at o) \/ In o (cDropped st.1).
Proof.
  intros Hr. assert (Hi : cons_inv st).
  { revert st Hr. apply (rtc_ind_r cons_inv).
    - split; [done|]. split; [done|]. split; simpl; intros; lia.
    - intros s1 s2 _ Hs Hi. by eapply cons_step_inv. }
  apply Hi.
Qed.
End delivery.

(** ** Witnesses *)

Definition exampleHmac (k d : string) : string := "h(" +:+ (d +:+ ")").

Definition auditEvent (id : string) : raw :=
  Some (JObj [("org_id", JStr "org1"); ("event_id", JStr id); ("type", JStr "auth.login")]).

Definition quietFlush : flushFaults :=
  mkFlushFaults (fun _ => mkAttemptFaults None false None) None None.

Definition mongoDown : flushFaults :=
  mkFlushFaults (fun _ => mkAttemptFaults None false None) (Some (0, ErrNew "no primary")) None.

Definition exampleFlush (f : flushFaults) (batch : list raw) (a : Audit) : Audit * flushOutcome :=
  flush exampleHmac "key" (fun _ => "") (JNum 0) f batch a.

Definition twoEvents : Audit := (exampleFlush quietFlush [auditEvent "e1"; auditEvent "e2"] (mkAudit ∅ [])).1.

Lemma redelivered_batch_never_commits_witness :
  (exampleFlush quietFlush [auditEvent "e2"] twoEvents).2 <> FlushCommitted.
Proof.
  unfold exampleFlush.
  apply (redelivered_batch_never_commits exampleHmac "key" (fun _ => "") (JNum 0) quietFlush [auditEvent "e2"]
    twoEvents (<["timestamp" := JNum 0]> (members_map [("org_id", JStr "org1"); ("event_id", JStr "e2");
      ("type", JStr "auth.login")])) (JStr "e2")).
  - left. reflexivity.
  - vm_compute. reflexivity.
  - eexists. split; [right; left; reflexivity|]. vm_compute. reflexivity.
Defined.

Lemma flush_refines_steps_witness :
  exists ph' lg', rtc (chain_step exampleHmac "key" (fun _ => "")) chain_start
    (mkChainState twoEvents ph' lg').
Proof.
  apply (flush_refines_steps exampleHmac "key" (fun _ => "") ltac:(discriminate)
    ltac:(intros k d; discriminate) 0 (JNum 0) quietFlush [auditEvent "e1"; auditEvent "e2"]
    (mkAudit ∅ []) twoEvents FlushCommitted (fun _ => Idle) (fun _ => []) eq_refl).
  reflexivity.
Defined.

(** One consumer stores one event. *)
Definition exampleEvent : event := members_map [("org_id", JStr "org1"); ("event_id", JStr "e1")].
Definition exampleReserved : Audit :=
  (ReserveSequence "org1" 1 false None (mkAudit ∅ [])).1.
Definition exampleHash : string := exampleHmac "key" "e1|".
Definition exampleChained : Audit :=
  (UpdateHashChainCAS "org1" "" exampleHash None exampleReserved).1.
Definition exampleStored : list event :=
  (computeChain exampleHmac "key" (fun _ => "") 0 "" [exampleEvent]).1.
Definition exampleState : chainState :=
  mkChainState exampleChained
    (set_phase 0 (Chained "org1" exampleStored) (set_phase 0 (Reserved "org1" [exampleEvent] 0 "") (fun _ => Idle)))
    (extend_log "org1" (map (entry_of (fun _ => "")) exampleStored) (fun _ => [])).

Lemma exampleState_reachable : rtc (chain_step exampleHmac "key" (fun _ => "")) chain_start exampleState.
Proof.
  eapply rtc_l.
  { apply (cs_reserve _ _ _ _ _ _ 0 "org1" [exampleEvent] false exampleReserved 0 ""); [by left|done|done|reflexivity]. }
  eapply rtc_l; [|apply rtc_refl].
  eapply (cs_cas _ _ _ exampleReserved _ _ 0 "org1" [exampleEvent] 0 "" exampleStored exampleHash);
    [reflexivity|reflexivity|discriminate|reflexivity].
Qed.

Lemma audit_chain_integrity_witness :
  chHash (head_of (csAudit exampleState) "org1") = exampleHash.
Proof.
  destruct (audit_chain_integrity exampleHmac "key" (fun _ => "") exampleState ltac:(discriminate)
    exampleState_reachable) as [_ Hone].
  destruct (Hone "org1") as (_ & Hh & _).
  - vm_compute. lia.
  - apply (bool_decide_unpack _). vm_compute. exact I.
  - rewrite Hh. vm_compute. reflexivity.
Defined.

(** Two consumers reserve for a tenant that has no document yet: both upserts
    find none and insert one. *)
Definition racedReserved : Audit :=
  (ReserveSequence "org1" 1 true None (ReserveSequence "org1" 1 true None (mkAudit ∅ [])).1).1.
Definition secondEvent : event := members_map [("org_id", JStr "org1"); ("event_id", JStr "e2")].
Definition secondStored : list event :=
  (computeChain exampleHmac "key" (fun _ => "") 0 "" [secondEvent]).1.
Definition racedChained : Audit :=
  (UpdateHashChainCAS "org1" "" (exampleHmac "key" "e2|") None
     (UpdateHashChainCAS "org1" "" exampleHash None racedReserved).1).1.
Definition racedState : chainState :=
  mkChainState racedChained
    (set_phase 1 (Chained "org1" secondStored) (set_phase 0 (Chained "org1" exampleStored)
       (set_phase 1 (Reserved "org1" [secondEvent] 0 "") (set_phase 0 (Reserved "org1" [exampleEvent] 0 "")
          (set_phase 1 (Upserting "org1" [secondEvent]) (set_phase 0 (Upserting "org1" [exampleEvent]) (fun _ => Idle)))))))
    (extend_log "org1" (map (entry_of (fun _ => "")) secondStored)
       (extend_log "org1" (map (entry_of (fun _ => "")) exampleStored) (fun _ => []))).

(** A raced upsert forks the chain.  Two consumers that reserve for the first
    time for a tenant at once leave two documents, both updates of the hash
    succeed, and two accepted events carry the sequence number 0 and
    authenticate the empty hash: the recorded entries are no chain. *)
Theorem raced_upsert_forks :
  rtc (chain_step exampleHmac "key" (fun _ => "")) chain_start racedState /\
  map enSeq (csLog racedState "org1") = [0%Z; 0%Z] /\
  length (chain_docs (csAudit racedState) "org1") = 2 /\
  ~ chained exampleHmac "key" "" (csLog racedState "org1").
Proof.
  split; [|split; [reflexivity|split; [reflexivity|intros (_ & H & _); discriminate H]]].
  eapply rtc_l. { apply (cs_miss _ _ _ _ _ _ 0 "org1" [exampleEvent]); [by left|done|done|reflexivity]. }
  eapply rtc_l. { apply (cs_miss _ _ _ _ _ _ 1 "org1" [secondEvent]); [by left|done|done|reflexivity]. }
  eapply rtc_l. { apply (cs_reserve _ _ _ _ _ _ 0 "org1" [exampleEvent] true
    (ReserveSequence "org1" 1 true None (mkAudit ∅ [])).1 0 ""); [done|done|done|reflexivity]. }
  eapply rtc_l. { apply (cs_reserve _ _ _ _ _ _ 1 "org1" [secondEvent] true racedReserved 0 ""); [done|done|done|reflexivity]. }
  eapply rtc_l. { eapply (cs_cas _ _ _ _ _ _ 0 "org1" [exampleEvent] 0 "" exampleStored exampleHash);
    [reflexivity|reflexivity|discriminate|reflexivity]. }
  eapply rtc_l; [|apply rtc_refl].
  eapply (cs_cas _ _ _ _ _ _ 1 "org1" [secondEvent] 0 "" secondStored (exampleHmac "key" "e2|"));
    [reflexivity|reflexivity|discriminate|reflexivity].
Qed.

Definition exampleTopic : list raw := [auditEvent "e1"; auditEvent "e2"].

(** The run in which the database is down for the first batch. *)
Lemma lossy_run :
  rtc (cons_step exampleHmac "key" (fun _ => "") exampleTopic) (mkConsumer 0 [] 0 [], mkAudit ∅ [])
    (mkConsumer 2 [] 2 [0],
     (exampleFlush quietFlush [auditEvent "e2"] (exampleFlush mongoDown [auditEvent "e1"] (mkAudit ∅ [])).1).1).
Proof.
  eapply rtc_l; [apply co_fetch; simpl; lia|].
  eapply rtc_l; [apply (co_flush _ _ _ _ 1 [0] 0 [] (mkAudit ∅ []) (JNum 0) mongoDown
    (exampleFlush mongoDown [auditEvent "e1"] (mkAudit ∅ [])).1 FlushDropped); [done|reflexivity]|].
  eapply rtc_l; [apply co_fetch; simpl; lia|].
  eapply rtc_l; [|apply rtc_refl].
  apply (co_flush _ _ _ _ 2 [1] 0 [0] _ (JNum 0) quietFlush
    (exampleFlush quietFlush [auditEvent "e2"] (exampleFlush mongoDown [auditEvent "e1"] (mkAudit ∅ [])).1).1
    FlushCommitted); [done|reflexivity].
Qed.

Lemma committed_offset_meaning_witness :
  In 0 [0] \/ stored_as (mkAudit ∅ []) (auditEvent "e1").
Proof.
  destruct (committed_offset_meaning exampleHmac "key" (fun _ => "") exampleTopic _ 0 lossy_run ltac:(simpl; lia))
    as [[e He]|[_|H]]; [discriminate He|left; by left|left; exact H].
Defined.

(** an audit event can be lost.  A batch whose database write fails is
    given up, and the commit of the next batch moves the committed offset
    past it: the message is below the committed offset, it is a well-formed
    event, and it is not stored. *)
Theorem audit_event_can_be_lost :
  exists st, rtc (cons_step exampleHmac "key" (fun _ => "") exampleTopic)
      (mkConsumer 0 [] 0 [], mkAudit ∅ []) st /\
    0 < cCommitted st.1 /\ ~ unparsable (msg_at exampleTopic 0) /\
    forall e, In e (audit_events st.2) -> e !! "event_id" <> Some (JStr "e1").
Proof.
  eexists. split; [exact lossy_run|]. split; [simpl; lia|]. split; [by intros [e He]|].
  intros e. vm_compute. intros [<-|[]]. discriminate.
Qed.
