(* ===== verification/AuditApi.v ===== *)
(** The HTTP side of the audit service: services/audit/pkg/handlers/ingest.go,
    the read repository, the listing route of services/audit/main.go and the
    settings read by [AuditConsumer.Start]. *)

From S2P Require Import Prelude GoStrings Json Http Pg AuditChain.

(** ** Ingestion *)

(** The reply of the DLP service to [POST /v1/scan]. *)
Inductive dlpReply :=
| DlpDown                             (* [client.Do] fails, the two second timeout included *)
| DlpReply (code : Z) (body : raw).

(** [json.Unmarshal] into [[]interface{}]: the number of findings. *)
Definition decode_findings (b : raw) : res nat :=
  match b with
  | None => Err ErrSyntax
  | Some (JArr l) => Ok (length l)
  | Some JNull => Ok 0
  | Some _ => Err ErrUnmarshalType
  end.

Definition checkDLP (reply : dlpReply) : bool :=
  match reply with
  | DlpDown => true
  | DlpReply code b =>
      if negb (code =? StatusOK)%Z then true
      else match decode_findings b with
           | Ok n => 0 <? n
           | Err _ => false
           end
  end.

Definition StatusUnprocessableEntity : Z := 422.

(** What the handler does: the response, and the message it published
    (topic, key, event); [IngestPanic] is the assignment to a nil map. *)
Inductive ingestResult :=
| IngestResponse (code : Z) (published : option (string * string * event))
| IngestPanic.

(** [NewIngestHandler]. *)
Definition dlpModeOf (mode : string) : string := if mode =s? "" then "audit" else mode.

(** The members the handler forces: the tenant, and an id when there is none. *)
Definition stampEvent (orgID : string) (now : Z) (g : event) : event :=
  let e := <["org_id" := JStr orgID]> g in
  match e !! "event_id" with
  | None | Some JNull => <["event_id" := JStr ("evt-" +:+ itoa now)]> e
  | Some _ => e
  end.

Definition topicOf (e : event) : string :=
  let t := event_string e "topic" in if t =s? "" then "audit.trail" else t.

(** [dlp] answers the scan of an event; [publish] is the broker. *)
Definition Ingest (dlpURL dlpMode orgID : string) (b : raw) (now : Z)
  (dlp : event -> dlpReply) (publish : string -> string -> event -> option goerr) : ingestResult :=
  if orgID =s? "" then IngestResponse StatusUnauthorized None
  else match unmarshal_map b with
  | Err _ => IngestResponse StatusBadRequest None
  | Ok None => IngestPanic
  | Ok (Some g) =>
      let e := stampEvent orgID now g in
      if (dlpMode =s? "block") && negb (dlpURL =s? "") && checkDLP (dlp e)
      then IngestResponse StatusUnprocessableEntity None
      else
        let eventID := event_string e "event_id" in
        match publish (topicOf e) eventID e with
        | Some _ => IngestResponse StatusInternalServerError None
        | None => IngestResponse StatusAccepted (Some (topicOf e, eventID, e))
        end
  end.

(** ** Reading *)

(** [FindEvents]: sorted by descending timestamp ([newest]), skip, limit; a
    limit of zero is no limit. *)
Definition FindEvents (newest : event -> event -> bool) (filter : event -> bool) (limit offset : nat)
  (a : Audit) : list event :=
  let l := drop offset (order_by newest (List.filter filter (audit_events a))) in
  if limit =? 0 then l else take limit l.

Definition GetLatestHash (orgID : string) (a : Audit) : string * Z :=
  match chain_docs a orgID with
  | [] => ("", 0%Z)
  | h :: _ => (chHash h, chSequence h)
  end.

(** The route [GET /v1/events]: no filter. *)
Definition listEvents (newest : event -> event -> bool) (orgID : string) (a : Audit) : list event :=
  FindEvents newest (fun _ => true) 50 0 a.

(** ** Settings of the consumer *)

Definition batchSizeOf (env : string) : Z :=
  if env =s? "" then 500%Z
  else match Atoi env with
       | Some i => if (0 <? i)%Z then (if (500 <? i)%Z then 500%Z else i) else 500%Z
       | None => 500%Z
       end.

(** In nanoseconds; the product is an [int64]. *)
Definition flushIntervalOf (env : string) : Z :=
  if env =s? "" then (1000 * Millisecond)%Z
  else match Atoi env with
       | Some i => if (0 <? i)%Z then wrap64 (i * Millisecond) else (1000 * Millisecond)%Z
       | None => (1000 * Millisecond)%Z
       end.

Lemma batchSizeOf_bounds env : (1 <= batchSizeOf env <= 500)%Z.
Proof. unfold batchSizeOf. repeat case_goal; bool_to_prop; lia. Qed.

(** ** Properties *)

Lemma stampEvent_org orgID now g : stampEvent orgID now g !! "org_id" = Some (JStr orgID).
Proof.
  unfold stampEvent. rewrite (lookup_insert_ne _ "org_id" "event_id") by done.
  destruct (g !! "event_id") as [[]|]; rewrite ?lookup_insert_ne by done; apply lookup_insert_eq.
Qed.

(** ingestion is fail closed.  A request is accepted (202) only for an
    authenticated tenant and a published event that carries that tenant,
    whatever the body says; in blocking mode only when the DLP service
    answered the scan of that very event with status 200 and no findings;
    and when the event is not published, the request is refused. *)
Theorem Ingest_fail_closed dlpURL dlpMode orgID b now dlp publish code p :
  Ingest dlpURL dlpMode orgID b now dlp publish = IngestResponse code p ->
  match p with
  | Some (topic, key, e) =>
      code = StatusAccepted /\ orgID <> "" /\ publish topic key e = None /\
      e !! "org_id" = Some (JStr orgID) /\
      (dlpMode = "block" -> dlpURL <> "" ->
         exists r, dlp e = DlpReply StatusOK r /\ forall n, decode_findings r = Ok n -> n = 0)
  | None => code <> StatusAccepted
  end.
Proof.
  unfold Ingest. destruct (orgID =s? "") eqn:Eo; [by intros [= <- <-]|].
  destruct (unmarshal_map b) as [[g|]|]; [|done|by intros [= <- <-]].
  destruct (_ && checkDLP _) eqn:Ed; [by intros [= <- <-]|].
  destruct (publish _ _ _) eqn:Ep; intros [= <- <-]; [done|]. bool_to_prop.
  split; [done|]. split; [done|]. split; [done|]. split; [apply stampEvent_org|].
  intros -> Hu. apply String.eqb_neq in Hu. rewrite Hu in Ed. simpl in Ed.
  unfold checkDLP in Ed. destruct (dlp _) as [|c r]; [done|].
  destruct (c =? StatusOK)%Z eqn:Ec; [|done]. bool_to_prop. subst c. exists r. split; [done|].
  simpl in Ed. intros n Hn. rewrite Hn in Ed. bool_to_prop. lia.
Qed.

(** The listing route is not confined to the caller's tenant. *)
Lemma listEvents_all_tenants :
  exists a e, In e (listEvents (fun _ _ => true) "org1" a) /\ event_string e "org_id" = "org2".
Proof.
  exists (mkAudit ∅ [members_map [("org_id", JStr "org2")]]). eexists. split; [by left|]. reflexivity.
Qed.

(** ** Witnesses *)

Lemma Ingest_fail_closed_witness :
  exists e, Ingest "http://dlp" "block" "org1" (auditEvent "e1") 7 (fun _ => DlpReply 200 (Some (JArr [])))
              (fun _ _ _ => None) = IngestResponse StatusAccepted (Some ("audit.trail", "e1", e)) /\
    e !! "org_id" = Some (JStr "org1").
Proof.
  eexists. split; [reflexivity|].
  apply (Ingest_fail_closed "http://dlp" "block" "org1" (auditEvent "e1") 7
    (fun _ => DlpReply 200 (Some (JArr []))) (fun _ _ _ => None) StatusAccepted
    (Some ("audit.trail", "e1", _)) eq_refl).
Defined.
