(* ===== verification/AuditStream.v ===== *)
(** The stream of audit events: services/audit/pkg/handlers/sse.go, read by a
    reference parser of server-sent events.  [json.Marshal] is a parameter;
    the change stream of MongoDB is the list of its changes. *)

From S2P Require Import Prelude GoStrings Json Http Pg AuditChain AuditApi.
From Stdlib Require Import Ascii.

#[local] Arguments String.append !_ _ / : simpl nomatch.

Definition LF : ascii := "010".
Definition CR : ascii := "013".
Definition NUL : ascii := "000".
Definition nl : string := String LF "".

(** ** The handler *)

(** ALLOWED_ORIGIN, APP_ENV and ENV. *)
Record StreamEnv := mkStreamEnv { seAllowedOrigin : string; seAppEnv : string; seEnv : string }.

(** What the handler wrote. *)
Record Written := mkWritten { wrStatus : Z; wrHeaders : list (string * string); wrBody : string }.

Definition setHeader (k v : string) (hs : list (string * string)) : list (string * string) :=
  List.filter (fun kv => negb (key_is k kv.1)) hs ++ [(k, v)].

(** [http.Error]. *)
Definition httpError (hs : list (string * string)) (st : Z) (msg : string) : Written :=
  mkWritten st (setHeader "X-Content-Type-Options" "nosniff" (setHeader "Content-Type" "text/plain; charset=utf-8" hs))
    (msg +:+ nl).

(** The origin the stream may be read from. *)
Definition streamOrigin (env : StreamEnv) : option string :=
  if seAllowedOrigin env =s? "" then
    if (seAppEnv env =s? "production") || (seEnv env =s? "prod") then None else Some "http://localhost:4200"
  else Some (seAllowedOrigin env).

(** A change of the collection: its full document, or one that does not
    decode into a map. *)
Inductive change := Change (doc : event) | Undecodable.

(** [$match] on fullDocument.org_id: equality, or membership in an array. *)
Definition matchesOrg (orgID : string) (c : change) : bool :=
  match c with
  | Undecodable => true
  | Change e =>
      match e !! "org_id" with
      | Some (JStr s) => s =s? orgID
      | Some (JArr l) => existsb (json_eqb (JStr orgID)) l
      | _ => false
      end
  end.

Section stream.
(** [json.Marshal] of a document. *)
Variable marshal : event -> string.

(** What one change writes. *)
Definition frame (c : change) : string :=
  match c with
  | Undecodable => ""
  | Change e =>
      let eventID := event_string e "event_id" in
      (if eventID =s? "" then "" else "id: " +:+ (eventID +:+ nl)) +:+ ("data: " +:+ (marshal e +:+ (nl +:+ nl)))
  end.

Fixpoint frames (cs : list change) : string :=
  match cs with [] => "" | c :: cs' => frame c +:+ frames cs' end.

Definition streamHeaders : list (string * string) :=
  [("Content-Type", "text/event-stream"); ("Cache-Control", "no-cache"); ("Connection", "keep-alive")].

(** [flusher] tells that the writer can flush; [watch] yields the changes of
    the collection until the request ends. *)
Definition StreamEvents (env : StreamEnv) (flusher : bool) (orgID : string) (watch : res (list change)) : Written :=
  if orgID =s? "" then httpError [] StatusUnauthorized "Unauthorized"
  else match streamOrigin env with
  | None => httpError streamHeaders StatusInternalServerError "ALLOWED_ORIGIN must be set in production for authenticated SSE"
  | Some origin =>
      let hs := streamHeaders ++ [("Access-Control-Allow-Origin", origin); ("Access-Control-Allow-Credentials", "true")] in
      if negb flusher then httpError hs StatusInternalServerError "SSE not supported"
      else match watch with
      | Err _ => httpError hs StatusInternalServerError "stream unavailable"
      | Ok changes => mkWritten StatusOK hs (frames (List.filter (matchesOrg orgID) changes))
      end
  end.
End stream.

(** ** A reader of server-sent events *)

(** Lines end with CR, LF or both; the last element is what follows the last
    of them. *)
Fixpoint sse_lines (cr : bool) (s : string) : list string :=
  match s with
  | EmptyString => [""]
  | String c s' =>
      if Ascii.eqb c LF then (if cr then sse_lines false s' else "" :: sse_lines false s')
      else if Ascii.eqb c CR then "" :: sse_lines true s'
      else match sse_lines false s' with
           | l :: ls => String c l :: ls
           | [] => [String c ""]
           end
  end.

(** The name of a field, and its value less one leading space. *)
Fixpoint sse_field (l : string) : string * string :=
  match l with
  | EmptyString => ("", "")
  | String c l' =>
      if Ascii.eqb c ":" then ("", TrimPrefix l' " ")
      else let '(n, v) := sse_field l' in (String c n, v)
  end.

(** The events, each with the last id seen; an unfinished one is dropped. *)
Fixpoint sse_events (id data : string) (ls : list string) : list (string * string) :=
  match ls with
  | [] => []
  | l :: ls' =>
      if l =s? "" then
        if data =s? "" then sse_events id "" ls' else (id, TrimSuffix data nl) :: sse_events id "" ls'
      else let '(n, v) := sse_field l in
           if n =s? "data" then sse_events id (data +:+ (v +:+ nl)) ls'
           else if (n =s? "id") && no_byte NUL v then sse_events v data ls'
           else sse_events id data ls'
  end.

Definition sse_from (id data s : string) : list (string * string) := sse_events id data (removelast (sse_lines false s)).
Definition sse_parse (s : string) : list (string * string) := sse_from "" "" s.

(** ** Properties *)

Definition one_line (s : string) : bool := no_byte LF s && no_byte CR s.

Lemma sse_lines_nonempty cr s : sse_lines cr s <> [].
Proof. revert cr. induction s as [|c s IH]; intros cr; simpl; [done|]. repeat case_match; done. Qed.

Lemma sse_lines_line l s : one_line l = true -> sse_lines false (l +:+ String LF s) = l :: sse_lines false s.
Proof.
  unfold one_line. induction l as [|c l IH]; simpl; [done|].
  rewrite !andb_true_iff, !negb_true_iff. intros [[-> Hl] [-> Hc]]. rewrite IH; [done|]. by rewrite Hl, Hc.
Qed.

Lemma sse_from_line id data l s : one_line l = true ->
  sse_from id data (l +:+ String LF s) = sse_events id data (l :: removelast (sse_lines false s)).
Proof.
  intros Hl. unfold sse_from. rewrite sse_lines_line by done. pose proof (sse_lines_nonempty false s).
  by destruct (sse_lines false s).
Qed.

Lemma no_byte_app c a b : no_byte c (a +:+ b) = no_byte c a && no_byte c b.
Proof. induction a as [|x a IH]; simpl; [done|]. by rewrite IH, andb_assoc. Qed.

Lemma one_line_app a b : one_line (a +:+ b) = one_line a && one_line b.
Proof. unfold one_line. rewrite !no_byte_app. by destruct (no_byte LF a), (no_byte CR a), (no_byte LF b), (no_byte CR b). Qed.

Section properties.
Variable marshal : event -> string.
(** JSON text has no bare line terminator. *)
Hypothesis marshal_line : forall e, one_line (marshal e) = true.

(** An id that is one line, without the byte zero. *)
Definition plain_id (e : event) : bool :=
  one_line (event_string e "event_id") && no_byte NUL (event_string e "event_id").

(** What a reader should see: every document, under the last id. *)
Fixpoint received (id : string) (docs : list event) : list (string * string) :=
  match docs with
  | [] => []
  | e :: docs' =>
      let id' := if event_string e "event_id" =s? "" then id else event_string e "event_id" in
      (id', marshal e) :: received id' docs'
  end.

Definition docs (cs : list change) : list event := flat_map (fun c => match c with Change e => [e] | Undecodable => [] end) cs.

Lemma sse_blank id m s : sse_from id (m +:+ nl) (String LF s) = (id, m) :: sse_from id "" s.
Proof.
  change (String LF s) with ("" +:+ String LF s). rewrite sse_from_line by done. cbn [sse_events].
  rewrite TrimSuffix_append. destruct (m +:+ nl =s? "") eqn:E; [|done]. bool_to_prop. by destruct m.
Qed.

Lemma sse_data id e s :
  sse_from id "" ("data: " +:+ (marshal e +:+ String LF (String LF s))) = (id, marshal e) :: sse_from id "" s.
Proof.
  rewrite <- append_assoc, sse_from_line by (by rewrite one_line_app, marshal_line).
  cbn [sse_events]. change (sse_field ("data: " +:+ marshal e)) with ("data", TrimPrefix (" " +:+ marshal e) " ").
  rewrite TrimPrefix_append. cbn. exact (sse_blank id (marshal e) s).
Qed.

Lemma sse_id id x s : one_line x = true -> no_byte NUL x = true ->
  sse_from id "" ("id: " +:+ (x +:+ String LF s)) = sse_from x "" s.
Proof.
  intros Hl Hn. rewrite <- append_assoc, sse_from_line by (by rewrite one_line_app, Hl).
  cbn [sse_events]. change (sse_field ("id: " +:+ x)) with ("id", TrimPrefix (" " +:+ x) " ").
  rewrite TrimPrefix_append. cbn. by rewrite Hn.
Qed.

Lemma sse_frame id e s : plain_id e = true ->
  sse_from id "" (frame marshal (Change e) +:+ s) =
    let id' := if event_string e "event_id" =s? "" then id else event_string e "event_id" in
    (id', marshal e) :: sse_from id' "" s.
Proof.
  unfold plain_id. intros [H1 H2]%andb_true_iff. unfold frame. rewrite append_assoc.
  replace (("data: " +:+ (marshal e +:+ (nl +:+ nl))) +:+ s) with ("data: " +:+ (marshal e +:+ String LF (String LF s)))
    by (rewrite !append_assoc; done).
  destruct (event_string e "event_id" =s? ""); cbv zeta; [exact (sse_data id e s)|].
  assert (Hi : forall i x, ("id: " +:+ (i +:+ nl)) +:+ x = "id: " +:+ (i +:+ String LF x)) by (intros; by rewrite !append_assoc).
  rewrite Hi, sse_id by done. apply sse_data.
Qed.

Lemma sse_frames cs : forall id,
  forallb plain_id (docs cs) = true -> sse_from id "" (frames marshal cs) = received id (docs cs).
Proof.
  induction cs as [|[e|] cs IH]; intros id; [done| |exact (IH id)].
  cbn [frames docs flat_map forallb app received]. intros [He Hcs]%andb_true_iff. rewrite sse_frame by done. cbv zeta.
  f_equal. exact (IH _ Hcs).
Qed.

(** The documents of the changes whose tenant is the reader's. *)
Lemma docs_matching orgID cs e : In e (docs (List.filter (matchesOrg orgID) cs)) ->
  In (Change e) cs /\ matchesOrg orgID (Change e) = true.
Proof.
  unfold docs. rewrite in_flat_map. intros (c & [Hc Hm]%List.filter_In & He). destruct c; [|done].
  destruct He as [->|[]]. done.
Qed.

(** C32: The stream says what was stored, to its tenant.  A stream that is
    served is read only under a tenant, and from the origin configured, or
    localhost outside production.  When the ids of its events are plain, a
    reader of server-sent events gets exactly the JSON of the changed
    documents of that tenant, in the order of the changes, each under its id
    or, when it has none, under the id before it; and every one of them is a
    document whose "org_id" is the tenant. *)
Theorem stream_roundtrip env flusher orgID watch hs body :
  StreamEvents marshal env flusher orgID watch = mkWritten StatusOK hs body ->
  exists changes, watch = Ok changes /\ orgID <> "" /\
    (exists origin, streamOrigin env = Some origin /\ In ("Access-Control-Allow-Origin", origin) hs) /\
    (forallb plain_id (docs (List.filter (matchesOrg orgID) changes)) = true ->
     sse_parse body = received "" (docs (List.filter (matchesOrg orgID) changes))) /\
    (forall e, In e (docs (List.filter (matchesOrg orgID) changes)) ->
       In (Change e) changes /\
       (event_string e "org_id" = orgID \/ exists l, e !! "org_id" = Some (JArr l) /\ In (JStr orgID) l)).
Proof.
  unfold StreamEvents. destruct (orgID =s? "") eqn:Eo; [done|]. bool_to_prop.
  destruct (streamOrigin env) as [origin|] eqn:Ev; [|done]. destruct (negb flusher); [done|].
  destruct watch as [changes|]; [|done]. intros Hw. injection Hw as Hh Hb. exists changes. split; [done|]. split; [done|].
  split; [exists origin; split; [done|]; rewrite <- Hh; do 3 right; by left|].
  split; [intros Hp; rewrite <- Hb; by apply sse_frames|]. intros e [Hi Hm]%docs_matching. split; [done|].
  unfold matchesOrg in Hm. unfold event_string. destruct (e !! "org_id") as [[]|]; try done.
  - left. by apply String.eqb_eq.
  - right. eexists. split; [done|]. apply existsb_exists in Hm as (x & Hx & Heq). apply json_eqb_eq in Heq. by subst x.
Qed.

(** ** From ingestion to the stream *)

Lemma received_In docs : forall id e, In e docs -> event_string e "event_id" <> "" ->
  In (event_string e "event_id", marshal e) (received id docs).
Proof.
  induction docs as [|d docs IH]; intros id e; [done|]. cbn [received]. intros [->|Hi] Hne; [left|right; by apply IH].
  by rewrite (proj2 (String.eqb_neq _ _) Hne).
Qed.

Lemma same_core_string g e k : same_core g e -> k ∉ stamped -> event_string e k = event_string g k.
Proof. intros Hc Hk. unfold event_string. by rewrite (Hc k Hk). Qed.

Variable hmac : string -> string -> string.
Variable secretKey : string.
Variable fmt_other : json -> string.

(** C30: What is ingested reaches the stream of its tenant.  When a batch that
    holds the message of an accepted event is committed by the consumer, and
    a reader of the same tenant follows the documents the collection gained,
    the reader gets an event under the id the sender chose, whose document
    has every member of the accepted one but for the three that the consumer
    writes. *)
Theorem ingested_event_streamed dlpURL dlpMode orgID b now dlp publish topic key e
    ts f batch m a a' new env hs body :
  Ingest dlpURL dlpMode orgID b now dlp publish = IngestResponse StatusAccepted (Some (topic, key, e)) ->
  unmarshal_map m = Ok (Some e) -> In m batch ->
  AuditChain.flush hmac secretKey fmt_other ts f batch a = (a', FlushCommitted) ->
  audit_events a' = audit_events a ++ new ->
  StreamEvents marshal env true orgID (Ok (map Change new)) = mkWritten StatusOK hs body ->
  forallb plain_id new = true -> key <> "" ->
  exists d, same_core e d /\ In (key, marshal d) (sse_parse body).
Proof.
  intros Hi Hm Hb Hf Hn Hs Hp Hk.
  assert (He : event_string e "org_id" = orgID /\ orgID <> "" /\ key = event_string e "event_id").
  { unfold Ingest in Hi. destruct (orgID =s? "") eqn:Eo; [done|]. destruct (unmarshal_map b) as [[g|]|]; [|done|done].
    destruct (_ && checkDLP _); [done|]. destruct (publish _ _ _); [done|]. injection Hi as _ <- <-. bool_to_prop.
    unfold event_string at 1. by rewrite stampEvent_org. }
  destruct He as (Ho & Hne & Hkey).
  apply flush_appends in Hf as (l & Hl & Hc). rewrite Hn in Hl. apply app_inv_head in Hl as <-.
  destruct (Hc eq_refl m Hb) as [[x Hx]|(g & d & Hg & Hd & Hcore)]; [congruence|]. assert (g = e) as -> by congruence.
  exists d. split; [done|].
  unfold StreamEvents in Hs. apply String.eqb_neq in Hne. rewrite Hne in Hs.
  destruct (streamOrigin env) as [origin|]; [|done]. cbn [negb] in Hs. injection Hs as _ Hbody.
  assert (Hdocs : forall cs, docs (List.filter (matchesOrg orgID) (map Change cs)) =
    List.filter (fun d => matchesOrg orgID (Change d)) cs).
  { induction cs as [|c cs IH]; [done|]. cbn [map List.filter]. destruct (matchesOrg orgID (Change c)); [|done].
    unfold docs in *. cbn [flat_map app]. by rewrite IH. }
  rewrite <- Hbody. unfold sse_parse. rewrite sse_frames.
  - rewrite Hkey, <- (same_core_string e d "event_id" Hcore) by set_solver. apply received_In.
    + rewrite Hdocs. apply List.filter_In. split; [done|]. unfold matchesOrg.
      rewrite (Hcore "org_id") by set_solver. unfold event_string in Ho. destruct (e !! "org_id") as [[]|]; try (by apply String.eqb_neq in Hne).
      rewrite Ho. apply String.eqb_refl.
    + by rewrite (same_core_string e d "event_id" Hcore), <- Hkey by set_solver.
  - rewrite Hdocs. rewrite forallb_forall in Hp |- *. intros x [Hx _]%List.filter_In. by apply Hp.
Qed.
End properties.

(** ** Examples *)

Module StreamExamples.

(** A rendering that keeps the id only. *)
Definition render (e : event) : string := if one_line (event_string e "text") then event_string e "text" else "{}".

Lemma render_line e : one_line (render e) = true.
Proof. unfold render. by destruct (one_line (event_string e "text")) eqn:E. Qed.

Definition dev : StreamEnv := mkStreamEnv "" "" "".
Definition docOf (org id text : string) : event :=
  members_map [("org_id", JStr org); ("event_id", JStr id); ("text", JStr text)].

Definition changes : res (list change) :=
  Ok [Change (docOf "org1" "e1" "one"); Change (docOf "org2" "e2" "two"); Undecodable; Change (docOf "org1" "" "three")].

Lemma stream_roundtrip_witness :
  sse_parse (wrBody (StreamEvents render dev true "org1" changes)) = [("e1", "one"); ("e1", "three")].
Proof.
  destruct (stream_roundtrip render render_line dev true "org1" changes _ _ eq_refl) as (cs & Hc & _ & _ & Hr & _).
  injection Hc as <-. exact (Hr eq_refl).
Defined.

(** An event on its way: accepted, stored in the chain, and streamed. *)
Definition sent : raw := Some (JObj [("event_id", JStr "e9"); ("text", JStr "hello")]).
Definition accepted : event := stampEvent "org1" 7 (members_map [("event_id", JStr "e9"); ("text", JStr "hello")]).
Definition message : raw := Some (JObj [("event_id", JStr "e9"); ("text", JStr "hello"); ("org_id", JStr "org1")]).
Definition stored : Audit := (exampleFlush quietFlush [message] (mkAudit ∅ [])).1.

Lemma ingested_event_streamed_witness :
  exists d, same_core accepted d /\
    In ("e9", render d) (sse_parse (wrBody (StreamEvents render dev true "org1" (Ok (map Change (audit_events stored)))))).
Proof.
  assert (Hm : unmarshal_map message = Ok (Some accepted)) by (vm_compute; reflexivity).
  assert (Hf : exampleFlush quietFlush [message] (mkAudit ∅ []) = (stored, FlushCommitted)) by (vm_compute; reflexivity).
  assert (Hp : forallb plain_id (audit_events stored) = true) by (vm_compute; reflexivity).
  apply (ingested_event_streamed render render_line exampleHmac "key" (fun _ => "") "" "audit" "org1" sent 7 (fun _ => DlpDown)
           (fun _ _ _ => None) "audit.trail" "e9" accepted (JNum 0) quietFlush [message] message (mkAudit ∅ []) stored
           (audit_events stored) dev (streamHeaders ++ [("Access-Control-Allow-Origin", "http://localhost:4200"); ("Access-Control-Allow-Credentials", "true")])).
  - reflexivity.
  - exact Hm.
  - by left.
  - exact Hf.
  - reflexivity.
  - reflexivity.
  - exact Hp.
  - discriminate.
Defined.

(** An event whose id holds a line end: the id is the sender's, and
    [IngestHandler.Ingest] keeps it.  The reader sees an event that was never
    stored. *)
Definition forgery : string := "x" +:+ (nl +:+ ("data: forged" +:+ (nl +:+ nl))).

Example event_id_forges :
  exists e, Ingest "" "audit" "org1" (Some (JObj [("event_id", JStr forgery); ("text", JStr "real")])) 7
              (fun _ => DlpDown) (fun _ _ _ => None) = IngestResponse StatusAccepted (Some ("audit.trail", forgery, e)) /\
    sse_parse (wrBody (StreamEvents render dev true "org1" (Ok [Change e]))) = [("x", "forged"); ("x", "real")].
Proof. eexists. split; reflexivity. Qed.
End StreamExamples.
