(* ===== verification/AlertStore.v ===== *)
(** The alert collection of the threat service and its HTTP handlers:
    services/threat/pkg/alert and pkg/handlers.  A collection is the list of
    its documents in insertion order; ObjectIDs are 96-bit numbers, whose
    hexadecimal form belongs to the MongoDB driver ([ObjectIDs]).  Instants
    are stored with millisecond precision. *)

From S2P Require Import Prelude GoStrings Json Http.
From stdpp Require Import gmap sorting.
From Stdlib Require Import DecimalString DecimalZ.

(** ** ObjectIDs of the MongoDB driver *)

(** [Hex] and [ObjectIDFromHex]. *)
Class ObjectIDs := {
  Hex : Z -> string;
  ObjectIDFromHex : string -> option Z;
}.

Class ObjectIDsLaws `{ObjectIDs} : Prop := {
  FromHex_Hex oid : ObjectIDFromHex (Hex oid) = Some oid;
  Hex_nonempty oid : Hex oid <> "";
}.

(** ** Data *)

Record Alert := mkAlert {
  alID : Z;
  alOrgID : string;
  alUserID : string;
  alDetector : string;
  alScore : Z;                       (* hundredths *)
  alSeverity : string;
  alStatus : string;
  alCreatedAt : Z;
  alResolvedAt : option Z;
  alMTTR : option Z;
  alMetadata : list (string * json);
}.

Definition set_alStatus (s : string) (a : Alert) : Alert :=
  mkAlert (alID a) (alOrgID a) (alUserID a) (alDetector a) (alScore a) (alSeverity a) s
    (alCreatedAt a) (alResolvedAt a) (alMTTR a) (alMetadata a).

(** A BSON date: milliseconds. *)
Definition bsonTime (t : Z) : Z := (t / Millisecond * Millisecond)%Z.

(** The document stored for an alert. *)
Definition alertDocument (oid : Z) (a : Alert) : Alert :=
  mkAlert oid (alOrgID a) (alUserID a) (alDetector a) (alScore a) (alSeverity a) (alStatus a)
    (bsonTime (alCreatedAt a)) (option_map bsonTime (alResolvedAt a)) (alMTTR a) (alMetadata a).

Definition ErrNoDocuments : goerr := ErrNew "mongo: no documents in result".
Definition ErrInvalidHex : goerr := ErrNew "the provided hex string is not a valid ObjectID".

(** ** Operations of the store *)

(** [Store.CreateAlert]: the collection, and the alert as the caller sees it
    afterwards; [insert] is the id the insertion yields, or its error. *)
Definition CreateAlert (now : Z) (a : Alert) (insert : res Z) (l : list Alert)
  : list Alert * Alert * option goerr :=
  let created := if (alCreatedAt a =? 0)%Z then now else alCreatedAt a in
  let st := if alStatus a =s? "" then "open" else alStatus a in
  let filled id := mkAlert id (alOrgID a) (alUserID a) (alDetector a) (alScore a) (alSeverity a) st
                     created (alResolvedAt a) (alMTTR a) (alMetadata a) in
  match insert with
  | Err e => (l, filled (alID a), Some e)
  | Ok oid => (l ++ [alertDocument oid (filled oid)], filled oid, None)
  end.

Definition hasID (oid : Z) (a : Alert) : bool := (alID a =? oid)%Z.

(** [UpdateOne] by id. *)
Definition update_one (oid : Z) (g : Alert -> Alert) (l : list Alert) : list Alert :=
  map (fun a => if hasID oid a then g a else a) l.

Definition desc (a b : Alert) : Prop := (alID b <= alID a)%Z.
#[global] Instance desc_dec : RelDecision desc.
Proof. intros a b. unfold desc. apply _. Defined.

(** The limit of a [Find]: zero is none, a negative one counts by its
    absolute value. *)
Definition find_limit {A} (n : Z) (l : list A) : list A :=
  if (n =? 0)%Z then l else firstn (Z.to_nat (Z.abs n)) l.

Section store.
Context `{ObjectIDs}.

Definition GetAlert (id : string) (l : list Alert) : res Alert :=
  match ObjectIDFromHex id with
  | None => Err ErrInvalidHex
  | Some oid => match find (hasID oid) l with Some a => Ok a | None => Err ErrNoDocuments end
  end.

(** The filter of [ListAlerts]; a cursor that is no ObjectID is ignored. *)
Definition list_filter (orgID status severity cursor : string) (a : Alert) : bool :=
  (alOrgID a =s? orgID) &&
  ((status =s? "") || (alStatus a =s? status)) &&
  ((severity =s? "") || (alSeverity a =s? severity)) &&
  (if cursor =s? "" then true
   else match ObjectIDFromHex cursor with
        | Some oid => (alID a <? oid)%Z
        | None => true
        end).

Definition ListAlerts (orgID status severity : string) (limit : Z) (cursor : string)
  (fault : option goerr) (l : list Alert) : res (list Alert * string) :=
  match fault with
  | Some e => Err e
  | None =>
      let alerts := find_limit limit
                      (merge_sort desc (List.filter (list_filter orgID status severity cursor) l)) in
      Ok (alerts, match last alerts with Some a => Hex (alID a) | None => "" end)
  end.

Definition AcknowledgeAlert (id : string) (fault : option goerr) (l : list Alert)
  : list Alert * option goerr :=
  match ObjectIDFromHex id with
  | None => (l, Some ErrInvalidHex)
  | Some oid =>
      match fault with
      | Some e => (l, Some e)
      | None => (update_one oid (set_alStatus "acknowledged") l, None)
      end
  end.

(** [int64(now.Sub(createdAt).Seconds())]. *)
Definition mttrSeconds (now created : Z) : Z := Z.quot (now - created) Second.

Definition resolved (now mttr : Z) (a : Alert) : Alert :=
  mkAlert (alID a) (alOrgID a) (alUserID a) (alDetector a) (alScore a) (alSeverity a) "resolved"
    (alCreatedAt a) (Some (bsonTime now)) (Some mttr) (alMetadata a).

(** [ffind], [fupdate]: failures of the two commands. *)
Definition ResolveAlert (now : Z) (id : string) (ffind fupdate : option goerr) (l : list Alert)
  : list Alert * option goerr :=
  match ObjectIDFromHex id with
  | None => (l, Some ErrInvalidHex)
  | Some oid =>
      match ffind, find (hasID oid) l with
      | Some e, _ => (l, Some e)
      | None, None => (l, Some ErrNoDocuments)
      | None, Some a =>
          match fupdate with
          | Some e => (l, Some e)
          | None => (update_one oid (resolved now (mttrSeconds now (alCreatedAt a))) l, None)
          end
      end
  end.

(** One group of [GetStats]: the number of alerts, and sum and number of the
    repair times averaged ([$avg] skips alerts without one). *)
Record Stat := mkStat { stCount : Z; stMTTRSum : Z; stMTTRCount : Z }.

Definition add_stat (m : gmap string Stat) (a : Alert) : gmap string Stat :=
  let s := default (mkStat 0 0 0) (m !! alSeverity a) in
  <[alSeverity a :=
      mkStat (stCount s + 1)
        (stMTTRSum s + default 0%Z (alMTTR a))
        (stMTTRCount s + match alMTTR a with Some _ => 1 | None => 0 end)]> m.

Definition GetStats (orgID : string) (fault : option goerr) (l : list Alert)
  : res (gmap string Stat) :=
  match fault with
  | Some e => Err e
  | None => Ok (fold_left add_stat (List.filter (fun a => alOrgID a =s? orgID) l) ∅)
  end.

(** ** Handlers *)

(** The query of a listing; [strconv.ParseInt] of the limit, 20 by default. *)
Definition alertLimit (limitStr : string) : Z :=
  if limitStr =s? "" then 20%Z else match Atoi limitStr with Some n => n | None => 20%Z end.

Variable alertDoc : Alert -> json.

(** The tenant is the [org_id] of the query. *)
Definition HandleListAlerts (orgID status severity cursor limitStr : string)
  (fault : option goerr) (l : list Alert) : Response :=
  match ListAlerts orgID status severity (alertLimit limitStr) cursor fault l with
  | Err e => mkResponse StatusInternalServerError [] (JStr (error_text e))
  | Ok (alerts, next) =>
      mkResponse StatusOK [("Content-Type", "application/json")]
        (JObj [("alerts", match alerts with [] => JNull | _ => JArr (map alertDoc alerts) end);
               ("next_cursor", JStr next)])
  end.

Definition HandleGetAlert (id : string) (l : list Alert) : Response :=
  match GetAlert id l with
  | Err _ => mkResponse StatusNotFound [] (JStr "Alert not found")
  | Ok a => mkResponse StatusOK [("Content-Type", "application/json")] (alertDoc a)
  end.

Definition HandleAcknowledgeAlert (id : string) (fault : option goerr) (l : list Alert)
  : list Alert * Response :=
  match AcknowledgeAlert id fault l with
  | (l', Some e) => (l', mkResponse StatusInternalServerError [] (JStr (error_text e)))
  | (l', None) => (l', mkResponse StatusNoContent [] JNull)
  end.

Definition HandleResolveAlert (now : Z) (id : string) (ffind fupdate : option goerr) (l : list Alert)
  : list Alert * Response :=
  match ResolveAlert now id ffind fupdate l with
  | (l', Some e) => (l', mkResponse StatusInternalServerError [] (JStr (error_text e)))
  | (l', None) => (l', mkResponse StatusNoContent [] JNull)
  end.
End store.

(** ** Scoring *)

(** [scorer.Severity], of a score in hundredths. *)
Definition Severity (score : Z) : string :=
  if (95 <=? score)%Z then "CRITICAL"
  else if (80 <=? score)%Z then "HIGH"
  else if (50 <=? score)%Z then "MEDIUM"
  else "LOW".

Section scorer.
(** Scores and their decay: an order and [exp(-lambda * minutes)] of the
    floating-point unit. *)
Variable F : Type.
Variable zero : F.
Variable ltF : F -> F -> bool.
Variable decay : F -> Z -> F.

Record Score := mkScore { scValue : F; scSource : string; scOccurredAt : Z }.

Definition scoreStep (now : Z) (acc : F * string) (s : Score) : F * string :=
  let d := decay (scValue s) (now - scOccurredAt s) in
  if ltF acc.1 d then (d, scSource s) else acc.

Definition CompositeScore (now : Z) (scores : list Score) : F * string :=
  match scores with
  | [] => (zero, "")
  | _ => fold_left (scoreStep now) scores (zero, "")
  end.
End scorer.

(** ** The listing *)

#[global] Instance desc_trans : Transitive desc.
Proof. intros a b c. unfold desc. lia. Qed.
#[global] Instance desc_total : Total desc.
Proof. intros a b. unfold desc. lia. Qed.

(** The strict order of a collection whose ids are unique. *)
Definition newer (a b : Alert) : Prop := (alID b < alID a)%Z.

Lemma descending_strict l :
  NoDup (map alID l) -> StronglySorted newer (merge_sort desc l).
Proof.
  intros Hn. pose proof (StronglySorted_merge_sort desc l) as Hs.
  assert (Hp : NoDup (map alID (merge_sort desc l))) by (by rewrite merge_sort_Permutation).
  revert Hs Hp. induction (merge_sort desc l) as [|a k IH]; [constructor|].
  intros [Ha Hk]%StronglySorted_cons Hp. simpl in Hp. apply NoDup_cons in Hp as [Hna Hp].
  apply StronglySorted_cons. split; [|auto].
  rewrite Forall_forall in Ha |- *. intros b Hb. specialize (Ha b Hb). unfold desc, newer in *.
  assert (alID a <> alID b); [|lia]. intros He. apply Hna. rewrite He. by apply list_elem_of_fmap_2.
Qed.

Lemma newer_unique l k : StronglySorted newer l -> StronglySorted newer k -> l ≡ₚ k -> l = k.
Proof. apply StronglySorted_unique_strong. unfold newer. intros ? ? _ _ H1 H2. lia. Qed.

Lemma NoDup_filter_ids (P : Alert -> bool) l : NoDup (map alID l) -> NoDup (map alID (List.filter P l)).
Proof. apply NoDup_map_sub, sublist_submseteq, filter_sublist. Qed.

(** What lies strictly below an element of a strictly descending list. *)
Lemma below_split l1 a l2 :
  StronglySorted newer (l1 ++ a :: l2) ->
  List.filter (fun b => alID b <? alID a)%Z (l1 ++ a :: l2) = l2.
Proof.
  rewrite StronglySorted_app, StronglySorted_cons, Forall_forall. intros (H1 & _ & Ha & _).
  rewrite List.filter_app. simpl. rewrite Z.ltb_irrefl, filter_none, filter_all; [done| |].
  - intros b Hb%list_elem_of_In. apply Z.ltb_lt. by apply Ha.
  - intros b Hb%list_elem_of_In. apply Z.ltb_ge.
    specialize (H1 b a Hb ltac:(left)). unfold newer in H1. lia.
Qed.

Section listing.
Context `{ObjectIDsLaws}.

(** The listing from a cursor, unlimited. *)
Definition listing (orgID status severity cursor : string) (l : list Alert) : list Alert :=
  merge_sort desc (List.filter (list_filter orgID status severity cursor) l).

Lemma listing_In org st sev c l a :
  In a (listing org st sev c l) <-> In a l /\ list_filter org st sev c a = true.
Proof.
  unfold listing. rewrite <- List.filter_In, <- !list_elem_of_In. by rewrite merge_sort_Permutation.
Qed.

Lemma listing_sorted org st sev c l :
  NoDup (map alID l) -> StronglySorted newer (listing org st sev c l).
Proof. intros Hn. by apply descending_strict, NoDup_filter_ids. Qed.

(** A cursor continues the listing where its alert stands. *)
Lemma listing_from org st sev c l l1 a l2 :
  NoDup (map alID l) ->
  listing org st sev c l = l1 ++ a :: l2 ->
  listing org st sev (Hex (alID a)) l = l2.
Proof.
  intros Hn Hl. pose proof (listing_sorted org st sev c l Hn) as Hs. rewrite Hl in Hs.
  assert (Ha : In a (listing org st sev c l)) by (rewrite Hl; apply in_or_app; right; by left).
  apply listing_In in Ha as [_ Ha].
  apply newer_unique; [by apply listing_sorted|by apply StronglySorted_app in Hs as (_ & _ & [_ ?]%StronglySorted_cons)|].
  transitivity (List.filter (fun b => alID b <? alID a)%Z (listing org st sev c l));
    [|by rewrite Hl, below_split].
  unfold listing. rewrite merge_sort_Permutation.
  etransitivity; [|apply filter_perm; symmetry; apply merge_sort_Permutation].
  rewrite filter_filter_bool. erewrite List.filter_ext; [reflexivity|]. intros b. simpl.
  unfold list_filter in *. rewrite FromHex_Hex.
  destruct (String.eqb_spec (Hex (alID a)) "") as [He|_]; [by apply Hex_nonempty in He|].
  rewrite <- !andb_assoc. do 3 f_equal.
  destruct (alID b <? alID a)%Z eqn:Hb; [|by rewrite andb_false_r]. rewrite andb_true_r.
  bool_to_prop. destruct (c =s? ""); [done|]. destruct (ObjectIDFromHex c); [|done].
  bool_to_prop. symmetry. apply Z.ltb_lt. lia.
Qed.

Lemma ListAlerts_ok org st sev n c l p c' :
  (0 < n)%Z -> ListAlerts org st sev n c None l = Ok (p, c') ->
  p = firstn (Z.to_nat n) (listing org st sev c l) /\
  c' = match last p with Some a => Hex (alID a) | None => "" end.
Proof.
  intros Hn [= <- <-]. unfold find_limit, listing.
  rewrite (proj2 (Z.eqb_neq n 0)), Z.abs_eq by lia. done.
Qed.

(** Pages concatenate: the alerts of a page followed by those of the page
    requested with its cursor are the alerts of one page of the joint size, so
    following the cursors visits the tenant's matching alerts once each,
    newest first, until an empty page. *)
Theorem ListAlerts_pagination org st sev n m c l p1 c1 p2 c2 :
  NoDup (map alID l) -> (0 < n)%Z -> (0 < m)%Z ->
  ListAlerts org st sev n c None l = Ok (p1, c1) -> p1 <> [] ->
  ListAlerts org st sev m c1 None l = Ok (p2, c2) ->
  ListAlerts org st sev (n + m) c None l = Ok (p1 ++ p2, if decide (p2 = []) then c1 else c2) /\
  StronglySorted newer (p1 ++ p2) /\
  (p2 = [] -> forall a, In a p1 <-> In a l /\ list_filter org st sev c a = true).
Proof.
  intros Hnd Hn Hm [Hp1 Hc1]%ListAlerts_ok Hne [Hp2 Hc2]%ListAlerts_ok; [|done|done].
  destruct (exists_last Hne) as (q & a & Hq). rewrite Hq, last_snoc in Hc1. subst c1.
  pose proof (take_drop (Z.to_nat n) (listing org st sev c l)) as Hsplit.
  change (take (Z.to_nat n)) with (@firstn Alert (Z.to_nat n)) in Hsplit.
  rewrite <- Hp1, Hq, <- (assoc_L (++)) in Hsplit. simpl in Hsplit.
  rewrite (listing_from org st sev c l q a _ Hnd (eq_sym Hsplit)) in Hp2.
  assert (Hj : firstn (Z.to_nat (n + m)) (listing org st sev c l) = p1 ++ p2).
  { rewrite Z2Nat.inj_add by lia. rewrite <- take_take_drop. by rewrite Hp2, Hp1. }
  split_and!.
  - unfold ListAlerts, find_limit. fold (listing org st sev c l).
    rewrite (proj2 (Z.eqb_neq (n + m) 0)), Z.abs_eq, Hj by lia. repeat f_equal.
    case_decide as Hd; [subst p2; by rewrite Hd, app_nil_r, Hq, last_snoc|].
    subst c2. rewrite last_app. by destruct (last p2) eqn:E; [|apply last_None in E].
  - rewrite <- Hj. pose proof (listing_sorted org st sev c l Hnd) as Hs.
    rewrite <- (take_drop (Z.to_nat (n + m))) in Hs. by apply StronglySorted_app in Hs as (_ & ? & _).
  - intros Hd b. rewrite <- listing_In. rewrite <- Hsplit, Hq.
    replace (drop (Z.to_nat n) (listing org st sev c l)) with (@nil Alert); [done|].
    rewrite Hd in Hp2. symmetry in Hp2. by destruct (drop _ _), (Z.to_nat m) eqn:E; try lia.
Qed.
End listing.

Lemma ListAlerts_In `{ObjectIDs} org st sev n c l p c' a :
  ListAlerts org st sev n c None l = Ok (p, c') -> a ∈ p ->
  In a l /\ list_filter org st sev c a = true.
Proof.
  intros [= <- _] Ha.
  assert (a ∈ merge_sort desc (List.filter (list_filter org st sev c) l)) as Hin.
  { unfold find_limit in Ha. destruct (n =? 0)%Z; [done|]. by eapply subseteq_take. }
  by rewrite merge_sort_Permutation, list_elem_of_In, List.filter_In in Hin.
Qed.

(** Alerts of one tenant only are listed, whatever the query's other fields. *)
Lemma ListAlerts_tenant `{ObjectIDs} org st sev n c l p c' :
  ListAlerts org st sev n c None l = Ok (p, c') -> Forall (fun a => alOrgID a = org) p.
Proof.
  intros Hl. apply Forall_forall. intros a [_ Hf]%(ListAlerts_In _ _ _ _ _ _ _ _ _ Hl).
  unfold list_filter in Hf. bool_to_prop. done.
Qed.

Lemma ListAlerts_subset `{ObjectIDs} org st sev n c l p c' :
  ListAlerts org st sev n c None l = Ok (p, c') -> p ⊆ l.
Proof.
  intros Hl a [Ha _]%(ListAlerts_In _ _ _ _ _ _ _ _ _ Hl). by apply list_elem_of_In.
Qed.

(** ** Acknowledging and resolving *)

Lemma update_one_ids oid g l :
  (forall a, alID (g a) = alID a) -> map alID (update_one oid g l) = map alID l.
Proof.
  intros Hg. unfold update_one. rewrite map_map. apply map_ext. intros a. by case_match.
Qed.

(** Resolving sets status, instant and time to repair of the alert named,
    from its own creation date; any failure leaves the collection as it is. *)
Lemma ResolveAlert_spec `{ObjectIDs} now id f1 f2 l l' e :
  ResolveAlert now id f1 f2 l = (l', e) ->
  match e with
  | Some _ => l' = l
  | None =>
      exists oid a, ObjectIDFromHex id = Some oid /\ find (hasID oid) l = Some a /\
        l' = update_one oid (resolved now (mttrSeconds now (alCreatedAt a))) l
  end.
Proof. unfold ResolveAlert. intros Hr. repeat case_match; simplify_eq; eauto 6. Qed.

(** No guard on the status: acknowledging a resolved alert takes it back to
    "acknowledged", with the resolution's date and time to repair kept. *)
Lemma acknowledge_after_resolve `{ObjectIDs} now id l l1 l2 oid a :
  ObjectIDFromHex id = Some oid -> find (hasID oid) l = Some a ->
  ResolveAlert now id None None l = (l1, None) ->
  AcknowledgeAlert id None l1 = (l2, None) ->
  exists b, find (hasID oid) l2 = Some b /\ alStatus b = "acknowledged" /\
    alResolvedAt b = Some (bsonTime now) /\ alMTTR b = Some (mttrSeconds now (alCreatedAt a)).
Proof.
  unfold ResolveAlert, AcknowledgeAlert. intros Hid Hf. rewrite Hid, Hf. intros [= <-] [= <-].
  unfold update_one. rewrite map_map.
  generalize (mttrSeconds now (alCreatedAt a)). intros mttr. clear -Hf.
  induction l as [|b l IH]; simpl in *; [done|].
  destruct (hasID oid b) eqn:Hb.
  - simplify_eq. eexists. unfold hasID in *. simpl. rewrite Hb. simpl. rewrite Hb. done.
  - rewrite Hb. rewrite Hb. auto.
Qed.

(** ** A concrete collection *)

Module MiniMongo.
#[global] Instance ids : ObjectIDs :=
  {| Hex oid := "x" +:+ itoa oid;
     ObjectIDFromHex s :=
       match s with
       | String _ t => option_map Z.of_int (NilEmpty.int_of_string t)
       | EmptyString => None
       end |}.

#[global] Instance ids_laws : ObjectIDsLaws.
Proof.
  split; intros oid; [|done].
  change (option_map Z.of_int (NilEmpty.int_of_string (itoa oid)) = Some oid).
  unfold itoa. rewrite NilEmpty.isi. simpl. by rewrite DecimalZ.of_to.
Qed.

Definition exampleAlert (oid : Z) (org : string) : Alert :=
  mkAlert oid org "u" "off_hours_access" 50 "MEDIUM" "open" 0 None None [].

Definition exampleAlerts : list Alert :=
  [exampleAlert 1 "o"; exampleAlert 2 "p"; exampleAlert 3 "o"; exampleAlert 4 "o"].
End MiniMongo.
Import MiniMongo.

Lemma ListAlerts_pagination_witness :
  ListAlerts "o" "" "" (2 + 2) "" None exampleAlerts =
    Ok ([exampleAlert 4 "o"; exampleAlert 3 "o"] ++ [exampleAlert 1 "o"], "x1").
Proof.
  assert (Hp : NoDup (map alID exampleAlerts)) by (vm_compute; repeat constructor; set_solver).
  by apply (ListAlerts_pagination "o" "" "" 2 2 "" exampleAlerts
              [exampleAlert 4 "o"; exampleAlert 3 "o"] "x3" [exampleAlert 1 "o"] "x1" Hp).
Defined.
