(* ===== verification/Threat.v ===== *)
(** The threat detectors: services/threat/pkg/detector.  State is
    Redis, the alert collection and the messages published on
    "threat.alerts"; event payloads, the clock and outages are inputs.
    Scores are in hundredths; a message that is [null] decodes to a nil map,
    whose members read as absent. *)

From S2P Require Import Prelude GoStrings Json Redis AlertStore.
From stdpp Require Import gmap.
From Stdlib Require Import Ascii.

(** ** Alerts *)

Record ThreatState (R : Type) := mkThreatState {
  tsRedis : R;
  tsAlerts : list Alert;
  tsPublished : list (string * Alert);
}.
Arguments mkThreatState {R} _ _ _.
Arguments tsRedis {R} _.
Arguments tsAlerts {R} _.
Arguments tsPublished {R} _.

Definition set_tsRedis {R} (r : R) (st : ThreatState R) : ThreatState R :=
  mkThreatState r (tsAlerts st) (tsPublished st).

(** What the collaborators of one alert do: the id MongoDB assigns or its
    error, and the error of Kafka. *)
Record emitFaults := mkEmitFaults { efStore : res Z; efPublish : option goerr }.

(** [primitive.NilObjectID]. *)
Definition nilObjectID : Z := 0.

Section detectors.
Context {R : Type} `{Redis R} `{ObjectIDs}.
(** [json.Marshal] of an alert, as cached. *)
Variable alertDoc : Alert -> json.

(** The common tail of the detectors' [publishThreatEvent]: persist, publish,
    cache; errors are only logged. *)
Definition emit (now : Z) (f : emitFaults) (cacheKey : string) (a : Alert) (st : ThreatState R)
  : ThreatState R :=
  let '(alerts, a', _) := CreateAlert now a (efStore f) (tsAlerts st) in
  let published := match efPublish f with
                   | None => tsPublished st ++ [(Hex (alID a'), a')]
                   | Some _ => tsPublished st
                   end in
  mkThreatState (rset now (tsRedis st) cacheKey (RDoc (alertDoc a')) (24 * Hour)).1 alerts published.

Definition newAlert (org user detector : string) (score : Z) (severity : string)
  (metadata : list (string * json)) : Alert :=
  mkAlert nilObjectID org user detector score severity "" 0 None None metadata.

(** ** Brute force *)

Definition WindowSize : Z := (5 * Minute)%Z.
Definition ThreatTTL : Z := (24 * Hour)%Z.

(** [now.UnixNano() / int64(time.Millisecond)]. *)
Definition millis (now : Z) : Z := Z.quot now Millisecond.

(** The index of [parts[2]] in the key. *)
Definition keySubject (key : string) : string :=
  let parts := Split ":"%char key in
  if 3 <=? length parts then nth 2 parts "" else "".

Definition publishBruteForce (now : Z) (f : emitFaults) (key : string) (count : Z)
  (st : ThreatState R) : ThreatState R :=
  emit now f ("threat:" +:+ key)
    (newAlert "" (keySubject key) "brute_force" 90 "HIGH" [("attempts", JNum count); ("key", JStr key)]) st.

(** The pipeline of a sliding window of length [window] (milliseconds):
    [ZAdd; ZRemRangeByScore; ZCard; Expire]; the count, and the first error. *)
Definition slidingWindow (now : Z) (key member : string) (window ttl : Z) (r : R) : R * res Z :=
  let n := millis now in
  let '(r1, e1) := rzadd now r key n member in
  let '(r2, e2) := rzremrangebyscore now r1 key (n - window)%Z in
  let c := rzcard now r2 key in
  let '(r3, e4) := rexpire now r2 key ttl in
  (r3, match e1, e2, c, e4 with
       | Some e, _, _, _ | None, Some e, _, _ => Err e
       | None, None, Err e, _ => Err e
       | None, None, Ok _, Some e => Err e
       | None, None, Ok n, None => Ok n
       end).

Definition trackFailedAttempt (maxAttempts now : Z) (member : string) (f : emitFaults) (key : string)
  (st : ThreatState R) : ThreatState R * option goerr :=
  match slidingWindow now key member (WindowSize / Millisecond) WindowSize (tsRedis st) with
  | (r, Err e) => (set_tsRedis r st, Some e)
  | (r, Ok count) =>
      let st1 := set_tsRedis r st in
      if (maxAttempts <=? count)%Z then
        match rsetnx now r ("alert_fired:" +:+ key) (RText "1") WindowSize with
        | (r', Ok true) => (publishBruteForce now f key count (set_tsRedis r' st1), None)
        | (r', _) => (set_tsRedis r' st1, None)
        end
      else (st1, None)
  end.

(** [processEvent]; the two members of the sorted sets are fresh uuids. *)
Definition processBruteForce (maxAttempts now : Z) (m1 m2 : string) (f : emitFaults) (value : raw)
  (st : ThreatState R) : ThreatState R * option goerr :=
  match unmarshal_map value with
  | Err _ => (st, None)
  | Ok event =>
      let eventType := get_string event "event_type" in
      if negb (eventType =s? "login.failed") && negb (eventType =s? "auth.failed") then (st, None)
      else
        let ip := get_string event "ip" in
        let email := get_string event "email" in
        let '(st1, e1) :=
          if ip =s? "" then (st, None)
          else trackFailedAttempt maxAttempts now m1 f ("bruteforce:ip:" +:+ ip) st in
        match e1 with
        | Some e => (st1, Some e)
        | None =>
            if email =s? "" then (st1, None)
            else trackFailedAttempt maxAttempts now m2 f ("bruteforce:user:" +:+ email) st1
        end
  end.

(** [NewBruteForceDetector]: [strconv.ParseInt] of the setting. *)
Definition maxAttemptsOf (env : string) : Z :=
  if env =s? "" then 11%Z else match Atoi env with Some n => n | None => 11%Z end.

Definition CheckRateLimit (maxAttempts now : Z) (key : string) (r : R) : bool * Z :=
  match rzcard now r key with
  | Err _ => (false, 0%Z)
  | Ok count => ((count <? maxAttempts)%Z, count)
  end.

(** ** Off hours *)

Definition isOffHours (offStart offEnd hour : Z) : bool :=
  if (offEnd <? offStart)%Z then (offStart <=? hour)%Z || (hour <? offEnd)%Z
  else (offStart <=? hour)%Z && (hour <? offEnd)%Z.

(** The hour of the day, UTC, of an instant, and the number of its day; a
    date is rendered by [dateOf]. *)
Definition Day : Z := (24 * Hour)%Z.
Definition hourOf (now : Z) : Z := ((now mod Day) / Hour)%Z.
Definition dayOf (now : Z) : Z := (now / Day)%Z.

(** [Format("2006-01-02")] of a day number. *)
Variable dateOf : Z -> string.

Definition offHoursKey (orgID userID : string) (day : Z) : string :=
  "offhours:" +:+ (orgID +:+ (":" +:+ (userID +:+ (":" +:+ dateOf day)))).

(** The loop over the last days: whether all of them were in hours. *)
Fixpoint previousInHours (now : Z) (orgID userID : string) (days : list Z) (r : R) : res bool :=
  match days with
  | [] => Ok true
  | i :: ds =>
      let prevKey := offHoursKey orgID userID (dayOf now - i) in
      ex <-? rexists now r prevKey;
      if ex : bool then
        v <-? rget now r prevKey;
        match v with
        | None => Err (ErrNew "redis: nil")
        | Some v => if decide (v = RText "1") then previousInHours now orgID userID ds r else Ok false
        end
      else previousInHours now orgID userID ds r
  end.

Definition publishOffHours (now : Z) (f : emitFaults) (orgID userID : string) (hour : Z)
  (st : ThreatState R) : ThreatState R :=
  emit now f ("threat:offhours:" +:+ (orgID +:+ (":" +:+ userID)))
    (newAlert orgID userID "off_hours_access" 50 "MEDIUM" [("hour", JNum hour)]) st.

Definition processOffHours (offStart offEnd now : Z) (f : emitFaults) (value : raw) (st : ThreatState R)
  : ThreatState R * option goerr :=
  match unmarshal_map value with
  | Err _ => (st, None)
  | Ok event =>
      if negb (get_string event "event_type" =s? "auth.login.success") then (st, None)
      else
        let userID := get_string event "user_id" in
        let orgID := get_string event "org_id" in
        if (userID =s? "") || (orgID =s? "") then (st, None)
        else
          let hour := hourOf now in
          if isOffHours offStart offEnd hour then
            match previousInHours now orgID userID [1; 2; 3]%Z (tsRedis st) with
            | Err e => (st, Some e)
            | Ok false => (st, None)
            | Ok true =>
                (publishOffHours now f orgID userID hour st, None)
            end
          else
            match rset now (tsRedis st) (offHoursKey orgID userID (dayOf now)) (RText "1") (7 * 24 * Hour) with
            | (r, e) => (set_tsRedis r st, e)
            end
  end.

(** ** Account takeover *)

(** SHA-256, in hexadecimal. *)
Variable sha256hex : string -> string.

Definition computeFingerprint (ua al pl : string) : string :=
  sha256hex (ua +:+ ("|" +:+ (al +:+ ("|" +:+ pl)))).

Definition pwchangeKey (userID : string) : string := "ato:pwchange:" +:+ userID.
Definition devicesKey (userID : string) : string := "ato:devices:" +:+ userID.

Definition processTakeover (now : Z) (f : emitFaults) (value : raw) (st : ThreatState R)
  : ThreatState R * option goerr :=
  match unmarshal_map value with
  | Err _ => (st, None)
  | Ok event =>
      let eventType := get_string event "event_type" in
      let userID := get_string event "user_id" in
      if userID =s? "" then (st, None)
      else if eventType =s? "password.changed" then
        match rset now (tsRedis st) (pwchangeKey userID) (RText "1") (24 * Hour) with
        | (r, e) => (set_tsRedis r st, e)
        end
      else if eventType =s? "auth.login.success" then
        match rexists now (tsRedis st) (pwchangeKey userID) with
        | Err e => (st, Some e)
        | Ok ex =>
            let fingerprint := computeFingerprint (get_string event "user_agent")
                                 (get_string event "accept_language") (get_string event "platform") in
            let deviceKey := devicesKey userID in
            match rsismember now (tsRedis st) deviceKey fingerprint with
            | Err e => (st, Some e)
            | Ok isKnown =>
                let st1 :=
                  if ex && negb isKnown
                  then emit now f ("threat:ato:" +:+ userID)
                         (newAlert "" userID "account_takeover" 70 "HIGH" [("fingerprint", JStr fingerprint)]) st
                  else st in
                match pipe_then (fun r => rsadd now r deviceKey fingerprint)
                                (fun r => rexpire now r deviceKey (30 * 24 * Hour)) (tsRedis st1) with
                | (r, e) => (set_tsRedis r st1, e)
                end
            end
        end
      else (st, None)
  end.

(** ** Privilege escalation *)

Definition loginKey (userID : string) : string := "privsec:login:" +:+ userID.

Definition processAuthEvent (now : Z) (value : raw) (st : ThreatState R)
  : ThreatState R * option goerr :=
  match unmarshal_map value with
  | Err _ => (st, None)
  | Ok event =>
      if get_string event "event_type" =s? "auth.login.success" then
        let userID := get_string event "user_id" in
        if userID =s? "" then (st, None)
        else match rset now (tsRedis st) (loginKey userID) (RText "1") Hour with
             | (r, e) => (set_tsRedis r st, e)
             end
      else (st, None)
  end.

Definition publishEscalation (now : Z) (f : emitFaults) (actorID targetID action : string)
  (st : ThreatState R) : ThreatState R :=
  emit now f ("threat:privesc:" +:+ actorID)
    (newAlert "" actorID "privilege_escalation" 90 "HIGH"
       [("target_id", JStr targetID); ("action", JStr action)]) st.

Definition processPolicyEvent (now : Z) (f : emitFaults) (value : raw) (st : ThreatState R)
  : ThreatState R * option goerr :=
  match unmarshal_map value with
  | Err _ => (st, None)
  | Ok event =>
      let action := get_string event "action" in
      if (action =s? "role.grant") || Contains action "policy.changed" then
        let actorID := get_string event "actor_id" in
        let targetID := get_string event "target_id" in
        if actorID =s? "" then (st, None)
        else match rexists now (tsRedis st) (loginKey actorID) with
             | Err e => (st, Some e)
             | Ok true =>
                 (publishEscalation now f actorID targetID action st, None)
             | Ok false => (st, None)
             end
      else (st, None)
  end.

(** ** Data exfiltration *)

(** The baseline as the float arithmetic of the code sees it: whether the mean
    is zero, and whether [float64(count) > mean + 3*stddev], for the values
    stored under the two keys (absent or unparsable ones read as 0). *)
Variable meanIsZero : option rval -> bool.
Variable exceeds3Sigma : Z -> option rval -> option rval -> bool.
(** [json.Marshal] of such a value read as a number. *)
Variable baselineDoc : option rval -> json.

Definition readValue (now : Z) (r : R) (key : string) : option rval :=
  match rget now r key with Ok v => v | Err _ => None end.

Definition alertExfiltration (now : Z) (f : emitFaults) (orgID userID : string) (count : Z)
  (mean stddev : option rval) (st : ThreatState R) : ThreatState R :=
  emit now f ("threat:exfiltration:" +:+ (orgID +:+ (":" +:+ userID)))
    (newAlert orgID userID "data_exfiltration" 70 "HIGH"
       [("count", JNum count); ("mean", baselineDoc mean); ("stddev", baselineDoc stddev)]) st.

Definition processExfiltration (now : Z) (member : string) (f : emitFaults) (value : raw)
  (st : ThreatState R) : ThreatState R * option goerr :=
  match unmarshal_map value with
  | Err _ => (st, None)
  | Ok event =>
      let userID := get_string event "user_id" in
      let orgID := get_string event "org_id" in
      if (userID =s? "") || (orgID =s? "") then (st, None)
      else
        let key := "access:" +:+ (orgID +:+ (":" +:+ userID)) in
        match slidingWindow now key member (Hour / Millisecond) Hour (tsRedis st) with
        | (r, Err e) => (set_tsRedis r st, Some e)
        | (r, Ok count) =>
            let st1 := set_tsRedis r st in
            let mean := readValue now r ("baseline:" +:+ (orgID +:+ ":access_mean")) in
            let stddev := readValue now r ("baseline:" +:+ (orgID +:+ ":access_stddev")) in
            let alert := alertExfiltration now f orgID userID count mean stddev in
            if meanIsZero mean
            then ((if (1000 <? count)%Z then alert st1 else st1), None)
            else ((if exceeds3Sigma count mean stddev then alert st1 else st1), None)
        end
  end.
End detectors.

(** ** Impossible travel *)

Section travel.
Context {R : Type} `{Redis R} `{ObjectIDs}.
Variable alertDoc : Alert -> json.
(** Floating-point numbers, and geolocation ([net.ParseIP], [db.City]). *)
Variable F : Type.
Variable haversine : F -> F -> F -> F -> F.
Variable above : F -> F -> bool.                    (* [x > y] *)
Variable geolocate : string -> option (F * F).
(** [json.Marshal] and [json.Unmarshal] of [LastLogin]. *)
Record LastLogin := mkLastLogin { llIP : string; llLat : F; llLon : F; llTimestamp : Z }.
Variable loginDoc : LastLogin -> json.
Variable loginOf : raw -> res LastLogin.
Variable floatDoc : F -> json.
(** [json.Marshal] of a duration's seconds. *)
Variable secondsDoc : Z -> json.

Definition windowSecs : Z := 3600.

(** [detect]: the time difference compared in seconds. *)
Definition isImpossible (threshold : F) (last current : LastLogin) : bool :=
  if llIP last =s? llIP current then false
  else above (haversine (llLat last) (llLon last) (llLat current) (llLon current)) threshold &&
       (llTimestamp current - llTimestamp last <? windowSecs * Second)%Z.

Definition travelAlert (userID : string) (last current : LastLogin) : Alert :=
  newAlert "" userID "impossible_travel" 90 "HIGH"
    [("distance_km", floatDoc (haversine (llLat last) (llLon last) (llLat current) (llLon current)));
     ("time_delta_sec", secondsDoc (llTimestamp current - llTimestamp last)%Z)].

(** The Lua script reads the previous value and stores the new one; it runs
    atomically, [fault] is its failure, before or after it took effect. *)
Definition getSet (now : Z) (key : string) (v : rval) (ttl : Z) (fault : option (goerr * bool)) (r : R)
  : R * res (option rval) :=
  let old := rget now r key in
  let '(r', e) := rset now r key v ttl in
  match fault with
  | Some (err, applied) => ((if applied then r' else r), Err err)
  | None =>
      match old, e with
      | Ok o, None => (r', Ok o)
      | Err err, _ => (r, Err err)
      | Ok _, Some err => (r', Err err)
      end
  end.

Definition processTravel (threshold : F) (now : Z) (f : emitFaults) (fault : option (goerr * bool))
  (value : raw) (st : ThreatState R) : ThreatState R * option goerr :=
  match unmarshal_map value with
  | Err _ => (st, None)
  | Ok event =>
      if negb (get_string event "event_type" =s? "auth.login.success") then (st, None)
      else
        let userID := get_string event "user_id" in
        let ipStr := get_string event "ip" in
        if (userID =s? "") || (ipStr =s? "") then (st, None)
        else match geolocate ipStr with
        | None => (st, None)
        | Some (lat, lon) =>
            let current := mkLastLogin ipStr lat lon now in
            match getSet now ("travel:" +:+ userID) (RDoc (loginDoc current)) (windowSecs * Second) fault
                    (tsRedis st) with
            | (r, Err e) => (set_tsRedis r st, Some e)
            | (r, Ok None) => (set_tsRedis r st, None)
            | (r, Ok (Some old)) =>
                let st1 := set_tsRedis r st in
                match loginOf (rval_raw old) with
                | Err _ => (st1, None)
                | Ok last =>
                    if isImpossible threshold last current
                    then (emit alertDoc now f ("threat:travel:" +:+ userID) (travelAlert userID last current) st1, None)
                    else (st1, None)
                end
            end
        end
  end.
End travel.
