(* ===== verification/ThreatSpec.v ===== *)
(** What the threat detectors promise, proved of the definitions of
    [Threat] against any Redis that satisfies its documented laws: each
    detector is compared with a reference that only looks at the history of
    the events it has processed. *)

From S2P Require Import Prelude GoStrings Json Redis AlertStore Threat.
From stdpp Require Import gmap.
From Stdlib Require Import Ascii.

(** ** Sliding windows *)

Lemma millis_mono a b : (a <= b)%Z -> (millis a <= millis b)%Z.
Proof. intros H. unfold millis, Millisecond. by apply Z.quot_le_mono. Qed.

Lemma millis_add now w : (0 <= now)%Z -> (0 <= w)%Z ->
  millis (now + w * Millisecond) = (millis now + w)%Z.
Proof. intros. unfold millis, Millisecond. apply Z.quot_add; nia. Qed.

(** Attempts: instant and member of the sorted set. *)
Definition since (b : Z) (h : list (Z * string)) : list (Z * string) :=
  List.filter (fun a => b <? millis a.1)%Z h.

(** The attempts a window of [w] milliseconds ending now still holds. *)
Definition recent (w now : Z) (h : list (Z * string)) : Z :=
  Z.of_nat (length (since (millis now - w) h)).

Lemma drop_upto_empty b : drop_upto b ∅ = ∅.
Proof. apply map_filter_empty. Qed.

Lemma drop_upto_insert b m n z : z !! m = None ->
  size (drop_upto b (<[m := n]> z)) = ((if (b <? n)%Z then 1 else 0) + size (drop_upto b z))%nat.
Proof.
  intros Hm. unfold drop_upto. destruct (b <? n)%Z eqn:E; bool_to_prop.
  - rewrite map_filter_insert_True by done. rewrite map_size_insert_None; [done|].
    apply map_lookup_filter_None. by left.
  - rewrite map_filter_insert_False by (simpl; lia). by rewrite delete_id.
Qed.

Lemma drop_upto_twice b c z : (c <= b)%Z -> drop_upto b (drop_upto c z) = drop_upto b z.
Proof.
  intros H. unfold drop_upto. rewrite map_filter_filter. apply map_filter_ext.
  intros i x _. simpl. lia.
Qed.

Section window.
Context {R : Type} `{RedisLaws R}.

(** The live sorted set of a key holds the attempts of the window, at every
    later instant; once the key has expired no attempt is in the window. *)
Definition WindowInv (w : Z) (key : string) (now : Z) (h : list (Z * string)) (r : R) : Prop :=
  Forall (fun a => 0 <= a.1 <= now)%Z h /\
  forall t, (now <= t)%Z ->
  match rview t r key with
  | None => Forall (fun a => millis a.1 <= millis t - w)%Z h
  | Some (RZSet z) =>
      (forall m, is_Some (z !! m) -> m ∈ map snd h) /\
      forall b, (millis t - w <= b)%Z -> size (drop_upto b z) = length (since b h)
  | Some _ => False
  end.

Lemma WindowInv_later w key now now' h r r' :
  WindowInv w key now h r -> (now <= now')%Z ->
  (forall t, (now' <= t)%Z -> rview t r' key = rview t r key) -> WindowInv w key now' h r'.
Proof.
  intros [Ht Hv] Hle Heq. split.
  - eapply Forall_impl; [exact Ht|]. simpl. lia.
  - intros t Hnt. rewrite Heq by done. apply Hv. lia.
Qed.

Lemma since_none b h : Forall (fun a => millis a.1 <= b)%Z h -> since b h = [].
Proof.
  intros Hf. apply filter_none. intros a Ha%list_elem_of_In.
  rewrite Forall_forall in Hf. apply Z.ltb_ge. by apply Hf.
Qed.

(** The sorted set the pipeline's first command leaves. *)
Lemma zadd_view w key now0 now h r r1 m :
  WindowInv w key now0 h r -> (now0 <= now)%Z -> m ∉ map snd h ->
  rzadd now r key (millis now) m = (r1, None) ->
  exists z, rview now r1 key = Some (RZSet z) /\
    (forall m', is_Some (z !! m') -> m' ∈ map snd ((now, m) :: h)) /\
    forall b, (millis now - w <= b)%Z -> size (drop_upto b z) = length (since b ((now, m) :: h)).
Proof.
  intros [_ Hv] Hle Hm Hz. specialize (Hv now Hle).
  pose proof (rzadd_type _ _ _ _ _ _ Hz) as Hty.
  apply rzadd_applied in Hz as [Hz|[? _]]; [|done].
  specialize (Hz now key ltac:(lia)). unfold view_of, view_touch in Hz.
  rewrite decide_True in Hz by done.
  assert (Hlen : forall b, length (since b ((now, m) :: h)) =
                   ((if (b <? millis now)%Z then 1 else 0) + length (since b h))%nat).
  { intros b. unfold since. simpl. by destruct (b <? millis now)%Z. }
  destruct Hty as [E|[z E]]; rewrite E in Hv, Hz; simpl in Hz; eexists; (split; [exact Hz|]); split.
  - intros m' [x [<- _]%lookup_singleton_Some]. simpl. left.
  - intros b Hb. rewrite Hlen, <- insert_empty, drop_upto_insert, drop_upto_empty, map_size_empty by done.
    rewrite since_none; [done|]. eapply Forall_impl; [exact Hv|]. simpl. lia.
  - intros m' Hs. simpl. apply lookup_insert_is_Some in Hs as [->|[_ Hs]]; [left|right].
    by apply Hv.
  - intros b Hb. rewrite Hlen, drop_upto_insert; [f_equal; by apply Hv|].
    apply eq_None_not_Some. intros Hs. by apply Hm, Hv.
Qed.

(** The pipeline counts the attempts of the window, the present one included,
    and keeps the invariant; it touches no other key. *)
Lemma slidingWindow_ok w key now0 now h r r' m c :
  WindowInv w key now0 h r -> (now0 <= now)%Z -> (0 <= now)%Z -> (0 < w)%Z -> m ∉ map snd h ->
  slidingWindow now key m w (w * Millisecond) r = (r', Ok c) ->
  c = (1 + recent w now h)%Z /\
  WindowInv w key now ((now, m) :: h) r' /\
  forall t k, (now <= t)%Z -> k <> key -> rview t r' k = rview t r k.
Proof.
  intros HI Hle Hnow Hw Hm. unfold slidingWindow.
  destruct (rzadd now r key (millis now) m) as [r1 [e1|]] eqn:E1;
    [by repeat case_match; intros [=]|].
  destruct (rzremrangebyscore now r1 key (millis now - w)%Z) as [r2 [e2|]] eqn:E2;
    [by repeat case_match; intros [=]|].
  destruct (rzcard now r2 key) as [n|e3] eqn:E3; [|by repeat case_match; intros [=]].
  destruct (rexpire now r2 key (w * Millisecond)) as [r3 [e4|]] eqn:E4; [by intros [=]|].
  intros [= <- <-].
  destruct (zadd_view w key now0 now h r r1 m HI Hle Hm E1) as (z & Hz1 & Hdom & Hsz).
  destruct (rzrem_applied _ _ _ _ _ _ E2) as [Hfr2 Hz2]. specialize (Hz2 eq_refl z Hz1).
  assert (Hlen : size (drop_upto (millis now - w) z) = length (since (millis now - w) ((now, m) :: h)))
    by (apply Hsz; lia).
  assert (Hhead : since (millis now - w) ((now, m) :: h) = (now, m) :: since (millis now - w) h).
  { unfold since. simpl. by rewrite (proj2 (Z.ltb_lt _ _)) by lia. }
  rewrite decide_False in Hz2.
  2:{ intros He. rewrite He, Hhead, map_size_empty in Hlen. done. }
  split_and!.
  - apply rzcard_ok in E3 as [[E3 _]|(z' & E3 & ->)]; [congruence|].
    rewrite Hz2 in E3. injection E3 as <-. rewrite Hlen, Hhead. unfold recent. simpl. lia.
  - assert (Hts : Forall (fun a : Z * string => 0 <= a.1 <= now)%Z ((now, m) :: h)).
    { constructor; [simpl; lia|]. eapply Forall_impl; [apply HI|]. simpl. lia. }
    split; [done|]. intros t Ht.
    apply rexpire_applied in E4 as [E4|[? _]]; [|done].
    specialize (E4 t key Ht). unfold view_of, view_expire in E4. rewrite decide_True in E4 by done.
    rewrite E4, Hz2. destruct (t <? now + w * Millisecond)%Z eqn:Et.
    + split.
      * intros m' [x [Hx _]%map_lookup_filter_Some]. apply Hdom. eauto.
      * intros b Hb. pose proof (millis_mono now t Ht).
        rewrite drop_upto_twice by lia. apply Hsz. lia.
    + bool_to_prop. eapply Forall_impl; [exact Hts|]. intros a Ha. simpl in Ha.
      pose proof (millis_mono a.1 now ltac:(lia)). pose proof (millis_mono _ t Et).
      rewrite millis_add in * by lia. lia.
  - intros t k Ht Hk. rewrite (rexpire_frame _ _ _ _ _ _ _ _ E4 Ht Hk), Hfr2 by done.
    apply rzadd_applied in E1 as [E1|[? _]]; [|done].
    specialize (E1 t k Ht). unfold view_of, view_touch in E1. by rewrite decide_False in E1.
Qed.
End window.

(** ** Brute force *)

Record attempt := mkAttempt { atTime : Z; atMember : string; atFired : bool }.

Definition pairs (h : list attempt) : list (Z * string) := map (fun a => (atTime a, atMember a)) h.

(** The reference: the failure at [now] fires when, with it, the last five
    minutes hold [maxAttempts] failures and no alert. *)
Definition firedRecently (now : Z) (h : list attempt) : bool :=
  existsb (fun a => atFired a && (now <? atTime a + WindowSize)%Z) h.

Definition fires (maxAttempts now : Z) (h : list attempt) : bool :=
  (maxAttempts <=? 1 + recent (WindowSize / Millisecond) now (pairs h))%Z && negb (firedRecently now h).

Lemma firedRecently_later now t h :
  (now <= t)%Z -> firedRecently now h = false -> firedRecently t h = false.
Proof.
  intros Ht. induction h as [|a h IH]; simpl; [done|]. intros [Ha Hh]%orb_false_elim.
  rewrite IH, orb_false_r by done. destruct (atFired a); [|done]. simpl in *.
  bool_to_prop. apply Z.ltb_ge. lia.
Qed.

Definition bruteForceAlert (now oid : Z) (key : string) (count : Z) : Alert :=
  mkAlert oid "" (keySubject key) "brute_force" 90 "HIGH" "open" now None None
    [("attempts", JNum count); ("key", JStr key)].

Section brute_force.
Context {R : Type} `{RedisLaws R} `{ObjectIDs}.
Variable alertDoc : Alert -> json.
Variable maxAttempts : Z.
Variable key : string.

Let alertKey : string := "alert_fired:" +:+ key.
Let track := trackFailedAttempt alertDoc maxAttempts.

(** Redis answers the deduplication command of this attempt. *)
Definition answered (now : Z) (m : string) (st : ThreatState R) : Prop :=
  match slidingWindow now key m (WindowSize / Millisecond) WindowSize (tsRedis st) with
  | (r, Ok _) => is_ok (rsetnx now r alertKey (RText "1") WindowSize).2 = true
  | (_, Err _) => False
  end.

(** The attempts on one key, newest first, interleaved with anything that
    leaves the key's two entries alone. *)
Inductive trace : Z -> list attempt -> ThreatState R -> Prop :=
| trace_start now st :
    (0 <= now)%Z ->
    (forall t, (now <= t)%Z -> rview t (tsRedis st) key = None /\ rview t (tsRedis st) alertKey = None) ->
    trace now [] st
| trace_other now now' h st st' :
    trace now h st -> (now <= now')%Z ->
    (forall t k, (now' <= t)%Z -> k = key \/ k = alertKey ->
       rview t (tsRedis st') k = rview t (tsRedis st) k) ->
    trace now' h st'
| trace_attempt now now' h m f st st' :
    trace now h st -> (now <= now')%Z -> m ∉ map atMember h -> answered now' m st ->
    track now' m f key st = (st', None) ->
    trace now' (mkAttempt now' m (fires maxAttempts now' h) :: h) st'.

Definition FiredInv (now : Z) (h : list attempt) (r : R) : Prop :=
  forall t, (now <= t)%Z -> bool_decide (rview t r alertKey = None) = negb (firedRecently t h).

Lemma keys_distinct : alertKey <> key /\ "threat:" +:+ key <> key /\ "threat:" +:+ key <> alertKey.
Proof.
  unfold alertKey. split_and!; [| |discriminate];
    intros He%(f_equal String.length); rewrite length_append in He; simpl in He; lia.
Qed.

Lemma emit_frame now f ck a st t k :
  (now <= t)%Z -> k <> ck -> rview t (tsRedis (emit alertDoc now f ck a st)) k = rview t (tsRedis st) k.
Proof.
  intros Ht Hk. unfold emit, CreateAlert.
  destruct (efStore f); simpl; (eapply rset_frame; [apply surjective_pairing|done|done]).
Qed.

(** One attempt, from a state in agreement with its history. *)
Lemma track_step now0 now h m f st st' :
  WindowInv (WindowSize / Millisecond) key now0 (pairs h) (tsRedis st) -> FiredInv now0 h (tsRedis st) ->
  (now0 <= now)%Z -> (0 <= now)%Z -> m ∉ map atMember h -> answered now m st ->
  track now m f key st = (st', None) ->
  let count := (1 + recent (WindowSize / Millisecond) now (pairs h))%Z in
  let b := fires maxAttempts now h in
  (exists r, st' = if b then publishBruteForce alertDoc now f key count (set_tsRedis r st)
                   else set_tsRedis r st) /\
  WindowInv (WindowSize / Millisecond) key now (pairs (mkAttempt now m b :: h)) (tsRedis st') /\
  FiredInv now (mkAttempt now m b :: h) (tsRedis st').
Proof.
  intros HW HF Hle Hnow Hm. subst track. unfold trackFailedAttempt, answered.
  destruct (slidingWindow now key m (WindowSize / Millisecond) WindowSize (tsRedis st))
    as [r [c|e]] eqn:Ew; [|done]. intros Hans Hst.
  change WindowSize with (WindowSize / Millisecond * Millisecond)%Z in Ew at 2.
  destruct (slidingWindow_ok _ _ _ _ _ _ _ _ _ HW Hle Hnow ltac:(vm_compute; done)
              ltac:(unfold pairs; by rewrite map_map) Ew) as (-> & HW' & Hfr).
  destruct keys_distinct as (K1 & K2 & K3).
  assert (HF' : forall t, (now <= t)%Z -> bool_decide (rview t r alertKey = None) = negb (firedRecently t h))
    by (intros t Ht; rewrite Hfr by done; apply HF; lia).
  unfold fires. set (count := (1 + recent _ _ _)%Z) in *.
  destruct (maxAttempts <=? count)%Z eqn:Emax.
  2:{ simplify_eq/=. split; [by exists r|]. split; [done|].
      exact HF'. }
  simpl. destruct (rsetnx now r alertKey (RText "1") WindowSize) as [r' [b'|]] eqn:En; [|done].
  fold alertKey in Hst. simpl in Hst. rewrite En in Hst.
  destruct (rsetnx_ok _ _ _ _ _ _ _ En) as [Hb' Hset]. rewrite HF' in Hb' by lia. subst b'.
  destruct (firedRecently now h) eqn:Ef; simpl in *; simplify_eq/=.
  - split; [by exists r'|]. split.
    + eapply WindowInv_later; [exact HW'|lia|]. intros t Ht. simpl. by rewrite Hset.
    + intros t Ht. simpl. rewrite Hset by done. exact (HF' t Ht).
  - split; [by exists r'|]. unfold publishBruteForce. split.
    + eapply WindowInv_later; [exact HW'|lia|]. intros t Ht. rewrite emit_frame by done. simpl.
      rewrite Hset by done. unfold view_set. by rewrite decide_False.
    + intros t Ht. rewrite emit_frame by done. simpl. rewrite Hset by done. unfold view_set.
      rewrite decide_True by done. simpl. destruct (t <? now + WindowSize)%Z; [done|].
      by rewrite (firedRecently_later now t h Ht Ef).
Qed.

Lemma trace_inv now h st :
  trace now h st ->
  (0 <= now)%Z /\ WindowInv (WindowSize / Millisecond) key now (pairs h) (tsRedis st) /\
  FiredInv now h (tsRedis st).
Proof.
  induction 1 as [now st Hn Hv|now now' h st st' _ (IHn & IHw & IHf) Hle Heq
                 |now now' h m f st st' _ (IHn & IHw & IHf) Hle Hm Hans Hst].
  - split; [done|]. split.
    + split; [constructor|]. intros t Ht. destruct (Hv t Ht) as [-> _]. constructor.
    + intros t Ht. destruct (Hv t Ht) as [_ ->]. done.
  - split; [lia|]. split.
    + eapply WindowInv_later; [done|done|]. intros t Ht. by apply Heq; auto.
    + intros t Ht. rewrite Heq by auto. apply IHf. lia.
  - split; [lia|].
    destruct (track_step _ _ _ _ _ _ _ IHw IHf Hle ltac:(lia) Hm Hans Hst) as (_ & ? & ?). done.
Qed.

(** C34: The brute force detector: over any interleaving of failed logins whose
    commands Redis answers, and when storing and publishing the alert succeed,
    a failed login on a key publishes an alert exactly when, counting it, the
    last five minutes - a constant of the source - hold at least [maxAttempts]
    failures for that key and no alert was fired for it in those five minutes;
    the alert carries the count, the score 0.9 of the source, and no
    organisation. *)
Theorem brute_force_fires now now' h m oid st st' :
  trace now h st -> (now <= now')%Z -> m ∉ map atMember h -> answered now' m st ->
  track now' m (mkEmitFaults (Ok oid) None) key st = (st', None) ->
  tsPublished st' = tsPublished st ++
    if fires maxAttempts now' h
    then [(Hex oid, bruteForceAlert now' oid key
                      (1 + recent (WindowSize / Millisecond) now' (pairs h)))]
    else [].
Proof.
  intros (Hn & Hw & Hf)%trace_inv Hle Hm Hans Hst.
  destruct (track_step _ _ _ _ _ _ _ Hw Hf Hle ltac:(lia) Hm Hans Hst) as ([r ->] & _ & _).
  destruct (fires maxAttempts now' h); simpl; [|by rewrite app_nil_r].
  unfold publishBruteForce, emit, CreateAlert, bruteForceAlert, newAlert. simpl.
  done.
Qed.
End brute_force.

(** The subject of the alert on an address is its part before the first
    colon, so the alerts of IPv6 addresses are not told apart by it. *)
Lemma brute_force_subject ip :
  no_byte ":" ip = true -> keySubject ("bruteforce:ip:" +:+ ip) = ip.
Proof.
  intros Hn. unfold keySubject.
  change ("bruteforce:ip:" +:+ ip) with ("bruteforce" +:+ String ":" ("ip" +:+ String ":" ip)).
  rewrite !Split_cons, (Split_no_sep _ ip) by done. done.
Qed.

Example brute_force_ipv6 :
  keySubject "bruteforce:ip:2001:db8::1" = keySubject "bruteforce:ip:2001:470::7".
Proof. reflexivity. Qed.

(** Two failures a minute apart, with a threshold of two. *)
Module BruteForceExample.
Definition doc (_ : Alert) : json := JNull.
Definition key : string := "bruteforce:user:a@b.c".
Definition noFault : emitFaults := mkEmitFaults (Ok 7%Z) None.
Definition st0 : ThreatState MiniRedis := mkThreatState emptyRedis [] [].
Definition st1 := (trackFailedAttempt doc 2 0 "m1" noFault key st0).1.
Definition st2 := (trackFailedAttempt doc 2 Minute "m2" noFault key st1).1.
End BruteForceExample.

Lemma brute_force_fires_witness :
  tsPublished BruteForceExample.st2 =
    [("x7", bruteForceAlert Minute 7 BruteForceExample.key 2)].
Proof.
  assert (Htr : trace BruteForceExample.doc 2 BruteForceExample.key 0
                  [mkAttempt 0 "m1" (fires 2 0 [])] BruteForceExample.st1).
  { apply (trace_attempt _ _ _ 0 0 [] "m1" BruteForceExample.noFault BruteForceExample.st0);
      [|lia|set_solver|vm_compute; done|vm_compute; done].
    apply trace_start; [lia|]. intros t _. done. }
  etransitivity;
    [eapply (brute_force_fires BruteForceExample.doc 2 BruteForceExample.key 0 Minute
               [mkAttempt 0 "m1" (fires 2 0 [])] "m2" 7 BruteForceExample.st1 BruteForceExample.st2);
       [exact Htr|vm_compute; done|set_solver|vm_compute; done|vm_compute; done]
    |vm_compute; reflexivity].
Defined.

(** ** Account takeover *)

(** What the detector sees of one user: password changes and logins from a
    device, with their instants, newest first. *)
Inductive userEvent := PasswordChanged (at_ : Z) | LoginFrom (at_ : Z) (device : string).

Definition eventTime (e : userEvent) : Z :=
  match e with PasswordChanged t => t | LoginFrom t _ => t end.

(** A password change in the last twenty-four hours. *)
Definition changedRecently (now : Z) (h : list userEvent) : bool :=
  existsb (fun e => match e with
                    | PasswordChanged t => (now <? t + 24 * Hour)%Z
                    | LoginFrom _ _ => false
                    end) h.

(** The devices remembered: those of an unbroken chain of logins less than
    thirty days apart. *)
Fixpoint knownDevices (now : Z) (h : list userEvent) : gset string :=
  match h with
  | [] => ∅
  | PasswordChanged _ :: h' => knownDevices now h'
  | LoginFrom t d :: h' => if (now <? t + 30 * 24 * Hour)%Z then {[d]} ∪ knownDevices t h' else ∅
  end.

Section takeover.
Context {R : Type} `{RedisLaws R} `{ObjectIDs}.
Variable alertDoc : Alert -> json.
Variable sha256hex : string -> string.
Variable userID : string.

#[local] Notation process := (processTakeover alertDoc sha256hex).

(** The message is a [password.changed] or successful login of the user. *)
Definition message_of (at_ : Z) (value : raw) (e : userEvent) : Prop :=
  exists event, unmarshal_map value = Ok event /\ get_string event "user_id" = userID /\
    match e with
    | PasswordChanged t => t = at_ /\ get_string event "event_type" = "password.changed"
    | LoginFrom t d =>
        t = at_ /\ get_string event "event_type" = "auth.login.success" /\
        d = computeFingerprint sha256hex (get_string event "user_agent")
              (get_string event "accept_language") (get_string event "platform")
    end.

Inductive user_trace : Z -> list userEvent -> ThreatState R -> Prop :=
| user_start now st :
    (forall t, (now <= t)%Z -> rview t (tsRedis st) (pwchangeKey userID) = None /\
                              rview t (tsRedis st) (devicesKey userID) = None) ->
    user_trace now [] st
| user_other now now' h st st' :
    user_trace now h st -> (now <= now')%Z ->
    (forall t k, (now' <= t)%Z -> k = pwchangeKey userID \/ k = devicesKey userID ->
       rview t (tsRedis st') k = rview t (tsRedis st) k) ->
    user_trace now' h st'
| user_event now now' h f value e st st' :
    user_trace now h st -> (now <= now')%Z -> message_of now' value e ->
    process now' f value st = (st', None) ->
    user_trace now' (e :: h) st'.

Definition UserInv (now : Z) (h : list userEvent) (r : R) : Prop :=
  Forall (fun e => eventTime e <= now)%Z h /\
  forall t, (now <= t)%Z ->
  bool_decide (rview t r (pwchangeKey userID) = None) = negb (changedRecently t h) /\
  match rview t r (devicesKey userID) with
  | None => knownDevices t h = ∅
  | Some (RSet s) => s = knownDevices t h
  | Some _ => False
  end.

Lemma user_keys :
  devicesKey userID <> pwchangeKey userID /\ "threat:ato:" +:+ userID <> devicesKey userID /\
  "threat:ato:" +:+ userID <> pwchangeKey userID.
Proof. unfold devicesKey, pwchangeKey. by split_and!. Qed.

Lemma UserInv_later now now' h (r r' : R) :
  UserInv now h r -> (now <= now')%Z ->
  (forall t k, (now' <= t)%Z -> k = pwchangeKey userID \/ k = devicesKey userID ->
     rview t r' k = rview t r k) ->
  UserInv now' h r'.
Proof.
  intros [Hts Hv] Hle Heq. split.
  - eapply Forall_impl; [exact Hts|]. simpl. lia.
  - intros t Ht. rewrite !Heq by auto. apply Hv. lia.
Qed.

Lemma changedRecently_older now t h :
  Forall (fun e => eventTime e <= now)%Z h -> (now + 24 * Hour <= t)%Z -> changedRecently t h = false.
Proof.
  intros Hts Ht. apply not_true_iff_false. intros (e & Hin & Hc)%existsb_exists.
  rewrite Forall_forall in Hts. apply list_elem_of_In, Hts in Hin.
  destruct e; [|done]. simpl in *. bool_to_prop. lia.
Qed.

(** The device set after a login. *)
Lemma remember_device now h fp (r r' : R) :
  UserInv now h r ->
  pipe_then (fun r => rsadd now r (devicesKey userID) fp)
            (fun r => rexpire now r (devicesKey userID) (30 * 24 * Hour)) r = (r', None) ->
  UserInv now (LoginFrom now fp :: h) r'.
Proof.
  intros [Hts Hi] (r1 & H2 & H3)%pipe_then_ok. split; [by constructor|].
  intros t Ht. destruct user_keys as (K1 & _ & _).
  rewrite (rexpire_frame _ _ _ _ _ _ _ _ H3 Ht), (rsadd_frame _ _ _ _ _ _ _ _ H2 Ht) by done.
  split; [by apply Hi|].
  apply rexpire_applied in H3 as [H3|[? _]]; [|done]. specialize (H3 t (devicesKey userID) Ht).
  apply rsadd_applied in H2 as [H2|[? _]]; [|done]. specialize (H2 now (devicesKey userID) ltac:(lia)).
  unfold view_of, view_expire, view_touch in *. rewrite decide_True in H2, H3 by done.
  rewrite H3. simpl. destruct (t <? now + 30 * 24 * Hour)%Z; [|done].
  rewrite H2. destruct (Hi now ltac:(lia)) as [_ Hd].
  destruct (rview now r (devicesKey userID)) as [[| s|]|]; simpl; try done.
  - by subst s.
  - rewrite Hd. set_solver.
Qed.

Lemma takeover_step now0 now h f value e st st' :
  UserInv now0 h (tsRedis st) -> (now0 <= now)%Z -> userID <> "" ->
  message_of now value e -> process now f value st = (st', None) ->
  UserInv now (e :: h) (tsRedis st') /\
  exists r,
    st' = set_tsRedis r
      match e with
      | PasswordChanged _ => st
      | LoginFrom _ fp =>
          if changedRecently now h && bool_decide (fp ∉ knownDevices now h)
          then emit alertDoc now f ("threat:ato:" +:+ userID)
                 (newAlert "" userID "account_takeover" 70 "HIGH" [("fingerprint", JStr fp)]) st
          else st
      end.
Proof.
  intros Hi Hle Hu (event & Hev & Hid & He). unfold processTakeover. rewrite Hev.
  simpl. rewrite Hid. apply String.eqb_neq in Hu. rewrite Hu.
  assert (Hnow : UserInv now h (tsRedis st)) by (by eapply UserInv_later).
  destruct user_keys as (K1 & K2 & K3). destruct e as [at_|at_ fp].
  - destruct He as [-> ->]. simpl.
    destruct (rset _ _ _ _ _) as [r e] eqn:Es. intros [= <- ->]. split; [|by exists r].
    destruct Hnow as [Hts Hv]. split; [by constructor|]. intros t Ht. destruct (Hv t Ht) as [Hp Hd].
    simpl. rewrite (rset_ok _ _ _ _ _ _ Es) by done.
    rewrite (rset_frame _ _ _ _ _ _ _ t (devicesKey userID) Es) by done. split; [|done].
    unfold view_set. rewrite decide_True by done.
    destruct (t <? now + 24 * Hour)%Z eqn:Et; simpl; [done|]. bool_to_prop.
    by rewrite (changedRecently_older now).
  - destruct He as (-> & -> & ->). simpl.
    destruct (rexists _ _ _) as [ex|] eqn:Ex; [|done].
    destruct (rsismember _ _ _ _) as [kn|] eqn:Ek; [|done].
    set (fp := computeFingerprint _ _ _ _) in *.
    assert (Hcond : ex && negb kn = changedRecently now h && bool_decide (fp ∉ knownDevices now h)).
    { destruct Hnow as [_ Hv]. destruct (Hv now ltac:(lia)) as [Hp Hd]. f_equal.
      - rewrite (rexists_ok _ _ _ _ Ex), bool_decide_not, Hp. by rewrite negb_involutive.
      - apply rsismember_ok in Ek as [[E ->]|(s & E & ->)]; rewrite E in Hd; [|subst s];
          [rewrite Hd|]; rewrite bool_decide_not; f_equal. }
    rewrite Hcond. clear Hcond. destruct (pipe_then _ _ _) as [r e] eqn:Ep. intros [= <- ->].
    split; [|by exists r]. simpl.
    eapply (remember_device now h); [|exact Ep]. destruct (changedRecently now h && _); [|done].
    eapply UserInv_later; [exact Hnow|lia|]. intros t k Ht [-> | ->]; by apply emit_frame; auto.
Qed.

Lemma user_trace_inv now h st :
  userID <> "" -> user_trace now h st -> UserInv now h (tsRedis st).
Proof.
  intros Hu. induction 1 as [now st Hv|now now' h st st' _ IH Hle Heq
                            |now now' h f value e st st' _ IH Hle Hm Hst].
  - split; [constructor|]. intros t Ht. destruct (Hv t Ht) as [-> ->]. done.
  - by eapply UserInv_later.
  - by eapply takeover_step in Hst as [? _].
Qed.

(** The account takeover detector: over any interleaving, a login
    publishes an alert exactly when the user's password was changed in the
    last twenty-four hours and the device, as told by its fingerprint, was not
    seen in the chain of logins less than thirty days apart. *)
Theorem account_takeover_fires now now' h value fp oid st st' :
  userID <> "" -> user_trace now h st -> (now <= now')%Z ->
  message_of now' value (LoginFrom now' fp) ->
  process now' (mkEmitFaults (Ok oid) None) value st = (st', None) ->
  tsPublished st' = tsPublished st ++
    if changedRecently now' h && bool_decide (fp ∉ knownDevices now' h)
    then [(Hex oid, mkAlert oid "" userID "account_takeover" 70 "HIGH" "open" now' None None
                      [("fingerprint", JStr fp)])]
    else [].
Proof.
  intros Hu Hi%user_trace_inv Hle Hm Hst; [|done].
  destruct (takeover_step _ _ _ _ _ _ _ _ Hi Hle Hu Hm Hst) as [_ [r ->]].
  destruct (_ && _); simpl; [done|by rewrite app_nil_r].
Qed.
End takeover.

(** A password change, then a login from a device never seen. *)
Module TakeoverExample.
Definition doc (_ : Alert) : json := JNull.
Definition sha (s : string) : string := s.
Definition change : raw := Some (JObj [("event_type", JStr "password.changed"); ("user_id", JStr "u")]).
Definition login : raw :=
  Some (JObj [("event_type", JStr "auth.login.success"); ("user_id", JStr "u"); ("user_agent", JStr "x")]).
Definition noFault : emitFaults := mkEmitFaults (Ok 7%Z) None.
Definition st0 : ThreatState MiniRedis := mkThreatState emptyRedis [] [].
Definition st1 := (processTakeover doc sha 0 noFault change st0).1.
Definition st2 := (processTakeover doc sha Hour noFault login st1).1.
End TakeoverExample.

Lemma account_takeover_fires_witness :
  tsPublished TakeoverExample.st2 =
    [("x7", mkAlert 7 "" "u" "account_takeover" 70 "HIGH" "open" Hour None None
              [("fingerprint", JStr "x||")])].
Proof.
  assert (Htr : user_trace TakeoverExample.doc TakeoverExample.sha "u" 0 [PasswordChanged 0]
                  TakeoverExample.st1).
  { apply (user_event _ _ _ 0 0 [] TakeoverExample.noFault TakeoverExample.change _ TakeoverExample.st0);
      [apply user_start; intros t _; done|lia| |vm_compute; done].
    by eexists. }
  etransitivity;
    [eapply (account_takeover_fires TakeoverExample.doc TakeoverExample.sha "u" 0 Hour
               [PasswordChanged 0] TakeoverExample.login "x||" 7 TakeoverExample.st1);
       [done|exact Htr|vm_compute; done|by eexists|vm_compute; done]
    |vm_compute; reflexivity].
Defined.

(** ** Impossible travel *)

Section travel.
Context {R : Type} `{RedisLaws R} `{ObjectIDs}.
Variable alertDoc : Alert -> json.
Context {F : Type}.
Variable haversine : F -> F -> F -> F -> F.
Variable above : F -> F -> bool.
Variable geolocate : string -> option (F * F).
Variable loginDoc : LastLogin F -> json.
Variable loginOf : raw -> res (LastLogin F).
Variable floatDoc : F -> json.
Variable secondsDoc : Z -> json.
Variable threshold : F.
Variable userID : string.
(** [json.Unmarshal] recovers what [json.Marshal] wrote. *)
Hypothesis login_codec : forall l, loginOf (Some (loginDoc l)) = Ok l.

#[local] Notation process :=
  (processTravel alertDoc F haversine above geolocate loginDoc loginOf floatDoc secondsDoc threshold).
#[local] Notation travelKey := ("travel:" +:+ userID).

(** The message is a successful login of the user from a located address. *)
Definition login_message (at_ : Z) (value : raw) (l : LastLogin F) : Prop :=
  exists event lat lon, unmarshal_map value = Ok event /\
    get_string event "event_type" = "auth.login.success" /\
    get_string event "user_id" = userID /\
    get_string event "ip" = llIP F l /\ llIP F l <> "" /\
    geolocate (llIP F l) = Some (lat, lon) /\ l = mkLastLogin F (llIP F l) lat lon at_.

(** The last login of the user, as the detector has processed them. *)
Inductive travel_trace : Z -> option (LastLogin F) -> ThreatState R -> Prop :=
| travel_start now st :
    (forall t, (now <= t)%Z -> rview t (tsRedis st) travelKey = None) -> travel_trace now None st
| travel_other now now' o st st' :
    travel_trace now o st -> (now <= now')%Z ->
    (forall t, (now' <= t)%Z -> rview t (tsRedis st') travelKey = rview t (tsRedis st) travelKey) ->
    travel_trace now' o st'
| travel_login now now' o f value l st st' :
    travel_trace now o st -> (now <= now')%Z -> login_message now' value l ->
    process now' f None value st = (st', None) ->
    travel_trace now' (Some l) st'.

Definition TravelInv (now : Z) (o : option (LastLogin F)) (r : R) : Prop :=
  forall t, (now <= t)%Z -> rview t r travelKey =
    match o with
    | Some l => if (t <? llTimestamp F l + windowSecs * Second)%Z
                then Some (RStr (RDoc (loginDoc l))) else None
    | None => None
    end.

(** Too far from the last login for the time since. *)
Definition impossibleSince (o : option (LastLogin F)) (l : LastLogin F) : bool :=
  match o with
  | Some last => isImpossible F haversine above threshold last l
  | None => false
  end.

Lemma travel_step now0 now o f value l st st' :
  TravelInv now0 o (tsRedis st) -> (now0 <= now)%Z -> userID <> "" ->
  login_message now value l -> process now f None value st = (st', None) ->
  TravelInv now (Some l) (tsRedis st') /\
  exists r,
    st' = match o with
          | Some last =>
              if isImpossible F haversine above threshold last l
              then emit alertDoc now f ("threat:travel:" +:+ userID)
                     (travelAlert F haversine floatDoc secondsDoc userID last l) (set_tsRedis r st)
              else set_tsRedis r st
          | None => set_tsRedis r st
          end.
Proof.
  intros Hi Hle Hu (event & lat & lon & Hev & Hty & Hid & Hip & Hne & Hgeo & Hl).
  unfold processTravel. rewrite Hev. simpl. rewrite Hty, Hid, Hip, Hgeo. simpl.
  rewrite (proj2 (String.eqb_neq _ _) Hu), (proj2 (String.eqb_neq _ _) Hne). simpl.
  rewrite <- Hl. unfold getSet.
  destruct (rset _ _ _ _ _) as [r' e] eqn:Es.
  destruct (rget now (tsRedis st) travelKey) as [old|] eqn:Eg; [|done].
  destruct e as [e|]; [done|]. apply rget_ok in Eg.
  assert (Ht' : llTimestamp F l = now) by (by rewrite Hl).
  assert (Hset : TravelInv now (Some l) r').
  { intros t Ht. rewrite (rset_ok _ _ _ _ _ _ Es) by done. unfold view_set.
    by rewrite decide_True, Ht'. }
  assert (Hframe : forall a, TravelInv now (Some l)
            (tsRedis (emit alertDoc now f ("threat:travel:" +:+ userID) a (set_tsRedis r' st)))).
  { intros a t Ht. rewrite emit_frame by done. by apply Hset. }
  pose proof (Hi now Hle) as Hv. destruct old as [v|]; rewrite Hv in Eg.
  - destruct o as [last|]; [|done].
    destruct (now <? _)%Z eqn:Et; [|done]. injection Eg as <-. simpl. rewrite login_codec.
    destruct (isImpossible _ _ _ _ _ _); intros [= <-]; (split; [auto|by exists r']).
  - intros [= <-]. split; [done|]. exists r'. destruct o as [last|]; [|done].
    destruct (now <? _)%Z eqn:Et; [done|]. bool_to_prop.
    unfold isImpossible. rewrite Ht'.
    rewrite (proj2 (Z.ltb_ge _ _)), andb_false_r by lia. by destruct (_ =s? _).
Qed.

Lemma travel_trace_inv now o st : userID <> "" -> travel_trace now o st -> TravelInv now o (tsRedis st).
Proof.
  intros Hu. induction 1 as [now st Hv|now now' o st st' _ IH Hle Heq
                            |now now' o f value l st st' _ IH Hle Hm Hst].
  - exact Hv.
  - intros t Ht. rewrite Heq by done. apply IH. lia.
  - by eapply travel_step in Hst as [? _].
Qed.

(** The impossible travel detector: over any interleaving, a login
    publishes an alert exactly when the user's last login processed was less
    than an hour before, from another address and farther than the threshold;
    the expiry of the stored login never hides one. *)
Theorem impossible_travel_fires now now' o value l oid st st' :
  userID <> "" -> travel_trace now o st -> (now <= now')%Z -> login_message now' value l ->
  process now' (mkEmitFaults (Ok oid) None) None value st = (st', None) ->
  map snd (tsPublished st') = map snd (tsPublished st) ++
    match o with
    | Some last =>
        if impossibleSince o l
        then [mkAlert oid "" userID "impossible_travel" 90 "HIGH" "open" now' None None
                [("distance_km", floatDoc (haversine (llLat F last) (llLon F last) (llLat F l) (llLon F l)));
                 ("time_delta_sec", secondsDoc (llTimestamp F l - llTimestamp F last)%Z)]]
        else []
    | None => []
    end.
Proof.
  intros Hu Hi%travel_trace_inv Hle Hm Hst; [|done].
  destruct (travel_step _ _ _ _ _ _ _ _ Hi Hle Hu Hm Hst) as [_ [r ->]].
  destruct o as [last|]; simpl; [|by rewrite app_nil_r].
  destruct (isImpossible _ _ _ _ _ _); simpl; [by rewrite map_app|by rewrite app_nil_r].
Qed.
End travel.

(** Two logins a minute apart, five hundred kilometres from each other. *)
Module TravelExample.
Definition doc (_ : Alert) : json := JNull.
Definition dist (a b c d : Z) : Z := (Z.abs (c - a) + Z.abs (d - b))%Z.
Definition geo (ip : string) : option (Z * Z) := Some ((if ip =s? "1.1.1.1" then 0 else 900)%Z, 0%Z).
Definition loginDoc (l : LastLogin Z) : json :=
  JArr [JStr (llIP Z l); JNum (llLat Z l); JNum (llLon Z l); JNum (llTimestamp Z l)].
Definition loginOf (d : raw) : res (LastLogin Z) :=
  match d with
  | Some (JArr [JStr ip; JNum lat; JNum lon; JNum t]) => Ok (mkLastLogin Z ip lat lon t)
  | _ => Err ErrSyntax
  end.
Definition login (ip : string) : raw :=
  Some (JObj [("event_type", JStr "auth.login.success"); ("user_id", JStr "u"); ("ip", JStr ip)]).
Definition noFault : emitFaults := mkEmitFaults (Ok 7%Z) None.
Definition process :=
  processTravel (R := MiniRedis) doc Z dist Z.gtb geo loginDoc loginOf JNum JNum 500%Z.
Definition st0 : ThreatState MiniRedis := mkThreatState emptyRedis [] [].
Definition st1 := (process 0%Z noFault None (login "1.1.1.1") st0).1.
Definition st2 := (process Minute noFault None (login "2.2.2.2") st1).1.
Definition l1 : LastLogin Z := mkLastLogin Z "1.1.1.1" 0%Z 0%Z 0%Z.
Definition l2 : LastLogin Z := mkLastLogin Z "2.2.2.2" 900%Z 0%Z Minute.
End TravelExample.

Lemma impossible_travel_fires_witness :
  map snd (tsPublished TravelExample.st2) =
    [mkAlert 7 "" "u" "impossible_travel" 90 "HIGH" "open" Minute None None
       [("distance_km", JNum 900); ("time_delta_sec", JNum Minute)]].
Proof.
  assert (Hcodec : forall l, TravelExample.loginOf (Some (TravelExample.loginDoc l)) = Ok l) by by intros [].
  assert (Htr : travel_trace TravelExample.doc TravelExample.dist Z.gtb TravelExample.geo
                  TravelExample.loginDoc TravelExample.loginOf JNum JNum 500%Z "u" 0
                  (Some TravelExample.l1) TravelExample.st1).
  { apply (travel_login _ _ _ _ _ _ _ _ _ _ 0 0 None TravelExample.noFault
             (TravelExample.login "1.1.1.1") _ TravelExample.st0);
      [apply travel_start; intros t _; done|lia| |vm_compute; done].
    by eexists _, 0%Z, 0%Z. }
  etransitivity;
    [eapply (impossible_travel_fires TravelExample.doc TravelExample.dist Z.gtb TravelExample.geo
               TravelExample.loginDoc TravelExample.loginOf JNum JNum 500%Z "u" Hcodec 0 Minute
               (Some TravelExample.l1) (TravelExample.login "2.2.2.2") TravelExample.l2 7 TravelExample.st1);
       [done|exact Htr|vm_compute; done|by eexists _, 900%Z, 0%Z|vm_compute; done]
    |vm_compute; reflexivity].
Defined.

(** ** Off hours *)

Section off_hours.
Context {R : Type} `{RedisLaws R} `{ObjectIDs}.
Variable alertDoc : Alert -> json.
Variable dateOf : Z -> string.
Variable offStart offEnd : Z.

#[local] Notation process := (processOffHours alertDoc dateOf offStart offEnd).

(** Every message goes through the detector; nothing else writes its keys. *)
Inductive offhours_trace : Z -> ThreatState R -> Prop :=
| off_start now st :
    (forall t k, (now <= t)%Z -> HasPrefix k "offhours:" = true -> rview t (tsRedis st) k = None) ->
    offhours_trace now st
| off_other now now' st st' :
    offhours_trace now st -> (now <= now')%Z ->
    (forall t k, (now' <= t)%Z -> HasPrefix k "offhours:" = true ->
       rview t (tsRedis st') k = rview t (tsRedis st) k) ->
    offhours_trace now' st'
| off_message now now' f value st st' e :
    offhours_trace now st -> (now <= now')%Z -> process now' f value st = (st', e) ->
    offhours_trace now' st'.

Definition OnesInv (now : Z) (r : R) : Prop :=
  forall t k, (now <= t)%Z -> HasPrefix k "offhours:" = true ->
    rview t r k = None \/ rview t r k = Some (RStr (RText "1")).

Lemma rset_ones now k ttl (r r' : R) e :
  OnesInv now r -> rset now r k (RText "1") ttl = (r', e) -> OnesInv now r'.
Proof.
  intros Hi Hs t k' Ht Hk. apply rset_applied in Hs as [Hs|[_ Hs]]; specialize (Hs t k' Ht);
    unfold view_of in Hs; rewrite Hs; [|by apply Hi].
  unfold view_set. case_decide; [|by apply Hi]. destruct (t <? _)%Z; auto.
Qed.

Lemma emit_ones now f org user a st :
  OnesInv now (tsRedis st) ->
  OnesInv now (tsRedis (emit alertDoc now f ("threat:offhours:" +:+ (org +:+ (":" +:+ user))) a st)).
Proof.
  intros Hi t k Ht Hk. rewrite emit_frame; [by apply Hi|done|]. by intros ->.
Qed.

Lemma processOffHours_ones now f value st st' e :
  OnesInv now (tsRedis st) -> process now f value st = (st', e) -> OnesInv now (tsRedis st').
Proof.
  intros Hi. unfold processOffHours, publishOffHours.
  destruct (unmarshal_map value) as [event|]; [|by intros [= <- _]].
  destruct (negb _); [by intros [= <- _]|]. destruct (_ || _); [by intros [= <- _]|].
  destruct (isOffHours _ _ _).
  - destruct (previousInHours _ _ _ _ _ _) as [[]|]; intros [= <- _]; [by apply emit_ones|done|done].
  - destruct (rset _ _ _ _ _) as [r e'] eqn:Es. intros [= <- _]. by eapply rset_ones.
Qed.

Lemma offhours_trace_inv now st : offhours_trace now st -> OnesInv now (tsRedis st).
Proof.
  induction 1 as [now st Hv|now now' st st' _ IH Hle Heq|now now' f value st st' e _ IH Hle Hst].
  - intros t k Ht Hk. left. auto.
  - intros t k Ht Hk. rewrite Heq by done. apply IH; [lia|done].
  - eapply processOffHours_ones; [|exact Hst]. intros t k Ht. apply IH. lia.
Qed.

Lemma previousInHours_true now org user days (r : R) b :
  OnesInv now r -> previousInHours dateOf now org user days r = Ok b -> b = true.
Proof.
  intros Hi. induction days as [|i days IH]; simpl; [by intros [= <-]|].
  intros ([|] & Hx & Hd)%res_bind_ok; [|by apply IH].
  apply res_bind_ok in Hd as (o & Hg & Hd). apply rget_ok in Hg.
  destruct (Hi now (offHoursKey dateOf org user (dayOf now - i)) ltac:(lia)
              (HasPrefix_append _ _)) as [E|E];
    destruct o as [v|]; try done; rewrite E in Hg; [done|].
  injection Hg as <-. rewrite decide_True in Hd by done. by apply IH.
Qed.

(** The off-hours detector looks at no history in effect: the only value
    it ever stores under a day's key is "1", so the branch that withholds the
    alert is unreachable, and every off-hours login Redis answers for
    publishes an alert. *)
Theorem off_hours_always_alerts now now' value oid event st st' :
  offhours_trace now st -> (now <= now')%Z ->
  unmarshal_map value = Ok event -> get_string event "event_type" = "auth.login.success" ->
  get_string event "user_id" <> "" -> get_string event "org_id" <> "" ->
  isOffHours offStart offEnd (hourOf now') = true ->
  process now' (mkEmitFaults (Ok oid) None) value st = (st', None) ->
  map snd (tsPublished st') = map snd (tsPublished st) ++
    [mkAlert oid (get_string event "org_id") (get_string event "user_id") "off_hours_access" 50
       "MEDIUM" "open" now' None None [("hour", JNum (hourOf now'))]].
Proof.
  intros Hi%offhours_trace_inv Hle Hev Hty Hu%String.eqb_neq Ho%String.eqb_neq Hoff.
  unfold processOffHours, publishOffHours. rewrite Hev. rewrite Hty, Hu, Ho, Hoff.
  cbn [negb orb String.eqb Ascii.eqb Bool.eqb].
  destruct (previousInHours _ _ _ _ _ _) as [b|] eqn:Ep; [|done].
  assert (Hi' : OnesInv now' (tsRedis st)) by (intros t k Ht; apply Hi; lia).
  pose proof (previousInHours_true _ _ _ _ _ _ Hi' Ep) as ->.
  intros [= <-]. simpl. by rewrite map_app.
Qed.
End off_hours.

Module OffHoursExample.
Definition doc (_ : Alert) : json := JNull.
Definition login : raw :=
  Some (JObj [("event_type", JStr "auth.login.success"); ("user_id", JStr "u"); ("org_id", JStr "o")]).
Definition st0 : ThreatState MiniRedis := mkThreatState emptyRedis [] [].
(** At eleven in the evening of the first day. *)
Definition st1 := (processOffHours doc itoa 22 6 (23 * Hour) (mkEmitFaults (Ok 7%Z) None) login st0).1.
End OffHoursExample.

Lemma off_hours_always_alerts_witness :
  map snd (tsPublished OffHoursExample.st1) =
    [mkAlert 7 "o" "u" "off_hours_access" 50 "MEDIUM" "open" (23 * Hour) None None [("hour", JNum 23)]].
Proof.
  etransitivity;
    [eapply (off_hours_always_alerts OffHoursExample.doc itoa 22 6 0 (23 * Hour) OffHoursExample.login 7);
       [apply (off_start _ _ _ _ 0 OffHoursExample.st0); intros; done|vm_compute; done|reflexivity|done|done|done
       |vm_compute; done|vm_compute; done]
    |vm_compute; reflexivity].
Defined.

(** ** Privilege escalation *)

(** The policy service's events carry no "action" member, so none of them
    reaches the check. *)
Lemma policy_change_ignored {R} `{Redis R} `{ObjectIDs} alertDoc now f org pid ev (st : ThreatState R) :
  processPolicyEvent alertDoc now f
    (Some (JObj [("event_type", JStr ev); ("org_id", JStr org); ("policy_id", JStr pid)])) st = (st, None).
Proof.
  unfold processPolicyEvent, publishEscalation. simpl. unfold get_string, map_get, members_map. simpl.
  rewrite !lookup_insert_ne by done. rewrite lookup_empty. done.
Qed.

(** ** Tenants of the alerts *)

(** The alerts of these detectors carry no organisation. *)
Definition orgless (detector : string) : bool :=
  existsb (String.eqb detector)
    ["brute_force"; "impossible_travel"; "account_takeover"; "privilege_escalation"].

Section tenants.
Context {R : Type} `{Redis R} `{ObjectIDs}.
Variable alertDoc : Alert -> json.
Variable maxAttempts offStart offEnd : Z.
Variable dateOf : Z -> string.
Variable sha256hex : string -> string.
Variable meanIsZero : option rval -> bool.
Variable exceeds3Sigma : Z -> option rval -> option rval -> bool.
Variable baselineDoc : option rval -> json.
Context {F : Type}.
Variable haversine : F -> F -> F -> F -> F.
Variable above : F -> F -> bool.
Variable geolocate : string -> option (F * F).
Variable loginDoc : LastLogin F -> json.
Variable loginOf : raw -> res (LastLogin F).
Variable floatDoc : F -> json.
Variable secondsDoc : Z -> json.
Variable threshold : F.

(** A message processed by one of the detectors, or a write of another
    client of Redis. *)
Inductive detector_step (st : ThreatState R) : ThreatState R -> Prop :=
| step_brute now m1 m2 f v :
    detector_step st (processBruteForce alertDoc maxAttempts now m1 m2 f v st).1
| step_offhours now f v : detector_step st (processOffHours alertDoc dateOf offStart offEnd now f v st).1
| step_takeover now f v : detector_step st (processTakeover alertDoc sha256hex now f v st).1
| step_auth now v : detector_step st (processAuthEvent now v st).1
| step_policy now f v : detector_step st (processPolicyEvent alertDoc now f v st).1
| step_exfiltration now m f v :
    detector_step st (processExfiltration alertDoc meanIsZero exceeds3Sigma baselineDoc now m f v st).1
| step_travel now f fault v :
    detector_step st (processTravel alertDoc F haversine above geolocate loginDoc loginOf floatDoc
                        secondsDoc threshold now f fault v st).1
| step_redis r : detector_step st (set_tsRedis r st).

Definition orgless_alert (a : Alert) : Prop := orgless (alDetector a) = true -> alOrgID a = "".
Definition orgless_ok (st : ThreatState R) : Prop := Forall orgless_alert (tsAlerts st).

Lemma emit_orgless now f k a st : orgless_alert a -> orgless_ok st -> orgless_ok (emit alertDoc now f k a st).
Proof.
  unfold orgless_ok, emit, CreateAlert. intros Ha Hs. destruct (efStore f); simpl; [|done].
  apply Forall_app. split; [done|]. by repeat constructor.
Qed.

Lemma track_orgless now m f key st :
  orgless_ok st -> orgless_ok (trackFailedAttempt alertDoc maxAttempts now m f key st).1.
Proof.
  intros Hs. unfold trackFailedAttempt. destruct (slidingWindow _ _ _ _ _ _) as [r [c|e]]; [|done].
  destruct (_ <=? _)%Z; [|done]. destruct (rsetnx _ _ _ _ _) as [r' [[]|]]; try done.
  by apply emit_orgless.
Qed.

Lemma detector_step_orgless st st' : detector_step st st' -> orgless_ok st -> orgless_ok st'.
Proof.
  intros [] Hs; try done.
  - unfold processBruteForce. destruct (unmarshal_map v) as [ev|]; [|done]. destruct (_ && _); [done|].
    set (x := if get_string ev "ip" =s? "" then _ else _).
    assert (Hx : orgless_ok x.1) by (unfold x; destruct (_ =s? _); [done|by apply track_orgless]).
    destruct x as [st1 [e|]]; [done|]. destruct (_ =s? _); [done|by apply track_orgless].
  - unfold processOffHours, publishOffHours. repeat (case_match; simplify_eq/=; try done). by apply emit_orgless.
  - unfold processTakeover. destruct (unmarshal_map v) as [ev|]; [|done].
    destruct (_ =s? _); [done|]. destruct (_ =s? _); [by case_match|]. destruct (_ =s? _); [|done].
    destruct (rexists _ _ _); [|done]. destruct (rsismember _ _ _ _); [|done].
    destruct (pipe_then _ _ _). simpl. destruct (_ && _); [by apply emit_orgless|done].
  - unfold processAuthEvent. by repeat (case_match; simplify_eq/=).
  - unfold processPolicyEvent, publishEscalation. repeat (case_match; simplify_eq/=; try done). by apply emit_orgless.
  - unfold processExfiltration, alertExfiltration. destruct (unmarshal_map v) as [ev|]; [|done]. destruct (_ || _); [done|].
    destruct (slidingWindow _ _ _ _ _ _) as [r [c|e]]; [|done].
    destruct (meanIsZero _); [destruct (_ <? _)%Z|destruct (exceeds3Sigma _ _ _)]; try done;
      by apply emit_orgless.
  - unfold processTravel. destruct (unmarshal_map v) as [ev|]; [|done]. destruct (negb _); [done|].
    destruct (_ || _); [done|]. destruct (geolocate _) as [[lat lon]|]; [|done].
    destruct (getSet _ _ _ _ _ _) as [r [[old|]|]]; try done.
    destruct (loginOf _); [|done]. destruct (isImpossible _ _ _ _ _ _); [|done]. by apply emit_orgless.
Qed.

(** Brute force, impossible travel, account takeover and privilege
    escalation alerts are invisible to every tenant: whatever the detectors
    have processed, a listing for an organisation never shows one. *)
Theorem orgless_alerts_unlisted st0 st org status severity n cursor p c :
  tsAlerts st0 = [] -> rtc detector_step st0 st -> org <> "" ->
  ListAlerts org status severity n cursor None (tsAlerts st) = Ok (p, c) ->
  Forall (fun a => orgless (alDetector a) = false) p.
Proof.
  intros He Hr Ho Hl. pose proof (ListAlerts_tenant _ _ _ _ _ _ _ _ Hl) as Ht.
  assert (Hok : orgless_ok st).
  { assert (orgless_ok st0) as Hs by (unfold orgless_ok; rewrite He; constructor).
    clear -Hs Hr. induction Hr; eauto using detector_step_orgless. }
  pose proof (ListAlerts_subset _ _ _ _ _ _ _ _ Hl) as Hsub.
  rewrite !Forall_forall in *. intros a Ha. apply not_true_iff_false. intros Hd. apply Ho.
  rewrite <- (Ht a Ha). unfold orgless_ok in Hok. rewrite Forall_forall in Hok.
  by apply (Hok a (Hsub a Ha)).
Qed.
End tenants.

Definition exampleStep : ThreatState MiniRedis -> ThreatState MiniRedis -> Prop :=
  detector_step BruteForceExample.doc 2 22 6 itoa TakeoverExample.sha (fun _ => true) (fun _ _ _ => false)
    (fun _ => JNull) TravelExample.dist Z.gtb TravelExample.geo TravelExample.loginDoc
    TravelExample.loginOf JNum JNum 500%Z.

(** The takeover alert of the example above is not listed for its tenant. *)
Lemma orgless_alerts_unlisted_witness :
  ListAlerts "o" "" "" 20 "" None (tsAlerts TakeoverExample.st2) = Ok ([], "") /\
  Forall (fun a => orgless (alDetector a) = false) [].
Proof.
  assert (Hr : rtc exampleStep TakeoverExample.st0 TakeoverExample.st2).
  { eapply rtc_l; [apply (step_takeover _ _ _ _ _ _ _ _ _ _ _ _ _ _ _ _ _ _ 0 TakeoverExample.noFault TakeoverExample.change)|].
    eapply rtc_l; [apply (step_takeover _ _ _ _ _ _ _ _ _ _ _ _ _ _ _ _ _ _ Hour TakeoverExample.noFault TakeoverExample.login)|].
    apply rtc_refl. }
  split; [vm_compute; reflexivity|].
  by apply (orgless_alerts_unlisted _ _ _ _ _ _ _ _ _ _ _ _ _ _ _ _ _ TakeoverExample.st0
              TakeoverExample.st2 "o" "" "" 20 "" [] "" eq_refl Hr).
Defined.
