(* ===== verification/IamStore.v ===== *)
(** The storage of the identity service: services/iam/pkg/repository on the
    schema of services/iam/migrations.  Users, sessions, refresh tokens,
    second factors and connectors; each SQL statement is a function on the
    tables.  Every operation takes how the pool and the server treat it: the
    connection it gets and its failures ([dbc]). *)

From S2P Require Import Prelude GoStrings Json Pg Outbox.
From Stdlib Require Import Ascii.

(** ** Data *)

Definition ErrNotFound : goerr := ErrNew "resource not found".
Definition ErrNoRows : goerr := ErrNew "no rows in result set".
Definition ErrUnique : goerr := ErrNew "duplicate key value violates unique constraint".
Definition ErrForeignKey : goerr := ErrNew "violates foreign key constraint".
Definition ErrIntRange : goerr := ErrNew "integer out of range".
Definition ErrBounds : goerr := ErrNew "OFFSET and LIMIT must not be negative".

(** Go's zero [time.Time]. *)
Definition zeroTime : Z := (-62135596800 * Second)%Z.

(** A row of [users], and what the queries return of it, with Go's zero
    values in the fields a query leaves out. *)
Record User := mkUser {
  uID : string;
  uOrgID : string;
  uEmail : string;
  uPasswordHash : string;
  uDisplayName : string;
  uRole : string;
  uStatus : string;
  uFailedLoginCount : Z;
  uLockedUntil : option Z;
  uMFAEnabled : bool;
  uMFAMethod : string;
  uSCIMExternalID : option string;
  uVersion : Z;
  uCreatedAt : Z;
  uUpdatedAt : Z;
}.

(** Columns the code never reads are left out of the other tables. *)
Record SessionRow := mkSessionRow {
  sOrgID : string;
  sUserID : string;
  sJTI : string;
  sUserAgent : string;
  sIPAddress : string;
  sExpiresAt : Z;
  sCreatedAt : Z;
}.

Record RefreshRow := mkRefreshRow {
  rtID : string;
  rtOrgID : string;
  rtUserID : string;
  rtTokenHash : string;
  rtFamilyID : string;
  rtExpiresAt : Z;
  rtRevoked : bool;
}.

(** A [NULL] array of backup codes behaves as the empty one. *)
Record MFARow := mkMFARow {
  mOrgID : string;
  mUserID : string;
  mMFAType : string;
  mSecretEncrypted : string;
  mBackupCodeHashes : list string;
}.

Record Connector := mkConnector {
  cnID : string;
  cnOrgID : string;
  cnName : string;
  cnClientSecret : string;
  cnRedirectURIs : list string;
}.

Record Session := mkSession { seJTI : string; seUserAgent : string; seIPAddress : string }.
Record MFAConfig := mkMFAConfig { MFAType : string; SecretEncrypted : string }.

Record DB := mkDB {
  orgs : list string;
  users : list User;
  sessions : list SessionRow;
  refresh_tokens : list RefreshRow;
  mfa_configs : list MFARow;
  connectors : list Connector;
  iam_outbox : list OutboxRecord;
}.

Definition set_users (l : list User) (db : DB) : DB :=
  mkDB (orgs db) l (sessions db) (refresh_tokens db) (mfa_configs db) (connectors db) (iam_outbox db).
Definition set_sessions (l : list SessionRow) (db : DB) : DB :=
  mkDB (orgs db) (users db) l (refresh_tokens db) (mfa_configs db) (connectors db) (iam_outbox db).
Definition set_tokens (l : list RefreshRow) (db : DB) : DB :=
  mkDB (orgs db) (users db) (sessions db) l (mfa_configs db) (connectors db) (iam_outbox db).
Definition set_mfa (l : list MFARow) (db : DB) : DB :=
  mkDB (orgs db) (users db) (sessions db) (refresh_tokens db) l (connectors db) (iam_outbox db).
Definition set_connectors (os : list string) (l : list Connector) (db : DB) : DB :=
  mkDB os (users db) (sessions db) (refresh_tokens db) (mfa_configs db) l (iam_outbox db).
Definition set_iam_outbox (l : list OutboxRecord) (db : DB) : DB :=
  mkDB (orgs db) (users db) (sessions db) (refresh_tokens db) (mfa_configs db) (connectors db) l.

Definition set_status (status : string) (now : Z) (u : User) : User :=
  mkUser (uID u) (uOrgID u) (uEmail u) (uPasswordHash u) (uDisplayName u) (uRole u) status
    (uFailedLoginCount u) (uLockedUntil u) (uMFAEnabled u) (uMFAMethod u) (uSCIMExternalID u)
    (uVersion u + 1) (uCreatedAt u) now.
Definition set_display_name (name : string) (now : Z) (u : User) : User :=
  mkUser (uID u) (uOrgID u) (uEmail u) (uPasswordHash u) name (uRole u) (uStatus u)
    (uFailedLoginCount u) (uLockedUntil u) (uMFAEnabled u) (uMFAMethod u) (uSCIMExternalID u)
    (uVersion u + 1) (uCreatedAt u) now.
Definition set_scim (externalID status : string) (now : Z) (u : User) : User :=
  mkUser (uID u) (uOrgID u) (uEmail u) (uPasswordHash u) (uDisplayName u) (uRole u) status
    (uFailedLoginCount u) (uLockedUntil u) (uMFAEnabled u) (uMFAMethod u) (Some externalID)
    (uVersion u + 1) (uCreatedAt u) now.
Definition set_login (count : Z) (locked : option Z) (now : Z) (u : User) : User :=
  mkUser (uID u) (uOrgID u) (uEmail u) (uPasswordHash u) (uDisplayName u) (uRole u) (uStatus u)
    count locked (uMFAEnabled u) (uMFAMethod u) (uSCIMExternalID u)
    (uVersion u) (uCreatedAt u) now.
Definition set_user_mfa (enabled : bool) (method : string) (u : User) : User :=
  mkUser (uID u) (uOrgID u) (uEmail u) (uPasswordHash u) (uDisplayName u) (uRole u) (uStatus u)
    (uFailedLoginCount u) (uLockedUntil u) enabled method (uSCIMExternalID u)
    (uVersion u) (uCreatedAt u) (uUpdatedAt u).

Definition revoke_row (r : RefreshRow) : RefreshRow :=
  mkRefreshRow (rtID r) (rtOrgID r) (rtUserID r) (rtTokenHash r) (rtFamilyID r) (rtExpiresAt r) true.

Definition systemOrg : string := "00000000-0000-0000-0000-000000000000".

(** ** The filter of a SCIM request *)

(** [strings.Split(s, sep)[0]], and the text after the first [sep]. *)
Fixpoint cut (sep s : string) : option (string * string) :=
  if HasPrefix s sep then Some ("", TrimPrefix s sep)
  else match s with
       | EmptyString => None
       | String c s' =>
           match cut sep s' with Some (a, b) => Some (String c a, b) | None => None end
       end.

Definition piece0 (sep s : string) : string :=
  match cut sep s with Some (a, _) => a | None => s end.

Definition quote : string := String "034" "".
Definition userNameEq : string := "userName eq " +:+ quote.

(** The address asked for by [userName eq], [None] when there is no such
    condition. *)
Definition scimEmail (filter : string) : option string :=
  match cut userNameEq filter with
  | Some (_, rest) => Some (piece0 quote (piece0 userNameEq rest))
  | None => None
  end.

(** ** Calls of the database *)

(** The connection the pool hands out, and what goes wrong with the call. *)
Record dbc (S : Type) := mkDbc { dConn : S; dFaults : Faults }.
Arguments mkDbc {S} _ _.
Arguments dConn {S} _.
Arguments dFaults {S} _.

Section store.
Context {S : Type} `{PgSession S}.
Variable pgUUID : uuidCast.
(** The cast of a text to [INET], and how the driver scans an [INET] into a
    Go string. *)
Variable inetCast : string -> res string.
Variable scanInet : string -> res string.
(** The order in which a scan of [users] without ORDER BY meets the rows. *)
Variable heap : list User -> list User.
(** The role of the connection pool; [openguard_login] has [BYPASSRLS]. *)
Variable ro : role.

Definition visible (r : role) (sess : S) : res (string -> bool) :=
  rls_filter pgUUID r (current_setting sess app_org).

Definition withOrgContext {A} (orgID : string) (c : dbc S) (fn : S -> DB -> DB * res A) (db : DB)
  : DB * res A :=
  match fAcquire (dFaults c) with
  | Some e => (db, Err (ErrWrap "acquire conn: " e ""))
  | None =>
      match SetSessionVar (dConn c) orgID (fSet (dFaults c)) with
      | (_, Some e) => (db, Err e)
      | (conn', None) => fn conn' db
      end
  end.

(** [conn.Exec], and [conn.QueryRow(...).Scan] of a statement that writes. *)
Definition execOrg {A} (orgID : string) (c : dbc S) (stmt : S -> DB -> res (DB * A)) (db : DB)
  : DB * res A :=
  withOrgContext orgID c (fun sess db => autocommit (dFaults c) (stmt sess) db) db.

(** The same on a table kept apart from the others. *)
Definition execTable {T A} (orgID : string) (c : dbc S) (stmt : S -> T -> res (T * A)) (rows : T) : T * res A :=
  match fAcquire (dFaults c) with
  | Some e => (rows, Err (ErrWrap "acquire conn: " e ""))
  | None =>
      match SetSessionVar (dConn c) orgID (fSet (dFaults c)) with
      | (_, Some e) => (rows, Err e)
      | (sess, None) => autocommit (dFaults c) (stmt sess) rows
      end
  end.

(** The same for a statement that only reads. *)
Definition readOrg {A} (orgID : string) (c : dbc S) (sel : S -> DB -> res A) (db : DB) : res A :=
  (execOrg orgID c (fun sess db => a <-? sel sess db; Ok (db, a)) db).2.

Definition notFound {A} (r : res A) : res A :=
  match r with
  | Ok a => Ok a
  | Err e => if errors_is e ErrNoRows then Err ErrNotFound else Err e
  end.

Definition one_row {A} (l : list A) : res A :=
  match l with a :: _ => Ok a | [] => Err ErrNoRows end.

(** The rows a query delivers.  The loops do not consult [rows.Err()], where
    what went wrong while the statement ran is reported. *)
Definition delivered {A} (c : dbc S) (r : res (list A)) : list A :=
  match r with Ok l => rows_list (deliver (fRows (dFaults c)) l) | Err _ => [] end.

(** ** Users *)

Definition int4_max : Z := 2147483647.
Definition int4_ok (u : User) : bool :=
  (uFailedLoginCount u <=? int4_max)%Z && (uVersion u <=? int4_max)%Z.

Definition insert_user (sess : S) (id : string) (now : Z)
  (orgID email passwordHash displayName role status : string) (db : DB) : res (DB * string) :=
  org <-? uuid_arg pgUUID orgID;
  vis <-? visible ro sess;
  if negb (vis org) then Err ErrRLS
  else if existsb (fun u => (uOrgID u =s? org) && (uEmail u =s? email)) (users db) then Err ErrUnique
  else if negb (existsb (String.eqb org) (orgs db)) then Err ErrForeignKey
  else Ok (set_users (users db ++
             [mkUser id org email passwordHash displayName role status 0 None false "" None 1 now now]) db,
           id).

(** [UPDATE users SET ... WHERE p], with the rows it returns. *)
Definition update_users (sess : S) (p : User -> bool) (g : User -> User) (db : DB)
  : res (DB * list User) :=
  vis <-? visible ro sess;
  let hit u := p u && vis (uOrgID u) in
  let new := map g (List.filter hit (users db)) in
  if forallb int4_ok new
  then Ok (set_users (map (fun u => if hit u then g u else u) (users db)) db, heap new)
  else Err ErrIntRange.

Definition exec_users (orgID : string) (c : dbc S) (p : User -> bool) (g : User -> User) (db : DB)
  : DB * res unit :=
  execOrg orgID c (fun sess db => r <-? update_users sess p g db; Ok (r.1, tt)) db.

(** An UPDATE of the row with an id. *)
Definition exec_user_id (ctxOrg userID : string) (c : dbc S) (g : User -> User) (db : DB)
  : DB * res unit :=
  execOrg ctxOrg c (fun sess db =>
    id <-? uuid_arg pgUUID userID;
    r <-? update_users sess (fun u => uID u =s? id) g db; Ok (r.1, tt)) db.

Definition CreateUser (c : dbc S) (id : string) (now : Z)
  (orgID email passwordHash displayName role status : string) (db : DB) : DB * res string :=
  execOrg orgID c (fun sess =>
    insert_user sess id now orgID email passwordHash displayName role status) db.

Definition UpdateUserStatus (ctxOrg : string) (c : dbc S) (now : Z) (userID status : string) (db : DB) :=
  exec_user_id ctxOrg userID c (set_status status now) db.

Definition UpdateUserDisplayName (ctxOrg : string) (c : dbc S) (now : Z) (userID name : string) (db : DB) :=
  exec_user_id ctxOrg userID c (set_display_name name now) db.

Definition UpdateUserSCIM (ctxOrg : string) (c : dbc S) (now : Z) (id externalID status : string) (db : DB) :=
  exec_user_id ctxOrg id c (set_scim externalID status now) db.

Definition EnableUserMFA (ctxOrg : string) (c : dbc S) (userID : string) (enabled : bool)
  (method : string) (db : DB) :=
  exec_user_id ctxOrg userID c (set_user_mfa enabled method) db.

Definition DeprovisionAllUsers (c : dbc S) (now : Z) (orgID : string) (db : DB) : DB * res unit :=
  execOrg orgID c (fun sess db =>
    org <-? uuid_arg pgUUID orgID;
    r <-? update_users sess (fun u => uOrgID u =s? org) (set_status "deprovisioned" now) db;
    Ok (r.1, tt)) db.

(** [SELECT ... FROM users WHERE email = $1]. *)
Definition by_email (r : role) (sess : S) (email : string) (db : DB) : res User :=
  vis <-? visible r sess;
  one_row (heap (List.filter (fun u => (uEmail u =s? email) && vis (uOrgID u)) (users db))).

(** [GetUserByEmail] switches to the login role; the columns it reads. *)
Definition login_row (email : string) (u : User) : User :=
  mkUser (uID u) (uOrgID u) email (uPasswordHash u) (uDisplayName u) (uRole u) (uStatus u)
    (uFailedLoginCount u) (uLockedUntil u) false "" None 0 zeroTime zeroTime.

Definition GetUserByEmail (c : dbc S) (email : string) (db : DB) : res User :=
  match fAcquire (dFaults c) with
  | Some e => Err e
  | None =>
      match fSet (dFaults c) with
      | Some e => Err (ErrWrap "set login role: " e "")
      | None =>
          match fQuery (dFaults c) with
          | Some e => Err e
          | None => notFound (res_map (login_row email) (by_email RoleBypass (dConn c) email db))
          end
      end
  end.

Definition public_row (u : User) : User :=
  mkUser (uID u) (uOrgID u) (uEmail u) "" (uDisplayName u) (uRole u) (uStatus u)
    0 None false "" None 0 zeroTime zeroTime.

(** [GetUserByID] does not read the id back. *)
Definition with_id (id : string) (u : User) : User :=
  mkUser id (uOrgID u) (uEmail u) (uPasswordHash u) (uDisplayName u) (uRole u) (uStatus u)
    (uFailedLoginCount u) (uLockedUntil u) (uMFAEnabled u) (uMFAMethod u) (uSCIMExternalID u)
    (uVersion u) (uCreatedAt u) (uUpdatedAt u).

Definition GetUserByID (ctxOrg : string) (c : dbc S) (userID : string) (db : DB) : res User :=
  notFound (readOrg ctxOrg c (fun sess db =>
    id <-? uuid_arg pgUUID userID;
    vis <-? visible ro sess;
    u <-? one_row (List.filter (fun u => (uID u =s? id) && vis (uOrgID u)) (users db));
    Ok (with_id userID (public_row u))) db).

(** [getUser] with the condition of the SCIM external id. *)
Definition GetUserByExternalID (ctxOrg : string) (c : dbc S) (orgID externalID : string) (db : DB)
  : res User :=
  notFound (readOrg ctxOrg c (fun sess db =>
    org <-? uuid_arg pgUUID orgID;
    vis <-? visible ro sess;
    u <-? one_row (heap (List.filter (fun u => (uOrgID u =s? org) && vis (uOrgID u) &&
            match uSCIMExternalID u with Some x => x =s? externalID | None => false end) (users db)));
    Ok (public_row u)) db).

(** The tenant of an address, "" when any of the three statements fails; a
    failed SET ROLE leaves the pool's own role. *)
Definition loginOrg (c : dbc S) (email : string) (db : DB) : string :=
  let r := match fSet (dFaults c) with Some _ => ro | None => RoleBypass end in
  match fQuery (dFaults c) with
  | Some _ => ""
  | None => match by_email r (dConn c) email db with Ok u => uOrgID u | Err _ => "" end
  end.

(** [c1] serves the lookup, held while [c2] serves the UPDATE. *)
Definition IncrementFailedLogin (c1 c2 : dbc S) (now : Z) (email : string) (db : DB) : DB * res Z :=
  match fAcquire (dFaults c1) with
  | Some e => (db, Err e)
  | None =>
      let orgID := loginOrg c1 email db in
      if orgID =s? "" then (db, Err ErrNotFound)
      else execOrg orgID c2 (fun sess db =>
             r <-? update_users sess (fun u => uEmail u =s? email)
                     (fun u => set_login (uFailedLoginCount u + 1) (uLockedUntil u) now u) db;
             u <-? one_row r.2; Ok (r.1, uFailedLoginCount u)) db
  end.

(** The tenant of the context, else of the address. *)
Definition contextOrg (ctxOrg : string) (c : dbc S) (email : string) (db : DB) : string :=
  if ctxOrg =s? "" then
    match fAcquire (dFaults c) with Some _ => "" | None => loginOrg c email db end
  else ctxOrg.

Definition ResetFailedLogin (ctxOrg : string) (c1 c2 : dbc S) (now : Z) (email : string) (db : DB)
  : DB * res unit :=
  exec_users (contextOrg ctxOrg c1 email db) c2 (fun u => uEmail u =s? email) (set_login 0 None now) db.

Definition LockAccount (ctxOrg : string) (c1 c2 : dbc S) (now : Z) (email : string) (until : Z) (db : DB)
  : DB * res unit :=
  exec_users (contextOrg ctxOrg c1 email db) c2 (fun u => uEmail u =s? email)
    (fun u => set_login (uFailedLoginCount u) (Some until) now u) db.

(** *** Lists *)

Definition list_row (u : User) : User :=
  mkUser (uID u) (uOrgID u) (uEmail u) "" (uDisplayName u) (uRole u) (uStatus u)
    0 None false "" (uSCIMExternalID u) (uVersion u) (uCreatedAt u) (uUpdatedAt u).

Definition email_cond (filter : string) (u : User) : bool :=
  match scimEmail filter with Some e => uEmail u =s? e | None => true end.

(** The rows the query ranges over: every user for the system tenant. *)
Definition listed (r : role) (sess : S) (org : option string) (filter : string) (db : DB)
  : res (list User) :=
  vis <-? visible r sess;
  Ok (heap (List.filter (fun u => email_cond filter u && vis (uOrgID u) &&
        match org with Some o => uOrgID u =s? o | None => true end) (users db))).

(** The connection of the system tenant, under the login role. *)
Definition asLogin {A} (c : dbc S) (sel : S -> res A) : res A :=
  match fAcquire (dFaults c) with
  | Some e => Err e
  | None =>
      match fSet (dFaults c) with
      | Some e => Err (ErrWrap "set login role: " e "")
      | None => match fQuery (dFaults c) with Some e => Err e | None => sel (dConn c) end
      end
  end.

Definition ListUsers (c : dbc S) (orgID filter : string) (db : DB) : res (list User) :=
  if orgID =s? systemOrg then
    asLogin c (fun sess => Ok (delivered c (us <-? listed RoleBypass sess None filter db; Ok (map list_row us))))
  else
    readOrg orgID c (fun sess db =>
      org <-? uuid_arg pgUUID orgID;
      Ok (delivered c (us <-? listed ro sess (Some org) filter db; Ok (map list_row us)))) db.

Definition older_user (a b : User) : bool := (uCreatedAt a <=? uCreatedAt b)%Z.

(** [ORDER BY created_at OFFSET o LIMIT n]. *)
Definition page_of (offset limit : Z) (us : list User) : res (list User) :=
  if (offset <? 0)%Z || (limit <? 0)%Z then Err ErrBounds
  else Ok (take (Z.to_nat limit) (drop (Z.to_nat offset) (order_by older_user us))).

(** The count reads [db], the page [db']: two statements. *)
Definition ListUsersPaginated (c : dbc S) (orgID filter : string) (offset limit : Z) (db db' : DB)
  : res (list User * Z) :=
  if orgID =s? systemOrg then
    asLogin c (fun sess =>
      us <-? listed RoleBypass sess None filter db;
      Ok (delivered c (us' <-? listed RoleBypass sess None filter db';
                       p <-? page_of offset limit us'; Ok (map list_row p)), Z.of_nat (length us)))
  else
    readOrg orgID c (fun sess db =>
      org <-? uuid_arg pgUUID orgID;
      us <-? listed ro sess (Some org) filter db;
      Ok (delivered c (us' <-? listed ro sess (Some org) filter db';
                       p <-? page_of offset limit us'; Ok (map list_row p)), Z.of_nat (length us))) db.

(** ** Sessions *)

Definition insert_session (sess : S) (now : Z) (orgID userID jti userAgent ip : string)
  (expiresAt : Z) (db : DB) : res (DB * unit) :=
  org <-? uuid_arg pgUUID orgID;
  user <-? uuid_arg pgUUID userID;
  addr <-? inetCast ip;
  vis <-? visible ro sess;
  if negb (vis org) then Err ErrRLS
  else if existsb (fun s => sJTI s =s? jti) (sessions db) then Err ErrUnique
  else if negb (existsb (String.eqb org) (orgs db) && existsb (fun u => uID u =s? user) (users db))
  then Err ErrForeignKey
  else Ok (set_sessions (sessions db ++ [mkSessionRow org user jti userAgent addr expiresAt now]) db, tt).

Definition CreateSession (c : dbc S) (now : Z) (orgID userID jti userAgent ip : string)
  (expiresAt : Z) (db : DB) : DB * res unit :=
  execOrg orgID c (fun sess => insert_session sess now orgID userID jti userAgent ip expiresAt) db.

Definition live_sessions (sess : S) (now : Z) (userID : string) (db : DB) : res (list SessionRow) :=
  user <-? uuid_arg pgUUID userID;
  vis <-? visible ro sess;
  Ok (List.filter (fun s => (sUserID s =s? user) && (now <? sExpiresAt s)%Z && vis (sOrgID s)) (sessions db)).

Definition GetActiveJTIs (ctxOrg : string) (c : dbc S) (now : Z) (userID : string) (db : DB)
  : res (list string) :=
  readOrg ctxOrg c (fun sess db =>
    _ <-? uuid_arg pgUUID userID;
    Ok (delivered c (l <-? live_sessions sess now userID db; Ok (map sJTI l)))) db.

(** 0 when the session is not found, has expired, or the query fails. *)
Definition GetSessionTTL (ctxOrg : string) (c : dbc S) (now : Z) (jti : string) (db : DB) : Z :=
  match readOrg ctxOrg c (fun sess db =>
          vis <-? visible ro sess;
          one_row (List.filter (fun s => (sJTI s =s? jti) && vis (sOrgID s)) (sessions db))) db with
  | Err _ => 0
  | Ok s => let ttl := (sExpiresAt s - now)%Z in if (ttl <? 0)%Z then 0 else ttl
  end.

Definition RevokeSessions (ctxOrg : string) (c : dbc S) (userID : string) (db : DB) : DB * res unit :=
  execOrg ctxOrg c (fun sess db =>
    user <-? uuid_arg pgUUID userID;
    vis <-? visible ro sess;
    Ok (set_sessions (List.filter (fun s => negb ((sUserID s =s? user) && vis (sOrgID s)))
                        (sessions db)) db, tt)) db.

Definition newest_session (a b : SessionRow) : bool := (sCreatedAt b <=? sCreatedAt a)%Z.

(** The address is an [INET] scanned into a string. *)
Definition GetSessionByUserID (ctxOrg : string) (c : dbc S) (now : Z) (userID : string) (db : DB)
  : res Session :=
  notFound (readOrg ctxOrg c (fun sess db =>
    l <-? live_sessions sess now userID db;
    s <-? one_row (order_by newest_session l);
    ip <-? scanInet (sIPAddress s);
    Ok (mkSession (sJTI s) (sUserAgent s) ip)) db).

(** ** Refresh tokens: a table without row-level security *)

Definition CreateRefreshToken (c : dbc S) (id orgID userID tokenHash familyID : string)
  (expiresAt : Z) (db : DB) : DB * res unit :=
  execOrg orgID c (fun _ db =>
    org <-? uuid_arg pgUUID orgID;
    user <-? uuid_arg pgUUID userID;
    if existsb (fun r => rtTokenHash r =s? tokenHash) (refresh_tokens db) then Err ErrUnique
    else if negb (existsb (String.eqb org) (orgs db) && existsb (fun u => uID u =s? user) (users db))
    then Err ErrForeignKey
    else Ok (set_tokens (refresh_tokens db ++
               [mkRefreshRow id org user tokenHash familyID expiresAt false]) db, tt)) db.

Definition GetRefreshToken (ctxOrg : string) (c : dbc S) (tokenHash : string) (db : DB) : res RefreshRow :=
  notFound (readOrg ctxOrg c (fun _ db =>
    one_row (List.filter (fun r => rtTokenHash r =s? tokenHash) (refresh_tokens db))) db).

Definition revoke_where (p : RefreshRow -> bool) (db : DB) : DB :=
  set_tokens (map (fun r => if p r then revoke_row r else r) (refresh_tokens db)) db.

Definition RevokeRefreshTokenFamily (ctxOrg : string) (c : dbc S) (familyID : string) (db : DB)
  : DB * res unit :=
  execOrg ctxOrg c (fun _ db => Ok (revoke_where (fun r => rtFamilyID r =s? familyID) db, tt)) db.

Definition claimable (now : Z) (tokenHash : string) (r : RefreshRow) : bool :=
  (rtTokenHash r =s? tokenHash) && negb (rtRevoked r) && (now <? rtExpiresAt r)%Z.

Definition ClaimRefreshToken (ctxOrg : string) (c : dbc S) (now : Z) (tokenHash : string) (db : DB)
  : DB * res RefreshRow :=
  let '(db', r) := execOrg ctxOrg c (fun _ db =>
    rt <-? one_row (List.filter (claimable now tokenHash) (refresh_tokens db));
    Ok (revoke_where (claimable now tokenHash) db, revoke_row rt)) db in
  (db', notFound r).

(** The family of a hash; the subquery is [NULL] for an unknown hash. *)
Definition family_of (tokenHash : string) (db : DB) : option string :=
  match List.filter (fun r => rtTokenHash r =s? tokenHash) (refresh_tokens db) with
  | r :: _ => Some (rtFamilyID r)
  | [] => None
  end.

Definition RevokeRefreshTokenFamilyByHash (ctxOrg : string) (c : dbc S) (tokenHash : string) (db : DB)
  : DB * res unit :=
  execOrg ctxOrg c (fun _ db =>
    match family_of tokenHash db with
    | Some fam => Ok (revoke_where (fun r => rtFamilyID r =s? fam) db, tt)
    | None => Ok (db, tt)
    end) db.

Definition DeleteRefreshToken (ctxOrg : string) (c : dbc S) (tokenHash : string) (db : DB) : DB * res unit :=
  execOrg ctxOrg c (fun _ db =>
    Ok (set_tokens (List.filter (fun r => negb (rtTokenHash r =s? tokenHash)) (refresh_tokens db)) db,
        tt)) db.

(** ** Second factors *)

Definition mfa_is (user ty : string) (vis : string -> bool) (m : MFARow) : bool :=
  (mUserID m =s? user) && (mMFAType m =s? ty) && vis (mOrgID m).

Definition GetMFAConfig (ctxOrg : string) (c : dbc S) (userID ty : string) (db : DB) : res MFAConfig :=
  notFound (readOrg ctxOrg c (fun sess db =>
    user <-? uuid_arg pgUUID userID;
    vis <-? visible ro sess;
    m <-? one_row (List.filter (mfa_is user ty vis) (mfa_configs db));
    Ok (mkMFAConfig ty (mSecretEncrypted m))) db).

Definition ListMFAConfigs (ctxOrg : string) (c : dbc S) (userID : string) (db : DB)
  : res (list MFAConfig) :=
  readOrg ctxOrg c (fun sess db =>
    user <-? uuid_arg pgUUID userID;
    Ok (delivered c (vis <-? visible ro sess;
          Ok (map (fun m => mkMFAConfig (mMFAType m) (mSecretEncrypted m))
                (List.filter (fun m => (mUserID m =s? user) && vis (mOrgID m)) (mfa_configs db)))))) db.

Definition set_secret (secret : string) (m : MFARow) : MFARow :=
  mkMFARow (mOrgID m) (mUserID m) (mMFAType m) secret (mBackupCodeHashes m).
Definition set_codes (hashes : list string) (m : MFARow) : MFARow :=
  mkMFARow (mOrgID m) (mUserID m) (mMFAType m) (mSecretEncrypted m) hashes.

(** A conflict with a row that is not visible is an error. *)
Definition UpsertMFAConfig (c : dbc S) (orgID userID ty secret : string) (db : DB) : DB * res unit :=
  execOrg orgID c (fun sess db =>
    org <-? uuid_arg pgUUID orgID;
    user <-? uuid_arg pgUUID userID;
    vis <-? visible ro sess;
    let same m := (mUserID m =s? user) && (mMFAType m =s? ty) in
    if negb (vis org) then Err ErrRLS
    else match find same (mfa_configs db) with
         | Some m =>
             if negb (vis (mOrgID m)) then Err ErrRLS
             else Ok (set_mfa (map (fun m => if same m then set_secret secret m else m)
                                 (mfa_configs db)) db, tt)
         | None =>
             if negb (existsb (String.eqb org) (orgs db) && existsb (fun u => uID u =s? user) (users db))
             then Err ErrForeignKey
             else Ok (set_mfa (mfa_configs db ++ [mkMFARow org user ty secret []]) db, tt)
         end) db.

Definition StoreBackupCodes (ctxOrg : string) (c : dbc S) (userID : string) (hashes : list string) (db : DB)
  : DB * res unit :=
  execOrg ctxOrg c (fun sess db =>
    user <-? uuid_arg pgUUID userID;
    vis <-? visible ro sess;
    Ok (set_mfa (map (fun m => if mfa_is user "totp" vis m then set_codes hashes m else m)
                   (mfa_configs db)) db, tt)) db.

Definition has_code (codeHash : string) (m : MFARow) : bool :=
  existsb (String.eqb codeHash) (mBackupCodeHashes m).
Definition array_remove (x : string) (l : list string) : list string :=
  List.filter (fun y => negb (x =s? y)) l.

Definition ConsumeBackupCode (ctxOrg : string) (c : dbc S) (userID codeHash : string) (db : DB)
  : DB * res bool :=
  execOrg ctxOrg c (fun sess db =>
    user <-? uuid_arg pgUUID userID;
    vis <-? visible ro sess;
    let hit m := mfa_is user "totp" vis m && has_code codeHash m in
    Ok (set_mfa (map (fun m => if hit m then set_codes (array_remove codeHash (mBackupCodeHashes m)) m
                               else m) (mfa_configs db)) db,
        existsb hit (mfa_configs db))) db.

(** ** Connectors *)

Definition GetConnectorByID (ctxOrg : string) (c : dbc S) (id : string) (db : DB) : res Connector :=
  notFound (readOrg ctxOrg c (fun sess db =>
    vis <-? visible ro sess;
    one_row (List.filter (fun k => (cnID k =s? id) && vis (cnOrgID k)) (connectors db))) db).

Definition ListConnectors (ctxOrg : string) (c : dbc S) (db : DB) : res (list Connector) :=
  if ctxOrg =s? systemOrg then
    asLogin c (fun sess => Ok (delivered c (vis <-? visible RoleBypass sess;
                                            Ok (List.filter (fun k => vis (cnOrgID k)) (connectors db)))))
  else
    readOrg ctxOrg c (fun sess db =>
      Ok (delivered c (vis <-? visible ro sess;
                       Ok (List.filter (fun k => vis (cnOrgID k)) (connectors db))))) db.

(** ** The outbox, inside the transaction of the caller *)

(** Payloads are [BYTEA]: stored as they are. *)
Definition CreateOutboxEvent (tx : Tx (list OutboxRecord)) (fault : option goerr) (id : string) (now : Z)
  (orgID topic key : string) (payload : json) : Tx (list OutboxRecord) * res unit :=
  tx_exec tx fault (insert_outbox pgUUID (fun j => j) id now orgID topic key (Some payload)).
End store.
