(* ===== verification/IamService.v ===== *)
(** The identity service: services/iam/pkg/service (auth.go, auth_pool.go,
    mfa.go, users.go) on the tables of [IamStore].  Passwords, tokens,
    refresh-token families, second factors and the life cycle of users.  The
    service is configured with a Redis client ([main.go] always gives it
    one). *)

From S2P Require Import Prelude GoStrings Json Redis Pg Resilience Hex Crypto Outbox.
From S2P Require Import Middleware RateLimit IamStore.
From S2P Require Ssrf.
From stdpp Require Import gmap.
From Stdlib Require Import Ascii.

(** ** What the service calls *)

(** Library functions: the casts of PostgreSQL, bcrypt, TOTP, HMAC, SHA-256,
    URL-safe base64 with
    and without padding, [net.ParseIP]; and the text of a document in Redis. *)
Class IamLib := {
  libUUID : uuidCast;
  libInet : string -> res string;
  libScanInet : string -> res string;
  libHeap : list User -> list User;
  bcryptCompare : string -> string -> option goerr;        (* hash, password *)
  bcryptGenerate : string -> string -> res string;         (* salt, password *)
  totpValidate : Z -> string -> string -> bool;            (* instant, code, secret *)
  hmacSHA256 : string -> string -> string;                 (* secret, message *)
  sha256 : string -> string;
  b64url : string -> string;
  b64rawurl : string -> string;
  libParseIP : string -> option Z;
  libDocText : json -> string;
}.

Class IamLibLaws `{IamLib} : Prop := {
  uuid_empty : libUUID "" = None;
  heap_perm l : Permutation (libHeap l) l;
  bcrypt_round salt p h : bcryptGenerate salt p = Ok h -> bcryptCompare h p = None;
}.

Record Config := mkConfig {
  cfRole : role;
  cfKeyring : list JWTKey;
  cfAESKeyring : list EncryptionKey;
  cfBackupSecret : string;                  (* IAM_MFA_BACKUP_CODE_HMAC_SECRET *)
}.

(** ** Constants and errors *)

Definition riskScoreUAFamilyChange : Z := 60.
Definition riskScoreIPSubnetChange : Z := 40.
Definition riskScoreIPHostChange : Z := 15.
Definition riskScoreUAVersionChange : Z := 20.
Definition riskThresholdRevoke : Z := 80.

Definition ErrSessionRevokedRisk : goerr := ErrNew "SESSION_REVOKED_RISK".
Definition ErrSessionCompromised : goerr := ErrNew "SESSION_COMPROMISED".
Definition ErrInvalidCredentials : goerr := ErrNew "INVALID_CREDENTIALS".
Definition ErrAccountSetup : goerr := ErrNew "ACCOUNT_SETUP_PENDING".
Definition redisNil : goerr := ErrNew "redis: nil".

Record IssueTokensRequest := mkIssueTokensRequest {
  irOrgID : string; irUserID : string; irUserAgent : string; irIPAddress : string; irFamilyID : string }.

Record TokenResponse := mkTokenResponse {
  AccessToken : string; RefreshTok : string; ExpiresIn : Z; TokenType : string }.

(** ** Pure parts *)

(** [15 * time.Minute * (1 << uint(steps))] in [int64]. *)
Definition lockoutDuration (failCount : Z) : Z :=
  let steps := (Z.quot failCount 10 - 1)%Z in
  let steps := if (steps <? 0)%Z then 0%Z else steps in
  let dur := wrap64 (15 * Minute * wrap64 (Z.shiftl 1 steps)) in
  if (24 * Hour <? dur)%Z then (24 * Hour)%Z else dur.

Definition parseUserAgent (ua : string) : string * string :=
  match Split "/"%char ua with
  | family :: version :: _ => (family, version)
  | _ => (ua, "0.0")
  end.

Section pure.
Context `{IamLib}.

Definition ipToSubnet16 (ipStr : string) : string :=
  match libParseIP ipStr with
  | None => ipStr
  | Some ip =>
      match Ssrf.To4 ip with
      | None => ipStr
      | Some x => itoa (x / 2 ^ 24) +:+ ("." +:+ itoa (x / 2 ^ 16 mod 256))
      end
  end.

Definition calculateRiskScore (storedUA currentUA storedIP currentIP : string) : Z :=
  let '(storedFamily, storedVersion) := parseUserAgent storedUA in
  let '(currentFamily, currentVersion) := parseUserAgent currentUA in
  (if negb (storedFamily =s? currentFamily) then riskScoreUAFamilyChange
   else if negb (storedVersion =s? currentVersion) then riskScoreUAVersionChange else 0)
  + (if negb (ipToSubnet16 storedIP =s? ipToSubnet16 currentIP) then riskScoreIPSubnetChange
     else if negb (storedIP =s? currentIP) then riskScoreIPHostChange else 0).

Context `{Aead}.

(** [crypto.HashSHA256] and [crypto.GenerateRandomString]; [b] is what the
    system's generator yields. *)
Definition HashSHA256 (s : string) : string := b64enc (sha256 s).
Definition GenerateRandomString (n : nat) (b : string) : string := String.substring 0 n (b64url b).

(** [AuthWorkerPool.Compare] and [Generate]: a job of a worker, unless the
    context ends first. *)
Definition PoolCompare (cancelled : option goerr) (password hash : string) : option goerr :=
  match cancelled with Some e => Some e | None => bcryptCompare hash password end.
Definition PoolGenerate (cancelled : option goerr) (salt password : string) : res string :=
  match cancelled with Some e => Err e | None => bcryptGenerate salt password end.

Definition backupHash (cfg : Config) (code : string) : string :=
  let secret := if cfBackupSecret cfg =s? "" then "dev-backup-code-secret-fixed-value-for-dev"
                else cfBackupSecret cfg in
  hexEnc (hmacSHA256 secret code).
End pure.

Definition dummyHash : string := "$2a$12$R9h/cIPz0gi.URQHeNH5OuLzBeGPWbS6vS6vS6vS6vS6vS6vS6vS6".

Definition challengeKey (token : string) : string := "mfa_challenge:" +:+ token.
Definition authCodeKey (code : string) : string := "auth_code:" +:+ code.
Definition totpKey (userID code : string) : string :=
  "totp:used:" +:+ (userID +:+ (":" +:+ code)).

(** ** The service *)

Section service.
Context {S R B : Type} `{PgSession S} `{Redis R} `{Breaker B} `{Jwt} `{Aead} `{IamLib}.
Variable cfg : Config.

Record Iam := mkIam { iDB : DB; iRedis : R; iBreaker : B }.

Definition with_db (db : DB) (w : Iam) : Iam := mkIam db (iRedis w) (iBreaker w).
Definition with_redis (r : R) (w : Iam) : Iam := mkIam (iDB w) r (iBreaker w).

Definition unit_res (e : option goerr) : res unit := match e with Some e => Err e | None => Ok tt end.

(** [resilience.Call] around a command of Redis. *)
Definition redisCall {A} (now : Z) (fn : R -> R * res A) (w : Iam) : Iam * res A :=
  let '(b, r, x) := Call now (iBreaker w) (100 * Millisecond) (fun _ => fn) (iRedis w) in
  (mkIam (iDB w) r b, x).

Definition redisSet (now : Z) (key : string) (v : rval) (ttl : Z) (r : R) : R * res unit :=
  let '(r', e) := rset now r key v ttl in (r', unit_res e).

Definition text_of (v : rval) : string := match v with RText s => s | RDoc j => libDocText j end.

(** [GetDel(...).Result()]: an absent key is the error [redis.Nil]. *)
Definition redisGetDel (now : Z) (key : string) (r : R) : R * res rval :=
  match rgetdel now r key with
  | (r', Ok (Some v)) => (r', Ok v)
  | (r', Ok None) => (r', Err redisNil)
  | (r', Err e) => (r', Err e)
  end.

(** *** Tokens *)

Record IssueEnv := mkIssueEnv {
  isJTI : string;               (* uuid.New *)
  isSession : dbc S;
  isRandom : string;
  isTokenID : string;
  isToken : dbc S;
}.

Definition accessTTL : Z := (1 * Hour)%Z.
Definition refreshTTL : Z := (7 * 24 * Hour)%Z.

Definition SignToken (now : Z) (orgID userID jti : string) (ttl : Z) : res string :=
  Sign (NewStandardClaims now orgID userID jti ttl) (cfKeyring cfg).

(** The address of the request without its port. *)
Definition hostOf (ip : string) : string := match SplitHost ip with Some host => host | None => ip end.

Definition IssueTokens (now : Z) (env : IssueEnv) (req : IssueTokensRequest) (db : DB)
  : DB * res TokenResponse :=
  let ip := hostOf (irIPAddress req) in
  let jti := isJTI env in
  match SignToken now (irOrgID req) (irUserID req) jti accessTTL with
  | Err e => (db, Err e)
  | Ok accessToken =>
      match CreateSession libUUID libInet (cfRole cfg) (isSession env) now (irOrgID req) (irUserID req)
              jti (irUserAgent req) ip (now + accessTTL) db with
      | (db, Err e) => (db, Err (ErrWrap "failed to create session: " e ""))
      | (db, Ok _) =>
          let refreshToken := GenerateRandomString 64 (isRandom env) in
          match CreateRefreshToken libUUID (isToken env) (isTokenID env) (irOrgID req) (irUserID req)
                  (HashSHA256 refreshToken) (irFamilyID req) (now + refreshTTL) db with
          | (db, Err e) => (db, Err (ErrWrap "failed to create refresh token: " e ""))
          | (db, Ok _) => (db, Ok (mkTokenResponse accessToken refreshToken 3600 "Bearer"))
          end
      end
  end.

Record RefreshEnv := mkRefreshEnv {
  reClaim : dbc S;
  reRevokeHash : dbc S;
  reSession : dbc S;
  reRevokeFamily : dbc S;
  reIssue : IssueEnv;
}.

(** The part of [RefreshToken] before the new tokens: the claimed row. *)
Definition refreshClaim (ctxOrg : string) (now : Z) (env : RefreshEnv) (refreshToken userAgent ip : string)
  (db : DB) : DB * res RefreshRow :=
  let rtHash := HashSHA256 refreshToken in
  match ClaimRefreshToken ctxOrg (reClaim env) now rtHash db with
  | (db, Err _) =>
      ((RevokeRefreshTokenFamilyByHash ctxOrg (reRevokeHash env) rtHash db).1, Err ErrSessionCompromised)
  | (db, Ok rt) =>
      let risky := match GetSessionByUserID libUUID libScanInet (cfRole cfg) ctxOrg (reSession env) now
                           (rtUserID rt) db with
                   | Ok s => (riskThresholdRevoke <=?
                                calculateRiskScore (seUserAgent s) userAgent (seIPAddress s) ip)%Z
                   | Err _ => false
                   end in
      if risky
      then ((RevokeRefreshTokenFamily ctxOrg (reRevokeFamily env) (rtFamilyID rt) db).1,
            Err ErrSessionRevokedRisk)
      else (db, Ok rt)
  end.

Definition reissue (rt : RefreshRow) (userAgent ip : string) : IssueTokensRequest :=
  mkIssueTokensRequest (rtOrgID rt) (rtUserID rt) userAgent ip (rtFamilyID rt).

Definition RefreshToken (ctxOrg : string) (now : Z) (env : RefreshEnv) (refreshToken userAgent ip : string)
  (db : DB) : DB * res TokenResponse :=
  match refreshClaim ctxOrg now env refreshToken userAgent ip db with
  | (db, Err e) => (db, Err e)
  | (db, Ok rt) => IssueTokens now (reIssue env) (reissue rt userAgent ip) db
  end.

(** *** Login *)

Record LoginEnv := mkLoginEnv {
  leUser : dbc S;
  leCompare : option goerr;
  leIncr : dbc S * dbc S;
  leLock : dbc S * dbc S;
  leReset : dbc S * dbc S;
  leMFA : dbc S;
  leChallenge : string;         (* uuid.New *)
  leFamily : string;            (* uuid.New *)
  leIssue : IssueEnv;
}.

(** A wrong password: the counter, and the lock from the tenth failure on. *)
Definition loginFailed (ctxOrg : string) (now : Z) (env : LoginEnv) (email : string) (db : DB) : DB :=
  let '(db, r) := IncrementFailedLogin libUUID libHeap (cfRole cfg) (leIncr env).1 (leIncr env).2 now email db in
  let count := match r with Ok n => n | Err _ => 0%Z end in
  if (10 <=? count)%Z
  then (LockAccount libUUID libHeap (cfRole cfg) ctxOrg (leLock env).1 (leLock env).2 now email
          (now + lockoutDuration count) db).1
  else db.

Definition mfaUser (u : User) : User :=
  mkUser (uID u) (uOrgID u) "" "" "" "" "" 0 None false "" None 0 zeroTime zeroTime.

Definition Login (ctxOrg : string) (now : Z) (env : LoginEnv) (email password userAgent ip : string)
  (w : Iam) : Iam * res (User * TokenResponse) :=
  let found := GetUserByEmail libUUID libHeap (leUser env) email (iDB w) in
  let hashToCompare := match found with Ok u => uPasswordHash u | Err _ => dummyHash end in
  let bcryptErr := PoolCompare (leCompare env) password hashToCompare in
  match found with
  | Err _ => (w, Err ErrInvalidCredentials)
  | Ok user =>
      if uStatus user =s? "initializing" then (w, Err ErrAccountSetup)
      else if match uLockedUntil user with Some t => (now <? t)%Z | None => false end
      then (w, Err ErrInvalidCredentials)
      else match bcryptErr with
      | Some _ => (with_db (loginFailed ctxOrg now env email (iDB w)) w, Err ErrInvalidCredentials)
      | None =>
          let db := (ResetFailedLogin libUUID libHeap (cfRole cfg) ctxOrg (leReset env).1 (leReset env).2
                       now email (iDB w)).1 in
          let w := with_db db w in
          let mfaConfigs := match ListMFAConfigs libUUID (cfRole cfg) ctxOrg (leMFA env) (uID user) db with
                            | Ok l => l | Err _ => [] end in
          match mfaConfigs with
          | _ :: _ =>
              let '(w, _) := redisCall now (redisSet now (challengeKey (leChallenge env))
                                              (RText (uID user)) (5 * Minute)) w in
              (w, Ok (mfaUser user, mkTokenResponse (leChallenge env) "" 0 ""))
          | [] =>
              match IssueTokens now (leIssue env)
                      (mkIssueTokensRequest (uOrgID user) (uID user) userAgent ip (leFamily env)) (iDB w) with
              | (db, Err e) => (with_db db w, Err e)
              | (db, Ok r) => (with_db db w, Ok (user, r))
              end
          end
      end
  end.

(** *** Logout and authorization codes *)

Definition Logout (now : Z) (jti : string) (expiresAt : Z) (w : Iam) : Iam * option goerr :=
  let ttl := (expiresAt - now)%Z in
  if (ttl <=? 0)%Z then (w, None)
  else let '(w, r) := redisCall now (redisSet now (blocklistKey jti) (RText "revoked") ttl) w in
       (w, err_of r).

Definition StoreAuthCode (now : Z) (code orgID userID codeChallenge : string) (w : Iam)
  : Iam * option goerr :=
  let data := JObj [("code_challenge", JStr codeChallenge); ("org_id", JStr orgID); ("user_id", JStr userID)] in
  let '(r, e) := rset now (iRedis w) (authCodeKey code) (RDoc data) (10 * Minute) in
  (with_redis r w, e).

(** [json.Unmarshal] into a [map[string]string]: [null] is the nil map, a
    [null] member the empty string; later members win. *)
Fixpoint string_members (l : list (string * json)) (m : gmap string string) : res (gmap string string) :=
  match l with
  | [] => Ok m
  | (k, JStr s) :: l' => string_members l' (<[k := s]> m)
  | (k, JNull) :: l' => string_members l' (<[k := ""]> m)
  | _ => Err ErrUnmarshalType
  end.

Definition unmarshal_strings (data : raw) : res (gmap string string) :=
  match data with
  | None => Err ErrSyntax
  | Some JNull => Ok ∅
  | Some (JObj l) => string_members l ∅
  | Some _ => Err ErrUnmarshalType
  end.

Definition GetAuthCode (now : Z) (code : string) (w : Iam) : Iam * res (string * string * string) :=
  let '(r, x) := redisGetDel now (authCodeKey code) (iRedis w) in
  (with_redis r w,
   val <-? x;
   match unmarshal_strings (rval_raw val) with
   | Ok data => let get k := default "" (data !! k) in Ok (get "org_id", get "user_id", get "code_challenge")
   | Err _ =>
       match Split ":"%char (text_of val) with
       | p0 :: p1 :: _ => Ok (p0, p1, "")
       | _ => Err (ErrNew "invalid auth code data")
       end
   end).

(** *** Second factors *)

Record BackupEnv := mkBackupEnv { beRandom : nat -> string; beStore : dbc S }.

Definition GenerateBackupCodes (ctxOrg : string) (env : BackupEnv) (userID : string) (db : DB)
  : DB * res (list string) :=
  let codes := map (fun i => GenerateRandomString 8 (beRandom env i)) (seq 0 8) in
  match StoreBackupCodes libUUID (cfRole cfg) ctxOrg (beStore env) userID (map (backupHash cfg) codes) db with
  | (db, Err e) => (db, Err e)
  | (db, Ok _) => (db, Ok codes)
  end.

Record TOTPEnv := mkTOTPEnv {
  teNonce : res string; teUpsert : dbc S; teEnable : dbc S; teBackup : BackupEnv }.

Definition EnableTOTP (ctxOrg : string) (now : Z) (env : TOTPEnv) (orgID userID code secret : string) (db : DB)
  : DB * res (list string) :=
  if negb (totpValidate now code secret) then (db, Err (ErrNew "invalid totp code"))
  else match Encrypt (teNonce env) secret (cfAESKeyring cfg) with
  | Err e => (db, Err (ErrWrap "encrypt secret: " e ""))
  | Ok encrypted =>
      match UpsertMFAConfig libUUID (cfRole cfg) (teUpsert env) orgID userID "totp" encrypted db with
      | (db, Err e) => (db, Err e)
      | (db, Ok _) =>
          match EnableUserMFA libUUID libHeap (cfRole cfg) ctxOrg (teEnable env) userID true "totp" db with
          | (db, Err e) => (db, Err e)
          | (db, Ok _) => GenerateBackupCodes ctxOrg (teBackup env) userID db
          end
      end
  end.

Definition VerifyBackupCode (ctxOrg : string) (c : dbc S) (userID code : string) (db : DB) : DB * res bool :=
  ConsumeBackupCode libUUID (cfRole cfg) ctxOrg c userID (backupHash cfg code) db.

Definition totpNonceTTL : Z := (90 * Second)%Z.

(** The code is burnt before it is checked. *)
Definition VerifyTOTP (ctxOrg : string) (now : Z) (c : dbc S) (userID code : string) (w : Iam) : Iam * res bool :=
  match rsetnx now (iRedis w) (totpKey userID code) (RText "1") totpNonceTTL with
  | (r, Err e) => (with_redis r w, Err e)
  | (r, Ok false) => (with_redis r w, Err (ErrNew "totp code already used"))
  | (r, Ok true) =>
      (with_redis r w,
       config <-? GetMFAConfig libUUID (cfRole cfg) ctxOrg c userID "totp" (iDB w);
       match Decrypt (SecretEncrypted config) (cfAESKeyring cfg) with
       | Err e => Err (ErrWrap "decrypt secret: " e "")
       | Ok secret => Ok (totpValidate now code secret)
       end)
  end.

Record MFAEnv := mkMFAEnv { meFactor : dbc S; meUser : dbc S; meFamily : string; meIssue : IssueEnv }.

(** What [VerifyMFAAndLogin] and [VerifyBackupCodeAndLogin] share: the
    challenge is consumed, [verify] checks the factor, the user signs in. *)
Definition factorLogin (msg : string) (verify : string -> Iam -> Iam * res bool)
  (ctxOrg : string) (now : Z) (env : MFAEnv) (challengeToken userAgent ip : string) (w : Iam)
  : Iam * res (User * TokenResponse) :=
  match redisCall now (redisGetDel now (challengeKey challengeToken)) w with
  | (w, Err _) => (w, Err (ErrNew "invalid or expired challenge"))
  | (w, Ok v) =>
      let userID := text_of v in
      match verify userID w with
      | (w, Ok true) =>
          match GetUserByID libUUID (cfRole cfg) ctxOrg (meUser env) userID (iDB w) with
          | Err e => (w, Err e)
          | Ok user =>
              match IssueTokens now (meIssue env)
                      (mkIssueTokensRequest (uOrgID user) (uID user) userAgent ip (meFamily env)) (iDB w) with
              | (db, Err e) => (with_db db w, Err e)
              | (db, Ok r) => (with_db db w, Ok (user, r))
              end
          end
      | (w, _) => (w, Err (ErrNew msg))
      end
  end.

Definition VerifyMFAAndLogin (ctxOrg : string) (now : Z) (env : MFAEnv)
  (challengeToken code userAgent ip : string) (w : Iam) : Iam * res (User * TokenResponse) :=
  factorLogin "invalid mfa code" (fun userID => VerifyTOTP ctxOrg now (meFactor env) userID code)
    ctxOrg now env challengeToken userAgent ip w.

Definition VerifyBackupCodeAndLogin (ctxOrg : string) (now : Z) (env : MFAEnv)
  (challengeToken code userAgent ip : string) (w : Iam) : Iam * res (User * TokenResponse) :=
  factorLogin "invalid backup code"
    (fun userID w => let '(db, r) := VerifyBackupCode ctxOrg (meFactor env) userID code (iDB w) in (with_db db w, r))
    ctxOrg now env challengeToken userAgent ip w.
End service.

(** ** Instances *)

(** A small instance of the interfaces, and one account of it. *)
Module MiniIam.
Export MiniCrypto.

Definition errMismatch : goerr := ErrNew "crypto/bcrypt: hashedPassword is not the hash of the given password".

(** Two addresses of the documentation ranges. *)
Definition parseIP (s : string) : option Z :=
  if s =s? "203.0.113.7" then Some (Ssrf.mapped (Ssrf.ipv4 203 0 113 7))
  else if s =s? "198.51.100.9" then Some (Ssrf.mapped (Ssrf.ipv4 198 51 100 9))
  else None.

#[global] Instance lib : IamLib :=
  {| libUUID s := if s =s? "" then None else Some s;
     libInet s := Ok s;
     libScanInet s := Ok s;
     libHeap l := l;
     bcryptCompare h p := if h =s? ("$2a$" +:+ p) then None else Some errMismatch;
     bcryptGenerate salt p := Ok ("$2a$" +:+ p);
     totpValidate now code secret := code =s? secret;
     hmacSHA256 k m := k +:+ m;
     sha256 s := s;
     b64url s := s;
     b64rawurl s := s;
     libParseIP := parseIP;
     libDocText j := "{}" |}.

#[global] Instance lib_laws : IamLibLaws.
Proof.
  split; [done|done|]. intros salt p h [= <-]. unfold bcryptCompare, lib.
  by rewrite String.eqb_refl.
Qed.

Definition cfg : Config := mkConfig RoleBypass oldRing [] "".
Definition call : dbc MiniPg := mkDbc pg_fresh noFaults.
Definition now : Z := (1000 * Second)%Z.
Definition issue (random : string) : IssueEnv := mkIssueEnv "j" call random "t1" call.

Definition alice : User :=
  mkUser "u" "o" "a@x" "$2a$pw" "Alice" "user" "active" 0 None false "" None 1 0 0.
Definition db0 : DB := mkDB ["o"] [alice] [] [] [] [] [].
End MiniIam.
