(* ===== verification/IamUsers.v ===== *)
(** The life cycle of users: services/iam/pkg/service/users.go, and the
    provisioning saga around it, services/iam/pkg/saga (consumer.go,
    watcher.go).  The statements on users and sessions run on connections of
    their own, outside the transaction that carries the event. *)

From S2P Require Import Prelude GoStrings Json Redis Pg Resilience Hex Crypto Outbox.
From S2P Require Import Middleware IamStore IamService.
From stdpp Require Import gmap.

Definition sagaTopic : string := "saga.orchestration".
Definition sagaDeadlines : string := "saga:deadlines".

(** [time.Now().Unix()]. *)
Definition unix (now : Z) : Z := (now / Second)%Z.

Record RegisterUserRequest := mkRegisterUserRequest {
  rqOrgID : string; rqEmail : string; rqPassword : string; rqDisplayName : string;
  rqRole : string; rqSCIMExternalID : string }.

Record ScimPatchOp := mkScimPatchOp { poOp : string; poPath : string; poValue : raw }.

(** [SETEX] takes whole seconds, at least one. *)
Definition setExTTL (ttl : Z) : Z := if (ttl <? Second)%Z then Second else (ttl / Second * Second)%Z.

Section users.
Context {S R B : Type} `{PgSession S} `{Redis R} `{Breaker B} `{Aead} `{IamLib}.
Variable cfg : Config.

#[local] Notation Iam := (@Iam R B).

(** ** The event *)

Record OutEnv := mkOutEnv {
  oeBegin : option goerr;
  oeID : string;
  oeInsert : option goerr;
  oeCommit : commitOutcome;
}.

(** The transaction holds the outbox statement only. *)
Definition outboxTx (env : OutEnv) (wrap : goerr -> goerr) (now : Z) (orgID key : string) (payload : json)
  (db : DB) : DB * option goerr :=
  match CreateOutboxEvent libUUID (Begin (iam_outbox db)) (oeInsert env) (oeID env) now orgID sagaTopic key payload with
  | (_, Err e) => (db, Some (wrap e))
  | (tx, Ok _) =>
      let '(tbl, e) := Commit (iam_outbox db) tx (oeCommit env) in (set_iam_outbox tbl db, e)
  end.

(** ** Registration *)

Record RegisterEnv := mkRegisterEnv {
  ruExternal : dbc S;
  ruHash : option goerr;
  ruSalt : string;
  ruOut : OutEnv;
  ruCreate : dbc S;
  ruID : string;
  ruSCIM : dbc S;
}.

Definition errDeprovisioned : goerr :=
  ErrNew "CONFLICT:user was deprovisioned; create a new SCIM user or reprovision".

Definition createdPayload (now : Z) (userID orgID email : string) : json :=
  JObj [("email", JStr email); ("event", JStr "user.created"); ("org_id", JStr orgID);
        ("status", JStr "initializing"); ("ts", JNum (unix now)); ("user_id", JStr userID)].

(** The part that writes, after the check of the external id. *)
Definition registerNew (ctxOrg : string) (now : Z) (env : RegisterEnv) (req : RegisterUserRequest) (w : Iam)
  : Iam * res (string * bool) :=
  match PoolGenerate (ruHash env) (ruSalt env) (rqPassword req) with
  | Err e => (w, Err (ErrWrap "hash password: " e ""))
  | Ok hash =>
      match oeBegin (ruOut env) with
      | Some e => (w, Err e)
      | None =>
          match CreateUser libUUID (cfRole cfg) (ruCreate env) (ruID env) now (rqOrgID req) (rqEmail req) hash
                  (rqDisplayName req) (rqRole req) "initializing" (iDB w) with
          | (db, Err e) => (with_db db w, Err e)
          | (db, Ok userID) =>
              let '(db, scim) :=
                if rqSCIMExternalID req =s? "" then (db, Ok tt)
                else UpdateUserSCIM libUUID libHeap (cfRole cfg) ctxOrg (ruSCIM env) now userID
                       (rqSCIMExternalID req) "initializing" db in
              match scim with
              | Err e => (with_db db w, Err e)
              | Ok _ =>
                  match outboxTx (ruOut env) (fun e => ErrWrap "outbox: " e "") now (rqOrgID req) userID
                          (createdPayload now userID (rqOrgID req) (rqEmail req)) db with
                  | (db, Some e) => (with_db db w, Err e)
                  | (db, None) =>
                      let deadline := unix (now + 40 * Second) in
                      (mkIam db (rzadd now (iRedis w) sagaDeadlines deadline userID).1 (iBreaker w),
                       Ok (userID, true))
                  end
              end
          end
      end
  end.

Definition RegisterUser (ctxOrg : string) (now : Z) (env : RegisterEnv) (req : RegisterUserRequest) (w : Iam)
  : Iam * res (string * bool) :=
  let known := if rqSCIMExternalID req =s? "" then Err ErrNotFound
               else GetUserByExternalID libUUID libHeap (cfRole cfg) ctxOrg (ruExternal env) (rqOrgID req)
                      (rqSCIMExternalID req) (iDB w) in
  match known with
  | Ok user =>
      if uStatus user =s? "deprovisioned" then (w, Err errDeprovisioned) else (w, Ok (uID user, false))
  | Err _ => registerNew ctxOrg now env req w
  end.

Record ReprovisionEnv := mkReprovisionEnv { rpUser : dbc S; rpStatus : dbc S; rpOut : OutEnv }.

Definition reprovisionPayload (now : Z) (userID orgID email : string) : json :=
  JObj [("email", JStr email); ("event", JStr "user.reprovision"); ("org_id", JStr orgID);
        ("status", JStr "initializing"); ("ts", JNum (unix now)); ("user_id", JStr userID)].

Definition ReprovisionUser (ctxOrg : string) (now : Z) (env : ReprovisionEnv) (orgID userID : string) (db : DB)
  : DB * option goerr :=
  match GetUserByID libUUID (cfRole cfg) ctxOrg (rpUser env) userID db with
  | Err e => (db, Some e)
  | Ok user =>
      match oeBegin (rpOut env) with
      | Some e => (db, Some e)
      | None =>
          match UpdateUserStatus libUUID libHeap (cfRole cfg) ctxOrg (rpStatus env) now userID "initializing" db with
          | (db, Err e) => (db, Some e)
          | (db, Ok _) =>
              outboxTx (rpOut env) (fun e => e) now orgID userID
                (reprovisionPayload now userID orgID (uEmail user)) db
          end
      end
  end.

(** ** Removal *)

(** The pipeline of [SETEX blocklist:jti], one per session with time left. *)
Definition blocklistPipe (now : Z) (ttlOf : string -> Z) (jtis : list string) (r : R) : R * option goerr :=
  fold_left (fun pipe jti => pipe_then pipe (fun r => rset now r (blocklistKey jti) (RText "revoked") (setExTTL (ttlOf jti))))
    (List.filter (fun jti => (0 <? ttlOf jti)%Z) jtis) (fun r => (r, None)) r.

Record DeleteEnv := mkDeleteEnv {
  duOut : OutEnv;
  duJTIs : dbc S;
  duTTL : string -> dbc S;
  duRevoke : dbc S;
  duStatus : dbc S;
}.

Definition deletedPayload (now : Z) (userID : string) : json :=
  JObj [("event", JStr "user.deleted"); ("status", JStr "deprovisioned"); ("ts", JNum (unix now));
        ("user_id", JStr userID)].

Definition DeleteUser (ctxOrg : string) (now : Z) (env : DeleteEnv) (userID : string) (w : Iam)
  : Iam * option goerr :=
  match oeBegin (duOut env) with
  | Some e => (w, Some e)
  | None =>
      let db := iDB w in
      match GetActiveJTIs libUUID (cfRole cfg) ctxOrg (duJTIs env) now userID db with
      | Err e => (w, Some e)
      | Ok jtis =>
          let ttlOf jti := GetSessionTTL libUUID (cfRole cfg) ctxOrg (duTTL env jti) now jti db in
          match blocklistPipe now ttlOf jtis (iRedis w) with
          | (r, Some e) => (with_redis r w, Some e)
          | (r, None) =>
              let w := with_redis r w in
              match RevokeSessions libUUID (cfRole cfg) ctxOrg (duRevoke env) userID db with
              | (db, Err e) => (with_db db w, Some e)
              | (db, Ok _) =>
                  match UpdateUserStatus libUUID libHeap (cfRole cfg) ctxOrg (duStatus env) now userID
                          "deprovisioned" db with
                  | (db, Err e) => (with_db db w, Some e)
                  | (db, Ok _) =>
                      let '(db, e) := outboxTx (duOut env) (fun e => e) now "" userID
                                        (deletedPayload now userID) db in
                      (with_db db w, e)
                  end
              end
          end
      end
  end.

(** ** SCIM patches *)

Record PatchEnv := mkPatchEnv { puOut : OutEnv; puOp : nat -> dbc S; puUser : dbc S }.

Definition patchOne (ctxOrg : string) (now : Z) (c : dbc S) (id : string) (op : ScimPatchOp) (db : DB)
  : DB * option goerr :=
  if negb (poOp op =s? "replace") then (db, None)
  else if poPath op =s? "active" then
    match match poValue op with None => Err ErrSyntax | Some j => dec_bool false j end with
    | Err e => (db, Some (ErrWrap "invalid active value: " e ""))
    | Ok active =>
        let status := if active : bool then "active" else "suspended" in
        let '(db, r) := UpdateUserStatus libUUID libHeap (cfRole cfg) ctxOrg c now id status db in (db, err_of r)
    end
  else if poPath op =s? "displayName" then
    match match poValue op with None => Err ErrSyntax | Some j => dec_string "" j end with
    | Err e => (db, Some (ErrWrap "invalid displayName value: " e ""))
    | Ok name =>
        let '(db, r) := UpdateUserDisplayName libUUID libHeap (cfRole cfg) ctxOrg c now id name db in (db, err_of r)
    end
  else (db, None).

Fixpoint patchAll (ctxOrg : string) (now : Z) (calls : nat -> dbc S) (i : nat) (id : string)
  (ops : list ScimPatchOp) (db : DB) : DB * option goerr :=
  match ops with
  | [] => (db, None)
  | op :: ops' =>
      match patchOne ctxOrg now (calls i) id op db with
      | (db, Some e) => (db, Some e)
      | (db, None) => patchAll ctxOrg now calls (Datatypes.S i) id ops' db
      end
  end.

Definition updatedPayload (now : Z) (id : string) (user : User) : json :=
  JObj [("event", JStr "user.updated"); ("org_id", JStr (uOrgID user)); ("status", JStr (uStatus user));
        ("ts", JNum (unix now)); ("user_id", JStr id)].

Definition PatchUser (ctxOrg : string) (now : Z) (env : PatchEnv) (id : string) (ops : list ScimPatchOp) (db : DB)
  : DB * res User :=
  match oeBegin (puOut env) with
  | Some e => (db, Err e)
  | None =>
      match patchAll ctxOrg now (puOp env) 0 id ops db with
      | (db, Some e) => (db, Err e)
      | (db, None) =>
          match GetUserByID libUUID (cfRole cfg) ctxOrg (puUser env) id db with
          | Err e => (db, Err e)
          | Ok user =>
              match outboxTx (puOut env) (fun e => e) now (uOrgID user) id (updatedPayload now id user) db with
              | (db, Some e) => (db, Err e)
              | (db, None) => (db, Ok user)
              end
          end
      end
  end.

(** ** Offboarding of a tenant *)

Record OffboardEnv := mkOffboardEnv {
  ooList : dbc S;
  ooJTIs : string -> dbc S;                (* by user *)
  ooTTL : string -> string -> dbc S;       (* by user and token *)
  ooRevoke : string -> dbc S;
  ooStatus : dbc S;
  ooOut : OutEnv;
}.

(** Errors of a user's sessions are ignored. *)
Definition offboardUser (ctxOrg : string) (now : Z) (env : OffboardEnv) (w : Iam) (u : User) : Iam :=
  let userID := uID u in
  let r := match GetActiveJTIs libUUID (cfRole cfg) ctxOrg (ooJTIs env userID) now userID (iDB w) with
           | Err _ => iRedis w
           | Ok jtis =>
               (blocklistPipe now
                  (fun jti => GetSessionTTL libUUID (cfRole cfg) ctxOrg (ooTTL env userID jti) now jti (iDB w))
                  jtis (iRedis w)).1
           end in
  mkIam (RevokeSessions libUUID (cfRole cfg) ctxOrg (ooRevoke env userID) userID (iDB w)).1 r (iBreaker w).

Definition offboardedPayload (now : Z) (orgID : string) : json :=
  JObj [("event", JStr "org.iam.offboarded"); ("org_id", JStr orgID); ("status", JStr "completed");
        ("ts", JNum (unix now))].

(** The event is sent if it can be. *)
Definition OffboardOrg (ctxOrg : string) (now : Z) (env : OffboardEnv) (orgID : string) (w : Iam)
  : Iam * option goerr :=
  match ListUsers libUUID libHeap (cfRole cfg) (ooList env) orgID "" (iDB w) with
  | Err e => (w, Some (ErrWrap "list users: " e ""))
  | Ok us =>
      let w := fold_left (offboardUser ctxOrg now env) us w in
      match DeprovisionAllUsers libUUID libHeap (cfRole cfg) (ooStatus env) now orgID (iDB w) with
      | (db, Err e) => (with_db db w, Some (ErrWrap "deprovision all users: " e ""))
      | (db, Ok _) =>
          match oeBegin (ooOut env) with
          | Some _ => (with_db db w, None)
          | None =>
              (with_db (outboxTx (ooOut env) (fun e => e) now orgID orgID (offboardedPayload now orgID) db).1 w, None)
          end
      end
  end.

(** ** The saga's consumer *)

Record SagaEvent := mkSagaEvent { seEvent : string; seUserID : string; seOrgID : string; seSagaID : string }.

Definition upd_saga (k : string) (e : SagaEvent) (j : json) : res SagaEvent :=
  if key_is "event" k then s <-? dec_string (seEvent e) j; Ok (mkSagaEvent s (seUserID e) (seOrgID e) (seSagaID e))
  else if key_is "user_id" k then s <-? dec_string (seUserID e) j; Ok (mkSagaEvent (seEvent e) s (seOrgID e) (seSagaID e))
  else if key_is "org_id" k then s <-? dec_string (seOrgID e) j; Ok (mkSagaEvent (seEvent e) (seUserID e) s (seSagaID e))
  else if key_is "status" k then _ <-? dec_string "" j; Ok e
  else if key_is "saga_id" k then s <-? dec_string (seSagaID e) j; Ok (mkSagaEvent (seEvent e) (seUserID e) (seOrgID e) s)
  else Ok e.

(** What happens to one message; the context has no tenant.  Errors are
    logged. *)
Definition sagaConsume (now : Z) (status : dbc S) (env : OffboardEnv) (value : raw) (w : Iam) : Iam :=
  match unmarshal_struct upd_saga (mkSagaEvent "" "" "" "") value with
  | Err _ => w
  | Ok event =>
      let update userID st :=
        with_db (UpdateUserStatus libUUID libHeap (cfRole cfg) "" status now userID st (iDB w)).1 w in
      if seEvent event =s? "user.provisioning.failed"
      then update (if negb (seUserID event =s? "") then seUserID event else seSagaID event) "provisioning_failed"
      else if seEvent event =s? "user.scim.provisioned" then update (seUserID event) "active"
      else if seEvent event =s? "org.offboard" then (OffboardOrg "" now env (seOrgID event) w).1
      else w
  end.
End users.
