(* ===== verification/IamTokens.v ===== *)
(** Refresh tokens over time: rotation, single use and reuse detection, for
    every interleaving of the statements of logins and refreshes
    ([IamService.RefreshToken], [IamService.IssueTokens]). *)

From S2P Require Import Prelude GoStrings Json Redis Pg Resilience Crypto RateLimit IamStore.
From S2P Require Import IamService.
From stdpp Require Import relations.

(** ** What a statement does *)

Section statements.
Context {S : Type} `{PgSession S}.

Lemma execOrg_cases {A} orgID (c : dbc S) (stmt : S -> DB -> res (DB * A)) db db' r :
  execOrg orgID c stmt db = (db', r) ->
  (db' = db /\ exists e, r = Err e) \/
  exists a, stmt (pg_set_config (dConn c) app_org orgID true) db = Ok (db', a) /\
    (r = Ok a \/ exists e, r = Err e).
Proof.
  unfold execOrg, withOrgContext, SetSessionVar, autocommit.
  destruct (fAcquire _); [intros [= <- <-]; left; eauto|].
  destruct (fSet _); [intros [= <- <-]; left; eauto|].
  destruct (fQuery _); [intros [= <- <-]; left; eauto|].
  destruct (stmt _ db) as [[db1 a]|e]; intros [= <- <-]; [|left; eauto].
  right. exists a. split; [done|]. destruct (fAck _); eauto.
Qed.

Lemma execOrg_ok {A} orgID (c : dbc S) (stmt : S -> DB -> res (DB * A)) db db' a :
  execOrg orgID c stmt db = (db', Ok a) ->
  stmt (pg_set_config (dConn c) app_org orgID true) db = Ok (db', a).
Proof.
  intros [(_ & e & [=])|(a' & Hs & [[= ->]|(e & [=])])]%execOrg_cases. done.
Qed.

(** A call on which nothing goes wrong. *)
Definition healthy (c : dbc S) : Prop := dFaults c = noFaults.

Lemma execOrg_healthy {A} orgID (c : dbc S) (stmt : S -> DB -> res (DB * A)) db :
  healthy c ->
  execOrg orgID c stmt db =
    match stmt (pg_set_config (dConn c) app_org orgID true) db with
    | Ok (db', a) => (db', Ok a)
    | Err e => (db, Err e)
    end.
Proof.
  intros Hc. unfold execOrg, withOrgContext, SetSessionVar, autocommit. rewrite Hc. simpl.
  by destruct (stmt _ db) as [[]|].
Qed.

Lemma readOrg_ok {A} orgID (c : dbc S) (sel : S -> DB -> res A) db a :
  readOrg orgID c sel db = Ok a -> sel (pg_set_config (dConn c) app_org orgID true) db = Ok a.
Proof.
  unfold readOrg. destruct (execOrg _ _ _ _) as [db' r] eqn:E. simpl. intros ->.
  apply execOrg_ok, res_bind_ok in E as (a' & -> & [= _ ->]). done.
Qed.

Lemma readOrg_healthy {A} orgID (c : dbc S) (sel : S -> DB -> res A) db :
  healthy c -> readOrg orgID c sel db = sel (pg_set_config (dConn c) app_org orgID true) db.
Proof.
  intros Hc. unfold readOrg. rewrite execOrg_healthy by done. by destruct (sel _ db).
Qed.

Lemma notFound_ok {A} (r : res A) a : notFound r = Ok a -> r = Ok a.
Proof. destruct r as [|e]; simpl; [done|]. by destruct (errors_is _ _). Qed.

Lemma one_row_ok {A} (l : list A) a : one_row l = Ok a -> exists l', l = a :: l'.
Proof. destruct l; [done|]. intros [= ->]. eauto. Qed.

(** *** The table of refresh tokens *)

Lemma Create_cases pgUUID c id orgID userID h fam exp db db' r :
  CreateRefreshToken pgUUID c id orgID userID h fam exp db = (db', r) ->
  (db' = db /\ exists e, r = Err e) \/
  exists org user,
    existsb (fun r => rtTokenHash r =s? h) (refresh_tokens db) = false /\
    uuid_arg pgUUID orgID = Ok org /\ uuid_arg pgUUID userID = Ok user /\
    db' = set_tokens (refresh_tokens db ++ [mkRefreshRow id org user h fam exp false]) db.
Proof.
  intros [?|(a & Hs & _)]%execOrg_cases; [by left|]. right.
  apply res_bind_ok in Hs as (org & Ho & (user & Hu & Hs)%res_bind_ok).
  destruct (existsb _ (refresh_tokens db)) eqn:E; [done|]. destruct (negb _); [done|].
  injection Hs as <-. by exists org, user.
Qed.

Lemma Claim_cases ctxOrg (c : dbc S) now h db db' r :
  ClaimRefreshToken ctxOrg c now h db = (db', r) ->
  (db' = db /\ exists e, r = Err e) \/
  exists rt, In rt (refresh_tokens db) /\ claimable now h rt = true /\
    db' = revoke_where (claimable now h) db /\ (r = Ok (revoke_row rt) \/ exists e, r = Err e).
Proof.
  unfold ClaimRefreshToken. destruct (execOrg _ _ _ _) as [db1 x] eqn:E. intros [= <- <-].
  apply execOrg_cases in E as [(-> & e & ->)|(a & Hs & Hx)].
  - left. split; [done|]. simpl. destruct (errors_is _ _); eauto.
  - right. apply res_bind_ok in Hs as (rt & (l & Hl)%one_row_ok & Hs). injection Hs as <- <-.
    exists rt. assert (Hin : In rt (List.filter (claimable now h) (refresh_tokens db))) by (rewrite Hl; by left).
    apply filter_In in Hin as [Hin Hc]. split; [done|]. split; [done|]. split; [done|].
    destruct Hx as [->|(e & ->)]; [by left|]. right. simpl. destruct (errors_is _ _); eauto.
Qed.

Lemma revoke_tokens p db : refresh_tokens (revoke_where p db) =
  map (fun r => if p r then revoke_row r else r) (refresh_tokens db).
Proof. done. Qed.

(** A revocation keeps hash and family of every row, and revokes. *)
Lemma revoke_map (p : RefreshRow -> bool) r :
  let r' := if p r then revoke_row r else r in
  rtTokenHash r' = rtTokenHash r /\ rtFamilyID r' = rtFamilyID r /\
  rtRevoked r' = p r || rtRevoked r.
Proof. by destruct (p r). Qed.

Lemma revoke_hashes p db : map rtTokenHash (refresh_tokens (revoke_where p db)) = map rtTokenHash (refresh_tokens db).
Proof. rewrite revoke_tokens, map_map. apply map_ext. intros r. apply revoke_map. Qed.

Lemma RevokeFamily_cases ctxOrg (c : dbc S) fam db db' r :
  RevokeRefreshTokenFamily ctxOrg c fam db = (db', r) ->
  (db' = db /\ exists e, r = Err e) \/ db' = revoke_where (fun r => rtFamilyID r =s? fam) db.
Proof. intros [?|(a & [= <- <-] & _)]%execOrg_cases; auto. Qed.

Lemma RevokeByHash_cases ctxOrg (c : dbc S) h db db' r :
  RevokeRefreshTokenFamilyByHash ctxOrg c h db = (db', r) ->
  (db' = db /\ ((exists e, r = Err e) \/ family_of h db = None)) \/
  exists fam, family_of h db = Some fam /\ db' = revoke_where (fun r => rtFamilyID r =s? fam) db.
Proof.
  intros [[-> ?]|(a & Hs & _)]%execOrg_cases; [auto|].
  destruct (family_of h db) as [fam|]; injection Hs as <- <-; eauto.
Qed.
End statements.

(** ** Interleavings *)

Section interleavings.
Context {S : Type} `{PgSession S} `{IamLib}.

(** The database, and the claimed rows of the refreshes under way. *)
Record TkState := mkTkState { tkDB : DB; tkFlight : list RefreshRow }.

(** One statement on the table of refresh tokens; the label is the hash of a
    token that was redeemed. *)
Inductive tk_step : TkState -> option string -> TkState -> Prop :=
| tk_claim ctxOrg (c : dbc S) now h db fl db' rt :
    ClaimRefreshToken ctxOrg c now h db = (db', Ok rt) ->
    tk_step (mkTkState db fl) (Some h) (mkTkState db' (rt :: fl))
| tk_claim_fails ctxOrg (c : dbc S) now h db fl db' e :
    ClaimRefreshToken ctxOrg c now h db = (db', Err e) ->
    tk_step (mkTkState db fl) None (mkTkState db' fl)
| tk_detect ctxOrg (c : dbc S) h db fl db' r :
    RevokeRefreshTokenFamilyByHash ctxOrg c h db = (db', r) ->
    tk_step (mkTkState db fl) None (mkTkState db' fl)
| tk_risk ctxOrg (c : dbc S) db fl1 fl2 rt db' r :
    RevokeRefreshTokenFamily ctxOrg c (rtFamilyID rt) db = (db', r) ->
    tk_step (mkTkState db (fl1 ++ rt :: fl2)) None (mkTkState db' (fl1 ++ fl2))
| tk_abandon db fl1 fl2 rt :
    tk_step (mkTkState db (fl1 ++ rt :: fl2)) None (mkTkState db (fl1 ++ fl2))
| tk_reissue (c : dbc S) id h exp db fl1 fl2 rt db' r :
    CreateRefreshToken libUUID c id (rtOrgID rt) (rtUserID rt) h (rtFamilyID rt) exp db = (db', r) ->
    tk_step (mkTkState db (fl1 ++ rt :: fl2)) None (mkTkState db' (fl1 ++ fl2))
| tk_login (c : dbc S) id orgID userID h fam exp db fl db' r :
    (* uuid.New: a family of its own *)
    ~ In fam (map rtFamilyID (refresh_tokens db ++ fl)) ->
    CreateRefreshToken libUUID c id orgID userID h fam exp db = (db', r) ->
    tk_step (mkTkState db fl) None (mkTkState db' fl)
| tk_other db fl db' :
    refresh_tokens db' = refresh_tokens db -> tk_step (mkTkState db fl) None (mkTkState db' fl).

Inductive tk_trace : TkState -> list string -> TkState -> Prop :=
| tk_nil st : tk_trace st [] st
| tk_cons st l st1 log st' :
    tk_step st l st1 -> tk_trace st1 log st' ->
    tk_trace st (match l with Some h => h :: log | None => log end) st'.

Lemma tk_trace_app st log1 st1 log2 st2 :
  tk_trace st log1 st1 -> tk_trace st1 log2 st2 -> tk_trace st (log1 ++ log2) st2.
Proof.
  induction 1 as [|st l st' log st'' Hs _ IH]; [done|]. intros H2. specialize (IH H2).
  replace ((match l with Some h => h :: log | None => log end) ++ log2)
    with (match l with Some h => h :: (log ++ log2) | None => log ++ log2 end) by (by destruct l).
  by econstructor.
Qed.

Lemma tk_one st l st' : tk_step st l st' -> tk_trace st (match l with Some h => [h] | None => [] end) st'.
Proof. intros Hs. destruct l; eapply (tk_cons _ _ _ [] _ Hs); constructor. Qed.

(** *** Every statement creates one fresh row or revokes *)

Definition same_or_revoked (r r' : RefreshRow) : Prop := r' = r \/ r' = revoke_row r.

(** The rows after a step: the old ones, possibly revoked, and at most one
    new row with a hash of its own. *)
Lemma tk_step_rows st l st' :
  tk_step st l st' ->
  exists rows new, Forall2 same_or_revoked (refresh_tokens (tkDB st)) rows /\
    refresh_tokens (tkDB st') = rows ++ new /\
    (new = [] \/ exists r, new = [r] /\ ~ In (rtTokenHash r) (map rtTokenHash (refresh_tokens (tkDB st))) /\
       (In (rtFamilyID r) (map rtFamilyID (tkFlight st)) \/
        ~ In (rtFamilyID r) (map rtFamilyID (refresh_tokens (tkDB st) ++ tkFlight st)))).
Proof.
  assert (Hid : forall l, Forall2 same_or_revoked l l) by (induction l0; constructor; auto; by left).
  assert (Hmap : forall p db, Forall2 same_or_revoked (refresh_tokens db)
            (refresh_tokens (revoke_where p db))).
  { intros p db. rewrite revoke_tokens. apply Forall2_map_self. intros x _.
    destruct (p x); [by right|by left]. }
  assert (Hsame : forall st st', refresh_tokens (tkDB st') = refresh_tokens (tkDB st) \/
      (exists p, tkDB st' = revoke_where p (tkDB st)) ->
      exists rows new, Forall2 same_or_revoked (refresh_tokens (tkDB st)) rows /\
        refresh_tokens (tkDB st') = rows ++ new /\
        (new = [] \/ exists r, new = [r] /\ ~ In (rtTokenHash r) (map rtTokenHash (refresh_tokens (tkDB st))) /\
       (In (rtFamilyID r) (map rtFamilyID (tkFlight st)) \/
        ~ In (rtFamilyID r) (map rtFamilyID (refresh_tokens (tkDB st) ++ tkFlight st))))).
  { intros s s' [E|[p E]]; eexists _, []; rewrite app_nil_r.
    - split; [apply Hid|]. auto.
    - split; [apply (Hmap p)|]. rewrite E. auto. }
  assert (Hfresh : forall h db, existsb (fun r => rtTokenHash r =s? h) (refresh_tokens db) = false ->
            ~ In h (map rtTokenHash (refresh_tokens db))).
  { intros h db He (r & <- & Hr)%in_map_iff. apply not_true_iff_false in He. apply He.
    apply existsb_exists. exists r. by rewrite String.eqb_refl. }
  destruct 1 as [ctxOrg c now h db fl db' rt Hc|ctxOrg c now h db fl db' e Hc|ctxOrg c h db fl db' r Hc
    |ctxOrg c db fl1 fl2 rt db' r Hc|db fl1 fl2 rt|c id h exp db fl1 fl2 rt db' r Hc
    |c id orgID userID h fam exp db fl db' r Hfam Hc|db fl db' Hc].
  - apply Claim_cases in Hc as [(-> & _)|(rt' & _ & _ & -> & _)]; apply Hsame; eauto.
  - apply Claim_cases in Hc as [(-> & _)|(rt' & _ & _ & -> & _)]; apply Hsame; eauto.
  - apply RevokeByHash_cases in Hc as [(-> & _)|(fam & _ & ->)]; apply Hsame; eauto.
  - apply RevokeFamily_cases in Hc as [(-> & _)| ->]; apply Hsame; eauto.
  - apply Hsame; auto.
  - apply Create_cases in Hc as [(-> & _)|(org & user & He & _ & _ & ->)]; [apply Hsame; auto|].
    eexists _, [_]. split; [apply Hid|]. split; [done|]. right. eexists. split; [done|].
    split; [by apply Hfresh|]. left. simpl. rewrite map_app. apply in_or_app. right. by left.
  - apply Create_cases in Hc as [(-> & _)|(org & user & He & _ & _ & ->)]; [apply Hsame; auto|].
    eexists _, [_]. split; [apply Hid|]. split; [done|]. right. eexists. split; [done|].
    split; [by apply Hfresh|]. by right.
  - apply Hsame; auto.
Qed.

Lemma rows_hashes l rows : Forall2 same_or_revoked l rows -> map rtTokenHash rows = map rtTokenHash l.
Proof. induction 1 as [|r r' l rows [->| ->] _ IH]; simpl; [done| |]; by rewrite IH. Qed.

Lemma rows_families l rows : Forall2 same_or_revoked l rows -> map rtFamilyID rows = map rtFamilyID l.
Proof. induction 1 as [|r r' l rows [->| ->] _ IH]; simpl; [done| |]; by rewrite IH. Qed.

Lemma rows_In l rows r' : Forall2 same_or_revoked l rows -> In r' rows ->
  exists r, In r l /\ same_or_revoked r r'.
Proof. induction 1; simpl; [done|]. intros [->|Hi]; [eauto|]. destruct IHForall2 as (? & ? & ?); eauto. Qed.

Lemma rows_keep l rows r : Forall2 same_or_revoked l rows -> In r l ->
  exists r', In r' rows /\ same_or_revoked r r'.
Proof. induction 1; simpl; [done|]. intros [->|Hi]; [eauto|]. destruct IHForall2 as (? & ? & ?); eauto. Qed.

(** *** Single use *)

(** Hashes are unique, and the redeemed ones revoked. *)
Definition tk_used (log : list string) (db : DB) : Prop :=
  NoDup (map rtTokenHash (refresh_tokens db)) /\
  forall h, In h log -> exists r, In r (refresh_tokens db) /\ rtTokenHash r = h /\ rtRevoked r = true.

Lemma tk_used_step st l st' log :
  tk_step st l st' -> tk_used log (tkDB st) ->
  tk_used (match l with Some h => h :: log | None => log end) (tkDB st') /\
  match l with Some h => ~ In h log | None => True end.
Proof.
  intros Hs [Hn Hl]. pose proof Hs as (rows & new & Hr & Hrows & Hnew)%tk_step_rows.
  assert (Hnd : NoDup (map rtTokenHash (refresh_tokens (tkDB st')))).
  { rewrite Hrows, map_app, (rows_hashes _ _ Hr). apply NoDup_app. split; [done|].
    destruct Hnew as [->|(r & -> & Hf & _)]; simpl; [split; [intros x _; apply not_elem_of_nil|constructor]|].
    split; [|apply NoDup_singleton]. intros x Hx%list_elem_of_In ->%list_elem_of_singleton. done. }
  assert (Hold : forall h, In h log -> exists r, In r (refresh_tokens (tkDB st')) /\
            rtTokenHash r = h /\ rtRevoked r = true).
  { intros h (r & Hi & Hh & Hv)%Hl. rewrite Hrows.
    destruct (rows_keep _ _ _ Hr Hi) as (r' & Hi' & [->| ->]); eexists; rewrite in_app_iff; eauto. }
  destruct l as [h|]; [|by repeat split].
  inversion Hs as [ctxOrg c now h' db fl db' rt Hc| | | | | | |]; subst; simpl in *.
  apply Claim_cases in Hc as [(_ & e & ?)|(rt' & Hi & Hc & -> & [[= ->]|(e & ?)])]; try done.
  unfold claimable in Hc. bool_to_prop. split; [split; [done|]|].
  - intros h' [<-|Hh]; [|by apply Hold]. exists (revoke_row rt').
    split; [|done]. rewrite revoke_tokens. apply in_map_iff. exists rt'. split; [|done].
    unfold claimable. subst h. rewrite String.eqb_refl, H3. simpl.
    by rewrite (proj2 (Z.ltb_lt _ _)).
  - intros (r & Hi' & Hh & Hv)%Hl. subst h.
    rewrite (NoDup_map_In rtTokenHash _ _ _ Hn Hi' Hi Hh) in Hv. congruence.
Qed.

Lemma tk_used_trace st log st' used :
  tk_trace st log st' -> tk_used used (tkDB st) -> NoDup used ->
  tk_used (rev log ++ used) (tkDB st') /\ NoDup (rev log ++ used).
Proof.
  intros Ht. revert used. induction Ht as [st|st l st1 log st' Hs _ IH]; intros used Hu Hn; [done|].
  destruct (tk_used_step _ _ _ _ Hs Hu) as [Hu' Hf]. destruct l as [h|]; [|by apply IH].
  simpl. rewrite <- app_assoc. simpl. apply IH; [done|]. apply NoDup_cons.
  by rewrite list_elem_of_In.
Qed.

(** *** Families that are dead *)

(** Every token of the family is revoked and no refresh of it is under way. *)
Definition tk_dead (fam : string) (st : TkState) : Prop :=
  In fam (map rtFamilyID (refresh_tokens (tkDB st))) /\
  (forall r, In r (refresh_tokens (tkDB st)) -> rtFamilyID r = fam -> rtRevoked r = true) /\
  ~ In fam (map rtFamilyID (tkFlight st)).

Lemma tk_flight_step st l st' fam :
  tk_step st l st' -> In fam (map rtFamilyID (tkFlight st')) ->
  In fam (map rtFamilyID (tkFlight st)) \/
  exists r, In r (refresh_tokens (tkDB st)) /\ rtFamilyID r = fam /\ rtRevoked r = false.
Proof.
  assert (Hrm : forall l1 l2 (rt : RefreshRow), In fam (map rtFamilyID (l1 ++ l2)) ->
            In fam (map rtFamilyID (l1 ++ rt :: l2))).
  { intros l1 l2 rt. rewrite !map_app, !in_app_iff. simpl. tauto. }
  destruct 1 as [ctxOrg c now h db fl db' rt Hc| | | | | | |]; simpl; auto.
  intros [<-|Hi]; [|auto]. right.
  apply Claim_cases in Hc as [(_ & e & ?)|(rt' & Hi & Hc & _ & [[= ->]|(e & ?)])]; try done.
  unfold claimable in Hc. bool_to_prop. exists rt'. auto.
Qed.

Lemma tk_dead_step st l st' fam : tk_step st l st' -> tk_dead fam st -> tk_dead fam st'.
Proof.
  intros Hs (Hin & Hrev & Hfl). pose proof Hs as (rows & new & Hr & Hrows & Hnew)%tk_step_rows.
  split; [|split].
  - rewrite Hrows, map_app, (rows_families _ _ Hr). apply in_or_app. by left.
  - intros r' Hi Hf. rewrite Hrows in Hi. apply in_app_iff in Hi as [Hi|Hi].
    + destruct (rows_In _ _ _ Hr Hi) as (r & Hi' & [->| ->]); [by apply Hrev|done].
    + destruct Hnew as [->|(r & -> & _ & Hfam)]; [done|]. destruct Hi as [->|[]].
      rewrite Hf in Hfam. destruct Hfam as [?|Hno]; [done|].
      destruct Hno. rewrite map_app. apply in_or_app. by left.
  - intros [?|(r & Hi & Hf & Hv)]%(tk_flight_step _ _ _ _ Hs); [done|].
    rewrite (Hrev r Hi Hf) in Hv. done.
Qed.

Lemma tk_dead_trace st log st' fam : tk_trace st log st' -> tk_dead fam st -> tk_dead fam st'.
Proof. induction 1; [done|]. intros Hd. eauto using tk_dead_step. Qed.

(** No token of a dead family can be redeemed. *)
Lemma tk_dead_claim fam st ctxOrg (c : dbc S) now h db' rt :
  tk_dead fam st -> ClaimRefreshToken ctxOrg c now h (tkDB st) = (db', Ok rt) -> rtFamilyID rt <> fam.
Proof.
  intros (_ & Hrev & _) [(_ & e & ?)|(r & Hi & Hc & _ & [[= ->]|(e & ?)])]%Claim_cases; try done.
  intros Hf. unfold claimable in Hc. bool_to_prop. rewrite (Hrev r Hi Hf) in *. done.
Qed.

Lemma family_of_In h db r :
  NoDup (map rtTokenHash (refresh_tokens db)) -> In r (refresh_tokens db) -> rtTokenHash r = h ->
  family_of h db = Some (rtFamilyID r).
Proof.
  intros Hn Hi Hh. unfold family_of.
  assert (Hf : In r (List.filter (fun r => rtTokenHash r =s? h) (refresh_tokens db)))
    by (apply filter_In; split; [done|by apply String.eqb_eq]).
  destruct (List.filter _ _) as [|r' l] eqn:E; [done|].
  assert (Hi' : In r' (List.filter (fun r => rtTokenHash r =s? h) (refresh_tokens db))) by (rewrite E; by left).
  apply filter_In in Hi' as [Hi' Hh']. bool_to_prop. f_equal. f_equal.
  apply (NoDup_map_In rtTokenHash (refresh_tokens db)); congruence.
Qed.

(** Revoking a family of which no refresh is under way kills it. *)
Lemma revoke_kills fam db fl :
  In fam (map rtFamilyID (refresh_tokens db)) -> ~ In fam (map rtFamilyID fl) ->
  tk_dead fam (mkTkState (revoke_where (fun r => rtFamilyID r =s? fam) db) fl).
Proof.
  intros Hin Hfl. split; [|split; [|done]]; simpl.
  - rewrite map_map. apply in_map_iff in Hin as (r & <- & Hi). apply in_map_iff.
    exists r. split; [by destruct (_ =s? _)|done].
  - intros r (r0 & <- & Hi)%in_map_iff. destruct (rtFamilyID r0 =s? fam) eqn:E; [done|].
    by apply String.eqb_neq in E.
Qed.
End interleavings.

(** ** The service *)

Section service.
Context {S R B : Type} `{PgSession S} `{Redis R} `{Breaker B} `{Jwt} `{Aead} `{IamLib}.
Variable cfg : Config.

Lemma CreateSession_tokens pgUUID inet ro (c : dbc S) now o u j ua ip exp db db' r :
  CreateSession pgUUID inet ro c now o u j ua ip exp db = (db', r) ->
  refresh_tokens db' = refresh_tokens db.
Proof.
  intros [(-> & _)|(a & Hs & _)]%execOrg_cases; [done|]. unfold insert_session in Hs.
  repeat (apply res_bind_ok in Hs as (? & _ & Hs)). branches Hs; done.
Qed.

Lemma exec_users_tokens pgUUID heap ro orgID (c : dbc S) p g db db' r :
  exec_users pgUUID heap ro orgID c p g db = (db', r) -> refresh_tokens db' = refresh_tokens db.
Proof.
  intros [(-> & _)|(a & Hs & _)]%execOrg_cases; [done|].
  apply res_bind_ok in Hs as ([d l] & Hs & [= <- <-]).
  apply res_bind_ok in Hs as (vis & _ & Hs). cbv zeta in Hs. branches Hs; done.
Qed.

(** Issuing tokens is, for the table, at most one CreateRefreshToken. *)
Lemma IssueTokens_create now (env : IssueEnv) req db db' r :
  IssueTokens cfg now env req db = (db', r) ->
  (exists e, r = Err e) /\ refresh_tokens db' = refresh_tokens db \/
  exists db1 x, refresh_tokens db1 = refresh_tokens db /\
    CreateRefreshToken libUUID (isToken env) (isTokenID env) (irOrgID req) (irUserID req)
      (HashSHA256 (GenerateRandomString 64 (isRandom env))) (irFamilyID req) (now + refreshTTL) db1 = (db', x).
Proof.
  unfold IssueTokens. destruct (SignToken _ _ _ _ _ _); [|intros [= <- <-]; left; eauto].
  destruct (CreateSession _ _ _ _ _ _ _ _ _ _ _ _) as [db1 [|e]] eqn:Es;
    apply CreateSession_tokens in Es; [|intros [= <- <-]; left; eauto].
  destruct (CreateRefreshToken _ _ _ _ _ _ _ _ _) as [db2 x] eqn:Ec. intros Hr. right.
  exists db1, x. split; [done|]. rewrite Ec. f_equal. destruct x; by injection Hr.
Qed.

#[local] Notation step := (tk_step (S := S)).
#[local] Notation trace := (tk_trace (S := S)).

Lemma tk_quiet st st1 log st' : step st None st1 -> trace st1 log st' -> trace st log st'.
Proof. apply tk_cons. Qed.

(** An issue for the row of a refresh under way. *)
Lemma IssueTokens_refresh now (env : IssueEnv) rt ua ip db fl db' r :
  IssueTokens cfg now env (reissue rt ua ip) db = (db', r) ->
  trace (mkTkState db (rt :: fl)) [] (mkTkState db' fl).
Proof.
  intros [[_ Ht]|(db1 & x & Ht & Hc)]%IssueTokens_create.
  - eapply tk_quiet; [apply (tk_abandon db [] fl rt)|]. eapply tk_quiet; [by apply tk_other|constructor].
  - eapply tk_quiet; [by apply tk_other|]. eapply tk_quiet; [|constructor].
    exact (tk_reissue _ _ _ _ db1 [] fl rt db' x Hc).
Qed.

(** An issue for a family of its own. *)
Lemma IssueTokens_login now (env : IssueEnv) o u ua ip fam db fl db' r :
  ~ In fam (map rtFamilyID (refresh_tokens db ++ fl)) ->
  IssueTokens cfg now env (mkIssueTokensRequest o u ua ip fam) db = (db', r) ->
  trace (mkTkState db fl) [] (mkTkState db' fl).
Proof.
  intros Hf [[_ Ht]|(db1 & x & Ht & Hc)]%IssueTokens_create.
  - eapply tk_quiet; [by apply tk_other|constructor].
  - eapply tk_quiet; [by apply tk_other|]. eapply tk_quiet; [|constructor].
    eapply tk_login; [|exact Hc]. simpl. by rewrite Ht.
Qed.

Lemma refreshClaim_trace ctxOrg now (env : RefreshEnv) token ua ip db fl db' r :
  refreshClaim cfg ctxOrg now env token ua ip db = (db', r) ->
  match r with
  | Ok rt => trace (mkTkState db fl) [HashSHA256 token] (mkTkState db' (rt :: fl))
  | Err _ => exists log, trace (mkTkState db fl) log (mkTkState db' fl) /\
                         (log = [] \/ log = [HashSHA256 token])
  end.
Proof.
  unfold refreshClaim. destruct (ClaimRefreshToken _ _ _ _ _) as [db1 [rt|e]] eqn:Ec.
  - destruct (match GetSessionByUserID _ _ _ _ _ _ _ _ with Ok _ => _ | Err _ => _ end); intros [= <- <-].
    + destruct (RevokeRefreshTokenFamily _ _ _ _) as [db2 x] eqn:Er. exists [HashSHA256 token].
      split; [|by right]. eapply (tk_cons _ (Some _)); [by eapply tk_claim|].
      eapply tk_quiet; [exact (tk_risk _ _ db1 [] fl rt db2 x Er)|constructor].
    + eapply (tk_one _ (Some _)). by eapply tk_claim.
  - destruct (RevokeRefreshTokenFamilyByHash _ _ _ _) as [db2 x] eqn:Er. intros [= <- <-]. exists [].
    split; [|by left]. eapply tk_quiet; [by eapply tk_claim_fails|].
    eapply tk_quiet; [by eapply tk_detect|constructor].
Qed.

Lemma loginFailed_tokens ctxOrg now (env : LoginEnv) email db :
  refresh_tokens (loginFailed cfg ctxOrg now env email db) = refresh_tokens db.
Proof.
  unfold loginFailed. destruct (IncrementFailedLogin _ _ _ _ _ _ _ _) as [db1 x] eqn:Ei.
  assert (Hdb : refresh_tokens db1 = refresh_tokens db).
  { unfold IncrementFailedLogin in Ei. destruct (fAcquire _); [by injection Ei as <- _|].
    destruct (_ =s? ""); [by injection Ei as <- _|].
    apply execOrg_cases in Ei as [(-> & _)|(a & Hs & _)]; [done|].
    apply res_bind_ok in Hs as ([d l] & Hs & (u & _ & Hd)%res_bind_ok). injection Hd as <- _.
    apply res_bind_ok in Hs as (vis & _ & Hs). cbv zeta in Hs. branches Hs; done. }
  destruct (10 <=? _)%Z; [|done].
  destruct (LockAccount _ _ _ _ _ _ _ _ _ _) as [db2 y] eqn:El. apply exec_users_tokens in El.
  simpl. congruence.
Qed.

Lemma redisCall_db {A} now (fn : R -> R * res A) (w w' : @Iam R B) x :
  redisCall now fn w = (w', x) -> iDB w' = iDB w.
Proof. unfold redisCall. destruct (Call _ _ _ _ _) as [[b r] y]. by intros [= <- _]. Qed.

(** C33: The service's operations are sequences of the statements of the
    relation, whatever fails: a refresh redeems at most the token it is given,
    and redeems it whenever it answers with new tokens; a login redeems
    none. *)
Theorem token_operations_refine fl db :
  (forall ctxOrg now (env : RefreshEnv) token ua ip db' r,
     RefreshToken cfg ctxOrg now env token ua ip db = (db', r) ->
     exists log, tk_trace (S := S) (mkTkState db fl) log (mkTkState db' fl) /\
       (log = [] \/ log = [HashSHA256 token]) /\ (forall t, r = Ok t -> log = [HashSHA256 token])) /\
  (forall ctxOrg now (env : LoginEnv) email password ua ip (w w' : @Iam R B) r,
     iDB w = db -> ~ In (leFamily env) (map rtFamilyID (refresh_tokens db ++ fl)) ->
     Login cfg ctxOrg now env email password ua ip w = (w', r) ->
     tk_trace (S := S) (mkTkState db fl) [] (mkTkState (iDB w') fl)).
Proof.
  split.
  - intros ctxOrg now env token ua ip db' r Hr. unfold RefreshToken in Hr.
    destruct (refreshClaim _ _ _ _ _ _ _ _) as [db1 [rt|e]] eqn:Ec;
      apply (refreshClaim_trace _ _ _ _ _ _ _ fl) in Ec.
    + apply IssueTokens_refresh with (fl := fl) in Hr. exists [HashSHA256 token].
      split; [exact (tk_trace_app _ _ _ _ _ Ec Hr)|]. auto.
    + injection Hr as <- <-. destruct Ec as (log & Ht & Hl). exists log. by repeat split.
  - intros ctxOrg now env email password ua ip w w' r <- Hf Hl. unfold Login in Hl. cbv zeta in Hl.
    destruct (GetUserByEmail _ _ _ _ _) as [user|]; [|injection Hl as <- _; constructor].
    destruct (_ =s? "initializing"); [injection Hl as <- _; constructor|].
    destruct (match uLockedUntil user with Some _ => _ | None => _ end); [injection Hl as <- _; constructor|].
    destruct (PoolCompare _ _ _).
    { injection Hl as <- _. eapply tk_quiet; [|constructor]. apply tk_other. apply loginFailed_tokens. }
    destruct (ResetFailedLogin _ _ _ _ _ _ _ _ _) as [db1 x] eqn:Er. apply exec_users_tokens in Er.
    simpl in Hl. eapply tk_quiet; [by apply (tk_other _ _ db1)|].
    destruct (match ListMFAConfigs _ _ _ _ _ _ with Ok _ => _ | Err _ => _ end).
    + destruct (IssueTokens _ _ _ _ _) as [db2 out] eqn:Ei. apply IssueTokens_login with (fl := fl) in Ei;
        [|by rewrite Er]. destruct out; injection Hl as <- _; exact Ei.
    + destruct (redisCall _ _ _) as [w1 out] eqn:Ec. apply redisCall_db in Ec. injection Hl as <- _.
      rewrite Ec. constructor.
Qed.

(** C6: A refresh token is redeemed at most once, whatever logins, refreshes
    and revocations interleave with it. *)
Theorem refresh_single_use st log st' :
  NoDup (map rtTokenHash (refresh_tokens (tkDB st))) -> trace st log st' -> NoDup log.
Proof.
  intros Hn Ht. destruct (tk_used_trace _ _ _ [] Ht) as [_ Hd]; [by split|constructor|].
  rewrite app_nil_r in Hd. by rewrite Permutation_rev.
Qed.

(** Reuse detection.  Presenting a refresh token that was already redeemed,
    or has expired, is answered with [ErrSessionCompromised]; and if the
    revocation that follows does not fail and no refresh of the family is under
    way, no token of the family is redeemed ever after. *)
Theorem refresh_reuse_kills_family fl db r ctxOrg now (env : RefreshEnv) token ua ip :
  NoDup (map rtTokenHash (refresh_tokens db)) -> In r (refresh_tokens db) ->
  HashSHA256 token = rtTokenHash r -> (rtRevoked r = true \/ (rtExpiresAt r <= now)%Z) ->
  exists db', RefreshToken cfg ctxOrg now env token ua ip db = (db', Err ErrSessionCompromised) /\
    (healthy (reRevokeHash env) -> ~ In (rtFamilyID r) (map rtFamilyID fl) ->
     forall log st', trace (mkTkState db' fl) log st' ->
     forall ctxOrg' (c : dbc S) now' h db'' rt,
       ClaimRefreshToken ctxOrg' c now' h (tkDB st') = (db'', Ok rt) -> rtFamilyID rt <> rtFamilyID r).
Proof.
  intros Hn Hin Hh Hold. unfold RefreshToken, refreshClaim.
  destruct (ClaimRefreshToken ctxOrg (reClaim env) now (HashSHA256 token) db) as [db1 x] eqn:Ec.
  apply Claim_cases in Ec as [(-> & e & ->)|(rt & Hi & Hc & _)].
  - eexists. split; [done|]. intros He Hfl log st' Ht ctxOrg' c now' h db'' rt Hc.
    eapply tk_dead_claim; [|exact Hc]. eapply tk_dead_trace; [exact Ht|].
    unfold RevokeRefreshTokenFamilyByHash. rewrite execOrg_healthy by done. rewrite Hh.
    rewrite (family_of_In _ _ r) by done. apply revoke_kills; [|done]. by apply in_map.
  - exfalso. unfold claimable in Hc. bool_to_prop.
    assert (rt = r) as -> by (apply (NoDup_map_In rtTokenHash _ _ _ Hn Hi Hin); congruence).
    destruct Hold as [Hv|Hv]; [congruence|lia].
Qed.

(** *** Risk *)

Lemma calculateRiskScore_revokes storedUA ua storedIP ip :
  (riskThresholdRevoke <=? calculateRiskScore storedUA ua storedIP ip)%Z = true <->
  (parseUserAgent storedUA).1 <> (parseUserAgent ua).1 /\ ipToSubnet16 storedIP <> ipToSubnet16 ip.
Proof.
  unfold calculateRiskScore. destruct (parseUserAgent storedUA) as [f1 v1], (parseUserAgent ua) as [f2 v2].
  simpl. rewrite <- !String.eqb_neq.
  destruct (f1 =s? f2), (ipToSubnet16 storedIP =s? ipToSubnet16 ip), (v1 =s? v2), (storedIP =s? ip);
    simpl; split; done || (by intros [??]).
Qed.

(** Session risk.  A refresh whose token is accepted goes on to new tokens
    unless the user's latest session, if it can be read, was opened with
    another browser family and from another /16 network: neither alone
    reaches the threshold.  In that case the whole family is revoked. *)
Theorem risk_revokes_iff ctxOrg now (env : RefreshEnv) token ua ip db db1 rt :
  ClaimRefreshToken ctxOrg (reClaim env) now (HashSHA256 token) db = (db1, Ok rt) ->
  let risky := exists s,
    GetSessionByUserID libUUID libScanInet (cfRole cfg) ctxOrg (reSession env) now (rtUserID rt) db1 = Ok s /\
    (parseUserAgent (seUserAgent s)).1 <> (parseUserAgent ua).1 /\
    ipToSubnet16 (seIPAddress s) <> ipToSubnet16 ip in
  (~ risky -> refreshClaim cfg ctxOrg now env token ua ip db = (db1, Ok rt)) /\
  (risky -> exists db2, refreshClaim cfg ctxOrg now env token ua ip db = (db2, Err ErrSessionRevokedRisk) /\
     (healthy (reRevokeFamily env) ->
      forall r, In r (refresh_tokens db2) -> rtFamilyID r = rtFamilyID rt -> rtRevoked r = true)).
Proof.
  intros Hc risky. unfold refreshClaim. rewrite Hc. split.
  - intros Hr. destruct (GetSessionByUserID _ _ _ _ _ _ _ _) as [s|] eqn:Es; [|done].
    destruct (_ <=? _)%Z eqn:Er; [|done]. apply calculateRiskScore_revokes in Er. destruct Hr. by exists s.
  - intros (s & Hs & Hr). rewrite Hs. apply calculateRiskScore_revokes in Hr. rewrite Hr.
    eexists. split; [done|]. intros He r. unfold RevokeRefreshTokenFamily.
    rewrite execOrg_healthy by done. simpl. intros (r0 & <- & _)%in_map_iff.
    destruct (rtFamilyID r0 =s? rtFamilyID rt) eqn:E; [done|]. intros ?. by apply String.eqb_neq in E.
Qed.

(** The session holds an address without port; the request's address, when no
    proxy header replaced it, has one.  Then the network always differs, and a
    change of browser family alone revokes. *)
Lemma risk_score_with_port storedUA ua storedIP ip :
  libParseIP ip = None -> ipToSubnet16 storedIP <> ip ->
  (riskThresholdRevoke <=? calculateRiskScore storedUA ua storedIP ip)%Z = true <->
  (parseUserAgent storedUA).1 <> (parseUserAgent ua).1.
Proof.
  intros Hp Hne. rewrite calculateRiskScore_revokes. unfold ipToSubnet16 at 2. rewrite Hp.
  tauto.
Qed.
End service.

(** ** Witnesses *)

Module TokenExamples.
Export MiniIam.

(** A token family of Alice's: the first token was redeemed. *)
Definition used : RefreshRow := mkRefreshRow "t1" "o" "u" (HashSHA256 "R1") "f" (now + refreshTTL) true.
Definition fresh : RefreshRow := mkRefreshRow "t2" "o" "u" (HashSHA256 "R2") "f" (now + refreshTTL) false.
Definition session : SessionRow := mkSessionRow "o" "u" "j0" "Firefox/120.0" "203.0.113.7" (now + accessTTL) now.
Definition db1 : DB := mkDB ["o"] [alice] [session] [used; fresh] [] [] [].
Definition env : RefreshEnv := mkRefreshEnv call call call call (issue "R3").

Definition redeemed : DB := (ClaimRefreshToken "" call now (HashSHA256 "R2") db1).1.

Lemma refresh_single_use_witness :
  NoDup [HashSHA256 "R2"] /\
  tk_trace (S := MiniPg) (mkTkState db1 []) [HashSHA256 "R2"] (mkTkState redeemed [revoke_row fresh]).
Proof.
  assert (Ht : tk_trace (S := MiniPg) (mkTkState db1 []) [HashSHA256 "R2"]
                 (mkTkState redeemed [revoke_row fresh])).
  { apply (tk_one _ (Some (HashSHA256 "R2"))). apply (tk_claim "" call now). vm_compute. reflexivity. }
  split; [|exact Ht]. apply (refresh_single_use (S := MiniPg) _ _ _) in Ht; [exact Ht|].
  apply (bool_decide_unpack _). vm_compute. exact I.
Defined.

Lemma refresh_reuse_kills_family_witness :
  exists db', RefreshToken cfg "" now env "R1" "curl/8" "198.51.100.9" db1 = (db', Err ErrSessionCompromised) /\
    forall c h db'' rt, ClaimRefreshToken (S := MiniPg) "" c now h db' = (db'', Ok rt) -> rtFamilyID rt <> "f".
Proof.
  destruct (refresh_reuse_kills_family cfg [] db1 used "" now env "R1" "curl/8" "198.51.100.9")
    as (db' & He & Hd).
  - apply (bool_decide_unpack _). vm_compute. exact I.
  - by left.
  - reflexivity.
  - by left.
  - exists db'. split; [exact He|]. intros c h db'' rt. exact (Hd eq_refl (fun x => x) [] (mkTkState db' []) (tk_nil _) "" c now h db'' rt).
Defined.

Lemma risk_revokes_iff_witness :
  exists db2, refreshClaim cfg "" now env "R2" "curl/8" "198.51.100.9" db1 = (db2, Err ErrSessionRevokedRisk) /\
    forall r, In r (refresh_tokens db2) -> rtFamilyID r = "f" -> rtRevoked r = true.
Proof.
  destruct (risk_revokes_iff cfg "" now env "R2" "curl/8" "198.51.100.9" db1 redeemed (revoke_row fresh))
    as [_ Hr]; [vm_compute; reflexivity|].
  destruct Hr as (db2 & He & Hv).
  - exists (mkSession "j0" "Firefox/120.0" "203.0.113.7"). vm_compute. repeat split; discriminate.
  - exists db2. split; [exact He|]. apply Hv. reflexivity.
Defined.

(** The race of reuse detection with a refresh under way: the thief's use of
    the token just redeemed is detected and the family revoked, and yet the
    token issued afterwards to the first caller works. *)
Lemma refresh_race :
  exists db1' rt db2 db3 t db4 rt',
    refreshClaim cfg "" now env "R2" "Firefox/120.0" "203.0.113.7" db1 = (db1', Ok rt) /\
    RefreshToken cfg "" now env "R2" "curl/8" "198.51.100.9" db1' = (db2, Err ErrSessionCompromised) /\
    Forall (fun r => rtRevoked r = true) (refresh_tokens db2) /\
    IssueTokens cfg now (issue "R3") (reissue rt "Firefox/120.0" "203.0.113.7") db2 = (db3, Ok t) /\
    refreshClaim cfg "" now env (RefreshTok t) "Firefox/120.0" "203.0.113.7" db3 = (db4, Ok rt') /\
    rtFamilyID rt' = rtFamilyID rt.
Proof.
  repeat (eexists || split); try (vm_compute; reflexivity).
  vm_compute. repeat constructor.
Qed.
End TokenExamples.
