(* ===== verification/IamLogin.v ===== *)
(** Signing in: who [IamService.Login] lets in, how the lockout limits
    guessing, and what row-level security makes of it. *)

From S2P Require Import Prelude GoStrings Json Redis Pg Resilience Crypto RateLimit IamStore.
From S2P Require Import IamService IamTokens.

(** ** The lockout *)

(** Fifteen minutes from the tenth failure, doubled every ten, at most a day:
    for as long as the product fits an [int64]. *)
Lemma lockoutDuration_spec n :
  (10 <= n < 250)%Z ->
  lockoutDuration n = Z.min (15 * Minute * 2 ^ (n / 10 - 1)) (24 * Hour) /\
  (15 * Minute <= lockoutDuration n <= 24 * Hour)%Z.
Proof.
  intros Hn. unfold lockoutDuration.
  assert (Hq : Z.quot n 10 = (n / 10)%Z) by (apply Z.quot_div_nonneg; lia). rewrite Hq.
  assert (Hk : (1 <= n / 10 <= 24)%Z)
    by (Z.to_euclidean_division_equations; lia).
  rewrite (proj2 (Z.ltb_ge (n / 10 - 1) 0)) by lia. set (s := (n / 10 - 1)%Z) in *.
  assert (Hp : (1 <= 2 ^ s <= 2 ^ 23)%Z).
  { split; [change 1%Z with (2 ^ 0)%Z|]; apply Z.pow_le_mono_r; lia. }
  rewrite Z.shiftl_1_l, (wrap64_id (2 ^ s)) by lia.
  rewrite wrap64_id by (unfold Minute, Second, Millisecond; lia).
  destruct (24 * Hour <? 15 * Minute * 2 ^ s)%Z eqn:E; bool_to_prop;
    unfold Hour, Minute, Second, Millisecond in *; lia.
Qed.

(** From the 250th failure on it does not: the lock is already over when it is
    set. *)
Lemma lockoutDuration_overflow n : (250 <= n < 260)%Z -> (lockoutDuration n < 0)%Z.
Proof.
  intros Hn. unfold lockoutDuration. rewrite Z.quot_div_nonneg by lia.
  replace (n / 10)%Z with 25%Z; [by vm_compute|].
  apply (Z.div_unique n 10 25 (n - 250)); lia.
Qed.

Lemma filter_update {A} (p : A -> bool) (g : A -> A) (l : list A) :
  (forall x, p x = true -> p (g x) = true) ->
  List.filter p (map (fun x => if p x then g x else x) l) = map g (List.filter p l).
Proof.
  intros Hg. induction l as [|x l IH]; simpl; [done|].
  destruct (p x) eqn:E; simpl; [rewrite (Hg x E)|rewrite E]; simpl; by rewrite IH.
Qed.

Section login.
Context {S R B : Type} `{PgSession S} `{Redis R} `{Breaker B} `{Jwt} `{Aead} `{IamLibLaws}.
Variable cfg : Config.

#[local] Notation World := (@Iam R B).
#[local] Notation Env := (@LoginEnv S).

(** ** What a login gives *)

(** The session and the refresh token of an issue. *)
Definition issued (now : Z) (env : IssueEnv (S := S)) (req : IssueTokensRequest) (t : TokenResponse)
  (db db' : DB) : Prop :=
  exists org user addr,
    uuid_arg libUUID (irOrgID req) = Ok org /\ uuid_arg libUUID (irUserID req) = Ok user /\
    libInet (hostOf (irIPAddress req)) = Ok addr /\
    SignToken cfg now (irOrgID req) (irUserID req) (isJTI env) accessTTL = Ok (AccessToken t) /\
    sessions db' = sessions db ++
      [mkSessionRow org user (isJTI env) (irUserAgent req) addr (now + accessTTL) now] /\
    refresh_tokens db' = refresh_tokens db ++
      [mkRefreshRow (isTokenID env) org user (HashSHA256 (RefreshTok t)) (irFamilyID req) (now + refreshTTL) false] /\
    users db' = users db.

Lemma IssueTokens_ok now env req db db' t :
  IssueTokens cfg now env req db = (db', Ok t) -> issued now env req t db db'.
Proof.
  unfold IssueTokens. destruct (SignToken _ _ _ _ _ _) as [access|] eqn:Ea; [|done].
  destruct (CreateSession _ _ _ _ _ _ _ _ _ _ _ _) as [db1 [|]] eqn:Es; [|done].
  destruct (CreateRefreshToken _ _ _ _ _ _ _ _ _) as [db2 [|]] eqn:Ec; [|done]. intros [= <- <-].
  apply execOrg_ok in Es. unfold insert_session in Es.
  apply res_bind_ok in Es as (org & Ho & (user & Hu & (addr & Hi & (vis & _ & Es)%res_bind_ok)%res_bind_ok)%res_bind_ok).
  branches Es. apply Create_cases in Ec as [(_ & e & ?)|(org' & user' & _ & Ho' & Hu' & ->)]; [done|].
  rewrite Ho in Ho'. rewrite Hu in Hu'. simplify_eq. exists org', user', addr. by repeat split.
Qed.

Lemma by_email_ok r (sess : S) email db u :
  by_email libUUID libHeap r sess email db = Ok u -> In u (users db) /\ uEmail u = email.
Proof.
  unfold by_email. intros (vis & _ & (l & Hl)%one_row_ok)%res_bind_ok.
  assert (Hi : In u (libHeap (List.filter (fun u => (uEmail u =s? email) && vis (uOrgID u)) (users db))))
    by (rewrite Hl; by left).
  apply (Permutation_in _ (heap_perm _)), filter_In in Hi as [Hi Hc]. bool_to_prop. done.
Qed.

Lemma GetUserByEmail_ok (c : dbc S) email db u :
  GetUserByEmail libUUID libHeap c email db = Ok u ->
  exists row, In row (users db) /\ uEmail row = email /\ u = login_row email row.
Proof.
  unfold GetUserByEmail. destruct (fAcquire _); [done|]. destruct (fSet _); [done|]. destruct (fQuery _); [done|].
  intros Hu%notFound_ok. destruct (by_email _ _ _ _ _ _) as [row|] eqn:E; [|done].
  injection Hu as <-. apply by_email_ok in E as [Hi He]. eauto.
Qed.

(** What is listed are second factors of that user. *)
Lemma ListMFAConfigs_In ctxOrg (c : dbc S) userID db l m :
  ListMFAConfigs libUUID (cfRole cfg) ctxOrg c userID db = Ok l -> In m l ->
  exists f, In f (mfa_configs db) /\ libUUID userID = Some (mUserID f).
Proof.
  unfold ListMFAConfigs. intros (id & Hid & [= <-])%readOrg_ok%res_bind_ok. unfold delivered, uuid_arg in *.
  destruct (libUUID userID) as [user|]; [injection Hid as ->|done].
  destruct (visible _ _) as [vis|]; [|done]. cbn [res_bind]. intros Hm.
  assert (Hi : In m (map (fun m => mkMFAConfig (mMFAType m) (mSecretEncrypted m))
    (List.filter (fun m => (mUserID m =s? id) && vis (mOrgID m)) (mfa_configs db)))).
  { revert Hm. unfold deliver. destruct (fRows _) as [[n e]|]; simpl; [|done].
    rewrite <- (firstn_skipn n (map _ _)) at 2. intros Hm. apply in_or_app. by left. }
  apply in_map_iff in Hi as (f & _ & [Hf Hc]%filter_In). bool_to_prop. exists f. split; [done|by f_equal].
Qed.

(** A role that bypasses row-level security lists them all when no call fails. *)
Lemma ListMFAConfigs_all ctxOrg (c : dbc S) userID db l f :
  cfRole cfg = RoleBypass -> healthy c ->
  ListMFAConfigs libUUID (cfRole cfg) ctxOrg c userID db = Ok l ->
  In f (mfa_configs db) -> libUUID userID = Some (mUserID f) -> l <> [].
Proof.
  intros Hro Hc. unfold ListMFAConfigs. rewrite readOrg_healthy, Hro by done. unfold uuid_arg, visible, delivered.
  intros Hl Hf Hu. rewrite Hu, Hc in Hl. simpl in Hl. injection Hl as <-. intros Hn.
  apply map_eq_nil in Hn. assert (Hi : In f []); [|done]. rewrite <- Hn. apply filter_In. by rewrite String.eqb_refl.
Qed.

Lemma ListMFAConfigs_same ctxOrg (c : dbc S) userID db db' :
  mfa_configs db' = mfa_configs db ->
  ListMFAConfigs libUUID (cfRole cfg) ctxOrg c userID db' = ListMFAConfigs libUUID (cfRole cfg) ctxOrg c userID db.
Proof.
  intros E. unfold ListMFAConfigs, readOrg, execOrg, withOrgContext, autocommit.
  destruct (fAcquire (dFaults c)); [done|]. destruct (SetSessionVar _ _ _) as [sess [|]]; [done|]. destruct (fQuery (dFaults c)); [done|].
  destruct (uuid_arg _ _); simpl; [|done]. rewrite E. by destruct (fAck (dFaults c)).
Qed.

(** C7: Who signs in, and with what.  A login succeeds only for a user with the
    address, whose password hash the given password matches, whose account is
    not being set up and not locked.  It gives a challenge for the second
    factor only if the listing of factors delivered one, so that the user has
    one, and then no session and no token exists that did not before.  It
    gives an access token signed for that very user and tenant, with a session
    of one hour and a refresh token of seven days in a family of its own, only
    if the listing delivered none: it was empty, or it failed, which is
    ignored; where no call of it fails and the role bypasses row-level
    security, the user has no second factor. *)
Theorem Login_sound ctxOrg now (env : Env) email password ua ip (w w' : World) u t :
  Login cfg ctxOrg now env email password ua ip w = (w', Ok (u, t)) ->
  exists row, In row (users (iDB w)) /\ uEmail row = email /\
    bcryptCompare (uPasswordHash row) password = None /\ uStatus row <> "initializing" /\
    (forall l, uLockedUntil row = Some l -> (l <= now)%Z) /\ uID u = uID row /\ uOrgID u = uOrgID row /\
    let factors := ListMFAConfigs libUUID (cfRole cfg) ctxOrg (leMFA env) (uID row) (iDB w) in
    ((exists m ms f, factors = Ok (m :: ms) /\ In f (mfa_configs (iDB w)) /\ libUUID (uID row) = Some (mUserID f) /\
      uEmail u = "" /\ t = mkTokenResponse (leChallenge env) "" 0 "" /\
      sessions (iDB w') = sessions (iDB w) /\ refresh_tokens (iDB w') = refresh_tokens (iDB w)) \/
     ((forall l, factors = Ok l -> l = []) /\
      (cfRole cfg = RoleBypass -> healthy (leMFA env) ->
         forall f, In f (mfa_configs (iDB w)) -> libUUID (uID row) <> Some (mUserID f)) /\
      uEmail u = email /\ exists db, sessions db = sessions (iDB w) /\ refresh_tokens db = refresh_tokens (iDB w) /\
        issued now (leIssue env) (mkIssueTokensRequest (uOrgID row) (uID row) ua ip (leFamily env)) t db (iDB w'))).
Proof.
  unfold Login. cbv zeta. destruct (GetUserByEmail _ _ _ _ _) as [user|] eqn:Eg; [|done].
  apply GetUserByEmail_ok in Eg as (row & Hi & He & ->). simpl.
  destruct (uStatus row =s? "initializing") eqn:Est; [done|].
  destruct (match uLockedUntil row with Some _ => _ | None => _ end) eqn:Elk; [done|].
  unfold PoolCompare. destruct (leCompare env); [done|].
  destruct (bcryptCompare _ _) eqn:Eb; [done|].
  destruct (ResetFailedLogin _ _ _ _ _ _ _ _ _) as [db1 x] eqn:Er. simpl.
  assert (Hdb : (sessions db1 = sessions (iDB w) /\ mfa_configs db1 = mfa_configs (iDB w)) /\
    refresh_tokens db1 = refresh_tokens (iDB w)).
  { split; [|by eapply exec_users_tokens].
    apply execOrg_cases in Er as [(-> & _)|(a & Hs & _)]; [done|].
    apply res_bind_ok in Hs as ([d l] & Hs & Hd). injection Hd as <- _.
    apply res_bind_ok in Hs as (vis & _ & Hs). cbv zeta in Hs. by branches Hs. }
  destruct Hdb as [[Hses Hmfa] Htok]. rewrite (ListMFAConfigs_same _ _ _ _ _ Hmfa). intros Hl. exists row. split; [done|]. split; [done|].
  split; [done|]. split; [by bool_to_prop|].
  split; [intros l Hlk; rewrite Hlk in Elk; by bool_to_prop|].
  cbv zeta. destruct (ListMFAConfigs libUUID (cfRole cfg) ctxOrg (leMFA env) (uID row) (iDB w)) as [[|m ms]|e] eqn:Em.
  2: { destruct (redisCall _ _ _) as [w1 out] eqn:Ec. apply redisCall_db in Ec. injection Hl as <- <- <-.
       split; [done|]. split; [done|]. left.
       destruct (ListMFAConfigs_In _ _ _ _ _ m Em (or_introl eq_refl)) as (f & Hf & Hu).
       exists m, ms, f. rewrite Ec. by repeat split. }
  all: destruct (IssueTokens _ _ _ _ _) as [db2 [t'|]] eqn:Ei; [|done]; injection Hl as <- <- <-;
    apply IssueTokens_ok in Ei; split; [done|]; split; [done|]; right; (split; [by intros l [= <-]|]);
    (split; [|split; [done|by exists db1]]); intros Hro Hc f Hf Hu.
  - by destruct (ListMFAConfigs_all _ _ _ _ _ f Hro Hc Em Hf Hu).
  - revert Em. unfold ListMFAConfigs. rewrite readOrg_healthy by done. unfold uuid_arg. by rewrite Hu.
Qed.

(** Any status but "initializing" signs in: suspended, deprovisioned and failed
    accounts included. *)
Lemma Login_complete ctxOrg now (env : Env) email password ua ip (w : World) user :
  GetUserByEmail libUUID libHeap (leUser env) email (iDB w) = Ok user ->
  uStatus user <> "initializing" -> (forall l, uLockedUntil user = Some l -> (l <= now)%Z) ->
  leCompare env = None -> bcryptCompare (uPasswordHash user) password = None ->
  let db := (ResetFailedLogin libUUID libHeap (cfRole cfg) ctxOrg (leReset env).1 (leReset env).2
               now email (iDB w)).1 in
  (forall m, ListMFAConfigs libUUID (cfRole cfg) ctxOrg (leMFA env) (uID user) db = Ok m -> m = []) ->
  forall db' t,
  IssueTokens cfg now (leIssue env) (mkIssueTokensRequest (uOrgID user) (uID user) ua ip (leFamily env)) db =
    (db', Ok t) ->
  Login cfg ctxOrg now env email password ua ip w = (with_db db' w, Ok (user, t)).
Proof.
  intros Hg Hst Hlk Hc Hb db Hm db' t Hi. unfold Login. cbv zeta. rewrite Hg.
  rewrite (proj2 (String.eqb_neq _ _) Hst).
  assert (Hl : match uLockedUntil user with Some t => (now <? t)%Z | None => false end = false).
  { destruct (uLockedUntil user) as [l|]; [|done]. apply Z.ltb_ge. by apply Hlk. }
  rewrite Hl. unfold PoolCompare. rewrite Hc, Hb. fold db.
  destruct (ListMFAConfigs _ _ _ _ _ _) as [m|] eqn:Em; [rewrite (Hm m) by done|]; simpl; by rewrite Hi.
Qed.

(** ** Guessing *)

(** The one row of an address. *)
Definition account (email : string) (db : DB) (u : User) : Prop :=
  List.filter (fun u => uEmail u =s? email) (users db) = [u].

Definition locked_at (now : Z) (u : User) : bool :=
  match uLockedUntil u with Some t => (now <? t)%Z | None => false end.

(** No failure in any call, and a bcrypt that runs. *)
Definition healthy_login (env : Env) : Prop :=
  healthy (leUser env) /\ leCompare env = None /\
  healthy (leIncr env).1 /\ healthy (leIncr env).2 /\ healthy (leLock env).1 /\ healthy (leLock env).2.

Hypothesis superuser : cfRole cfg = RoleBypass.

Lemma heap_single u : libHeap [u] = [u].
Proof. apply Permutation_length_1_inv. symmetry. apply heap_perm. Qed.

Lemma by_email_account (sess : S) email db u :
  account email db u -> by_email libUUID libHeap RoleBypass sess email db = Ok u.
Proof.
  intros Ha. unfold by_email, visible. simpl.
  erewrite List.filter_ext; [|intros x; apply andb_true_r]. rewrite Ha. by rewrite heap_single.
Qed.

Lemma loginOrg_account (c : dbc S) email db u :
  healthy c -> account email db u -> loginOrg libUUID libHeap (cfRole cfg) c email db = uOrgID u.
Proof.
  intros Hc Ha. unfold loginOrg. cbv zeta. rewrite !Hc. cbn [noFaults fSet fQuery]. by rewrite (by_email_account _ _ _ _ Ha).
Qed.

Lemma update_account (sess : S) email g db u :
  account email db u -> (forall x, uEmail (g x) = uEmail x) -> int4_ok (g u) = true ->
  exists db', update_users libUUID libHeap (cfRole cfg) sess (fun u => uEmail u =s? email) g db = Ok (db', [g u]) /\
    account email db' (g u).
Proof.
  intros Ha Hg Hi. unfold update_users, visible. rewrite superuser. simpl.
  assert (Hf : forall l : list User, List.filter (fun u => (uEmail u =s? email) && true) l =
                 List.filter (fun u => uEmail u =s? email) l)
    by (intros l; apply List.filter_ext; intros x; apply andb_true_r).
  rewrite Hf, Ha. simpl. rewrite Hi, heap_single. eexists. split; [done|].
  unfold account. simpl.
  erewrite map_ext; [rewrite filter_update, Ha; [done|]|by intros x; rewrite andb_true_r].
  intros x Hx. by rewrite Hg.
Qed.

Definition failed_once (now : Z) (u : User) : User :=
  let n := (uFailedLoginCount u + 1)%Z in
  set_login n (if (10 <=? n)%Z then Some (now + lockoutDuration n)%Z else uLockedUntil u) now u.

(** A wrong guess: evaluated and counted, or refused without a trace while the
    account is locked. *)
Lemma Login_wrong ctxOrg now (env : Env) email password ua ip (w : World) u :
  healthy_login env -> account email (iDB w) u -> uStatus u <> "initializing" -> uOrgID u <> "" ->
  (uFailedLoginCount u < int4_max)%Z -> (uVersion u <= int4_max)%Z ->
  bcryptCompare (uPasswordHash u) password <> None ->
  exists w', Login cfg ctxOrg now env email password ua ip w = (w', Err ErrInvalidCredentials) /\
    account email (iDB w') (if locked_at now u then u else failed_once now u).
Proof.
  intros (Hu & Hc & Hi1 & Hi2 & Hl1 & Hl2) Ha Hst Ho Hn Hv Hb. unfold Login. cbv zeta.
  unfold GetUserByEmail. rewrite Hu. cbn [noFaults fAcquire fSet fQuery].
  rewrite (by_email_account _ _ _ _ Ha). simpl.
  rewrite (proj2 (String.eqb_neq _ _) Hst). fold (locked_at now u).
  destruct (locked_at now u); [by exists w|].
  unfold PoolCompare. rewrite Hc. destruct (bcryptCompare _ _); [|done].
  eexists. split; [done|]. simpl. unfold loginFailed, IncrementFailedLogin.
  rewrite Hi1. cbn [noFaults fAcquire].
  rewrite (loginOrg_account _ _ _ _ Hi1 Ha), (proj2 (String.eqb_neq _ _) Ho), execOrg_healthy by done.
  set (n := (uFailedLoginCount u + 1)%Z).
  destruct (update_account (pg_set_config (dConn (leIncr env).2) app_org (uOrgID u) true) email
              (fun u => set_login (uFailedLoginCount u + 1) (uLockedUntil u) now u) (iDB w) u Ha)
    as (db1 & Hup & Ha1); [done|unfold int4_ok; simpl; apply andb_true_iff; split; apply Z.leb_le; lia|].
  rewrite Hup. simpl. unfold failed_once. fold n. destruct (10 <=? n)%Z eqn:E; [|done].
  unfold LockAccount, exec_users, contextOrg. rewrite execOrg_healthy by done.
  match goal with |- context [update_users _ _ _ ?s _ ?g _] =>
    destruct (update_account s email g db1 _ Ha1) as (db2 & Hup2 & Ha2)
  end; [done|unfold int4_ok; simpl; apply andb_true_iff; split; apply Z.leb_le; lia|].
  rewrite Hup2. simpl. exact Ha2.
Qed.

(** A guess, and a sequence of them, one after the other. *)
Record guess := mkGuess { gAt : Z; gEnv : Env; gOrg : string; gPassword : string; gUA : string; gIP : string }.

Definition tryGuess (email : string) (w : World) (g : guess) : World :=
  (Login cfg (gOrg g) (gAt g) (gEnv g) email (gPassword g) (gUA g) (gIP g) w).1.

(** The passwords that were really compared with the user's: those tried while
    the account was not locked. *)
Fixpoint compared (email : string) (w : World) (gs : list guess) : list guess :=
  match gs with
  | [] => []
  | g :: gs' =>
      match List.filter (fun u => uEmail u =s? email) (users (iDB w)) with
      | u :: _ => if locked_at (gAt g) u then [] else [g]
      | [] => []
      end ++ compared email (tryGuess email w g) gs'
  end.

(** The attacker does not know the password; nothing fails; the clock does not
    go back. *)
Definition blind (hash : string) (g : guess) : Prop :=
  healthy_login (gEnv g) /\ bcryptCompare hash (gPassword g) <> None.

Fixpoint timed (t : Z) (gs : list guess) : Prop :=
  match gs with [] => True | g :: gs' => (t <= gAt g)%Z /\ timed (gAt g) gs' end.

(** After [n] comparisons since [T0], at [t]. *)
Record progress (T0 t : Z) (u0 u : User) (n : Z) : Prop := mkProgress {
  pr_start : (T0 <= t)%Z;
  pr_count : uFailedLoginCount u = n;
  pr_pos : (0 <= n)%Z;
  pr_same : uPasswordHash u = uPasswordHash u0 /\ uStatus u = uStatus u0 /\ uOrgID u = uOrgID u0 /\
            uVersion u = uVersion u0;
  pr_time : (10 <= n)%Z -> (T0 + (n - 10) * (15 * Minute) <= t)%Z;
  pr_lock : (10 <= n)%Z -> exists l, uLockedUntil u = Some l /\ (T0 + (n - 9) * (15 * Minute) <= l)%Z;
}.

Lemma progress_step T0 t t' u0 u n :
  progress T0 t u0 u n -> (t <= t')%Z -> (locked_at t' u = false -> (n < 249)%Z) ->
  progress T0 t' u0 (if locked_at t' u then u else failed_once t' u) (if locked_at t' u then n else n + 1).
Proof.
  intros [Hst Hn Hn0 Hs Hti Hl] Ht Hb. destruct (locked_at t' u) eqn:El.
  - split; try done; [lia|]. intros Hge. specialize (Hti Hge). lia.
  - specialize (Hb eq_refl). unfold failed_once. rewrite Hn.
    assert (Hle : (10 <= n)%Z -> (T0 + (n - 9) * (15 * Minute) <= t')%Z).
    { intros Hge. destruct (Hl Hge) as (l & Hlk & Hle). unfold locked_at in El. rewrite Hlk in El.
      bool_to_prop. lia. }
    assert (Hnow : (10 <= n + 1)%Z -> (T0 + (n + 1 - 10) * (15 * Minute) <= t')%Z).
    { intros Hge. destruct (decide (n = 9%Z)) as [->|]; [lia|]. specialize (Hle ltac:(lia)). lia. }
    split; simpl; try done; [lia|lia|]. intros Hge. rewrite (proj2 (Z.leb_le 10 (n + 1))) by lia.
    eexists. split; [done|]. destruct (lockoutDuration_spec (n + 1)) as [_ [Hd _]]; [lia|].
    specialize (Hnow Hge). lia.
Qed.

Lemma attack_progress email T0 u0 gs :
  uStatus u0 <> "initializing" -> uOrgID u0 <> "" -> (uVersion u0 <= int4_max)%Z ->
  (forall g, In g gs -> blind (uPasswordHash u0) g) ->
  forall w u t n, account email (iDB w) u -> progress T0 t u0 u n -> timed t gs ->
  (n + Z.of_nat (length (compared email w gs)) < 250)%Z ->
  exists t' u', account email (iDB (fold_left (tryGuess email) gs w)) u' /\
    progress T0 t' u0 u' (n + Z.of_nat (length (compared email w gs))) /\
    (t' = t \/ exists g, In g gs /\ gAt g = t').
Proof.
  intros Hst Ho Hv. induction gs as [|g gs IH]; intros Hb w u t n Ha Hp Ht Hlen.
  - exists t, u. simpl in *. rewrite Z.add_0_r. auto.
  - destruct Ht as [Ht Hts]. destruct (Hb g (or_introl eq_refl)) as [Hg Hw].
    pose proof (pr_same _ _ _ _ _ Hp) as (Hh & Hs & Ho' & Hv').
    pose proof (pr_count _ _ _ _ _ Hp) as Hn. cbn [compared fold_left] in *. rewrite Ha in *. rewrite length_app in *.
    assert (Hlt : locked_at (gAt g) u = false -> (n < 249)%Z).
    { intros E. rewrite E in Hlen. simpl in Hlen. lia. }
    destruct (Login_wrong (gOrg g) (gAt g) (gEnv g) email (gPassword g) (gUA g) (gIP g) w u)
      as (w' & Hl & Ha'); try done; try congruence.
    { unfold int4_max. lia. }
    assert (Hw' : tryGuess email w g = w') by (unfold tryGuess; by rewrite Hl). rewrite Hw' in *.
    apply (progress_step T0 t (gAt g) u0 u n) in Hp; [|done|done].
    destruct (IH (fun g' Hg' => Hb g' (or_intror Hg')) w' _ _ _ Ha' Hp Hts) as (t' & u' & Hau & Hp' & Ht').
    + destruct (locked_at (gAt g) u); simpl in *; lia.
    + exists t', u'. split; [done|]. split; [|right; destruct Ht' as [->|(g' & ? & ?)]; [exists g|exists g']; simpl; auto].
      replace (n + _)%Z with ((if locked_at (gAt g) u then n else n + 1) + Z.of_nat (length (compared email w' gs)))%Z; [done|].
      destruct (locked_at (gAt g) u); simpl; lia.
Qed.

(** C37: The lockout slows guessing down.  Whoever tries passwords against one
    account, one after the other and none of them right, gets no more than ten
    of them compared with the account's hash, and one more for every fifteen
    minutes since the start, for as long as fewer than 250 were compared. *)
Theorem lockout_bounds_guessing email T0 D u0 gs (w : World) :
  account email (iDB w) u0 -> uFailedLoginCount u0 = 0%Z -> uStatus u0 <> "initializing" ->
  uOrgID u0 <> "" -> (uVersion u0 <= int4_max)%Z ->
  (forall g, In g gs -> blind (uPasswordHash u0) g /\ (gAt g <= T0 + D)%Z) -> timed T0 gs -> (0 <= D)%Z ->
  (Z.of_nat (length (compared email w gs)) < 250)%Z ->
  (Z.of_nat (length (compared email w gs)) <= 10 + D / (15 * Minute))%Z.
Proof.
  intros Ha Hn Hs Ho Hv Hb Ht HD Hlen.
  destruct (attack_progress email T0 u0 gs Hs Ho Hv (fun g Hg => proj1 (Hb g Hg)) w u0 T0 0 Ha) as (t' & u' & _ & Hp & Ht').
  - split; try done; lia.
  - done.
  - lia.
  - pose proof (pr_time _ _ _ _ _ Hp) as Hti. rewrite Z.add_0_l in Hti.
    assert (Hle : (t' <= T0 + D)%Z) by (destruct Ht' as [->|(g & Hg & <-)]; [lia|by apply Hb]).
    pose proof (Z.div_pos D (15 * Minute) HD ltac:(done)).
    destruct (decide (10 <= Z.of_nat (length (compared email w gs)))%Z) as [Hge|]; [|lia].
    specialize (Hti Hge).
    assert (Hd : (Z.of_nat (length (compared email w gs)) - 10 <= D / (15 * Minute))%Z); [|lia].
    apply Z.div_le_lower_bound; [done|lia].
Qed.
End login.

(** ** Row-level security *)

Section rls.
Context {S R B : Type} `{PgSessionLaws S} `{Redis R} `{Breaker B} `{Jwt} `{Aead} `{IamLibLaws}.
Variable cfg : Config.

(** The calls of a login get their connections from the pool. *)
Definition pooled_login (env : LoginEnv (S := S)) : Prop :=
  pooled (dConn (leIncr env).2) /\ pooled (dConn (leLock env).2) /\ pooled (dConn (leReset env).2) /\
  pooled (dConn (isSession (leIssue env))).

Lemma pooled_visible conn orgID :
  cfRole cfg = RoleSubject -> pooled conn ->
  visible libUUID (cfRole cfg) (pg_set_config conn app_org orgID true) = Ok (fun _ => false).
Proof.
  intros Hr Hc. unfold visible. rewrite Hr. simpl.
  destruct (pooled_unset _ (pooled_set conn orgID None Hc)) as [_ E]. simpl in E. by rewrite E.
Qed.

Lemma exec_users_hidden orgID (c : dbc S) p g db db' r :
  cfRole cfg = RoleSubject -> pooled (dConn c) ->
  exec_users libUUID libHeap (cfRole cfg) orgID c p g db = (db', r) -> users db' = users db.
Proof.
  intros Hr Hc [(-> & _)|(a & Hs & _)]%execOrg_cases; [done|].
  apply res_bind_ok in Hs as ([d l] & Hs & [= <- _]).
  unfold update_users in Hs. rewrite pooled_visible in Hs by done. simpl in Hs.
  assert (Hf : List.filter (fun u => p u && false) (users db) = [])
    by (apply filter_none; intros; apply andb_false_r).
  rewrite Hf in Hs. simpl in Hs. injection Hs as <- _. simpl.
  erewrite map_ext; [apply map_id|]. intros x. by rewrite andb_false_r.
Qed.

Lemma IssueTokens_hidden now env req db :
  cfRole cfg = RoleSubject -> pooled (dConn (isSession env)) ->
  exists e, IssueTokens cfg now env req db = (db, Err e).
Proof.
  intros Hr Hc. unfold IssueTokens. destruct (SignToken _ _ _ _ _ _); [|eauto].
  destruct (CreateSession _ _ _ _ _ _ _ _ _ _ _ _) as [db1 x] eqn:Es.
  apply execOrg_cases in Es as [(-> & e & ->)|(tt0 & He & _)]; [eauto|].
  unfold insert_session in He. rewrite pooled_visible in He by done.
  apply res_bind_ok in He as (org & _ & (user & _ & (addr & _ & (vis & Hv & He)%res_bind_ok)%res_bind_ok)%res_bind_ok).
  by injection Hv as <-.
Qed.

(** Under a role that row-level security applies to, nobody signs in: the
    tenant set for a call is local to the statement that sets it, so that every
    login fails, right password or not, and no failure is ever counted, so
    that no account is ever locked. *)
Theorem rls_nobody_signs_in ctxOrg now (env : LoginEnv (S := S)) email password ua ip (w w' : @Iam R B) r :
  cfRole cfg = RoleSubject -> pooled_login env -> pooled (dConn (leMFA env)) ->
  Login cfg ctxOrg now env email password ua ip w = (w', r) ->
  (exists e, r = Err e) /\ users (iDB w') = users (iDB w).
Proof.
  intros Hr (Hi & Hl & Hre & Hs) Hm. unfold Login. cbv zeta.
  destruct (GetUserByEmail _ _ _ _ _) as [user|]; [|intros [= <- <-]; eauto].
  destruct (uStatus user =s? "initializing"); [intros [= <- <-]; eauto|].
  destruct (match uLockedUntil user with Some _ => _ | None => _ end); [intros [= <- <-]; eauto|].
  destruct (PoolCompare _ _ _).
  - intros [= <- <-]. split; [eauto|]. simpl. unfold loginFailed.
    destruct (IncrementFailedLogin _ _ _ _ _ _ _ _) as [db1 x] eqn:Ei.
    assert (Hdb : users db1 = users (iDB w)).
    { unfold IncrementFailedLogin in Ei. destruct (fAcquire _); [by injection Ei as <- _|].
      destruct (_ =s? ""); [by injection Ei as <- _|].
      apply execOrg_cases in Ei as [(-> & _)|(a & He & _)]; [done|].
      unfold update_users in He. rewrite pooled_visible in He by done. simpl in He.
      rewrite filter_none in He by (intros; apply andb_false_r). simpl in He.
      apply res_bind_ok in He as (u & Hu & _). apply one_row_ok in Hu as [l Hl'].
      assert (Hc : [] = u :: l); [|done]. rewrite <- Hl'. symmetry.
      apply Permutation_nil. symmetry. apply heap_perm. }
    destruct (10 <=? _)%Z; [|done].
    destruct (LockAccount _ _ _ _ _ _ _ _ _ _) as [db2 y] eqn:El.
    apply exec_users_hidden in El; [|done|done]. simpl. congruence.
  - destruct (ResetFailedLogin _ _ _ _ _ _ _ _ _) as [db1 x] eqn:Er.
    apply exec_users_hidden in Er; [|done|done]. simpl.
    assert (Hnone : forall m, ListMFAConfigs libUUID (cfRole cfg) ctxOrg (leMFA env) (uID user) db1 = Ok m -> m = []).
    { intros m Hm'%readOrg_ok. apply res_bind_ok in Hm' as (id & _ & Hm').
      rewrite pooled_visible in Hm' by done. simpl in Hm'. injection Hm' as <-.
      rewrite filter_none by (intros; apply andb_false_r). unfold deliver.
      destruct (fRows _) as [[n e]|]; simpl; [by destruct n|done]. }
    destruct (ListMFAConfigs _ _ _ _ _ _) as [m|] eqn:Em; [rewrite (Hnone m) by done|]; clear Hnone Em.
    all: simpl; destruct (IssueTokens_hidden now (leIssue env) (mkIssueTokensRequest (uOrgID user) (uID user) ua ip
      (leFamily env)) db1 Hr Hs) as [e' ->]; intros [= <- <-]; split; eauto.
Qed.
End rls.

(** ** Witnesses *)

Module LoginExamples.
Export MiniIam.

Definition env : LoginEnv (S := MiniPg) :=
  mkLoginEnv call None (call, call) (call, call) (call, call) call "c1" "f" (issue "R1").
Definition w0 : @Iam MiniRedis MiniBreaker := mkIam db0 emptyRedis closedBreaker.
Definition signedIn := Login cfg "" now env "a@x" "pw" "Firefox/120.0" "203.0.113.7:5000" w0.

Lemma Login_sound_witness :
  exists u t, signedIn.2 = Ok (u, t) /\ uEmail u = "a@x" /\
    exists row, In row (users db0) /\ bcryptCompare (uPasswordHash row) "pw" = None /\ uID u = uID row.
Proof.
  exists (login_row "a@x" alice), (mkTokenResponse "tok" "R1" 3600 "Bearer").
  destruct (Login_sound cfg "" now env "a@x" "pw" "Firefox/120.0" "203.0.113.7:5000" w0 signedIn.1
              (login_row "a@x" alice) (mkTokenResponse "tok" "R1" 3600 "Bearer"))
    as (row & Hi & _ & Hb & _ & _ & Hu & _); [vm_compute; reflexivity|].
  split; [vm_compute; reflexivity|]. split; [reflexivity|]. exists row. auto.
Defined.

(** Twelve wrong guesses, one per second. *)
Definition guesses : list (guess (S := MiniPg)) :=
  map (fun i => mkGuess (now + Z.of_nat i * Second) env "" "guess" "curl/8" "198.51.100.9") (seq 0 12).

Lemma lockout_bounds_guessing_witness :
  length (compared cfg "a@x" w0 guesses) = 10 /\
  (Z.of_nat (length (compared cfg "a@x" w0 guesses)) <= 10 + 12 * Second / (15 * Minute))%Z.
Proof.
  split; [vm_compute; reflexivity|].
  apply (lockout_bounds_guessing cfg eq_refl "a@x" now (12 * Second) alice guesses w0).
  - reflexivity.
  - reflexivity.
  - discriminate.
  - discriminate.
  - vm_compute. discriminate.
  - intros g Hg. apply in_map_iff in Hg as (i & <- & Hi). apply in_seq in Hi. split.
    + split; [repeat split|]. vm_compute. discriminate.
    + unfold gAt, now, Second, Millisecond. lia.
  - vm_compute. repeat split; discriminate.
  - vm_compute. discriminate.
  - vm_compute. reflexivity.
Defined.

Definition subject : Config := mkConfig RoleSubject oldRing [] "".

Lemma rls_nobody_signs_in_witness :
  (exists e, (Login subject "" now env "a@x" "pw" "Firefox/120.0" "203.0.113.7:5000" w0).2 = Err e) /\
  users (iDB (Login subject "" now env "a@x" "pw" "Firefox/120.0" "203.0.113.7:5000" w0).1) = users db0.
Proof.
  refine (rls_nobody_signs_in subject "" now env "a@x" "pw" "Firefox/120.0" "203.0.113.7:5000" w0 _ _
            eq_refl _ _ _).
  - repeat split; apply pooled_fresh.
  - apply pooled_fresh.
  - vm_compute. reflexivity.
Defined.

(** A deprovisioned user signs in with the right password. *)
Lemma deprovisioned_user_signs_in :
  let db := set_users [set_status "deprovisioned" now alice] db0 in
  exists w' u t,
    Login cfg "" now env "a@x" "pw" "Firefox/120.0" "203.0.113.7:5000" (mkIam db emptyRedis closedBreaker)
      = (w', Ok (u, t)) /\ uStatus u = "deprovisioned" /\ AccessToken t = "tok".
Proof. eexists _, _, _. split; [vm_compute; reflexivity|]. by vm_compute. Qed.
End LoginExamples.
