(* ===== verification/IamSessions.v ===== *)
(** The end of sessions and the second factor: logout and the removal of
    users against the blocklist of [Middleware.AuthJWTWithBlocklist], and the
    single use of challenges, one-time passwords and backup codes. *)

From S2P Require Import Prelude GoStrings Json Redis Pg Resilience Hex Crypto Http.
From S2P Require Import Outbox Middleware RateLimit IamStore IamService IamTokens IamUsers.

Lemma filter_key {A} (key : A -> string) (l : list A) x :
  NoDup (map key l) -> In x l -> List.filter (fun y => key y =s? key x) l = [x].
Proof.
  induction l as [|y l IH]; [done|]. simpl. intros [Hy Hn]%NoDup_cons. rewrite list_elem_of_In in Hy.
  intros [->|Hx].
  - rewrite String.eqb_refl, filter_none; [done|]. intros z Hz. apply String.eqb_neq. intros He.
    destruct Hy. rewrite <- He. by apply in_map.
  - rewrite (proj2 (String.eqb_neq _ _)); [by apply IH|]. intros He. destruct Hy. rewrite He. by apply in_map.
Qed.

Section sessions.
Context {S R B : Type} `{PgSession S} `{RedisLaws R} `{Breaker B} `{Jwt} `{Aead} `{IamLibLaws}.
Variable cfg : Config.

#[local] Notation World := (@Iam R B).

Lemma redisCall_ok {A} now (fn : R -> R * res A) (w w' : World) a :
  redisCall now fn w = (w', Ok a) -> fn (iRedis w) = (iRedis w', Ok a) /\ iDB w' = iDB w.
Proof.
  unfold redisCall. destruct (Call _ _ _ _ _) as [[b r] x] eqn:E. intros [= <- ->].
  apply Call_ok in E as (_ & _ & E). done.
Qed.

(** ** Logout *)

(** After a logout that reports success, the token is not accepted any more
    during its remaining life by any service that consults the blocklist,
    as long as nothing else writes its entry. *)
Theorem logout_revokes now jti expiresAt (w w' : World) :
  Logout now jti expiresAt w = (w', None) -> (now < expiresAt)%Z ->
  forall t keyring (s : R) (b : B) r ctx tok x,
    (now <= t < expiresAt)%Z ->
    rview t s (blocklistKey jti) = rview t (iRedis w') (blocklistKey jti) ->
    Verify t (extractToken r) keyring = Ok tok -> clID (tkClaims tok) = jti ->
    (beforeRequest t b).2 = None -> rexists t s (blocklistKey jti) = Ok x ->
    exists msg, (AuthJWTWithBlocklist t keyring (Some s) (Some b) r ctx).2 = Reject StatusUnauthorized msg.
Proof.
  intros Hl Hlt t keyring s b r ctx tok x Ht Hs Hv Hj Hb Hx. unfold Logout in Hl. cbv zeta in Hl.
  rewrite (proj2 (Z.leb_gt _ _)) in Hl by lia.
  destruct (redisCall _ _ _) as [w1 [u|e]] eqn:Ec; [|done]. injection Hl as ->.
  apply redisCall_ok in Ec as [Ec _]. unfold redisSet in Ec.
  destruct (rset _ _ _ _ _) as [r' [e|]] eqn:Er; [done|]. injection Ec as ->.
  pose proof (rset_ok _ _ _ _ _ _ Er t (blocklistKey jti) ltac:(lia)) as Hview.
  unfold view_set in Hview. rewrite decide_True, (proj2 (Z.ltb_lt _ _)) in Hview by (done || lia).
  rewrite <- Hs in Hview. pose proof (rexists_ok _ _ _ _ Hx) as Hb'. rewrite Hview, bool_decide_true in Hb' by done.
  subst x. unfold AuthJWTWithBlocklist. destruct (_ =s? ""); [by eexists|]. rewrite Hv, Hj.
  assert (Hrev : (revokedCheck t (Some s) (Some b) jti).2 = true) by (apply revokedCheck_true; eauto 6).
  destruct (revokedCheck _ _ _ _) as [b' rv]. simpl in Hrev. subst rv. by eexists.
Qed.

(** ** Second factors *)

(** One-time passwords.  A login by TOTP presents a live challenge, made
    for the very user it signs in, and a code valid for that user's secret and
    not presented by the user in the last ninety seconds.  Neither can be used
    again: the challenge is refused from then on, and the code for ninety
    seconds, as long as nothing else writes their keys. *)
Theorem totp_login_single_use ctxOrg now (env : MFAEnv (S := S)) challenge code ua ip (w w' : World) u t :
  VerifyMFAAndLogin cfg ctxOrg now env challenge code ua ip w = (w', Ok (u, t)) ->
  (exists v config secret,
    rview now (iRedis w) (challengeKey challenge) = Some (RStr v) /\ text_of v = uID u /\
    rview now (iRedis w) (totpKey (uID u) code) = None /\
    GetMFAConfig libUUID (cfRole cfg) ctxOrg (meFactor env) (uID u) "totp" (iDB w) = Ok config /\
    Decrypt (SecretEncrypted config) (cfAESKeyring cfg) = Ok secret /\ totpValidate now code secret = true) /\
  forall t' (w2 : World), (now <= t')%Z ->
    (forall k, k = challengeKey challenge \/ k = totpKey (uID u) code ->
       rview t' (iRedis w2) k = rview t' (iRedis w') k) ->
    (forall ctxOrg2 (env2 : MFAEnv (S := S)) code2 ua2 ip2,
       exists e, (VerifyMFAAndLogin cfg ctxOrg2 t' env2 challenge code2 ua2 ip2 w2).2 = Err e) /\
    ((t' < now + totpNonceTTL)%Z -> forall ctxOrg2 (c : dbc S),
       exists e, (VerifyTOTP cfg ctxOrg2 t' c (uID u) code w2).2 = Err e).
Proof.
  unfold VerifyMFAAndLogin, factorLogin.
  destruct (redisCall _ _ w) as [w1 [v|]] eqn:Ec; [|done]. apply redisCall_ok in Ec as [Ec Hdb1].
  unfold redisGetDel in Ec. destruct (rgetdel _ _ _) as [r1 [[v0|]|]] eqn:Eg; try done.
  injection Ec as -> ->. apply rgetdel_ok in Eg as [Hv Hdel].
  unfold VerifyTOTP at 1. destruct (rsetnx _ _ _ _ _) as [r2 [[]|]] eqn:En; try done.
  apply rsetnx_ok in En as [Hnone Hset]. symmetry in Hnone. apply bool_decide_eq_true in Hnone.
  destruct (GetMFAConfig _ _ _ _ _ _ _) as [config|] eqn:Em; [|done]. simpl.
  destruct (Decrypt _ _) as [secret|] eqn:Ed; [|done].
  destruct (totpValidate _ _ _) eqn:Ev; [|done].
  destruct (GetUserByID _ _ _ _ _ _) as [user|] eqn:Eu; [|done].
  destruct (IssueTokens _ _ _ _ _) as [db2 [t0|]]; [|done]. intros [= <- <- <-].
  assert (Hid : uID user = text_of v).
  { apply notFound_ok, readOrg_ok in Eu. apply res_bind_ok in Eu as (? & _ & (? & _ & (? & _ & Eu)%res_bind_ok)%res_bind_ok).
    by injection Eu as <-. }
  rewrite Hid in *. rewrite Hdb1 in Em.
  assert (Hch : forall t', (now <= t')%Z -> rview t' r2 (challengeKey challenge) = None).
  { intros t' Ht. rewrite Hset by done. unfold view_set. rewrite decide_False by done.
    unfold view_of. rewrite Hdel by done. unfold view_del. by rewrite decide_True by set_solver. }
  split.
  - exists v, config, secret. split; [done|]. split; [done|]. split; [|done].
    rewrite <- Hnone, Hdel by lia. unfold view_del. by rewrite decide_False by set_solver.
  - intros t' w2 Ht Hsame. simpl in Hsame. split.
    + intros ctxOrg2 env2 code2 ua2 ip2.
      destruct (redisCall t' _ w2) as [w3 [v2|]] eqn:Ec; [|by eexists]. exfalso.
      apply redisCall_ok in Ec as [Ec _]. unfold redisGetDel in Ec.
      destruct (rgetdel t' (iRedis w2) _) as [r3 [[v3|]|]] eqn:Eg2; try done.
      apply rgetdel_ok in Eg2 as [Hv2 _]. rewrite Hsame, Hch in Hv2 by auto. done.
    + intros Hlt ctxOrg2 c. unfold VerifyTOTP.
      destruct (rsetnx t' (iRedis w2) _ _ _) as [r3 [b|]] eqn:En; [|by eexists].
      apply rsetnx_ok in En as [Hb _]. rewrite Hsame, Hset in Hb by auto. unfold view_set in Hb.
      rewrite decide_True, (proj2 (Z.ltb_lt _ _)), bool_decide_false in Hb by (done || lia).
      subst b. by eexists.
Qed.

(** Backup codes.  A code accepted once is not accepted again: on the
    tables it leaves, any later check of the same code of the user, whoever
    asks, answers false or fails. *)
Theorem backup_code_single_use ctxOrg (c : dbc S) userID code db db' :
  NoDup (map (fun m => (mUserID m, mMFAType m)) (mfa_configs db)) ->
  VerifyBackupCode cfg ctxOrg c userID code db = (db', Ok true) ->
  forall db2, mfa_configs db2 = mfa_configs db' ->
  forall ctxOrg2 (c2 : dbc S) code2 db3 b, backupHash cfg code2 = backupHash cfg code ->
    VerifyBackupCode cfg ctxOrg2 c2 userID code2 db2 = (db3, Ok b) -> b = false.
Proof.
  intros Hn Hv db2 Hdb ctxOrg2 c2 code2 db3 b Hcode Hv2. unfold VerifyBackupCode, ConsumeBackupCode in *.
  rewrite Hcode in Hv2. set (h := backupHash cfg code) in *. clearbody h. clear Hcode code code2.
  apply execOrg_ok in Hv, Hv2.
  apply res_bind_ok in Hv as (user & Hu & (vis & _ & Hv)%res_bind_ok).
  apply res_bind_ok in Hv2 as (user2 & Hu2 & (vis2 & _ & Hv2)%res_bind_ok).
  rewrite Hu in Hu2. injection Hu2 as <-. cbv zeta in Hv, Hv2.
  injection Hv as <- Hex. injection Hv2 as _ <-. rewrite Hdb. simpl. clear Hdb.
  apply not_true_iff_false. intros Hex2.
  apply existsb_exists in Hex as (m & Hm & Hhit). apply existsb_exists in Hex2 as (m' & Hm' & Hhit').
  apply in_map_iff in Hm' as (m0 & <- & Hm0).
  unfold mfa_is, has_code in *. bool_to_prop.
  assert (Hkey : mUserID m0 = user /\ mMFAType m0 = "totp").
  { destruct (_ && existsb _ (mBackupCodeHashes m0)); simpl in *; done. }
  destruct Hkey as [Hk1 Hk2].
  assert (m0 = m) as -> by (eapply (NoDup_map_In _ _ _ _ Hn); eauto; simpl; congruence).
  subst user. rewrite Hk2, !String.eqb_refl in *. simpl in *.
  match goal with Hc : existsb _ (mBackupCodeHashes m) = true, Hvis : vis _ = true |- _ =>
    rewrite Hc, Hvis in * end.
  simpl in *. match goal with Hc : existsb _ (array_remove _ _) = true |- _ =>
    apply existsb_exists in Hc as (x & Hx & Heq) end.
  apply filter_In in Hx as [_ Hx]. rewrite Heq in Hx. done.
Qed.

(** ** Removal of users *)

Lemma blocklistPipe_sets now ttlOf jtis (r r' : R) :
  blocklistPipe now ttlOf jtis r = (r', None) ->
  forall jti, In jti jtis -> (0 < ttlOf jti)%Z ->
  forall t, (now <= t < now + setExTTL (ttlOf jti))%Z ->
  rview t r' (blocklistKey jti) = Some (RStr (RText "revoked")).
Proof.
  unfold blocklistPipe. intros Hp jti Hj Hpos.
  assert (Hin : In jti (List.filter (fun jti => (0 <? ttlOf jti)%Z) jtis))
    by (apply filter_In; split; [done|by apply Z.ltb_lt]).
  clear Hj. revert r' Hp Hin. generalize (List.filter (fun jti => (0 <? ttlOf jti)%Z) jtis). intros l.
  induction l as [|x l IH] using rev_ind; intros r' Hp Hin; [done|].
  rewrite fold_left_app in Hp. simpl in Hp. apply pipe_then_ok in Hp as (r1 & Hp & Hx).
  intros t Ht. rewrite (rset_ok _ _ _ _ _ _ Hx) by lia. unfold view_set.
  destruct (decide (blocklistKey jti = blocklistKey x)) as [He|He].
  - apply append_inv_head in He. subst x. by rewrite (proj2 (Z.ltb_lt _ _)) by lia.
  - apply in_app_iff in Hin as [Hin|[->|[]]]; [|done]. by apply (IH r1).
Qed.

Lemma outboxTx_empty (env : OutEnv) wrap (now : Z) key payload db :
  exists e, outboxTx env wrap now "" key payload db = (db, Some e).
Proof.
  unfold outboxTx, CreateOutboxEvent, tx_exec. simpl. destruct (oeInsert env); [by eexists|].
  unfold insert_outbox, uuid_arg. rewrite uuid_empty. by eexists.
Qed.

(** What a removal does when nothing fails before its event. *)
Definition removed (id : string) (now : Z) (w w' : World) : Prop :=
  (forall u, In u (users (iDB w')) -> uID u = id -> uStatus u = "deprovisioned") /\
  (forall s, In s (sessions (iDB w')) -> sUserID s <> id) /\
  (forall s, In s (sessions (iDB w)) -> sUserID s = id -> (now < sExpiresAt s)%Z ->
     forall t, (now <= t < now + setExTTL (sExpiresAt s - now))%Z ->
     rview t (iRedis w') (blocklistKey (sJTI s)) = Some (RStr (RText "revoked"))).

Lemma DeleteUser_errors ctxOrg now (env : DeleteEnv (S := S)) userID (w w' : World) e :
  DeleteUser cfg ctxOrg now env userID w = (w', e) -> e <> None.
Proof.
  unfold DeleteUser. destruct (oeBegin _); [by intros [= _ <-]|]. cbv zeta.
  destruct (GetActiveJTIs _ _ _ _ _ _ _); [|by intros [= _ <-]].
  destruct (blocklistPipe _ _ _ _) as [r [err|]]; [by intros [= _ <-]|].
  destruct (RevokeSessions _ _ _ _ _ _) as [db1 []]; [|by intros [= _ <-]].
  destruct (UpdateUserStatus _ _ _ _ _ _ _ _ _) as [db2 []]; [|by intros [= _ <-]].
  destruct (outboxTx_empty (duOut env) (fun e => e) now userID (deletedPayload now userID) db2) as [err He].
  rewrite He. by intros [= _ <-].
Qed.

(** Removing a user always reports an error, since its event has no tenant;
    but what came before it stays: when nothing else fails, and under a role
    that sees the rows, the user is deprovisioned and has no session left, and
    each token that was alive is in the blocklist for the whole seconds of
    its remaining life. *)
Theorem DeleteUser_errors_after_effect ctxOrg now (env : DeleteEnv (S := S)) userID (w w' : World) e :
  DeleteUser cfg ctxOrg now env userID w = (w', e) ->
  e <> None /\
  forall id, libUUID userID = Some id ->
  cfRole cfg = RoleBypass -> oeBegin (duOut env) = None ->
  healthy (duJTIs env) -> (forall j, healthy (duTTL env j)) -> healthy (duRevoke env) -> healthy (duStatus env) ->
  (forall ttlOf jtis, (blocklistPipe now ttlOf jtis (iRedis w)).2 = None) ->
  NoDup (map sJTI (sessions (iDB w))) ->
  (forall u, In u (users (iDB w)) -> uID u = id ->
     (uVersion u < int4_max)%Z /\ (uFailedLoginCount u <= int4_max)%Z) ->
  removed id now w w'.
Proof.
  intros Hd. split.
  - by eapply DeleteUser_errors.
  - intros id Hid Hro Hb Hj Ht Hr Hs Hredis Hn Hint. revert Hd. unfold DeleteUser. rewrite Hb. cbv zeta.
    unfold GetActiveJTIs, live_sessions, visible, uuid_arg. rewrite readOrg_healthy, Hro, Hid by done. simpl.
    unfold delivered. rewrite Hj. simpl.
    match goal with |- context [blocklistPipe now ?f ?l ?r] => set (ttlOf := f); set (jtis := l) end.
    destruct (blocklistPipe now ttlOf jtis (iRedis w)) as [r1 err] eqn:Ep.
    assert (err = None) as -> by (by rewrite <- (Hredis ttlOf jtis), Ep).
    unfold RevokeSessions, visible, uuid_arg. rewrite execOrg_healthy, Hid by done. simpl.
    unfold UpdateUserStatus, exec_user_id, update_users, visible, uuid_arg. rewrite execOrg_healthy, Hid by done. simpl.
    rewrite (proj2 (forallb_forall _ _)).
    2: { intros u (u0 & <- & Hu)%in_map_iff. apply filter_In in Hu as [Hu Hc]. bool_to_prop.
         destruct (Hint u0) as [? ?]; [done|done|]. unfold int4_ok. simpl.
         apply andb_true_iff; split; apply Z.leb_le; lia. }
    simpl.
    match goal with |- context [outboxTx ?a ?b ?c ?d ?e ?f ?g] => destruct (outboxTx_empty a b c e f g) as [err He] end.
    rewrite He. intros [= <- _]. split; [|split]; simpl.
    + intros u (u0 & <- & Hu)%in_map_iff. destruct ((uID u0 =s? id) && true) eqn:E; [done|].
      intros Hi. rewrite andb_true_r in E. by apply String.eqb_neq in E.
    + intros s [_ Hc]%filter_In He'. rewrite He', String.eqb_refl in Hc. done.
    + intros s Hin Hu Hl t Htt.
      assert (Hone : List.filter (fun x => (sJTI x =s? sJTI s) && true) (sessions (iDB w)) = [s]).
      { erewrite List.filter_ext; [by apply (filter_key sJTI)|]. intros x. apply andb_true_r. }
      assert (Httl : ttlOf (sJTI s) = (sExpiresAt s - now)%Z).
      { unfold ttlOf, GetSessionTTL, visible. rewrite readOrg_healthy by done. simpl. rewrite Hone. simpl.
        by rewrite (proj2 (Z.ltb_ge _ _)) by lia. }
      apply (blocklistPipe_sets now ttlOf jtis (iRedis w)); [done| |lia|by rewrite Httl].
      unfold jtis. apply in_map. apply filter_In. split; [done|].
      rewrite Hu, String.eqb_refl, (proj2 (Z.ltb_lt _ _)) by done. done.
Qed.
End sessions.

(** ** Witnesses *)

Module SessionExamples.
Export MiniIam.

Definition w0 : @Iam MiniRedis MiniBreaker := mkIam db0 emptyRedis closedBreaker.
Definition loggedOut := (Logout (2000 * Second) "j" (4600 * Second) w0).1.

Lemma logout_revokes_witness :
  exists msg, (AuthJWTWithBlocklist (3000 * Second) oldRing (Some (iRedis loggedOut)) (Some closedBreaker)
                 (mkRequest "GET" (Some "tok") [] "") background).2 = Reject StatusUnauthorized msg.
Proof.
  apply (logout_revokes (2000 * Second) "j" (4600 * Second) w0 loggedOut) with (tok := token) (x := true);
    try (vm_compute; reflexivity).
  vm_compute. split; [discriminate|reflexivity].
Defined.

(** Alice with a second factor, and a challenge made for her. *)
Definition aesRing : list EncryptionKey := [mkEncryptionKey "a1" (hexEnc "0123456789abcdef") "active"].
Definition cfgA : Config := mkConfig RoleBypass oldRing aesRing "".
Definition enc : string := match Encrypt (Ok "nonce-nonce-") "123456" aesRing with Ok s => s | Err _ => "" end.
Definition factor : MFARow := mkMFARow "o" "u" "totp" enc [backupHash cfgA "CODE1"; backupHash cfgA "CODE2"].
Definition dbA : DB := mkDB ["o"] [alice] [] [] [factor] [] [].
Definition wA : @Iam MiniRedis MiniBreaker :=
  mkIam dbA (rset now emptyRedis (challengeKey "c1") (RText "u") (5 * Minute)).1 closedBreaker.
Definition envA : MFAEnv (S := MiniPg) := mkMFAEnv call call "f" (issue "R1").
Definition verified := VerifyMFAAndLogin cfgA "" now envA "c1" "123456" "Firefox/120.0" "203.0.113.7" wA.

Lemma totp_login_single_use_witness :
  is_ok verified.2 = true /\
  exists e, (VerifyTOTP cfgA "" (now + 30 * Second) call "u" "123456" verified.1).2 = Err e.
Proof.
  split; [vm_compute; reflexivity|].
  assert (Hv : verified = (verified.1, Ok (with_id "u" (public_row alice), mkTokenResponse "tok" "R1" 3600 "Bearer")))
    by (vm_compute; reflexivity).
  destruct (totp_login_single_use cfgA "" now envA "c1" "123456" "Firefox/120.0" "203.0.113.7" wA _ _ _ Hv)
    as [_ Hagain].
  apply (Hagain (now + 30 * Second)%Z verified.1); [vm_compute; discriminate|reflexivity|vm_compute; reflexivity].
Defined.

Definition consumed := VerifyBackupCode cfgA "" call "u" "CODE1" dbA.

Lemma backup_code_single_use_witness :
  consumed.2 = Ok true /\
  forall db3 b, VerifyBackupCode cfgA "" call "u" "CODE1" consumed.1 = (db3, Ok b) -> b = false.
Proof.
  split; [vm_compute; reflexivity|]. intros db3 b.
  apply (backup_code_single_use cfgA "" call "u" "CODE1" dbA consumed.1) with (db2 := consumed.1); try reflexivity.
  apply (bool_decide_unpack _). vm_compute. exact I.
Defined.

Definition session : SessionRow := mkSessionRow "o" "u" "j" "Firefox/120.0" "203.0.113.7" (4600 * Second) now.
Definition dbS : DB := mkDB ["o"] [alice] [session] [] [] [] [].
Definition wS : @Iam MiniRedis MiniBreaker := mkIam dbS emptyRedis closedBreaker.
Definition envD : DeleteEnv (S := MiniPg) := mkDeleteEnv (mkOutEnv None "e1" None CommitOk) call (fun _ => call) call call.
Definition deleted := DeleteUser cfg "o" now envD "u" wS.

Lemma pipe_answers (t : Z) ttlOf jtis (r : MiniRedis) :
  mrDown r = false -> (blocklistPipe t ttlOf jtis r).2 = None.
Proof.
  intros Hd. unfold blocklistPipe. generalize (List.filter (fun jti => (0 <? ttlOf jti)%Z) jtis). intros l.
  enough (Hp : forall p0 : MiniRedis -> MiniRedis * option goerr, (p0 r).2 = None -> mrDown (p0 r).1 = false ->
            (fold_left (fun pipe jti => pipe_then pipe (fun r => rset t r (blocklistKey jti) (RText "revoked")
               (setExTTL (ttlOf jti)))) l p0 r).2 = None) by (by apply Hp).
  induction l as [|x l IH]; intros p0 H1 H2; [done|]. simpl. apply IH;
    unfold pipe_then; destruct (p0 r) as [r1 e1]; simpl in *; subst e1; unfold mrWrite; by rewrite H2.
Qed.

Lemma DeleteUser_errors_after_effect_witness : deleted.2 <> None /\ removed "u" now wS deleted.1.
Proof.
  destruct (DeleteUser_errors_after_effect cfg "o" now envD "u" wS deleted.1 deleted.2) as [He Hr].
  - vm_compute. reflexivity.
  - split; [exact He|]. apply Hr; try reflexivity.
    + intros ttlOf jtis. apply pipe_answers. reflexivity.
    + apply (bool_decide_unpack _). vm_compute. exact I.
    + intros u [<-|[]] _. vm_compute. split; [reflexivity|discriminate].
Defined.
End SessionExamples.
