(* ===== verification/IamHandlers.v ===== *)
(** The public HTTP API of the identity service: sign-in, refresh, logout and
    the OAuth endpoints of services/iam/pkg/handlers (handler.go, oauth.go).
    These routes carry no tenant: the repository runs with an empty one. *)

From S2P Require Import Prelude GoStrings Json Redis Pg Resilience Hex Crypto Http.
From S2P Require Import Outbox Middleware RateLimit IamStore IamService IamTokens IamLogin IamSessions.
From stdpp Require Import gmap.

(** ** Bodies, forms and documents *)

(** A body whose fields are all strings. *)
Definition upd_strings (names : list string) (k : string) (m : gmap string string) (j : json)
  : res (gmap string string) :=
  match find (fun n => key_is n k) names with
  | Some n => s <-? dec_string (default "" (m !! n)) j; Ok (<[n := s]> m)
  | None => Ok m
  end.

Definition decodeStrings (names : list string) (b : raw) : res (gmap string string) :=
  decode_body (upd_strings names) ∅ b.

Definition field (name : string) (m : gmap string string) : string := default "" (m !! name).

(** [r.Form.Get]. *)
Definition form_get (name : string) (form : list (string * string)) : string :=
  match find (fun kv => kv.1 =s? name) form with Some kv => kv.2 | None => "" end.

Definition invalidBody : Response := writeError StatusBadRequest "invalid request body".

(** [omitempty]. *)
Definition opt_str (k v : string) : list (string * json) := if v =s? "" then [] else [(k, JStr v)].
Definition opt_num (k : string) (v : Z) : list (string * json) := if (v =? 0)%Z then [] else [(k, JNum v)].

Definition tokenDoc (t : TokenResponse) : json :=
  JObj [("access_token", JStr (AccessToken t)); ("refresh_token", JStr (RefreshTok t));
        ("expires_in", JNum (ExpiresIn t)); ("token_type", JStr (TokenType t))].

(** [http.SetCookie] of the session. *)
Definition sessionCookie (token : string) (secure : bool) : string * string :=
  ("Set-Cookie", "openguard_session=" +:+ (token +:+ ("; Path=/; Max-Age=3600; HttpOnly" +:+
     ((if secure then "; Secure" else "") +:+ "; SameSite=Strict")))).

Definition clearedCookie : string * string :=
  ("Set-Cookie", "openguard_session=; Path=/; Expires=Thu, 01 Jan 1970 00:00:00 GMT; Max-Age=0; HttpOnly; Secure; SameSite=Strict").

(** What the handlers read of a request. *)
Record IamRequest := mkIamRequest {
  hrBody : raw;
  hrUserAgent : string;
  hrRemoteAddr : string;
  hrForm : res (list (string * string));    (* ParseForm *)
  hrBasicUser : string;                     (* BasicAuth, "" without *)
}.

Section handlers.
Context {S R B : Type} `{PgSession S} `{Redis R} `{Breaker B} `{Jwt} `{Aead} `{IamLib}.
Variable cfg : Config.
(** [MarshalJSON] of an instant. *)
Variable timeDoc : Z -> json.
(** ENV and COOKIE_SECURE. *)
Variables env cookieSecure : string.

#[local] Notation World := (@Iam R B).

Definition userDoc (u : User) : json :=
  JObj [("id", JStr (uID u)); ("org_id", JStr (uOrgID u)); ("email", JStr (uEmail u));
        ("display_name", JStr (uDisplayName u)); ("role", JStr (uRole u)); ("status", JStr (uStatus u));
        ("failed_login_count", JNum (uFailedLoginCount u));
        ("locked_until", match uLockedUntil u with Some t => timeDoc t | None => JNull end);
        ("mfa_enabled", JBool (uMFAEnabled u)); ("mfa_method", JStr (uMFAMethod u));
        ("scim_external_id", match uSCIMExternalID u with Some s => JStr s | None => JNull end);
        ("version", JNum (uVersion u)); ("created_at", timeDoc (uCreatedAt u)); ("updated_at", timeDoc (uUpdatedAt u))].

Definition loginDoc (u : User) (t : TokenResponse) : json :=
  JObj ([("user", userDoc u); ("access_token", JStr (AccessToken t))] ++
        opt_str "refresh_token" (RefreshTok t) ++ opt_num "expires_in" (ExpiresIn t)).

Definition signedIn (secure : bool) (u : User) (t : TokenResponse) : Response :=
  writeJSON [sessionCookie (AccessToken t) secure] StatusOK (loginDoc u t).

Definition secureCookie : bool :=
  if cookieSecure =s? "" then env =s? "prod" else cookieSecure =s? "true".

(** The user of a challenge has no address. *)
Definition isChallenge (u : User) : bool := (uEmail u =s? "") && negb (uOrgID u =s? "").

Definition HandleLogin (now : Z) (le : LoginEnv) (r : IamRequest) (w : World) : World * Response :=
  match decodeStrings ["email"; "password"] (hrBody r) with
  | Err _ => (w, invalidBody)
  | Ok b =>
      match Login cfg "" now le (field "email" b) (field "password" b) (hrUserAgent r) (hrRemoteAddr r) w with
      | (w, Err e) =>
          (w, if errors_is e ErrAccountSetup
              then writeJSON [] StatusForbidden (JObj [("error", JStr "Account setup in progress");
                                                       ("code", JStr "ACCOUNT_SETUP_PENDING")])
              else writeError StatusUnauthorized "Invalid credentials")
      | (w, Ok (u, t)) =>
          (w, if isChallenge u
              then writeJSON [] StatusAccepted (JObj [("mfa_required", JBool true);
                                                      ("mfa_challenge", JStr (AccessToken t))])
              else signedIn secureCookie u t)
      end
  end.

Definition HandleVerifyMFA (now : Z) (me : MFAEnv) (r : IamRequest) (w : World) : World * Response :=
  match decodeStrings ["mfa_challenge"; "code"] (hrBody r) with
  | Err _ => (w, invalidBody)
  | Ok b =>
      match VerifyMFAAndLogin cfg "" now me (field "mfa_challenge" b) (field "code" b) (hrUserAgent r)
              (hrRemoteAddr r) w with
      | (w, Err _) => (w, writeError StatusUnauthorized "Invalid MFA code")
      | (w, Ok (u, t)) => (w, signedIn true u t)
      end
  end.

Definition HandleVerifyBackupCode (now : Z) (me : MFAEnv) (r : IamRequest) (w : World) : World * Response :=
  match decodeStrings ["mfa_challenge"; "code"] (hrBody r) with
  | Err _ => (w, invalidBody)
  | Ok b =>
      match VerifyBackupCodeAndLogin cfg "" now me (field "mfa_challenge" b) (field "code" b) (hrUserAgent r)
              (hrRemoteAddr r) w with
      | (w, Err _) => (w, writeError StatusUnauthorized "Invalid backup code")
      | (w, Ok (u, t)) => (w, signedIn true u t)
      end
  end.

Definition HandleRefresh (now : Z) (re : RefreshEnv) (r : IamRequest) (w : World) : World * Response :=
  match decodeStrings ["refresh_token"] (hrBody r) with
  | Err _ => (w, invalidBody)
  | Ok b =>
      match RefreshToken cfg "" now re (field "refresh_token" b) (hrUserAgent r) (hrRemoteAddr r) (iDB w) with
      | (db, Ok t) => (with_db db w, writeJSON [] StatusOK (tokenDoc t))
      | (db, Err e) =>
          (with_db db w,
           if errors_is e ErrSessionRevokedRisk
           then writeJSON [] StatusUnauthorized (JObj [("error", JStr "Session revoked due to suspicious activity");
                                                       ("code", JStr "SESSION_REVOKED_RISK")])
           else if errors_is e ErrSessionCompromised
           then writeJSON [] StatusUnauthorized
                  (JObj [("error", JStr "Session compromised — refresh token reuse detected");
                         ("code", JStr "SESSION_COMPROMISED")])
           else writeError StatusUnauthorized "Invalid or expired refresh token")
      end
  end.

(** Behind [AuthJWTWithBlocklist], which sets the context. *)
Definition HandleLogout (now : Z) (ctx : Context) (w : World) : World * Response :=
  if GetJTI ctx =s? "" then (w, writeError StatusBadRequest "invalid session: missing jti")
  else match Logout now (GetJTI ctx) (default zeroTime (GetExpiresAt ctx)) w with
       | (w, Some _) => (w, writeError StatusInternalServerError "logout failed")
       | (w, None) => (w, writeJSON [clearedCookie] StatusOK (JObj [("message", JStr "Logged out")]))
       end.

(** *** OAuth *)

(** [code] is the new [uuid]. *)
Definition HandleOAuthLogin (now : Z) (le : LoginEnv) (code : string) (r : IamRequest) (w : World)
  : World * Response :=
  match decodeStrings ["email"; "password"; "client_id"; "redirect_uri"; "state"; "code_challenge"] (hrBody r) with
  | Err _ => (w, invalidBody)
  | Ok b =>
      match Login cfg "" now le (field "email" b) (field "password" b) (hrUserAgent r) (hrRemoteAddr r) w with
      | (w, Err _) => (w, writeError StatusUnauthorized "Invalid credentials")
      | (w, Ok (user, _)) =>
          if field "code_challenge" b =s? ""
          then (w, writeError StatusBadRequest "code_challenge is required for OAuth login")
          else match StoreAuthCode now code (uOrgID user) (uID user) (field "code_challenge" b) w with
               | (w, Some _) => (w, writeError StatusInternalServerError "failed to store auth code")
               | (w, None) =>
                   (w, writeJSON [] StatusOK (JObj (opt_str "status" (field "state" b) ++ opt_str "id" code)))
               end
      end
  end.

Record TokenEnv := mkTokenEnv {
  tvConnector : dbc S;
  tvFamily : string;
  tvIssue : IssueEnv (S := S);
  tvRefresh : RefreshEnv (S := S);
  tvLogin : LoginEnv (S := S);
}.

Definition issueFor (now : Z) (te : TokenEnv) (orgID userID : string) (r : IamRequest) (w : World)
  : World * Response :=
  match IssueTokens cfg now (tvIssue te)
          (mkIssueTokensRequest orgID userID (hrUserAgent r) (hrRemoteAddr r) (tvFamily te)) (iDB w) with
  | (db, Err _) => (with_db db w, writeError StatusInternalServerError "failed to issue tokens")
  | (db, Ok t) => (with_db db w, writeJSON [] StatusOK (tokenDoc t))
  end.

Definition handleAuthCodeGrant (now : Z) (te : TokenEnv) (r : IamRequest) (form : list (string * string)) (w : World)
  : World * Response :=
  let clientID := if form_get "client_id" form =s? "" then hrBasicUser r else form_get "client_id" form in
  let code := form_get "code" form in
  let codeVerifier := form_get "code_verifier" form in
  if (clientID =s? "") || (code =s? "") || (codeVerifier =s? "")
  then (w, writeError StatusBadRequest "missing client_id, code, or code_verifier")
  else match GetConnectorByID libUUID (cfRole cfg) "" (tvConnector te) clientID (iDB w) with
  | Err _ => (w, writeError StatusUnauthorized "invalid client_id")
  | Ok _ =>
      match GetAuthCode now code w with
      | (w, Err _) => (w, writeError StatusUnauthorized "invalid or expired code")
      | (w, Ok (orgID, userID, storedChallenge)) =>
          if negb (b64rawurl (sha256 codeVerifier) =s? storedChallenge)
          then (w, writeError StatusUnauthorized "invalid code_verifier")
          else issueFor now te orgID userID r w
      end
  end.

Definition handleRefreshTokenGrant (now : Z) (te : TokenEnv) (r : IamRequest) (form : list (string * string))
  (w : World) : World * Response :=
  let refreshToken := form_get "refresh_token" form in
  if refreshToken =s? "" then (w, writeError StatusBadRequest "missing refresh_token")
  else match RefreshToken cfg "" now (tvRefresh te) refreshToken (hrUserAgent r) (hrRemoteAddr r) (iDB w) with
       | (db, Err e) => (with_db db w, writeError StatusUnauthorized (error_text e))
       | (db, Ok t) => (with_db db w, writeJSON [] StatusOK (tokenDoc t))
       end.

Definition handlePasswordGrant (now : Z) (te : TokenEnv) (r : IamRequest) (form : list (string * string))
  (w : World) : World * Response :=
  let email := form_get "username" form in
  let password := form_get "password" form in
  if (email =s? "") || (password =s? "") then (w, writeError StatusBadRequest "missing username or password")
  else match Login cfg "" now (tvLogin te) email password (hrUserAgent r) (hrRemoteAddr r) w with
  | (w, Err _) => (w, writeError StatusUnauthorized "invalid credentials")
  | (w, Ok (u, t)) =>
      if isChallenge u
      then (w, writeJSON [] StatusForbidden (JObj [("error", JStr "mfa_required"); ("mfa_challenge", JStr (AccessToken t))]))
      else issueFor now te (uOrgID u) (uID u) r w
  end.

Definition HandleToken (now : Z) (te : TokenEnv) (r : IamRequest) (w : World) : World * Response :=
  match hrForm r with
  | Err _ => (w, writeError StatusBadRequest "invalid form")
  | Ok form =>
      let grantType := form_get "grant_type" form in
      if (grantType =s? "") || (grantType =s? "authorization_code") then handleAuthCodeGrant now te r form w
      else if grantType =s? "refresh_token" then handleRefreshTokenGrant now te r form w
      else if grantType =s? "password" then handlePasswordGrant now te r form w
      else (w, writeError StatusBadRequest "unsupported_grant_type")
  end.
End handlers.

(** ** Properties *)

Section properties.
Context {S R B : Type} `{PgSession S} `{RedisLaws R} `{Breaker B} `{Jwt} `{Aead} `{IamLib}.
Variable cfg : Config.

#[local] Notation World := (@Iam R B).

(** What [StoreAuthCode] writes is what [GetAuthCode] reads. *)
Definition codeData (c o u : string) : json :=
  JObj [("code_challenge", JStr c); ("org_id", JStr o); ("user_id", JStr u)].

Lemma auth_code_decode c o u :
  exists m, unmarshal_strings (Some (codeData c o u)) = Ok m /\
    default "" (m !! "org_id") = o /\ default "" (m !! "user_id") = u /\ default "" (m !! "code_challenge") = c.
Proof. eexists. split; [reflexivity|]. by vm_compute. Qed.

Lemma StoreAuthCode_view now code o u c (w w' : World) :
  StoreAuthCode now code o u c w = (w', None) ->
  forall t, (now <= t < now + 10 * Minute)%Z ->
  rview t (iRedis w') (authCodeKey code) =
    Some (RStr (RDoc (codeData c o u))).
Proof.
  unfold StoreAuthCode. destruct (rset _ _ _ _ _) as [r e] eqn:Er. intros [= <- ->] t Ht. simpl.
  rewrite (rset_ok _ _ _ _ _ _ Er) by lia. unfold view_set.
  by rewrite decide_True, (proj2 (Z.ltb_lt _ _)) by (done || lia).
Qed.

(** What a code gives when it is there, and that it is gone. *)
Lemma GetAuthCode_ok now code (w w' : World) o u c :
  GetAuthCode now code w = (w', Ok (o, u, c)) ->
  iDB w' = iDB w /\ (exists v, rview now (iRedis w) (authCodeKey code) = Some (RStr v)) /\
  (forall t, (now <= t)%Z -> rview t (iRedis w') (authCodeKey code) = None) /\
  forall o' u' c', rview now (iRedis w) (authCodeKey code) =
      Some (RStr (RDoc (codeData c' o' u'))) ->
    o = o' /\ u = u' /\ c = c'.
Proof.
  unfold GetAuthCode, redisGetDel. destruct (rgetdel _ _ _) as [r [[v|]|]] eqn:Eg; try done.
  apply rgetdel_ok in Eg as [Hv Hdel]. intros [= <- Hx]. split; [done|]. split; [by exists v|]. split.
  - intros t Ht. simpl. rewrite Hdel by done. unfold view_del. by rewrite decide_True by set_solver.
  - intros o' u' c' Hv'. rewrite Hv in Hv'. injection Hv' as ->. cbn [res_bind rval_raw] in Hx.
    destruct (auth_code_decode c' o' u') as (m & Hm & Ho & Hu & Hc). rewrite Hm in Hx. cbv zeta beta in Hx.
    rewrite Ho, Hu, Hc in Hx. by injection Hx as <- <- <-.
Qed.

(** Authorization codes.  The code grant answers with tokens only for a code
    that is live in Redis and a verifier whose S256 digest is the challenge
    kept with it; the tokens are for the user and tenant kept with it.  The
    code is gone afterwards: nobody can redeem it again. *)
Theorem auth_code_grant_sound now (te : TokenEnv) r form (w w' : World) resp :
  handleAuthCodeGrant cfg now te r form w = (w', resp) -> status resp = StatusOK ->
  exists o u challenge t,
    (exists v, rview now (iRedis w) (authCodeKey (form_get "code" form)) = Some (RStr v)) /\
    (forall o' u' c', rview now (iRedis w) (authCodeKey (form_get "code" form)) =
        Some (RStr (RDoc (codeData c' o' u'))) ->
      o = o' /\ u = u' /\ challenge = c') /\
    b64rawurl (sha256 (form_get "code_verifier" form)) = challenge /\
    issued cfg now (tvIssue te) (mkIssueTokensRequest o u (hrUserAgent r) (hrRemoteAddr r) (tvFamily te)) t
      (iDB w) (iDB w') /\
    body resp = tokenDoc t /\
    forall t', (now <= t')%Z -> rview t' (iRedis w') (authCodeKey (form_get "code" form)) = None.
Proof.
  unfold handleAuthCodeGrant. cbv zeta. destruct (_ || _); [intros [= _ <-] Hs; discriminate Hs|].
  destruct (GetConnectorByID _ _ _ _ _ _); [|by intros [= _ <-]].
  destruct (GetAuthCode _ _ _) as [w1 [[[o u] c]|]] eqn:Eg; [|by intros [= _ <-]].
  apply GetAuthCode_ok in Eg as (Hdb & Hlive & Hgone & Hval).
  destruct (negb _) eqn:Ec; [intros [= _ <-] Hs; discriminate Hs|]. unfold issueFor.
  destruct (IssueTokens _ _ _ _ _) as [db [t|]] eqn:Ei; intros [= <- <-] Hs; [|discriminate Hs].
  apply IssueTokens_ok in Ei. rewrite Hdb in Ei. bool_to_prop. exists o, u, c, t. do 4 (split; [done|]). split; [done|exact Hgone].
Qed.

(** The OAuth login needs no second factor.  Once the password was right -
    also when the answer of [Login] was a challenge - the code it hands out is
    redeemed for full tokens by the verifier alone, whatever factors the user
    has. *)
Theorem oauth_login_skips_second_factor now (le : LoginEnv) code r b (w w1 w2 : World) user t0 :
  decodeStrings ["email"; "password"; "client_id"; "redirect_uri"; "state"; "code_challenge"] (hrBody r) = Ok b ->
  Login cfg "" now le (field "email" b) (field "password" b) (hrUserAgent r) (hrRemoteAddr r) w = (w1, Ok (user, t0)) ->
  field "code_challenge" b <> "" ->
  StoreAuthCode now code (uOrgID user) (uID user) (field "code_challenge" b) w1 = (w2, None) ->
  (exists resp, HandleOAuthLogin cfg now le code r w = (w2, resp) /\ status resp = StatusOK) /\
  forall now' (te : TokenEnv) r' form (w3 : World) k o db t,
    (now <= now' < now + 10 * Minute)%Z ->
    rview now' (iRedis w3) (authCodeKey code) = rview now' (iRedis w2) (authCodeKey code) ->
    form_get "client_id" form <> "" -> form_get "code" form = code -> code <> "" ->
    form_get "code_verifier" form <> "" ->
    b64rawurl (sha256 (form_get "code_verifier" form)) = field "code_challenge" b ->
    GetConnectorByID libUUID (cfRole cfg) "" (tvConnector te) (form_get "client_id" form) (iDB w3) = Ok k ->
    (rgetdel now' (iRedis w3) (authCodeKey code)).2 = Ok o ->
    IssueTokens cfg now' (tvIssue te)
      (mkIssueTokensRequest (uOrgID user) (uID user) (hrUserAgent r') (hrRemoteAddr r') (tvFamily te)) (iDB w3) = (db, Ok t) ->
    (handleAuthCodeGrant cfg now' te r' form w3).2 = writeJSON [] StatusOK (tokenDoc t).
Proof.
  intros Hb Hl Hc Hs. split.
  - unfold HandleOAuthLogin. rewrite Hb, Hl, (proj2 (String.eqb_neq _ _) Hc), Hs. by eexists.
  - intros now' te r' form w3 k o db t Ht Hview Hcl Hcode Hne Hver Hpkce Hk Hg Hi.
    unfold handleAuthCodeGrant. cbv zeta.
    rewrite (proj2 (String.eqb_neq _ _) Hcl), Hcode, (proj2 (String.eqb_neq _ _) Hcl),
      (proj2 (String.eqb_neq _ _) Hne), (proj2 (String.eqb_neq _ _) Hver), Hk. simpl.
    unfold GetAuthCode, redisGetDel. destruct (rgetdel _ _ _) as [r3 x] eqn:Eg. simpl in Hg. subst x.
    apply rgetdel_ok in Eg as [Hv _]. rewrite Hview, (StoreAuthCode_view _ _ _ _ _ _ _ Hs _ Ht) in Hv.
    destruct o as [v|]; [|done]. injection Hv as <-. cbn [res_bind rval_raw].
    destruct (auth_code_decode (field "code_challenge" b) (uOrgID user) (uID user)) as (m & Hm & Ho & Hu & Hcc).
    rewrite Hm. cbv zeta beta. rewrite Ho, Hu, Hcc, Hpkce, String.eqb_refl. simpl.
    unfold issueFor. simpl. by rewrite Hi.
Qed.
End properties.

(** ** Witnesses *)

Module HandlerExamples.
Export SessionExamples.

(** Alice, who has a second factor, and a connector. *)
Definition connector : Connector := mkConnector "app" "o" "App" "s3cret" ["https://app/cb"].
Definition dbO : DB := mkDB ["o"] [alice] [] [] [factor] [connector] [].
Definition wO : @Iam MiniRedis MiniBreaker := mkIam dbO emptyRedis closedBreaker.
Definition loginEnv : LoginEnv (S := MiniPg) :=
  mkLoginEnv call None (call, call) (call, call) (call, call) call "c1" "f" (issue "R1").
Definition tokenEnv : TokenEnv (S := MiniPg) :=
  mkTokenEnv call "f" (issue "R1") (mkRefreshEnv call call call call (issue "R2")) loginEnv.
Definition oauthBody : raw :=
  Some (JObj [("email", JStr "a@x"); ("password", JStr "pw"); ("code_challenge", JStr "V")]).
Definition fields : gmap string string :=
  match decodeStrings ["email"; "password"; "client_id"; "redirect_uri"; "state"; "code_challenge"] oauthBody with
  | Ok b => b | Err _ => ∅ end.
Definition request : IamRequest := mkIamRequest oauthBody "Firefox/120.0" "203.0.113.7" (Ok []) "".
Definition form : list (string * string) := [("client_id", "app"); ("code", "code1"); ("code_verifier", "V")].

Definition afterLogin := HandleOAuthLogin cfgA now loginEnv "code1" request wO.
Definition redeemed := handleAuthCodeGrant cfgA now tokenEnv request form afterLogin.1.
Definition tokens : TokenResponse := mkTokenResponse "tok" "R1" 3600 "Bearer".

Lemma auth_code_grant_sound_witness :
  status redeemed.2 = StatusOK /\ rview now (iRedis redeemed.1) (authCodeKey "code1") = None.
Proof.
  assert (Hs : status redeemed.2 = StatusOK) by (vm_compute; reflexivity). split; [exact Hs|].
  destruct (auth_code_grant_sound cfgA now tokenEnv request form afterLogin.1 redeemed.1 redeemed.2)
    as (o & u & c & t & _ & _ & _ & _ & _ & Hgone); [vm_compute; reflexivity|exact Hs|].
  apply Hgone. reflexivity.
Defined.

Lemma oauth_login_skips_second_factor_witness :
  (Login cfgA "" now loginEnv "a@x" "pw" "Firefox/120.0" "203.0.113.7" wO).2 =
    Ok (mfaUser alice, mkTokenResponse "c1" "" 0 "") /\
  redeemed.2 = writeJSON [] StatusOK (tokenDoc tokens).
Proof.
  split; [vm_compute; reflexivity|].
  assert (Hl : Login cfgA "" now loginEnv "a@x" "pw" "Firefox/120.0" "203.0.113.7" wO =
    ((Login cfgA "" now loginEnv "a@x" "pw" "Firefox/120.0" "203.0.113.7" wO).1,
     Ok (mfaUser alice, mkTokenResponse "c1" "" 0 ""))) by (vm_compute; reflexivity).
  destruct (oauth_login_skips_second_factor cfgA now loginEnv "code1" request fields wO _ afterLogin.1 _ _
              eq_refl Hl) as [_ Hr]; [vm_compute; discriminate|vm_compute; reflexivity|].
  refine (Hr now tokenEnv request form afterLogin.1 connector
            (Some (RDoc (codeData "V" "o" "u"))) (iDB redeemed.1) tokens _ _ _ _ _ _ _ _ _ _);
    try (vm_compute; reflexivity); try discriminate.
  vm_compute. split; [discriminate|reflexivity].
Defined.
End HandlerExamples.
