(* ===== verification/Regexp.v ===== *)
(** Go's [regexp] package as the scanners use it: patterns, leftmost-first
    backtracking over bytes, and [FindAllString].  The patterns of the source
    are ASCII, so that a search by runes and one by bytes find the same
    matches: no byte of a longer rune is in a class or is a word character. *)

From S2P Require Import Prelude GoStrings.
From Stdlib Require Import Ascii.

(** ** Patterns *)

(** [Star] is greedy, and [Alt] prefers its first branch. *)
Inductive re : Type :=
| Eps
| Class (p : ascii -> bool)
| WordB
| Cat (a b : re)
| Alt (a b : re)
| Star (a : re).

Definition Opt (r : re) : re := Alt r Eps.

Fixpoint Rep (n : nat) (r : re) : re :=
  match n with O => Eps | S n' => Cat r (Rep n' r) end.

Definition AtLeast (n : nat) (r : re) : re := Cat (Rep n r) (Star r).

Fixpoint Lit (s : string) : re :=
  match s with
  | EmptyString => Eps
  | String c s' => Cat (Class (Ascii.eqb c)) (Lit s')
  end.

Definition Seq (l : list re) : re := foldr Cat Eps l.

(** Byte classes. *)
Definition between (a b c : ascii) : bool :=
  (nat_of_ascii a <=? nat_of_ascii c) && (nat_of_ascii c <=? nat_of_ascii b).
Definition digit : ascii -> bool := between "0" "9".
Definition upper : ascii -> bool := between "A" "Z".
Definition lower : ascii -> bool := between "a" "z".
Fixpoint oneOf (s : string) (c : ascii) : bool :=
  match s with EmptyString => false | String d s' => Ascii.eqb d c || oneOf s' c end.
Definition alpha (c : ascii) : bool := lower c || upper c.
Definition alnum (c : ascii) : bool := alpha c || digit c.
Definition wordByte (c : ascii) : bool := alnum c || Ascii.eqb c "_".

(** ** Positions *)

(** What is known at a position of the text: the byte before it and the rest. *)
Notation pos := (option ascii * string)%type.

Definition isWord (c : option ascii) : bool := match c with Some c => wordByte c | None => false end.
Definition head (s : string) : option ascii := match s with EmptyString => None | String c _ => Some c end.

(** [\b]. *)
Definition boundary (x : pos) : bool := xorb (isWord x.1) (isWord (head x.2)).

(** The position after reading [w]. *)
Fixpoint after (p : option ascii) (w : string) : option ascii :=
  match w with EmptyString => p | String c w' => after (Some c) w' end.

(** ** Matching *)

Section matcher.
Context {A : Type}.

(** Zero or more iterations of [step], the most first; an iteration that reads
    nothing is not repeated. *)
Fixpoint many (step : (pos -> option A) -> pos -> option A) (k : pos -> option A) (n : nat) (x : pos) : option A :=
  match n with
  | O => k x
  | S n' =>
      match step (fun y => if String.length y.2 <? String.length x.2 then many step k n' y else None) x with
      | Some a => Some a
      | None => k x
      end
  end.

Fixpoint exec (r : re) (k : pos -> option A) (x : pos) {struct r} : option A :=
  match r with
  | Eps => k x
  | Class p => match x.2 with
               | String c s => if p c then k (Some c, s) else None
               | EmptyString => None
               end
  | WordB => if boundary x then k x else None
  | Cat a b => exec a (exec b k) x
  | Alt a b => match exec a k x with Some v => Some v | None => exec b k x end
  | Star a => many (exec a) k (String.length x.2) x
  end.
End matcher.

(** A match at this very position: where it ends. *)
Definition matchAt (r : re) (x : pos) : option pos := exec r Some x.

(** The leftmost match: the text skipped, and the ends of the match. *)
Fixpoint find (r : re) (p : option ascii) (s : string) : option (string * pos) :=
  match matchAt r (p, s) with
  | Some y => Some ("", y)
  | None =>
      match s with
      | EmptyString => None
      | String c s' =>
          match find r (Some c) s' with
          | Some (skipped, y) => Some (String c skipped, y)
          | None => None
          end
      end
  end.

(** [Regexp.allMatches] as strings.  [abut] holds when the last match ended
    here: an empty match is then not delivered. *)
Fixpoint allMatches (r : re) (fuel : nat) (abut : bool) (p : option ascii) (s : string) : list string :=
  match fuel with
  | O => []
  | S fuel' =>
      match find r p s with
      | None => []
      | Some (skipped, y) =>
          let len := String.length s - String.length skipped - String.length y.2 in
          let m := String.substring (String.length skipped) len s in
          if String.length y.2 =? String.length s then
            let rest := match s with
                        | EmptyString => []
                        | String c s' => allMatches r fuel' false (Some c) s'
                        end in
            if abut then rest else m :: rest
          else m :: allMatches r fuel' true y.1 y.2
      end
  end.

(** [FindAllString(text, -1)].  Every round but the last moves forward. *)
Definition FindAllString (r : re) (s : string) : list string :=
  allMatches r (S (String.length s)) false None s.

Example find_digits : FindAllString (AtLeast 2 (Class digit)) "a12b3c456" = ["12"; "456"].
Proof. reflexivity. Qed.
Example find_empty : FindAllString (Star (Class digit)) "a1b" = [""; "1"; ""].
Proof. reflexivity. Qed.

(** ** The meaning of patterns *)

(** [Matches r x y]: [r] reads the text from [x] to [y]. *)
Inductive Matches : re -> pos -> pos -> Prop :=
| M_eps x : Matches Eps x x
| M_class (p : ascii -> bool) q c s : p c = true -> Matches (Class p) (q, String c s) (Some c, s)
| M_wordb x : boundary x = true -> Matches WordB x x
| M_cat a b x y z : Matches a x y -> Matches b y z -> Matches (Cat a b) x z
| M_alt_l a b x y : Matches a x y -> Matches (Alt a b) x y
| M_alt_r a b x y : Matches b x y -> Matches (Alt a b) x y
| M_star_done a x : Matches (Star a) x x
| M_star_step a x y z : Matches a x y -> Matches (Star a) y z -> Matches (Star a) x z.

#[export] Hint Constructors Matches : regexp.

Lemma after_append p v w : after p (v +:+ w) = after (after p v) w.
Proof. revert p. induction v as [|c v IH]; intros p; simpl; [done|apply IH]. Qed.

(** A match reads a piece of the text. *)
Lemma Matches_reads r x y : Matches r x y -> exists w, x.2 = w +:+ y.2 /\ y.1 = after x.1 w.
Proof.
  induction 1 as [x|p q c s Hp|x Hb|a b x y z _ [v [Hv Hv']] _ [w [Hw Hw']]|a b x y _ IH|a b x y _ IH|a x
                  |a x y z _ [v [Hv Hv']] _ [w [Hw Hw']]]; try (by exists ""); auto.
  - by exists (String c "").
  - exists (v +:+ w). by rewrite append_assoc, after_append, <- Hw, <- Hv'.
  - exists (v +:+ w). by rewrite append_assoc, after_append, <- Hw, <- Hv'.
Qed.

Lemma Matches_le r x y : Matches r x y -> String.length y.2 <= String.length x.2.
Proof. intros (w & -> & _)%Matches_reads. rewrite length_append. lia. Qed.

(** A match that reads nothing stays where it is. *)
Lemma Matches_stay r x y : Matches r x y -> String.length y.2 = String.length x.2 -> y = x.
Proof.
  intros (w & Hw & Hp)%Matches_reads Hl. destruct x as [p s], y as [q t]. simpl in *. subst s q.
  rewrite length_append in Hl. by destruct w; simpl in *; [|lia].
Qed.

(** Iterations that read nothing are dispensable. *)
Lemma Star_strict a x z :
  Matches (Star a) x z ->
  x = z \/ exists y, Matches a x y /\ String.length y.2 < String.length x.2 /\ Matches (Star a) y z.
Proof.
  remember (Star a) as r eqn:Er. intros H.
  induction H as [| | | | | | |b x y z H1 _ H2 IH]; try done; simplify_eq; auto.
  destruct (decide (String.length y.2 = String.length x.2)) as [He|Hne].
  - apply (Matches_stay _ _ _ H1) in He as ->. by apply IH.
  - right. exists y. split; [done|]. split; [|done]. pose proof (Matches_le _ _ _ H1). lia.
Qed.

Section matcher_spec.
Context {A : Type}.
Implicit Types (k : pos -> option A) (x : pos).

(** [f] succeeds only through a match of [r] and when there is one the
    continuation accepts. *)
Definition decides (r : re) (f : (pos -> option A) -> pos -> option A) : Prop :=
  forall k x,
    (forall v, f k x = Some v -> exists y, Matches r x y /\ k y = Some v) /\
    (forall y, Matches r x y -> k y <> None -> f k x <> None).

Lemma many_decides a step n k x :
  decides a step -> String.length x.2 <= n ->
  (forall v, many step k n x = Some v -> exists y, Matches (Star a) x y /\ k y = Some v) /\
  (forall y, Matches (Star a) x y -> k y <> None -> many step k n x <> None).
Proof.
  intros Hd. revert x. induction n as [|n IH]; intros x Hn; cbn [many].
  - split.
    + intros v Hv. exists x. auto with regexp.
    + intros y [<-|(z & _ & Hz & _)]%Star_strict Hk; [done|lia].
  - destruct (Hd (fun y => if String.length y.2 <? String.length x.2 then many step k n y else None) x) as [Hs Hc].
    cbv beta in Hs, Hc. split.
    + intros v. destruct (step _ x) as [v'|] eqn:E; [intros [= <-]|intros Hv; exists x; auto with regexp].
      destruct (Hs v' eq_refl) as (y & Hy & Hv). destruct (Nat.ltb_spec (String.length y.2) (String.length x.2)); [|done].
      destruct (IH y ltac:(lia)) as [IH1 _]. destruct (IH1 _ Hv) as (z & Hz & Hk). exists z. eauto with regexp.
    + intros z [<-|(y & Hy & Hl & Hz)]%Star_strict Hk.
      * by destruct (step _ _).
      * specialize (Hc y Hy). rewrite (proj2 (Nat.ltb_lt _ _) Hl) in Hc.
        destruct (IH y ltac:(lia)) as [_ IH2]. destruct (step _ x); [done|]. by destruct (Hc (IH2 z Hz Hk)).
Qed.

Lemma exec_decides r : decides r (exec r).
Proof.
  induction r as [|p| |a IHa b IHb|a IHa b IHb|a IHa]; intros k x; cbn [exec].
  - split; [eauto with regexp|]. intros y Hy. by inversion Hy; subst.
  - destruct x as [q [|c s]]; simpl.
    { split; [done|]. intros y Hy. inversion Hy. }
    destruct (p c) eqn:Ep; split; try done; intros y Hy; [exists (Some c, s); auto with regexp| |];
      inversion Hy; simplify_eq; congruence.
  - destruct (boundary x) eqn:Eb; split; try done; [eauto with regexp| |]; intros y Hy; inversion Hy; congruence.
  - destruct (IHa (exec b k) x) as [Hs Hc]. split.
    + intros v (y & Hy & Hv)%Hs. apply (IHb k) in Hv as (z & Hz & Hk). eauto with regexp.
    + intros z Hz Hk. inversion Hz as [| | |? ? ? y ? Hy Hyz| | | |]; subst. apply (Hc y Hy). by apply (IHb k y) with z.
  - destruct (IHa k x) as [Hsa Hca], (IHb k x) as [Hsb Hcb]. split.
    + intros v. destruct (exec a k x) as [v'|]; [intros [= <-]; destruct (Hsa v' eq_refl) as (y & ? & ?)
                                                |intros (y & ? & ?)%Hsb]; eauto with regexp.
    + intros y Hy Hk. inversion Hy; subst; [|by destruct (exec a k x); [|eapply Hcb]].
      specialize (Hca y). by destruct (exec a k x); [|destruct Hca].
  - apply many_decides; [done|lia].
Qed.
End matcher_spec.

(** ** Search *)

Lemma matchAt_sound r x y : matchAt r x = Some y -> Matches r x y.
Proof. intros (z & Hz & [= ->])%(proj1 (exec_decides r Some x)). done. Qed.

Lemma matchAt_none r x : matchAt r x = None -> forall y, ~ Matches r x y.
Proof. intros Hn y Hy. by apply (proj2 (exec_decides r Some x) y Hy). Qed.

(** No match begins before the end of [w]. *)
Definition noneWithin (r : re) (p : option ascii) (w t : string) : Prop :=
  forall v u y, w = v +:+ u -> u <> "" -> ~ Matches r (after p v, u +:+ t) y.

Lemma noneWithin_cons r p c w t :
  noneWithin r p (String c w) t <->
  (forall y, ~ Matches r (p, String c (w +:+ t)) y) /\ noneWithin r (Some c) w t.
Proof.
  split.
  - intros H. split; [intros y; by apply (H "" (String c w) y)|]. intros v u y -> Hu. by apply (H (String c v) u y).
  - intros [H1 H2] [|d v] u y E Hu; [change (String c w = u) in E; subst u; apply H1|].
    injection E as <- E. change (w = v +:+ u) in E. subst w. by apply (H2 v u y).
Qed.

Lemma find_spec r p s :
  match find r p s with
  | Some (w, y) => exists t, s = w +:+ t /\ Matches r (after p w, t) y /\ noneWithin r p w t
  | None => noneWithin r p s "" /\ (forall y, ~ Matches r (after p s, "") y)
  end.
Proof.
  revert p. induction s as [|c s IH]; intros p; cbn [find]; destruct (matchAt r _) as [y|] eqn:E.
  - exists "". split; [done|]. split; [by apply matchAt_sound|]. by intros [|? ?] [|? ?].
  - split; [by intros [|? ?] [|? ?]|]. by apply matchAt_none.
  - exists (String c s). split; [done|]. split; [by apply matchAt_sound|]. by intros [|? ?] [|? ?].
  - specialize (IH (Some c)). pose proof (matchAt_none _ _ E) as Hn. destruct (find r (Some c) s) as [[w y]|].
    + destruct IH as (t & -> & Hm & Hw). exists t. split; [done|]. split; [done|]. by apply noneWithin_cons.
    + destruct IH as [Hw He]. split; [|done]. apply noneWithin_cons. by rewrite append_nil_r.
Qed.

(** ** [FindAllString] *)

(** The text cut at its matches: each begins where no earlier match could, and
    the search goes on behind it. *)
Inductive segments (r : re) : option ascii -> string -> list string -> Prop :=
| seg_nil p s :
    noneWithin r p s "" -> (forall y, ~ Matches r (after p s, "") y) -> segments r p s []
| seg_cons p v w t ms :
    noneWithin r p v (w +:+ t) -> w <> "" ->
    Matches r (after p v, w +:+ t) (after (after p v) w, t) ->
    segments r (after (after p v) w) t ms -> segments r p (v +:+ (w +:+ t)) (w :: ms).

(** Patterns whose matches are never empty. *)
Definition proper (r : re) : Prop := forall x y, Matches r x y -> String.length y.2 < String.length x.2.

Lemma substring_mid (v w t : string) :
  String.substring (String.length v)
    (String.length (v +:+ (w +:+ t)) - String.length v - String.length t) (v +:+ (w +:+ t)) = w.
Proof.
  rewrite !length_append.
  replace (String.length v + (String.length w + String.length t) - String.length v - String.length t)
    with (String.length w) by lia.
  induction v as [|c v IH]; [exact (substring_prefix w t)|exact IH].
Qed.

(** More fuel than bytes is enough. *)
Lemma allMatches_segments r n abut p s :
  proper r -> String.length s < n -> segments r p s (allMatches r n abut p s).
Proof.
  intros Hr. revert abut p s. induction n as [|n IH]; intros abut p s Hn; [lia|].
  cbn [allMatches]. pose proof (find_spec r p s) as Hf. destruct (find r p s) as [[v y]|].
  - destruct Hf as (t & -> & Hm & Hv). pose proof (Hr _ _ Hm) as Hlt. simpl in Hlt.
    destruct (Matches_reads _ _ _ Hm) as (w & Hw & Hy). simpl in Hw, Hy. subst t. destruct y as [q t]. simpl in *.
    subst q. rewrite length_append in Hlt. rewrite substring_mid.
    rewrite (proj2 (Nat.eqb_neq _ _)) by (rewrite !length_append; lia).
    constructor; try done; [by intros ->; simpl in Hlt; lia|].
    apply IH. rewrite !length_append in Hn. lia.
  - by destruct Hf; constructor.
Qed.

Lemma FindAllString_segments r s : proper r -> segments r None s (FindAllString r s).
Proof. intros Hr. apply allMatches_segments; [done|lia]. Qed.

(** Where a pattern occurs: the text before, the match and the text behind. *)
Definition occurs (r : re) (s v w t : string) : Prop :=
  s = v +:+ (w +:+ t) /\ Matches r (after None v, w +:+ t) (after (after None v) w, t).

Lemma segments_sound r s0 v0 s ms m :
  segments r (after None v0) s ms -> s0 = v0 +:+ s -> In m ms -> exists v t, occurs r s0 v m t.
Proof.
  remember (after None v0) as p eqn:Ep. intros Hs. revert v0 Ep.
  induction Hs as [p s _ _|p v w t ms Hv Hne Hm Hs IH]; intros v0 -> -> Hin; [done|].
  destruct Hin as [->|Hin].
  - exists (v0 +:+ v), t. split; [by rewrite append_assoc|]. by rewrite after_append.
  - apply (IH (v0 +:+ (v +:+ w))); [by rewrite !after_append|by rewrite !append_assoc|done].
Qed.

(** Nothing is found that does not occur, *)
Lemma FindAllString_sound r s m : proper r -> In m (FindAllString r s) -> exists v t, occurs r s v m t.
Proof. intros Hr Hin. by eapply (segments_sound r s "" s); [apply FindAllString_segments| |]. Qed.

(** and nothing is found only when nothing occurs. *)
Lemma FindAllString_nil r s v w t : proper r -> occurs r s v w t -> FindAllString r s <> [].
Proof.
  intros Hr [-> Hm] Hn. pose proof (FindAllString_segments r (v +:+ (w +:+ t)) Hr) as Hs. rewrite Hn in Hs.
  inversion Hs as [p s Hw He|]; subst. pose proof (Hr _ _ Hm) as Hlt. simpl in Hlt. rewrite length_append in Hlt.
  apply (Hw v (w +:+ t) (after (after None v) w, t) eq_refl); [|rewrite append_nil_r; exact Hm].
  destruct w; [simpl in Hlt; lia|done].
Qed.

(** ** What a pattern reads *)

Fixpoint allBytes (q : ascii -> bool) (s : string) : bool :=
  match s with EmptyString => true | String c s' => q c && allBytes q s' end.

Lemma allBytes_app q v w : allBytes q (v +:+ w) = allBytes q v && allBytes q w.
Proof.
  induction v as [|c v IH]; [done|]. change (q c && allBytes q (v +:+ w) = q c && allBytes q v && allBytes q w).
  by rewrite IH, andb_assoc.
Qed.

Definition everyByte : list ascii := map ascii_of_nat (seq 0 256).

Lemma everyByte_In c : In c everyByte.
Proof.
  apply in_map_iff. exists (nat_of_ascii c). split; [apply ascii_nat_embedding|].
  apply in_seq. pose proof (nat_ascii_bounded c). lia.
Qed.

(** Every byte that [r] reads satisfies [q]. *)
Fixpoint readsOnly (q : ascii -> bool) (r : re) : bool :=
  match r with
  | Eps | WordB => true
  | Class p => forallb (fun c => implb (p c) (q c)) everyByte
  | Cat a b | Alt a b => readsOnly q a && readsOnly q b
  | Star a => readsOnly q a
  end.

(** The fewest bytes that [r] reads. *)
Fixpoint minLen (r : re) : nat :=
  match r with
  | Eps | WordB | Star _ => 0
  | Class _ => 1
  | Cat a b => minLen a + minLen b
  | Alt a b => Nat.min (minLen a) (minLen b)
  end.

Lemma minLen_spec r x y : Matches r x y -> minLen r + String.length y.2 <= String.length x.2.
Proof. induction 1 as [| | | | | |a x|a x y z H _ _ IH]; simpl in *; try lia. apply Matches_le in H. lia. Qed.

Lemma proper_minLen r : 0 < minLen r -> proper r.
Proof. intros Hr x y H%minLen_spec. lia. Qed.

Lemma readsOnly_spec q r x y w :
  Matches r x y -> readsOnly q r = true -> x.2 = w +:+ y.2 -> allBytes q w = true.
Proof.
  assert (Hself : forall w (t : string), t = w +:+ t -> w = "").
  { intros v t E%(f_equal String.length). rewrite length_append in E. destruct v; [done|simpl in E; lia]. }
  assert (Hsplit : forall a b x y z w, Matches a x y -> Matches b y z -> x.2 = w +:+ z.2 ->
    (forall v, x.2 = v +:+ y.2 -> allBytes q v = true) -> (forall v, y.2 = v +:+ z.2 -> allBytes q v = true) ->
    allBytes q w = true).
  { intros a b x0 y0 z0 w0 (u & Hu & _)%Matches_reads (v & Hv & _)%Matches_reads Hw Ha Hb.
    assert (w0 = u +:+ v) as ->.
    { rewrite Hu, Hv, <- append_assoc in Hw. by destruct (append_eq_length_r _ _ _ _ eq_refl Hw). }
    by rewrite allBytes_app, Ha, Hb. }
  intros H. revert w.
  induction H as [x|p p' c s Hp|x Hb|a b x y z H1 IH1 H2 IH2|a b x y H1 IH|a b x y H1 IH|a x|a x y z H1 IH1 H2 IH2];
    intros w Hr Hw; cbn [readsOnly] in Hr; bool_to_prop.
  - by apply Hself in Hw as ->.
  - simpl in Hw. destruct w as [|d w]; [change (String c s = s) in Hw; apply (f_equal String.length) in Hw; simpl in Hw; lia|].
    injection Hw as <- Hw. apply Hself in Hw as ->. rewrite forallb_forall in Hr.
    specialize (Hr c (everyByte_In c)). rewrite Hp in Hr. simpl in *. by rewrite Hr.
  - by apply Hself in Hw as ->.
  - apply (Hsplit a b x y z); auto.
  - auto.
  - auto.
  - by apply Hself in Hw as ->.
  - apply (Hsplit a (Star a) x y z); auto.
Qed.

(** ** Patterns of whole words *)

Lemma append_split (a b c d : string) :
  a +:+ b = c +:+ d -> String.length a <= String.length c -> exists u, c = a +:+ u /\ b = u +:+ d.
Proof.
  revert c. induction a as [|x a IH]; intros c E Hl; [by exists c|].
  destruct c as [|y c]; simpl in Hl; [lia|]. injection E as -> E.
  destruct (IH c E) as (u & -> & ->); [lia|]. by exists u.
Qed.

Lemma isWord_after p w : allBytes wordByte w = true -> w <> "" -> isWord (after p w) = true.
Proof.
  revert p. induction w as [|c w IH]; intros p Hw Hne; [done|]. simpl in *. bool_to_prop.
  destruct w; [done|]. by apply IH.
Qed.

Lemma isWord_head w t : allBytes wordByte w = true -> w <> "" -> isWord (head (w +:+ t)) = true.
Proof. destruct w; [done|]. simpl. intros ? _. by bool_to_prop. Qed.

(** A nonempty word between two boundaries. *)
Definition Word (body : re) : re := Cat WordB (Cat body WordB).

Lemma Word_inv body p w t :
  readsOnly wordByte body = true -> 0 < minLen body -> Matches (Word body) (p, w +:+ t) (after p w, t) ->
  boundary (p, w +:+ t) = true /\ boundary (after p w, t) = true /\ allBytes wordByte w = true /\ w <> "".
Proof.
  intros Hr Hl H. inversion H as [| | |? ? ? y ? Ha Hb| | | |]; subst. inversion Ha as [| |? Hba| | | | |]; subst.
  inversion Hb as [| | |? ? ? y ? Hc Hd| | | |]; subst. inversion Hd as [| |? Hbd| | | | |]; subst.
  split; [done|]. split; [done|]. split; [by apply (readsOnly_spec wordByte _ _ _ w Hc)|].
  intros ->. apply minLen_spec in Hc. simpl in Hc. rewrite length_append in Hc. simpl in Hc. lia.
Qed.

(** Two words at overlapping places are the same word. *)
Lemma words_apart p w1 t1 u w t :
  allBytes wordByte w1 = true -> allBytes wordByte w = true -> w <> "" ->
  boundary (after p w1, t1) = true -> boundary (after p u, w +:+ t) = true ->
  boundary (after p (u +:+ w), t) = true ->
  w1 +:+ t1 = u +:+ (w +:+ t) -> String.length u < String.length w1 -> u = "" /\ w1 = w /\ t1 = t.
Proof.
  intros Hw1 Hw Hne B1 B B' E Hl.
  assert (Hin : forall q x z, x <> "" -> z <> "" -> allBytes wordByte (x +:+ z) = true ->
    forall s, boundary (after q x, z +:+ s) = false).
  { intros q x z Hx Hz Ha s. rewrite allBytes_app in Ha. bool_to_prop. unfold boundary. simpl.
    by rewrite isWord_after, isWord_head. }
  destruct (append_split u (w +:+ t) w1 t1 (eq_sym E)) as (z & -> & Ez); [lia|].
  destruct (decide (z = "")) as [->|Hz]; [rewrite append_nil_r in Hl; lia|].
  destruct (decide (u = "")) as [->|Hu]; [|by rewrite Ez, Hin in B].
  split; [done|]. change (z = w /\ t1 = t). change ("" +:+ z) with z in *. change ("" +:+ w) with w in *.
  destruct (Nat.le_ge_cases (String.length z) (String.length w)) as [Hle|Hge].
  - destruct (append_split z t1 w t (eq_sym Ez) Hle) as (x & -> & ->).
    destruct (decide (x = "")) as [->|Hx]; [by rewrite append_nil_r|]. by rewrite Hin in B1.
  - destruct (append_split w t z t1 Ez Hge) as (x & -> & ->).
    destruct (decide (x = "")) as [->|Hx]; [by rewrite append_nil_r|]. by rewrite Hin in B'.
Qed.

Lemma segments_words body p s ms v w t :
  readsOnly wordByte body = true -> 0 < minLen body -> segments (Word body) p s ms ->
  s = v +:+ (w +:+ t) -> Matches (Word body) (after p v, w +:+ t) (after (after p v) w, t) -> In w ms.
Proof.
  intros Hr Hl Hs. revert v. induction Hs as [p s Hno _|p v1 w1 t1 ms Hno Hne Hm Hs IH]; intros v E Hw.
  - destruct (Word_inv _ _ _ _ Hr Hl Hw) as (_ & _ & _ & Hn). subst s.
    destruct (Hno v (w +:+ t) (after (after p v) w, t) eq_refl); [by destruct w|]. by rewrite append_nil_r.
  - destruct (Word_inv _ _ _ _ Hr Hl Hw) as (B & B' & Ha & Hn), (Word_inv _ _ _ _ Hr Hl Hm) as (_ & B1 & Ha1 & _).
    destruct (Nat.le_gt_cases (String.length v1) (String.length v)) as [Hle|Hgt].
    + destruct (append_split v1 (w1 +:+ t1) v (w +:+ t) E Hle) as (u & -> & E').
      destruct (Nat.le_gt_cases (String.length w1) (String.length u)) as [Hle'|Hgt'].
      * destruct (append_split w1 t1 u (w +:+ t) E' Hle') as (u' & -> & ->).
        right. apply (IH u' eq_refl). by rewrite <- !after_append, !append_assoc in *.
      * left. rewrite after_append in *. rewrite <- after_append in B'.
        by destruct (words_apart (after p v1) w1 t1 u w t) as (_ & -> & _).
    + destruct (append_split v (w +:+ t) v1 (w1 +:+ t1) (eq_sym E)) as (u & -> & E'); [lia|].
      destruct (Hno v u (after (after p v) w, t) eq_refl).
      * intros ->. rewrite append_nil_r in Hgt. lia.
      * by rewrite <- E'.
Qed.

(** Every occurrence of a word is found. *)
Lemma FindAllString_words body s v w t :
  readsOnly wordByte body = true -> 0 < minLen body -> occurs (Word body) s v w t ->
  In w (FindAllString (Word body) s).
Proof.
  intros Hr Hl [E Hw]. eapply segments_words; eauto. apply FindAllString_segments, proper_minLen. simpl. lia.
Qed.
