(* ===== verification/DlpService.v ===== *)
(** The DLP service around the scanners: services/dlp/pkg/repository,
    pkg/handlers and pkg/consumer.  The database is two tables; the consumer
    is one reader of one partition, as a step relation ([dlp_step]). *)

From S2P Require Import Prelude GoStrings Json Pg Http DlpScan.

(** ** Tables *)

(** A row of [dlp_policies]; as a request, [dpRules] is [None] for nil. *)
Record DLPPolicy := mkDLPPolicy {
  dpID : string; dpOrgID : string; dpName : string; dpRules : option (list string);
  dpAction : string; dpEnabled : bool; dpCreatedAt : Z;
}.

(** A row of [dlp_findings], with the confidence in tenths. *)
Record DLPFinding := mkDLPFinding {
  dfID : string; dfOrgID : string; dfEventID : string; dfPolicyID : string; dfFindingType : string;
  dfAction : string; dfConfidence : Z; dfMatchedField : string; dfRedactedValue : string; dfCreatedAt : Z;
}.

Record DlpDB := mkDlpDB { dlp_policies : list DLPPolicy; dlp_findings : list DLPFinding }.

Definition ErrNullRules : goerr := ErrNew "null value in column rules violates not-null constraint".

Section dlp.
(** PostgreSQL's reading of UUIDs, and [time.Time] in JSON documents. *)
Variable pgUUID : uuidCast.
Variable rfc3339 : string -> option Z.
Variable timeDoc : Z -> json.

(** ** Repository *)

(** A query on the pool: errors after the rows delivered go unnoticed. *)
Definition poolQuery {A} (f : Faults) (l : list A) : res (list A) :=
  match fQuery f with
  | Some e => Err e
  | None => Ok (rows_list (deliver (fRows f) l))
  end.

Definition ListPolicies (f : Faults) (orgID : string) (db : DlpDB) : res (list DLPPolicy) :=
  poolQuery f (List.filter (fun p => dpOrgID p =s? orgID) (dlp_policies db)).

Definition stampPolicy (id : string) (now : Z) (p : DLPPolicy) : DLPPolicy :=
  mkDLPPolicy id (dpOrgID p) (dpName p) (dpRules p) (dpAction p) (dpEnabled p) now.

Definition CreatePolicy (f : Faults) (id : string) (now : Z) (p : DLPPolicy) (db : DlpDB) : DlpDB * res DLPPolicy :=
  autocommit f (fun db =>
    match dpRules p with
    | None => Err ErrNullRules
    | Some _ => Ok (mkDlpDB (dlp_policies db ++ [stampPolicy id now p]) (dlp_findings db), stampPolicy id now p)
    end) db.

Definition SaveFinding (f : Faults) (id : string) (now : Z) (fd : DLPFinding) (db : DlpDB) : DlpDB * res unit :=
  autocommit f (fun db =>
    policy <-? uuid_arg pgUUID (dfPolicyID fd);
    Ok (mkDlpDB (dlp_policies db)
          (dlp_findings db ++ [mkDLPFinding id (dfOrgID fd) (dfEventID fd) policy (dfFindingType fd) (dfAction fd)
             (dfConfidence fd) (dfMatchedField fd) (dfRedactedValue fd) now]), tt)) db.

Definition newest_finding (a b : DLPFinding) : bool := (dfCreatedAt b <=? dfCreatedAt a)%Z.

Definition ListFindings (f : Faults) (orgID : string) (db : DlpDB) : res (list DLPFinding) :=
  poolQuery f (order_by newest_finding (List.filter (fun x => dfOrgID x =s? orgID) (dlp_findings db))).

(** ** Handlers *)

Definition httpError (msg : string) (code : Z) : Response := mkResponse code [] (JStr msg).
Definition jsonBody (code : Z) (j : json) : Response := mkResponse code [("Content-Type", "application/json")] j.
(** A slice that is nil when it is empty. *)
Definition jsonSlice {A} (doc : A -> json) (l : list A) : json :=
  match l with [] => JNull | _ => JArr (map doc l) end.

(** 0, 0.8 and 0.9. *)
Definition scoreDoc (tenths : Z) : json :=
  if (tenths =? 0)%Z then JNum 0 else JFloat ("0." +:+ itoa tenths).

Definition findingDoc (f : Finding) : json :=
  JObj ([("kind", JStr (fKind f)); ("value", JStr (fValue f)); ("risk_score", scoreDoc (fRiskScore f))] ++
        (if fLocation f =s? "" then [] else [("location", JStr (fLocation f))])).

Definition dlpPolicyDoc (p : DLPPolicy) : json :=
  JObj [("id", JStr (dpID p)); ("org_id", JStr (dpOrgID p)); ("name", JStr (dpName p));
        ("rules", json_opt_strings (dpRules p)); ("action", JStr (dpAction p)); ("enabled", JBool (dpEnabled p));
        ("created_at", timeDoc (dpCreatedAt p))].

Definition dlpFindingDoc (f : DLPFinding) : json :=
  JObj [("id", JStr (dfID f)); ("org_id", JStr (dfOrgID f)); ("event_id", JStr (dfEventID f));
        ("policy_id", JStr (dfPolicyID f)); ("finding_type", JStr (dfFindingType f)); ("action", JStr (dfAction f));
        ("confidence", scoreDoc (dfConfidence f)); ("matched_field", JStr (dfMatchedField f));
        ("redacted_value", JStr (dfRedactedValue f)); ("created_at", timeDoc (dfCreatedAt f))].

(** One call of the repository by a handler: what goes wrong, the id the
    database generates and its clock. *)
Record saveCall := mkSaveCall { scFaults : Faults; scID : string; scNow : Z }.

Definition matchesPolicy (p : DLPPolicy) (f : Finding) : bool :=
  existsb (fun rule => (rule =s? fKind f) || (rule =s? "all")) (default [] (dpRules p)).

(** The inner loop over the findings; [n] counts the calls made. *)
Definition saveMatch (orgID : string) (calls : nat -> saveCall) (p : DLPPolicy) (st : nat * DlpDB) (f : Finding)
  : nat * DlpDB :=
  let '(n, db) := st in
  if matchesPolicy p f then
    let c := calls n in
    (S n, (SaveFinding (scFaults c) (scID c) (scNow c)
             (mkDLPFinding "" orgID "" (dpID p) (fKind f) (dpAction p) 0 "" "" 0) db).1)
  else st.

Definition savePolicy (orgID : string) (calls : nat -> saveCall) (findings : list Finding) (st : nat * DlpDB)
  (p : DLPPolicy) : nat * DlpDB :=
  if dpEnabled p then fold_left (saveMatch orgID calls p) findings st else st.

Section scan.
Context `{Float64 F}.
Variable order : list Z -> list Z.

Definition updContent (k : string) (s : string) (j : json) : res string :=
  if key_is "content" k then dec_string s j else Ok s.

Definition HandleScan (orgID : string) (b : raw) (lf : Faults) (calls : nat -> saveCall) (db : DlpDB)
  : DlpDB * Response :=
  match decode_body updContent "" b with
  | Err _ => (db, httpError "Invalid request" StatusBadRequest)
  | Ok content =>
      let allFindings := ScanRegex content ++ ScanEntropy order content in
      let policies := match ListPolicies lf orgID db with Ok l => l | Err _ => [] end in
      let '(_, db) := fold_left (savePolicy orgID calls allFindings) policies (0, db) in
      (db, jsonBody StatusOK (jsonSlice findingDoc allFindings))
  end.

Definition HandleListPolicies (f : Faults) (orgID : string) (db : DlpDB) : Response :=
  match ListPolicies f orgID db with
  | Err e => httpError (error_text e) StatusInternalServerError
  | Ok l => jsonBody StatusOK (jsonSlice dlpPolicyDoc l)
  end.

(** [[]string] as a struct member. *)
Definition dec_slice (j : json) : res (option (list string)) :=
  match j with
  | JNull => Ok None
  | _ => l <-? dec_strings [] j; Ok (Some l)
  end.

Definition updPolicy (k : string) (p : DLPPolicy) (j : json) : res DLPPolicy :=
  let '(mkDLPPolicy id org name rules action enabled created) := p in
  if key_is "id" k then v <-? dec_string id j; Ok (mkDLPPolicy v org name rules action enabled created)
  else if key_is "org_id" k then v <-? dec_string org j; Ok (mkDLPPolicy id v name rules action enabled created)
  else if key_is "name" k then v <-? dec_string name j; Ok (mkDLPPolicy id org v rules action enabled created)
  else if key_is "rules" k then v <-? dec_slice j; Ok (mkDLPPolicy id org name v action enabled created)
  else if key_is "action" k then v <-? dec_string action j; Ok (mkDLPPolicy id org name rules v enabled created)
  else if key_is "enabled" k then v <-? dec_bool enabled j; Ok (mkDLPPolicy id org name rules action v created)
  else if key_is "created_at" k then v <-? dec_time rfc3339 created j; Ok (mkDLPPolicy id org name rules action enabled v)
  else Ok p.

Definition zeroPolicy : DLPPolicy := mkDLPPolicy "" "" "" None "" false (-62135596800 * Second).

Definition HandleCreatePolicy (orgID : string) (b : raw) (c : saveCall) (db : DlpDB) : DlpDB * Response :=
  match decode_body updPolicy zeroPolicy b with
  | Err _ => (db, httpError "Invalid request" StatusBadRequest)
  | Ok p =>
      let p := mkDLPPolicy (dpID p) orgID (dpName p) (dpRules p) (dpAction p) (dpEnabled p) (dpCreatedAt p) in
      match CreatePolicy (scFaults c) (scID c) (scNow c) p db with
      | (db, Err e) => (db, httpError (error_text e) StatusInternalServerError)
      | (db, Ok p) => (db, jsonBody StatusCreated (dlpPolicyDoc p))
      end
  end.

Definition HandleListFindings (f : Faults) (orgID : string) (db : DlpDB) : Response :=
  match ListFindings f orgID db with
  | Err e => httpError (error_text e) StatusInternalServerError
  | Ok l => jsonBody StatusOK (jsonSlice dlpFindingDoc l)
  end.

(** ** Consumer *)

Record DLPEvent := mkDLPEvent { deOrgID : string; deEventID : string; deMetadata : gomap }.

Definition updEvent (k : string) (e : DLPEvent) (j : json) : res DLPEvent :=
  if key_is "org_id" k then v <-? dec_string (deOrgID e) j; Ok (mkDLPEvent v (deEventID e) (deMetadata e))
  else if key_is "event_id" k then v <-? dec_string (deEventID e) j; Ok (mkDLPEvent (deOrgID e) v (deMetadata e))
  else if key_is "metadata" k then v <-? dec_map (deMetadata e) j; Ok (mkDLPEvent (deOrgID e) (deEventID e) v)
  else Ok e.

Definition decodeEvent (value : raw) : res DLPEvent :=
  unmarshal_struct updEvent (mkDLPEvent "" "" None) value.

Definition contentFields : list string := ["content"; "body"; "message"; "description"].

(** The findings of one field of an event, saved until one fails. *)
Fixpoint saveAll (event : DLPEvent) (field : string) (calls : nat -> saveCall) (n : nat) (l : list Finding)
  (db : DlpDB) : nat * DlpDB * res unit :=
  match l with
  | [] => (n, db, Ok tt)
  | f :: l' =>
      let c := calls n in
      match SaveFinding (scFaults c) (scID c) (scNow c)
              (mkDLPFinding "" (deOrgID event) (deEventID event) "" (fKind f) "" (fRiskScore f) field "REDACTED" 0) db with
      | (db, Err e) => (S n, db, Err e)
      | (db, Ok _) => saveAll event field calls (S n) l' db
      end
  end.

Fixpoint processFields (event : DLPEvent) (fields : list string) (calls : nat -> saveCall) (n : nat) (db : DlpDB)
  : DlpDB * res unit :=
  match fields with
  | [] => (db, Ok tt)
  | field :: fields' =>
      match map_get (deMetadata event) field with
      | Some (JStr strVal) =>
          match saveAll event field calls n (scFindings (ScanContent order strVal)) db with
          | (_, db, Err e) => (db, Err e)
          | (n, db, Ok _) => processFields event fields' calls n db
          end
      | _ => processFields event fields' calls n db
      end
  end.

Definition processEvent (event : DLPEvent) (calls : nat -> saveCall) (db : DlpDB) : DlpDB * res unit :=
  processFields event contentFields calls 0 db.

(** [NewConsumer]. *)
Definition maxFailures (configured : Z) : Z := if (configured <=? 0)%Z then 5 else configured.

(** The consumer: the offset it fetches next, the offset of the group (all
    below it are committed), the failures in a row; and the dead letters. *)
Record DlpConsumer := mkDlpConsumer { dcNext : nat; dcCommitted : nat; dcFailures : Z; dcDLQ : list nat }.

(** The world's part in handling a message: the calls of the repository, and
    whether the dead letter and the commit go through. *)
Record MsgEnv := mkMsgEnv { mvCalls : nat -> saveCall; mvDLQ : bool; mvCommit : bool }.

(** [CommitMessages] commits everything up to the message. *)
Definition commitTo (ok : bool) (off committed : nat) : nat := if ok then Nat.max committed (S off) else committed.

(** One round of the loop of [Start] on the message at the next offset. *)
Definition handleMessage (maxConsecutive : Z) (value : raw) (env : MsgEnv) (st : DlpConsumer * DlpDB)
  : DlpConsumer * DlpDB :=
  let '(mkDlpConsumer off committed failures dlq, db) := st in
  match decodeEvent value with
  | Err _ => (mkDlpConsumer (S off) (commitTo (mvCommit env) off committed) failures dlq, db)
  | Ok event =>
      match processEvent event (mvCalls env) db with
      | (db, Err _) =>
          let failures := (failures + 1)%Z in
          if (maxConsecutive <=? failures)%Z
          then (mkDlpConsumer (S off) (commitTo (mvCommit env) off committed) 0
                  (if mvDLQ env then dlq ++ [off] else dlq), db)
          else (mkDlpConsumer (S off) committed failures dlq, db)
      | (db, Ok _) => (mkDlpConsumer (S off) (commitTo (mvCommit env) off committed) 0 dlq, db)
      end
  end.

(** The consumer reads on or is restarted; the handlers work beside it. *)
Inductive dlp_step (topic : nat -> raw) (maxConsecutive : Z) : DlpConsumer * DlpDB -> DlpConsumer * DlpDB -> Prop :=
| ds_message env st :
    dlp_step topic maxConsecutive st (handleMessage maxConsecutive (topic (dcNext st.1)) env st)
| ds_restart n c f q db :
    dlp_step topic maxConsecutive (mkDlpConsumer n c f q, db) (mkDlpConsumer c c 0 q, db)
| ds_scan orgID b lf calls c db :
    dlp_step topic maxConsecutive (c, db) (c, (HandleScan orgID b lf calls db).1)
| ds_create orgID b call c db :
    dlp_step topic maxConsecutive (c, db) (c, (HandleCreatePolicy orgID b call db).1).
End scan.
End dlp.

(** ** Properties *)

Section properties.
Context (pgUUID : uuidCast) (rfc3339 : string -> option Z) (timeDoc : Z -> json) `{Float64 F} (order : list Z -> list Z).
#[local] Notation scan_regex_entropy s := (ScanRegex s ++ ScanEntropy order s).
#[local] Notation step := (dlp_step pgUUID rfc3339 timeDoc order).

Lemma SaveFinding_cases f id now fd db db' r :
  SaveFinding pgUUID f id now fd db = (db', r) ->
  (db' = db /\ r <> Ok tt) \/
  exists policy, pgUUID (dfPolicyID fd) = Some policy /\
    db' = mkDlpDB (dlp_policies db)
      (dlp_findings db ++ [mkDLPFinding id (dfOrgID fd) (dfEventID fd) policy (dfFindingType fd) (dfAction fd)
         (dfConfidence fd) (dfMatchedField fd) (dfRedactedValue fd) now]).
Proof.
  unfold SaveFinding, autocommit, uuid_arg. destruct (fQuery f); [intros [= <- <-]; by left|].
  destruct (pgUUID _) as [policy|]; simpl; [|intros [= <- <-]; by left].
  intros [= <- _]. right. by exists policy.
Qed.

(** *** The handler *)

(** The row a saved finding makes, without its id and instant. *)
Definition rowOf (r : DLPFinding) : string * string * string * string :=
  (dfOrgID r, dfPolicyID r, dfFindingType r, dfAction r).

(** What a scan of these findings is to save under a policy. *)
Definition wanted (orgID : string) (findings : list Finding) (p : DLPPolicy) : list (string * string * string * string) :=
  map (fun f => (orgID, default (dpID p) (pgUUID (dpID p)), fKind f, dpAction p))
    (if dpEnabled p then List.filter (matchesPolicy p) findings else []).

(** Rows of a scan behind those that were there. *)
Definition extends (orgID : string) (calls : nat -> saveCall) (ids : list DLPPolicy) (want : list (string * string * string * string))
  (db db' : DlpDB) : Prop :=
  dlp_policies db' = dlp_policies db /\
  exists rows, dlp_findings db' = dlp_findings db ++ rows /\
    Forall (fun r => dfEventID r = "" /\ dfMatchedField r = "") rows /\
    map rowOf rows `sublist_of` want /\
    ((forall n, fQuery (scFaults (calls n)) = None) -> (forall p, In p ids -> is_Some (pgUUID (dpID p))) ->
     map rowOf rows = want).

Lemma extends_refl orgID calls ids db : extends orgID calls ids [] db db.
Proof. split; [done|]. exists []. by rewrite app_nil_r. Qed.

Lemma extends_trans orgID calls ids w w' db db1 db2 :
  extends orgID calls ids w db db1 -> extends orgID calls ids w' db1 db2 -> extends orgID calls ids (w ++ w') db db2.
Proof.
  intros (Hp & l & Hl & Ha & Hs & He) (Hp' & l' & Hl' & Ha' & Hs' & He'). split; [by rewrite Hp'|].
  exists (l ++ l'). rewrite Hl', Hl, app_assoc, map_app. split; [done|]. split; [by apply Forall_app|].
  split; [by apply sublist_app|]. intros Hf Hi. by rewrite He, He'.
Qed.

Lemma extends_weaken orgID calls ids ids' w db db' :
  (forall p, In p ids -> In p ids') -> extends orgID calls ids w db db' -> extends orgID calls ids' w db db'.
Proof. intros Hi (Hp & l & Hl & Ha & Hs & He). split; [done|]. exists l. eauto 10. Qed.

Lemma saveMatch_extends orgID calls p findings n db :
  dpEnabled p = true ->
  extends orgID calls [p] (wanted orgID findings p) db (fold_left (saveMatch pgUUID orgID calls p) findings (n, db)).2.
Proof.
  intros Hen. unfold wanted. rewrite Hen. revert n db.
  induction findings as [|f l IH]; intros n db; simpl; [apply extends_refl|].
  destruct (matchesPolicy p f); simpl; [|apply IH].
  destruct (SaveFinding _ _ _ _ _ _) as [db1 r] eqn:Es. simpl.
  refine (extends_trans orgID calls [p] [_] _ db db1 _ _ (IH (S n) db1)).
  unfold SaveFinding, autocommit, uuid_arg in Es. simpl in Es.
  destruct (fQuery (scFaults (calls n))) eqn:Ef.
  { injection Es as <- _. split; [done|]. exists []. rewrite app_nil_r. split; [done|]. split; [done|].
    split; [apply sublist_nil_l|]. intros Hf. by rewrite Hf in Ef. }
  destruct (pgUUID (dpID p)) as [policy|] eqn:Ep; simpl in Es.
  - injection Es as <- _. split; [done|]. eexists. split; [done|]. by repeat constructor.
  - injection Es as <- _. split; [done|]. exists []. rewrite app_nil_r. split; [done|]. split; [done|].
    split; [apply sublist_nil_l|]. intros _ Hi. destruct (Hi p) as [? ?]; [by left|congruence].
Qed.

Lemma savePolicies_extends orgID calls findings ps n db :
  extends orgID calls ps (flat_map (wanted orgID findings) ps) db
    (fold_left (savePolicy pgUUID orgID calls findings) ps (n, db)).2.
Proof.
  revert n db. induction ps as [|p ps IH]; intros n db; simpl; [apply extends_refl|].
  apply extends_trans with (db1 := (savePolicy pgUUID orgID calls findings (n, db) p).2).
  - eapply extends_weaken with (ids := [p]); [intros q [->|[]]; by left|]. unfold savePolicy.
    destruct (dpEnabled p) eqn:Ee; [by apply saveMatch_extends|]. unfold wanted. rewrite Ee. apply extends_refl.
  - destruct (savePolicy _ _ _ _ _ _) as [n1 db1]. eapply extends_weaken; [|apply IH]. intros q Hq. by right.
Qed.

(** A scan answers with all findings of the text, whatever happens to the
    database; and it saves, under every enabled policy of the caller's tenant,
    those of the kinds the policy names, in order: all of them when nothing
    fails, some of them otherwise, never another. *)
Theorem HandleScan_spec orgID b lf calls db db' resp content :
  decode_body updContent "" b = Ok content ->
  HandleScan pgUUID order orgID b lf calls db = (db', resp) ->
  resp = jsonBody StatusOK (jsonSlice findingDoc (scan_regex_entropy content)) /\
  let policies := List.filter (fun p => dpOrgID p =s? orgID) (dlp_policies db) in
  let want := flat_map (wanted orgID (scan_regex_entropy content)) policies in
  dlp_policies db' = dlp_policies db /\
  exists rows, dlp_findings db' = dlp_findings db ++ rows /\ map rowOf rows `sublist_of` want /\
    (lf = noFaults -> (forall n, fQuery (scFaults (calls n)) = None) ->
     (forall p, In p policies -> is_Some (pgUUID (dpID p))) -> map rowOf rows = want).
Proof.
  intros Hb. unfold HandleScan. rewrite Hb. cbv zeta.
  set (l := match ListPolicies lf orgID db with Ok l => l | Err _ => [] end).
  destruct (fold_left _ l _) as [n d] eqn:Ef. intros [= <- <-]. split; [done|].
  pose proof (savePolicies_extends orgID calls (scan_regex_entropy content) l 0 db) as Hx. rewrite Ef in Hx.
  destruct Hx as (Hp & rows & Hr & _ & Hs & He). split; [done|]. exists rows. split; [done|].
  assert (Hl : l `sublist_of` List.filter (fun p => dpOrgID p =s? orgID) (dlp_policies db)).
  { subst l. unfold ListPolicies, poolQuery, deliver. destruct (fQuery lf); [apply sublist_nil_l|].
    destruct (fRows lf) as [[k e]|]; simpl; [apply sublist_take|done]. }
  split.
  - etrans; [exact Hs|]. clear -Hl. induction Hl as [|p k m Hl IH|p k m Hl IH]; simpl; [done| |].
    + by apply sublist_app.
    + by apply sublist_inserts_l.
  - intros -> Hf Hi. by apply He.
Qed.

(** *** The consumer *)

(** A field of the event with the text in it. *)
Definition eventText (event : DLPEvent) (field text : string) : Prop :=
  In field contentFields /\ map_get (deMetadata event) field = Some (JStr text).

(** Some text of the event has a finding. *)
Definition dirtyField (event : DLPEvent) (field : string) : bool :=
  match map_get (deMetadata event) field with
  | Some (JStr s) => match scan_regex_entropy s with [] => false | _ => true end
  | _ => false
  end.
Definition dirtyEvent (event : DLPEvent) : bool := existsb (dirtyField event) contentFields.
Definition dirty (value : raw) : bool :=
  match decodeEvent value with Ok event => dirtyEvent event | Err _ => false end.

Lemma ScanContent_findings s : scFindings (ScanContent order s) = scan_regex_entropy s.
Proof. unfold ScanContent. by rewrite (proj2 (proj2 (proj2 (addFinding_flags _ _)))). Qed.

Section no_policy.
(** PostgreSQL reads no UUID from the empty text. *)
Hypothesis pgUUID_empty : pgUUID "" = None.

Lemma SaveFinding_event f id now fd db :
  dfPolicyID fd = "" -> exists e, SaveFinding pgUUID f id now fd db = (db, Err e).
Proof.
  intros Hp. unfold SaveFinding, autocommit, uuid_arg. rewrite Hp, pgUUID_empty. destruct (fQuery f); by eexists.
Qed.

Lemma processFields_clean event fields calls n db :
  (processFields pgUUID order event fields calls n db).1 = db /\
  ((processFields pgUUID order event fields calls n db).2 = Ok tt <-> existsb (dirtyField event) fields = false).
Proof.
  revert n. induction fields as [|field fields IH]; intros n; [done|]. cbn [processFields existsb].
  unfold dirtyField at 1. destruct (map_get _ _) as [[| | | |s| |]|]; try apply IH. rewrite ScanContent_findings.
  destruct (scan_regex_entropy s) as [|f l]; [apply IH|]. cbn [saveAll].
  destruct (SaveFinding_event (scFaults (calls n)) (scID (calls n)) (scNow (calls n))
    (mkDLPFinding "" (deOrgID event) (deEventID event) "" (fKind f) "" (fRiskScore f) field "REDACTED" 0) db eq_refl)
    as [e ->]. done.
Qed.

Lemma handleMessage_cases maxC value env c db :
  exists c', handleMessage pgUUID order maxC value env (c, db) = (c', db) /\ dcNext c' = S (dcNext c) /\
  if dirty value then
    (dcFailures c + 1 < maxC /\ dcFailures c' = dcFailures c + 1 /\ dcDLQ c' = dcDLQ c /\ dcCommitted c' = dcCommitted c)%Z \/
    (maxC <= dcFailures c + 1 /\ dcFailures c' = 0 /\ (dcDLQ c' = dcDLQ c \/ dcDLQ c' = dcDLQ c ++ [dcNext c]))%Z
  else
    dcDLQ c' = dcDLQ c /\ (dcFailures c' = dcFailures c \/ dcFailures c' = 0%Z) /\
    dcCommitted c' = commitTo (mvCommit env) (dcNext c) (dcCommitted c).
Proof.
  destruct c as [off co fl q]. unfold handleMessage, dirty. destruct (decodeEvent value) as [event|]; [|by eexists; simpl; auto 6].
  unfold processEvent, dirtyEvent. destruct (processFields_clean event contentFields (mvCalls env) 0 db) as [H1 H2].
  destruct (processFields _ _ _ _ _ _ _) as [d r]. cbn [fst snd] in H1, H2. subst d.
  destruct r as [[]|e].
  - rewrite (proj1 H2 eq_refl). eexists. simpl. auto 6.
  - destruct (existsb _ _); [|by specialize (proj2 H2 eq_refl)]. simpl.
    destruct (Z.leb_spec maxC (fl + 1)); eexists; (split; [done|]); (split; [done|]); simpl; [right|by left].
    split; [done|]. split; [done|]. destruct (mvDLQ env); auto.
Qed.

(** The consumer never saves a finding.  In every state reached with scans,
    new policies and restarts beside it, each row of the table was there at the
    start or was written by a scan of the API, which names no event. *)
Theorem consumer_saves_nothing topic maxC c0 db0 st :
  rtc (step topic maxC) (c0, db0) st ->
  forall r, In r (dlp_findings st.2) -> In r (dlp_findings db0) \/ (dfEventID r = "" /\ dfMatchedField r = "").
Proof.
  revert st. apply (rtc_ind_r (fun st => forall r, In r (dlp_findings st.2) -> In r (dlp_findings db0) \/ _)); [by left|].
  intros s1 s2 _ Hs IH. destruct Hs as [env [c db]|n c f q db|orgID b lf calls c db|orgID b call c db]; simpl in *.
  - destruct (handleMessage_cases maxC (topic (dcNext c)) env c db) as (c' & E & _).
    unfold handleMessage in *. simpl in E. rewrite E. exact IH.
  - exact IH.
  - intros r. unfold HandleScan. destruct (decode_body _ _ _) as [content|]; [|apply IH].
    pose proof (savePolicies_extends orgID calls (scan_regex_entropy content)
      (match ListPolicies lf orgID db with Ok l => l | Err _ => [] end) 0 db) as (_ & rows & Hr & Ha & _).
    destruct (fold_left _ _ _) as [n d]. simpl in *. rewrite Hr. intros [Hin|Hin]%in_app_or; [by apply IH|].
    right. rewrite Forall_forall in Ha. by apply Ha, list_elem_of_In.
  - intros r. unfold HandleCreatePolicy, CreatePolicy, autocommit. destruct (decode_body _ _ _) as [p|]; [|apply IH].
    destruct (fQuery _); [apply IH|]. simpl. destruct (dpRules p); [|apply IH]. simpl. destruct (fAck _); apply IH.
Qed.

(** One message after the other, without a restart. *)
Definition consume (maxC : Z) (st : DlpConsumer * DlpDB) (msgs : list (raw * MsgEnv)) : DlpConsumer * DlpDB :=
  fold_left (fun st m => handleMessage pgUUID order maxC m.1 m.2 st) msgs st.

Definition dirtyCount (msgs : list (raw * MsgEnv)) : nat := length (List.filter (fun m => dirty m.1) msgs).

Lemma consume_cons maxC st m msgs :
  consume maxC st (m :: msgs) = consume maxC (handleMessage pgUUID order maxC m.1 m.2 st) msgs.
Proof. done. Qed.

Lemma consume_snoc maxC st value env msgs :
  consume maxC st (msgs ++ [(value, env)]) = handleMessage pgUUID order maxC value env (consume maxC st msgs).
Proof. unfold consume. by rewrite fold_left_app. Qed.

Lemma consume_next maxC msgs st : 
  dcNext (consume maxC st msgs).1 = dcNext st.1 + length msgs /\ (consume maxC st msgs).2 = st.2.
Proof.
  revert st. induction msgs as [|m msgs IH]; intros [c db]; [by rewrite Nat.add_0_r|].
  rewrite consume_cons. destruct (handleMessage_cases maxC m.1 m.2 c db) as (c' & -> & Hn & _).
  destruct (IH (c', db)) as [-> ->]. simpl. split; [lia|done].
Qed.

Lemma consume_letters maxC msgs c db :
  (0 < maxC)%Z -> (0 <= dcFailures c)%Z ->
  let c' := (consume maxC (c, db) msgs).1 in
  (maxC * Z.of_nat (length (dcDLQ c')) + dcFailures c' <=
   maxC * Z.of_nat (length (dcDLQ c)) + dcFailures c + Z.of_nat (dirtyCount msgs) /\ 0 <= dcFailures c')%Z.
Proof.
  intros Hm. cbv zeta. revert c. induction msgs as [|m msgs IH]; intros c Hf; [by rewrite Z.add_0_r|].
  rewrite consume_cons. destruct (handleMessage_cases maxC m.1 m.2 c db) as (c' & -> & _ & Hc).
  unfold dirtyCount. cbn [List.filter]. destruct (dirty m.1).
  - cbn [length]. fold (dirtyCount msgs).
    destruct Hc as [(H1 & H2 & H3 & _)|(H1 & H2 & H3)].
    + destruct (IH c' ltac:(lia)) as [H4 H5]. rewrite H2, H3 in H4. lia.
    + destruct (IH c' ltac:(lia)) as [H4 H5]. destruct H3 as [H3|H3]; rewrite H2, H3 in H4.
      * lia.
      * rewrite length_app in H4. simpl in H4. lia.
  - fold (dirtyCount msgs). destruct Hc as (H1 & H2 & _).
    destruct (IH c' ltac:(destruct H2; lia)) as [H4 H5]. rewrite H1 in H4. destruct H2 as [H2|H2]; rewrite H2 in H4; lia.
Qed.

(** Events with findings are lost.  Whatever messages the consumer handles,
    its findings are not saved; at most one in [maxC] events with a finding
    reaches the dead letters; and when a message without findings follows and
    its offset is committed, all before it are committed and not delivered
    again. *)
Theorem event_findings_lost maxC msgs value env db :
  (0 < maxC)%Z -> dirty value = false -> mvCommit env = true ->
  let st := consume maxC (mkDlpConsumer 0 0 0 [], db) (msgs ++ [(value, env)]) in
  dlp_findings st.2 = dlp_findings db /\
  (maxC * Z.of_nat (length (dcDLQ st.1)) <= Z.of_nat (dirtyCount msgs))%Z /\
  (length msgs < dcCommitted st.1)%nat.
Proof.
  intros Hm Hd Hc. cbv zeta. split; [by destruct (consume_next maxC (msgs ++ [(value, env)]) (mkDlpConsumer 0 0 0 [], db)) as [_ ->]|].
  split.
  - destruct (consume_letters maxC (msgs ++ [(value, env)]) (mkDlpConsumer 0 0 0 []) db Hm ltac:(done)) as [H1 H2].
    unfold dirtyCount in *. rewrite List.filter_app in H1. cbn [List.filter fst] in H1. rewrite Hd, app_nil_r in H1.
    cbn [dcDLQ dcFailures length] in H1. lia.
  - rewrite consume_snoc. pose proof (consume_next maxC msgs (mkDlpConsumer 0 0 0 [], db)) as [Hn _].
    destruct (consume maxC _ msgs) as [c d]. destruct (handleMessage_cases maxC value env c d) as (c' & -> & _ & Hx).
    rewrite Hd in Hx. destruct Hx as (_ & _ & Hx). simpl in *. rewrite Hx, Hc. simpl. lia.
Qed.
End no_policy.
End properties.

(** ** Witnesses *)

Module DlpExamples.
Export ScanExamples.

Definition uuid (s : string) : option string := if s =s? "" then None else Some s.
Definition timeText (z : Z) : json := JNum z.
Definition id_order (l : list Z) : list Z := l.

Definition policy : DLPPolicy := mkDLPPolicy "p1" "o" "cards" (Some ["credit_card"]) "mask" true 0.
Definition db0 : DlpDB := mkDlpDB [policy] [].
Definition call (n : nat) : saveCall := mkSaveCall noFaults ("f" +:+ itoa (Z.of_nat n)) (Z.of_nat n).
Definition request : raw := Some (JObj [("content", JStr "card 4111111111111111, mail a@b.io")]).
Definition scanned := HandleScan uuid id_order "o" request noFaults call db0.

Lemma HandleScan_spec_witness :
  status scanned.2 = StatusOK /\ map rowOf (dlp_findings scanned.1) = [("o", "p1", "credit_card", "mask")].
Proof.
  destruct (HandleScan_spec uuid id_order "o" request noFaults call db0 scanned.1 scanned.2
              "card 4111111111111111, mail a@b.io") as [Hr (Hp & rows & Hrows & _ & Hall)];
    [vm_compute; reflexivity|vm_compute; reflexivity|].
  split; [rewrite Hr; reflexivity|]. rewrite Hrows. cbn [db0 dlp_findings app]. rewrite Hall.
  - vm_compute. reflexivity.
  - reflexivity.
  - reflexivity.
  - intros p [<-|[]]. by eexists.
Defined.

(** An event with an address in it, and one without findings. *)
Definition mailEvent : raw :=
  Some (JObj [("org_id", JStr "o"); ("event_id", JStr "e1"); ("metadata", JObj [("message", JStr "to a@b.io")])]).
Definition quietEvent : raw := Some (JObj [("org_id", JStr "o"); ("event_id", JStr "e2")]).
Definition msgEnv : MsgEnv := mkMsgEnv call true true.

Lemma consumer_saves_nothing_witness :
  forall r, In r (dlp_findings (handleMessage uuid id_order 5 mailEvent msgEnv (mkDlpConsumer 0 0 0 [], db0)).2) ->
  dfEventID r = "".
Proof.
  intros r Hr.
  destruct (consumer_saves_nothing uuid (fun _ => None) timeText id_order eq_refl (fun _ => mailEvent) 5
              (mkDlpConsumer 0 0 0 []) db0
              (handleMessage uuid id_order 5 mailEvent msgEnv (mkDlpConsumer 0 0 0 [], db0))) with (r := r)
    as [[]|[He _]]; [|exact Hr|exact He].
  apply rtc_once. exact (ds_message uuid (fun _ => None) timeText id_order (fun _ => mailEvent) 5 msgEnv
                           (mkDlpConsumer 0 0 0 [], db0)).
Defined.

Lemma event_findings_lost_witness :
  let st := consume uuid id_order 5 (mkDlpConsumer 0 0 0 [], db0) [(mailEvent, msgEnv); (quietEvent, msgEnv)] in
  dirty id_order mailEvent = true /\ dlp_findings st.2 = [] /\ dcDLQ st.1 = [] /\ dcCommitted st.1 = 2.
Proof.
  destruct (event_findings_lost uuid id_order eq_refl 5 [(mailEvent, msgEnv)] quietEvent msgEnv db0)
    as (Hf & Hq & Hc); [lia|vm_compute; reflexivity|reflexivity|].
  split; [vm_compute; reflexivity|]. split; [exact Hf|]. split; [|vm_compute; reflexivity].
  assert (Hd : dirtyCount id_order [(mailEvent, msgEnv)] = 1) by (vm_compute; reflexivity).
  cbn [app] in Hq. rewrite Hd in Hq. destruct (dcDLQ _); [reflexivity|]. cbn [length] in Hq. lia.
Defined.
End DlpExamples.
