(* ===== verification/Workers.v ===== *)
(** The loop that two consumers share (services/webhook-delivery/pkg/consumer
    and services/alerting/pkg/saga, [Start]): fetch a message, hand it to one
    of at most fifty goroutines, which processes it and then commits its
    offset.  The group's offset is the last one committed, whatever the order
    in which the goroutines finish. *)

From S2P Require Import Prelude.

Definition maxWorkers : nat := 50.

Section workers.
Context {W : Type}.
(** What processing the message at an offset does to the world. *)
Variable process : nat -> W -> W -> Prop.

Record Loop := mkLoop {
  lpNext : nat;              (* the offset fetched next *)
  lpCommitted : nat;         (* the offset of the group: a restart begins here *)
  lpFlight : list nat;       (* messages that goroutines hold *)
  lpDone : list nat;         (* messages processed to the end *)
  lpWorld : W;
}.

Definition start (w : W) : Loop := mkLoop 0 0 [] [] w.

Inductive loop_step : Loop -> Loop -> Prop :=
| lp_fetch n c fl d w :
    length fl < maxWorkers ->
    loop_step (mkLoop n c fl d w) (mkLoop (S n) c (fl ++ [n]) d w)
| lp_finish n c fl1 o fl2 d w w' ok :
    process o w w' ->
    loop_step (mkLoop n c (fl1 ++ o :: fl2) d w)
      (mkLoop n (if ok : bool then S o else c) (fl1 ++ fl2) (d ++ [o]) w')
| lp_restart n c fl d w : loop_step (mkLoop n c fl d w) (mkLoop c c [] d w).

(** What a goroutine holds was fetched, and offsets committed were too. *)
Definition loop_inv (s : Loop) : Prop :=
  (forall o, In o (lpFlight s) -> o < lpNext s) /\ lpCommitted s <= lpNext s /\
  length (lpFlight s) <= maxWorkers /\ NoDup (lpFlight s).

Lemma loop_step_inv s s' : loop_inv s -> loop_step s s' -> loop_inv s'.
Proof.
  intros (Hf & Hc & Hl & Hn) Hs.
  destruct Hs as [n c fl d w Hlt|n c fl1 o fl2 d w w' ok _|n c fl d w]; unfold loop_inv in *; simpl in *.
  - split; [intros o [Ho%Hf|[<-|[]]]%in_app_or; lia|]. split; [lia|]. rewrite length_app. simpl. split; [lia|].
    apply NoDup_app. split; [done|]. split; [|by apply NoDup_singleton].
    intros x Hx%list_elem_of_In%Hf Hy%list_elem_of_singleton. lia.
  - assert (Hin : o < n) by (apply Hf, in_or_app; right; by left).
    rewrite length_app in Hl |- *. simpl in Hl.
    split; [intros x Hx; apply Hf; apply in_app_or in Hx as [?|?]; apply in_or_app; [by left|right; by right]|].
    split; [destruct ok; lia|]. split; [lia|].
    rewrite <- Permutation_middle, NoDup_cons in Hn. by destruct Hn.
  - split; [done|]. split; [lia|]. split; [lia|]. constructor.
Qed.

Lemma loop_reachable_inv w s : rtc loop_step (start w) s -> loop_inv s.
Proof.
  revert s. apply (rtc_ind_r loop_inv).
  - split; [done|]. split; [done|]. split; [simpl; lia|constructor].
  - intros s1 s2 _ Hs Hi. by eapply loop_step_inv.
Qed.

(** An offset that is behind the group's and in nobody's hands. *)
Definition behind (o : nat) (s : Loop) : Prop := o < lpCommitted s /\ o < lpNext s /\ forall x, In x (lpFlight s) -> o < x.

Lemma behind_step o s s' :
  behind o s -> loop_step s s' -> behind o s' /\ (In o (lpDone s') -> In o (lpDone s)).
Proof.
  intros (Hc & Hn & Hf) Hs.
  destruct Hs as [n c fl d w Hlt|n c fl1 x fl2 d w w' ok _|n c fl d w]; unfold behind in *; simpl in *.
  - split; [|done]. split; [done|]. split; [lia|]. intros x [?%Hf|[<-|[]]]%in_app_or; lia.
  - assert (Hx : o < x) by (apply Hf, in_or_app; right; by left). split.
    + split; [destruct ok; lia|]. split; [done|].
      intros y Hy. apply Hf. apply in_app_or in Hy as [?|?]; apply in_or_app; [by left|right; by right].
    + intros [?|[?|[]]]%in_app_or; [done|lia].
  - by repeat split.
Qed.

Lemma behind_forever o s s' :
  behind o s -> rtc loop_step s s' -> behind o s' /\ (In o (lpDone s') -> In o (lpDone s)).
Proof.
  intros Hb. revert s'. apply rtc_ind_r; [done|]. intros s1 s2 _ Hs [Hb1 Hd1].
  destruct (behind_step _ _ _ Hb1 Hs) as [Hb2 Hd2]. split; [done|]. auto.
Qed.

(** When the process dies, a message below the group's offset that is not done
    is lost: it is not processed then or ever after. *)
Definition restarted (s : Loop) : Loop := mkLoop (lpCommitted s) (lpCommitted s) [] (lpDone s) (lpWorld s).

Lemma lost_at_restart s s' o :
  o < lpCommitted s -> rtc loop_step (restarted s) s' -> (In o (lpDone s') -> In o (lpDone s)) /\ ~ In o (lpFlight s').
Proof.
  intros Hc Hr. destruct (behind_forever o (restarted s) s') as [(_ & _ & Hf) Hd]; [by repeat split|done|].
  split; [exact Hd|]. intros Hin%Hf. lia.
Qed.

Lemma restart_reachable s0 s : rtc loop_step s0 s -> rtc loop_step s0 (restarted s).
Proof. intros Hr. eapply rtc_r; [exact Hr|]. destruct s. constructor. Qed.
End workers.
Arguments Loop : clear implicits.
