(* ===== verification/Webhook.v ===== *)
(** Webhook delivery: services/webhook-delivery/pkg/deliverer, pkg/repository
    and pkg/consumer, with the signatures of services/alerting/pkg/webhook
    that its receivers check.  The world of the consumer ([Wh]) is the table
    of deliveries, the requests sent, the dead letters and the time spent on
    requests and between them. *)

From S2P Require Import Prelude GoStrings Hex Json Pg Workers.
From Stdlib Require Import Ascii.

(** ** Signatures *)

Section signing.
(** HMAC-SHA256 of a key and a text, as bytes. *)
Variable hmac : string -> string -> string.

(** [time.Time.Unix]. *)
Definition unixSeconds (now : Z) : Z := (now / Second)%Z.

Definition signedText (ts payload : string) : string := ts +:+ ("." +:+ payload).
Definition signature (secret ts payload : string) : string :=
  "sha256=" +:+ hexEnc (hmac secret (signedText ts payload)).

(** [webhook.Sign]: signature, delivery id and timestamp. *)
Definition SignPayload (now : Z) (uuid payload secret : string) : string * string * string :=
  let ts := itoa (unixSeconds now) in (signature secret ts payload, uuid, ts).

(** [webhook.Verify]; the difference is computed in [int64]. *)
Definition VerifyPayload (now : Z) (payload secret sig ts : string) (tolerance : Z) : option goerr :=
  match Atoi ts with
  | None => Some (ErrNew "invalid timestamp")
  | Some tsInt =>
      if (tolerance <? wrap64 (unixSeconds now - tsInt))%Z
      then Some (ErrNew "request too old (replay protection)")
      else if sig =s? signature secret ts payload then None else Some (ErrNew "invalid signature")
  end.

(** ** The deliverer *)

Record HookRequest := mkHookRequest { hqTarget : string; hqHeaders : list (string * string); hqBody : string }.

(** What becomes of a request: it cannot be built, the client fails (also when
    the guard of [Ssrf] refuses the address), or the answer's status. *)
Inductive hookOutcome := HookBad (e : goerr) | HookFailed (e : goerr) | HookStatus (code : Z).

Definition Deliver (now : Z) (uuid messageKey target payload secret : string) (o : hookOutcome)
  : option HookRequest * option goerr :=
  let ts := itoa (unixSeconds now) in
  let deliveryID := if messageKey =s? "" then uuid else messageKey in
  let req := mkHookRequest target
    [("Content-Type", "application/json"); ("X-OpenGuard-Signature", signature secret ts payload);
     ("X-OpenGuard-Timestamp", ts); ("X-OpenGuard-Delivery", deliveryID)] payload in
  match o with
  | HookBad e => (None, Some e)
  | HookFailed e => (Some req, Some e)
  | HookStatus code =>
      (Some req,
       if (500 <=? code)%Z then Some (ErrNew ("target server error: " +:+ itoa code))
       else if (400 <=? code)%Z then Some (ErrNew ("target client error: " +:+ itoa code))
       else None)
  end.

(** ** Repository *)

(** A row of [webhook_deliveries]. *)
Record WebhookDelivery := mkWebhookDelivery {
  wdID : string; wdOrgID : string; wdConnectorID : string; wdEventID : string; wdTargetURL : string;
  wdPayload : json; wdAttempts : Z; wdStatus : string; wdLastError : string; wdNextRetryAt : option Z;
}.

Record WebhookDeliveryRequest := mkWebhookDeliveryRequest {
  wrTarget : string; wrPayload : string; wrSecret : string; wrOrgID : string; wrEventID : string;
  wrConnectorID : string;
}.

Variable pgUUID : uuidCast.
(** What a text is as a JSON document. *)
Variable parseJSON : string -> raw.
Variable timeDoc : Z -> json.

Definition ErrJSON : goerr := ErrNew "invalid input syntax for type json".

(** [Repository.Create] of a pending delivery: its id. *)
Definition CreateDelivery (f : Faults) (id : string) (req : WebhookDeliveryRequest) (rows : list WebhookDelivery)
  : list WebhookDelivery * res string :=
  match autocommit f (fun rows =>
    org <-? uuid_arg pgUUID (wrOrgID req);
    connector <-? uuid_arg pgUUID (wrConnectorID req);
    event <-? uuid_arg pgUUID (wrEventID req);
    match parseJSON (wrPayload req) with
    | None => Err ErrJSON
    | Some j => Ok (rows ++ [mkWebhookDelivery id org connector event (wrTarget req) j 0 "pending" "" None], id)
    end) rows with
  | (rows, Err e) => (rows, Err (ErrWrap "failed to create webhook delivery record: " e ""))
  | (rows, Ok id) => (rows, Ok id)
  end.

Definition setDelivery (attempts : Z) (status lastError : string) (next : option Z) (d : WebhookDelivery)
  : WebhookDelivery :=
  mkWebhookDelivery (wdID d) (wdOrgID d) (wdConnectorID d) (wdEventID d) (wdTargetURL d) (wdPayload d)
    attempts status lastError next.

Definition updateDelivery (id : string) (g : WebhookDelivery -> WebhookDelivery) (rows : list WebhookDelivery)
  : list WebhookDelivery :=
  map (fun d => if wdID d =s? id then g d else d) rows.

(** [Repository.Update]; the consumer ignores its error. *)
Definition UpdateDelivery (f : Faults) (id : string) (attempts : Z) (status lastError : string) (next : option Z)
  (rows : list WebhookDelivery) : list WebhookDelivery :=
  (autocommit f (fun rows => Ok (updateDelivery id (setDelivery attempts status lastError next) rows, tt)) rows).1.

(** ** The consumer *)

Definition upd_request (k : string) (r : WebhookDeliveryRequest) (j : json) : res WebhookDeliveryRequest :=
  let '(mkWebhookDeliveryRequest t p s o e c) := r in
  if key_is "target" k then v <-? dec_string t j; Ok (mkWebhookDeliveryRequest v p s o e c)
  else if key_is "payload" k then v <-? dec_string p j; Ok (mkWebhookDeliveryRequest t v s o e c)
  else if key_is "secret" k then v <-? dec_string s j; Ok (mkWebhookDeliveryRequest t p v o e c)
  else if key_is "org_id" k then v <-? dec_string o j; Ok (mkWebhookDeliveryRequest t p s v e c)
  else if key_is "event_id" k then v <-? dec_string e j; Ok (mkWebhookDeliveryRequest t p s o v c)
  else if key_is "connector_id" k then v <-? dec_string c j; Ok (mkWebhookDeliveryRequest t p s o e v)
  else Ok r.

Definition decodeRequest (value : raw) : res WebhookDeliveryRequest :=
  unmarshal_struct upd_request (mkWebhookDeliveryRequest "" "" "" "" "" "") value.

Definition requestDoc (r : WebhookDeliveryRequest) : json :=
  JObj [("target", JStr (wrTarget r)); ("payload", JStr (wrPayload r)); ("secret", JStr (wrSecret r));
        ("org_id", JStr (wrOrgID r)); ("event_id", JStr (wrEventID r)); ("connector_id", JStr (wrConnectorID r))].

(** [DefaultBackoff]. *)
Definition DefaultBackoff (i : nat) : Z := (2 ^ Z.of_nat i * Second)%Z.
Definition maxDeliveries : nat := 5.

Record Wh := mkWh {
  whRows : list WebhookDelivery;
  whSent : list HookRequest;
  whDead : list (string * json);         (* messages of webhook.dlq *)
  whSpent : Z;
}.

Definition set_rows (rows : list WebhookDelivery) (w : Wh) : Wh := mkWh rows (whSent w) (whDead w) (whSpent w).

(** The world's part in processing one message: the creation of the record,
    the instant, random id, request (its outcome and how long it would take) and
    update of each attempt, whether the process is stopped while it waits behind
    it, and the last update and the dead letter. *)
Record WhEnv := mkWhEnv {
  weCreate : Faults; weID : string;
  weNow : nat -> Z; weUUID : nat -> string; weOutcome : nat -> hookOutcome; weTook : nat -> Z;
  weUpdate : nat -> Faults;
  weStopped : nat -> bool; weLast : Faults; wePublish : option goerr; weFailedAt : Z;
}.

(** The timeout [NewDeliverer] gives its client, which covers connecting,
    redirects and the answer. *)
Definition clientTimeout : Z := (30 * Second)%Z.
Definition ErrClientTimeout : goerr := ErrNew "context deadline exceeded (Client.Timeout exceeded while awaiting headers)".

(** What [client.Do] returns for request [i], and after what time: a request
    that takes longer than the timeout fails then. *)
Definition answer (env : WhEnv) (i : nat) : hookOutcome :=
  match weOutcome env i with
  | HookBad e => HookBad e
  | o => if (clientTimeout <? weTook env i)%Z then HookFailed ErrClientTimeout else o
  end.
Definition requestTime (env : WhEnv) (i : nat) : Z :=
  match weOutcome env i with
  | HookBad _ => 0%Z
  | _ => Z.max 0 (Z.min (weTook env i) clientTimeout)
  end.

Definition ErrCanceled : goerr := ErrNew "context canceled".

(** A goroutine's update of its record, when it has one. *)
Definition updateOwn (f : Faults) (id : option string) (attempts : Z) (status lastError : string) (next : option Z)
  (w : Wh) : Wh :=
  match id with
  | Some id => set_rows (UpdateDelivery f id attempts status lastError next (whRows w)) w
  | None => w
  end.

(** Attempt [i]; the process waits behind a failure, at most for the backoff. *)
Definition deliverOnce (env : WhEnv) (key : string) (req : WebhookDeliveryRequest) (id : option string) (i : nat)
  (w : Wh) : Wh * option goerr :=
  let '(sent, err) := Deliver (weNow env i) (weUUID env i) key (wrTarget req) (wrPayload req) (wrSecret req)
                        (answer env i) in
  let w := mkWh (whRows w) (whSent w ++ match sent with Some r => [r] | None => [] end) (whDead w)
             (whSpent w + requestTime env i) in
  match err with
  | None => (updateOwn (weUpdate env i) id (Z.of_nat i + 1) "delivered" "" None w, None)
  | Some e =>
      let backoff := DefaultBackoff i in
      let w := updateOwn (weUpdate env i) id (Z.of_nat i + 1) "failed" (error_text e)
                 (Some (weNow env i + backoff)%Z) w in
      (mkWh (whRows w) (whSent w) (whDead w) (whSpent w + backoff), Some e)
  end.

(** What follows five failures. *)
Definition deadLetter (env : WhEnv) (key : string) (req : WebhookDeliveryRequest) (id : option string)
  (lastErr : goerr) (w : Wh) : Wh * option goerr :=
  let w := updateOwn (weLast env) id 5 "dlq" (error_text lastErr) None w in
  let doc := JObj [("request", requestDoc req); ("error", JStr (error_text lastErr));
                   ("failed_at", timeDoc (weFailedAt env))] in
  match wePublish env with
  | Some e => (w, Some (ErrWrap "DLQ publish failed: " e ""))
  | None => (mkWh (whRows w) (whSent w) (whDead w ++ [(key, doc)]) (whSpent w), None)
  end.

(** The retry loop from attempt [i] on, with [n] attempts left. *)
Fixpoint deliverLoop (env : WhEnv) (key : string) (req : WebhookDeliveryRequest) (id : option string)
  (n i : nat) (lastErr : goerr) (w : Wh) : Wh * option goerr :=
  match n with
  | O => deadLetter env key req id lastErr w
  | S n' =>
      match deliverOnce env key req id i w with
      | (w, None) => (w, None)
      | (w, Some e) => if weStopped env i then (w, Some ErrCanceled) else deliverLoop env key req id n' (S i) e w
      end
  end.

(** [processMessage]; [persist] is false without a database. *)
Definition processWebhook (persist : bool) (env : WhEnv) (key : string) (value : raw) (w : Wh) : Wh * option goerr :=
  match decodeRequest value with
  | Err _ => (w, None)
  | Ok req =>
      let '(w, id) :=
        if persist then
          match CreateDelivery (weCreate env) (weID env) req (whRows w) with
          | (rows, Ok id) => (set_rows rows w, Some id)
          | (rows, Err _) => (set_rows rows w, None)
          end
        else (w, None) in
      deliverLoop env key req id maxDeliveries 0 (ErrNew "") w
  end.

(** What a goroutine does to the world, whatever the environment. *)
Definition webhookProcess (persist : bool) (topic : nat -> string * raw) (o : nat) (w w' : Wh) : Prop :=
  exists env, w' = (processWebhook persist env (topic o).1 (topic o).2 w).1.

Definition hook_step (persist : bool) (topic : nat -> string * raw) : Loop Wh -> Loop Wh -> Prop :=
  loop_step (webhookProcess persist topic).
End signing.

(** ** Properties of the signatures *)

Lemma itoa_no_dot z : in_int64 z = true -> no_byte "."%char (itoa z) = true.
Proof. intros Hz%Atoi_itoa. by eapply Atoi_no_byte. Qed.

(** The signed text tells timestamp and payload apart. *)
Lemma signedText_inj ts ts' p p' :
  no_byte "."%char ts = true -> no_byte "."%char ts' = true -> signedText ts p = signedText ts' p' -> ts = ts' /\ p = p'.
Proof.
  unfold signedText. revert ts'. induction ts as [|c ts IH]; intros [|c' ts'] H H' E.
  - split; [done|]. change (String "." p = String "." p') in E. by injection E.
  - change (String "." p = String c' (ts' +:+ String "." p')) in E. injection E as <- _. by simpl in H'.
  - change (String c (ts +:+ String "." p) = String "." p') in E. injection E as -> _. by simpl in H.
  - injection E as <- E. simpl in H, H'. bool_to_prop. by destruct (IH ts') as [-> ->].
Qed.

Section signatures.
Context (hmac : string -> string -> string).

Lemma hexEnc_signature secret ts p ts' p' :
  signature hmac secret ts p = signature hmac secret ts' p' ->
  hmac secret (signedText ts p) = hmac secret (signedText ts' p').
Proof. unfold signature. intros H%append_inv_head. by apply hexEnc_inj. Qed.

(** A signature is accepted for as long as the tolerance says, and no
    longer: what [Sign] made in the second [s] is accepted by [Verify], with
    the same secret and payload, up to and including the second [s] plus the
    tolerance - also before [s]. *)
Theorem Verify_Sign_window t now uuid payload secret tolerance sig delivery ts :
  in_int64 (unixSeconds t) = true -> in_int64 (unixSeconds now - unixSeconds t) = true ->
  SignPayload hmac t uuid payload secret = (sig, delivery, ts) ->
  VerifyPayload hmac now payload secret sig ts tolerance = None <->
  (unixSeconds now <= unixSeconds t + tolerance)%Z.
Proof.
  intros Ht Hd [= <- _ <-]. unfold VerifyPayload. rewrite (Atoi_itoa _ Ht), wrap64_id, String.eqb_refl.
  - destruct (Z.ltb_spec tolerance (unixSeconds now - unixSeconds t)); split; try done; lia.
  - unfold in_int64 in Hd. bool_to_prop. lia.
Qed.

(** What a receiver that checks signatures learns.  If [Verify] accepts a
    signature that [Sign] made, then payload and timestamp are those that were
    signed, or the two signed texts differ and have the same HMAC. *)
Theorem Verify_authentic t now uuid payload payload' secret tolerance sig delivery ts ts' :
  in_int64 (unixSeconds t) = true ->
  SignPayload hmac t uuid payload secret = (sig, delivery, ts) ->
  VerifyPayload hmac now payload' secret sig ts' tolerance = None ->
  (payload' = payload /\ ts' = ts) \/
  (signedText ts payload <> signedText ts' payload' /\
   hmac secret (signedText ts payload) = hmac secret (signedText ts' payload')).
Proof.
  intros Ht [= <- _ <-]. unfold VerifyPayload. destruct (Atoi ts') as [tsInt|] eqn:Ea; [|done].
  destruct (_ <? _)%Z; [done|]. destruct (_ =s? _) eqn:Es; [|done]. intros _. bool_to_prop. apply hexEnc_signature in Es.
  destruct (decide (signedText (itoa (unixSeconds t)) payload = signedText ts' payload')) as [E|E].
  - left. apply signedText_inj in E as [-> ->]; [done|by apply itoa_no_dot|by eapply Atoi_no_byte].
  - by right.
Qed.

(** ** Properties of the consumer *)

Context (pgUUID : uuidCast) (parseJSON : string -> raw) (timeDoc : Z -> json).
#[local] Notation loop := (deliverLoop hmac timeDoc).
#[local] Notation process := (processWebhook hmac pgUUID parseJSON timeDoc).

Definition accepted (o : hookOutcome) : bool :=
  match o with HookStatus code => (code <? 400)%Z | _ => false end.

Lemma Deliver_err now uuid key target payload secret o :
  (Deliver hmac now uuid key target payload secret o).2 = None <-> accepted o = true.
Proof.
  destruct o as [e|e|code]; simpl; try done.
  destruct (Z.leb_spec 500 code), (Z.leb_spec 400 code), (Z.ltb_spec code 400); split; try done; lia.
Qed.

(** How a delivery ends, at attempt [k] (counted from 0). *)
Inductive ending (env : WhEnv) (key : string) (w w' : Wh) (r : option goerr) : nat -> Prop :=
| end_delivered k :
    accepted (answer env k) = true -> r = None -> whDead w' = whDead w -> ending env key w w' r k
| end_stopped k :
    accepted (answer env k) = false -> weStopped env k = true -> r = Some ErrCanceled -> whDead w' = whDead w ->
    ending env key w w' r k
| end_dead :
    accepted (answer env 4) = false -> weStopped env 4 = false ->
    match wePublish env with
    | None => r = None /\ exists doc, whDead w' = whDead w ++ [(key, doc)]
    | Some e => r = Some (ErrWrap "DLQ publish failed: " e "") /\ whDead w' = whDead w
    end -> ending env key w w' r 4.

(** The attempts from [i] to [k]: failures that are waited out, then the end;
    and the time they take at most. *)
Definition attempts (env : WhEnv) (i k : nat) : Prop :=
  forall j, i <= j < k -> accepted (answer env j) = false /\ weStopped env j = false.

Definition waits (i k : nat) : Z := foldr (fun j acc => (clientTimeout + DefaultBackoff j + acc)%Z) 0%Z (seq i (S k - i)).

(** A request as the receiver sees it. *)
Definition properRequest (key : string) (req : WebhookDeliveryRequest) (q : HookRequest) : Prop :=
  hqTarget q = wrTarget req /\ hqBody q = wrPayload req /\
  (exists t, In ("X-OpenGuard-Timestamp", itoa (unixSeconds t)) (hqHeaders q) /\
     In ("X-OpenGuard-Signature", signature hmac (wrSecret req) (itoa (unixSeconds t)) (wrPayload req)) (hqHeaders q)) /\
  (key <> "" -> In ("X-OpenGuard-Delivery", key) (hqHeaders q)).

Lemma Deliver_proper now uuid key req o q e :
  Deliver hmac now uuid key (wrTarget req) (wrPayload req) (wrSecret req) o = (Some q, e) -> properRequest key req q.
Proof.
  assert (Hq : forall q', q' = mkHookRequest (wrTarget req)
    [("Content-Type", "application/json");
     ("X-OpenGuard-Signature", signature hmac (wrSecret req) (itoa (unixSeconds now)) (wrPayload req));
     ("X-OpenGuard-Timestamp", itoa (unixSeconds now));
     ("X-OpenGuard-Delivery", if key =s? "" then uuid else key)] (wrPayload req) -> properRequest key req q').
  { intros q' ->. split; [done|]. split; [done|]. split; [exists now; simpl; auto|].
    intros Hk. apply String.eqb_neq in Hk. rewrite Hk. simpl. auto. }
  unfold Deliver. destruct o; intros [= <- _] || intros [=]; by apply Hq.
Qed.

Lemma updateOwn_rest f id a s l nx w :
  whSent (updateOwn f id a s l nx w) = whSent w /\ whDead (updateOwn f id a s l nx w) = whDead w /\
  whSpent (updateOwn f id a s l nx w) = whSpent w.
Proof. by destruct id. Qed.

Lemma requestTime_bound env i : (0 <= requestTime env i <= clientTimeout)%Z.
Proof.
  assert (0 <= clientTimeout)%Z by done. unfold requestTime. destruct (weOutcome env i); lia.
Qed.

Lemma deliverOnce_spec env key req id i w w1 err :
  deliverOnce hmac env key req id i w = (w1, err) ->
  accepted (answer env i) = match err with None => true | Some _ => false end /\ whDead w1 = whDead w /\
  (exists new, whSent w1 = whSent w ++ new /\ length new <= 1 /\ Forall (properRequest key req) new) /\
  (whSpent w1 <= whSpent w + (clientTimeout + DefaultBackoff i))%Z.
Proof.
  pose proof (requestTime_bound env i) as Ht.
  assert (Hback : (0 <= DefaultBackoff i)%Z) by (apply Z.mul_nonneg_nonneg; [by apply Z.pow_nonneg|done]).
  unfold deliverOnce. destruct (Deliver _ _ _ _ _ _ _ _) as [sent e] eqn:Ed.
  pose proof (Deliver_err (weNow env i) (weUUID env i) key (wrTarget req) (wrPayload req) (wrSecret req)
    (answer env i)) as Ha. rewrite Ed in Ha. cbn [snd] in Ha.
  assert (Hnew : length (match sent with Some q => [q] | None => [] end) <= 1 /\
    Forall (properRequest key req) (match sent with Some q => [q] | None => [] end)).
  { destruct sent; simpl; (split; [lia|]); constructor; [by eapply Deliver_proper|constructor]. }
  destruct e as [e|]; intros [= <- <-].
  - destruct (updateOwn_rest (weUpdate env i) id (Z.of_nat i + 1) "failed" (error_text e)
      (Some (weNow env i + DefaultBackoff i)%Z) (mkWh (whRows w) (whSent w ++ match sent with Some q => [q] | None => [] end)
         (whDead w) (whSpent w + requestTime env i))) as (Hs & Hd & Hw).
    cbn [whSent whDead whSpent] in *. rewrite Hs, Hd, Hw.
    split; [destruct (accepted _); [discriminate (proj2 Ha eq_refl)|done]|]. split; [done|]. split; [eauto|lia].
  - destruct (updateOwn_rest (weUpdate env i) id (Z.of_nat i + 1) "delivered" "" None
      (mkWh (whRows w) (whSent w ++ match sent with Some q => [q] | None => [] end) (whDead w)
         (whSpent w + requestTime env i)))
      as (-> & -> & ->).
    cbn [whSent whDead whSpent]. split; [by apply Ha|]. split; [done|]. split; [eauto|lia].
Qed.

Lemma waits_cons i k : i <= k -> waits i k = (clientTimeout + DefaultBackoff i + waits (S i) k)%Z.
Proof. intros Hk. unfold waits. replace (S k - i) with (S (S k - S i)) by lia. done. Qed.

Lemma waits_nonneg i k : (0 <= waits i k)%Z.
Proof.
  unfold waits. induction (seq i (S k - i)) as [|j l IH]; simpl; [done|].
  assert (Hj : (0 <= DefaultBackoff j)%Z) by (apply Z.mul_nonneg_nonneg; [by apply Z.pow_nonneg|done]).
  assert (0 <= clientTimeout)%Z by done. lia.
Qed.

Lemma ending_frame env key w1 w w' r k : whDead w1 = whDead w -> ending env key w1 w' r k -> ending env key w w' r k.
Proof.
  intros Hd. destruct 1 as [k H1 H2 H3|k H1 H2 H3 H4|H1 H2 H3]; [apply end_delivered|apply end_stopped|apply end_dead];
    try done; try congruence. by rewrite <- Hd.
Qed.

Lemma deliverLoop_ends env key req id n i e w w' r :
  i + S n = maxDeliveries -> loop env key req id (S n) i e w = (w', r) ->
  exists k, i <= k <= 4 /\ attempts env i k /\ ending env key w w' r k /\
    (exists new, whSent w' = whSent w ++ new /\ length new <= S k - i /\ Forall (properRequest key req) new) /\
    (whSpent w' <= whSpent w + waits i k)%Z.
Proof.
  unfold maxDeliveries. revert i e w.
  induction n as [|n IH]; intros i e w Hi Hl; cbn [deliverLoop] in Hl;
    destruct (deliverOnce _ _ _ _ _ _ _) as [w1 err] eqn:Ed;
    apply deliverOnce_spec in Ed as (Ha & Hd & (new & Hs & Hlen & Hp) & Hw);
    pose proof (waits_nonneg (S i) i) as Hwi; pose proof (waits_cons i i ltac:(lia)) as Hwc;
    (destruct err as [e1|]; [destruct (weStopped env i) eqn:Est|]).
  2: assert (i = 4) as -> by lia.
  1, 3, 4, 6: injection Hl as <- <-; exists i; split; [lia|]; split; [intros j; lia|];
    (split; [first [by apply end_delivered | by apply end_stopped]|]); split; [exists new; repeat split; [done|lia|done]|lia].
  - unfold deadLetter in Hl. destruct (updateOwn_rest (weLast env) id 5 "dlq" (error_text e1) None w1) as (Hs2 & Hd2 & Hw2).
    exists 4. split; [lia|]. split; [intros j; lia|].
    assert (Hend : ending env key w w' r 4 /\ whSent w' = whSent w1 /\ whSpent w' = whSpent w1).
    { destruct (wePublish env) eqn:Ep; injection Hl as <- <-; (split; [apply end_dead; try done; rewrite Ep|done]).
      - by rewrite Hd2.
      - split; [done|]. eexists. cbn [whDead]. by rewrite Hd2, Hd. }
    destruct Hend as (Hend & Hs3 & Hw3). split; [done|]. rewrite Hs3, Hw3. split; [exists new; repeat split; [done|lia|done]|lia].
  - apply (IH (S i) e1) in Hl as (k & Hk & Hat & Hen & (new2 & Hn2 & Hl2 & Hp2) & Hw2); [|lia]. exists k. split; [lia|]. split.
    { intros j Hj. destruct (decide (j = i)) as [->|]; [done|]. apply Hat. lia. }
    split; [by eapply ending_frame|]. split.
    + exists (new ++ new2). rewrite Hn2, Hs, app_assoc, length_app, Forall_app. split; [done|]. split; [lia|done].
    + rewrite waits_cons by lia. lia.
Qed.

Lemma waits_bound k : k <= 4 -> (waits 0 k <= 181 * Second)%Z.
Proof. intros Hk. do 5 (destruct k as [|k]; [vm_compute; discriminate|]). lia. Qed.

(** C19: A delivery ends.  After at most five attempts it is accepted, or the
    process is stopped, or its request goes to the dead letters (or fails to);
    the attempts' requests and the waits between them take 181 seconds at
    most - five times the client's 30 and 1 + 2 + 4 + 8 + 16 - to which the
    database's and the broker's calls, which have no timeout of their own,
    come on top; and every attempt sends the request's payload to its target,
    signed over the timestamp it carries, under the message's key. *)
Theorem webhook_delivery_ends persist env key value req w w' r :
  decodeRequest value = Ok req -> process persist env key value w = (w', r) ->
  exists k, k <= 4 /\ attempts env 0 k /\ ending env key w w' r k /\
    (exists sent, whSent w' = whSent w ++ sent /\ length sent <= S k /\ Forall (properRequest key req) sent) /\
    (whSpent w' <= whSpent w + 181 * Second)%Z.
Proof.
  intros Hd. unfold processWebhook. rewrite Hd.
  assert (Hw : forall rows id, loop env key req id maxDeliveries 0 (ErrNew "") (set_rows rows w) = (w', r) ->
    exists k, k <= 4 /\ attempts env 0 k /\ ending env key w w' r k /\
    (exists sent, whSent w' = whSent w ++ sent /\ length sent <= S k /\ Forall (properRequest key req) sent) /\
    (whSpent w' <= whSpent w + 181 * Second)%Z).
  { intros rows id (k & Hk & Ha & He & (new & Hn & Hl & Hp) & Hwt)%deliverLoop_ends; [|done].
    exists k. split; [lia|]. split; [done|]. split; [by eapply ending_frame; [|exact He]|].
    split; [exists new; split; [done|]; split; [lia|done]|]. pose proof (waits_bound k). simpl in Hwt. lia. }
  destruct persist; [|destruct w; exact (Hw _ None)].
  destruct (CreateDelivery _ _ _ _ _ _) as [rows [id|e]]; apply Hw.
Qed.

(** *** The record of a delivery *)

Lemma updateDelivery_last id a s l n a' s' l' n' rows :
  updateDelivery id (setDelivery a' s' l' n') (updateDelivery id (setDelivery a s l n) rows) =
  updateDelivery id (setDelivery a' s' l' n') rows.
Proof.
  unfold updateDelivery. rewrite map_map. apply map_ext. intros d.
  destruct (wdID d =s? id) eqn:E; [simpl; by rewrite E|by rewrite E].
Qed.

Lemma UpdateDelivery_ok f id a s l n rows :
  fQuery f = None -> UpdateDelivery f id a s l n rows = updateDelivery id (setDelivery a s l n) rows.
Proof. intros Hf. unfold UpdateDelivery, autocommit. by rewrite Hf. Qed.

(** The record's status says how attempt [k] ended. *)
Definition statusAt (env : WhEnv) (k : nat) : string :=
  if accepted (answer env k) then "delivered" else if weStopped env k then "failed" else "dlq".

Definition quietUpdates (env : WhEnv) : Prop :=
  (forall i, fQuery (weUpdate env i) = None) /\ fQuery (weLast env) = None.

Lemma deliverOnce_record env key req id i w w1 err :
  quietUpdates env -> deliverOnce hmac env key req (Some id) i w = (w1, err) ->
  exists l nx, whRows w1 = updateDelivery id (setDelivery (Z.of_nat i + 1)
      (match err with None => "delivered" | Some _ => "failed" end) l nx) (whRows w) /\ (is_Some nx <-> err <> None).
Proof.
  intros [Hu _]. unfold deliverOnce. destruct (Deliver _ _ _ _ _ _ _ _) as [sent [e|]]; intros [= <- <-];
    cbn [updateOwn set_rows whRows]; rewrite UpdateDelivery_ok by done; eexists _, _; (split; [done|]).
  - split; [done|]. intros _. by eexists.
  - split; [by intros [? ?]|done].
Qed.

Lemma deliverLoop_record env key req id n i e w w' r :
  quietUpdates env -> i + S n = maxDeliveries -> loop env key req (Some id) (S n) i e w = (w', r) ->
  exists k l nx, i <= k <= 4 /\ attempts env i k /\
    whRows w' = updateDelivery id (setDelivery (Z.of_nat k + 1) (statusAt env k) l nx) (whRows w) /\
    (is_Some nx <-> statusAt env k = "failed").
Proof.
  unfold maxDeliveries. intros Hq. revert i e w.
  induction n as [|n IH]; intros i e w Hi Hl; cbn [deliverLoop] in Hl;
    destruct (deliverOnce _ _ _ _ _ _ _) as [w1 err] eqn:Ed;
    destruct (deliverOnce_spec _ _ _ _ _ _ _ _ Ed) as (Ha & _);
    apply (deliverOnce_record _ _ _ _ _ _ _ _ Hq) in Ed as (l1 & nx1 & Hr1 & Hn1);
    (destruct err as [e1|]; [destruct (weStopped env i) eqn:Est|]).
  2: assert (i = 4) as -> by lia.
  1, 3, 4, 6: injection Hl as <- _; exists i, l1, nx1; split; [lia|]; split; [intros j; lia|];
    unfold statusAt; rewrite Ha, ?Est; split; [done|]; rewrite Hn1; done.
  - exists 4, (error_text e1), None. split; [lia|]. split; [intros j; lia|]. unfold statusAt. rewrite Ha, Est.
    unfold deadLetter in Hl. cbn [updateOwn] in Hl. rewrite UpdateDelivery_ok, Hr1, updateDelivery_last in Hl by apply Hq.
    destruct (wePublish env); injection Hl as <- _; (split; [done|]); by split; [intros [? ?]|].
  - apply (IH (S i) e1) in Hl as (k & l & nx & Hk & Hat & Hr & Hn); [|lia]. exists k, l, nx. split; [lia|]. split.
    { intros j Hj. destruct (decide (j = i)) as [->|]; [done|]. apply Hat. lia. }
    by rewrite Hr1, updateDelivery_last in Hr.
Qed.

(** The record of a delivery says how it ended.  When the database works,
    processing a message adds one record, of the request, and leaves the
    others as they are; its status is "delivered" when the last attempt was
    accepted, "failed" with an instant to retry at when the process was
    stopped behind it, and "dlq" otherwise, with the number of attempts. *)
Theorem webhook_record env key value req w w' r org connector event j :
  decodeRequest value = Ok req -> process true env key value w = (w', r) ->
  weCreate env = noFaults -> quietUpdates env -> (forall d, In d (whRows w) -> wdID d <> weID env) ->
  pgUUID (wrOrgID req) = Some org -> pgUUID (wrConnectorID req) = Some connector ->
  pgUUID (wrEventID req) = Some event -> parseJSON (wrPayload req) = Some j ->
  exists k lastErr next, k <= 4 /\ attempts env 0 k /\
    whRows w' = whRows w ++ [mkWebhookDelivery (weID env) org connector event (wrTarget req) j
                               (Z.of_nat k + 1) (statusAt env k) lastErr next] /\
    (is_Some next <-> statusAt env k = "failed").
Proof.
  intros Hd Hp Hc Hq Hf Ho Hcn He Hj. unfold processWebhook, CreateDelivery, autocommit, uuid_arg in Hp.
  rewrite Hd, Hc in Hp. cbn [fQuery noFaults fAck] in Hp. rewrite Ho, Hcn, He, Hj in Hp. cbn [res_bind] in Hp.
  apply (deliverLoop_record _ _ _ _ 4 0) in Hp as (k & l & nx & Hk & Ha & Hr & Hn); [|done|done].
  exists k, l, nx. split; [lia|]. split; [done|]. split; [|done]. rewrite Hr. cbn [set_rows whRows].
  unfold updateDelivery. rewrite map_app. cbn [map wdID]. rewrite String.eqb_refl. f_equal.
  rewrite <- (map_id (whRows w)) at 2. apply map_ext_in. intros d Hin%Hf. by apply String.eqb_neq in Hin as ->.
Qed.

(** *** The loop *)

(** The consumer as a whole.  At most fifty messages are worked on at a
    time, none by two goroutines.  But their offsets are committed in the order
    in which they end: when the process dies, a message below the group's
    offset that is not done is neither processed nor fetched again, after
    whatever the restarted consumer does. *)
Theorem webhook_workers persist topic w st :
  rtc (hook_step hmac pgUUID parseJSON timeDoc persist topic) (start w) st ->
  length (lpFlight st) <= maxWorkers /\ NoDup (lpFlight st) /\
  forall o st', o < lpCommitted st -> ~ In o (lpDone st) ->
    rtc (hook_step hmac pgUUID parseJSON timeDoc persist topic) (restarted st) st' ->
    ~ In o (lpDone st') /\ ~ In o (lpFlight st').
Proof.
  intros Hr. destruct (loop_reachable_inv _ _ _ Hr) as (_ & _ & Hl & Hn). split; [done|]. split; [done|].
  intros o st' Hc Hd Hr'. destruct (lost_at_restart _ _ _ _ Hc Hr') as [H1 H2]. auto.
Qed.
End signatures.

(** ** Witnesses *)

Module WebhookExamples.
Definition mac (k d : string) : string := k +:+ ("|" +:+ d).
Definition uuid (s : string) : option string := if s =s? "" then None else Some s.
Definition parse (s : string) : raw := if s =s? "{}" then Some (JObj []) else None.
Definition timeText (z : Z) : json := JNum z.
Definition t0 : Z := (1000 * Second)%Z.

Definition hook : raw :=
  Some (JObj [("target", JStr "https://x/hook"); ("payload", JStr "{}"); ("secret", JStr "s");
              ("org_id", JStr "o"); ("event_id", JStr "e"); ("connector_id", JStr "c")]).
Definition hookReq : WebhookDeliveryRequest := mkWebhookDeliveryRequest "https://x/hook" "{}" "s" "o" "e" "c".
(** The receiver is too slow, fails, then accepts. *)
Definition third : WhEnv :=
  mkWhEnv noFaults "d1" (fun i => (t0 + Z.of_nat i * Second)%Z) (fun _ => "u")
    (fun i => if i <? 2 then HookStatus 503 else HookStatus 200) (fun i => if i <? 1 then (40 * Second)%Z else Second)
    (fun _ => noFaults) (fun _ => false) noFaults None t0.
Definition w0 : Wh := mkWh [] [] [] 0.
Definition delivered := processWebhook mac uuid parse timeText true third "m1" hook w0.

Lemma Verify_Sign_window_witness :
  let '(sig, _, ts) := SignPayload mac t0 "u" "{}" "s" in
  VerifyPayload mac (1300 * Second) "{}" "s" sig ts 300 = None /\
  VerifyPayload mac (1301 * Second) "{}" "s" sig ts 300 <> None.
Proof.
  cbv zeta beta iota delta [SignPayload]. split.
  - apply (Verify_Sign_window mac t0 (1300 * Second) "u" "{}" "s" 300 _ "u"); [reflexivity|reflexivity|reflexivity|].
    vm_compute. discriminate.
  - intros H. apply (Verify_Sign_window mac t0 (1301 * Second) "u" "{}" "s" 300 _ "u") in H;
      [|reflexivity|reflexivity|reflexivity]. vm_compute in H. by apply H.
Defined.

Lemma Verify_authentic_witness :
  ("{}" = "{}" /\ "1000" = "1000") \/
  (signedText "1000" "{}" <> signedText "1000" "{}" /\ mac "s" (signedText "1000" "{}") = mac "s" (signedText "1000" "{}")).
Proof.
  apply (Verify_authentic mac t0 (1300 * Second) "u" "{}" "{}" "s" 300 (signature mac "s" "1000" "{}") "u" "1000" "1000");
    [reflexivity|reflexivity|vm_compute; reflexivity].
Defined.

Lemma webhook_delivery_ends_witness :
  exists k, k <= 4 /\ attempts third 0 k /\ ending third "m1" w0 delivered.1 delivered.2 k.
Proof.
  destruct (webhook_delivery_ends mac uuid parse timeText true third "m1" hook hookReq w0 delivered.1 delivered.2)
    as (k & Hk & Ha & He & _); [reflexivity|vm_compute; reflexivity|]. by exists k.
Defined.

Lemma webhook_record_witness :
  exists k, attempts third 0 k /\ map wdAttempts (whRows delivered.1) = [(Z.of_nat k + 1)%Z].
Proof.
  destruct (webhook_record mac uuid parse timeText third "m1" hook hookReq w0 delivered.1 delivered.2
              "o" "c" "e" (JObj [])) as (k & l & nx & _ & Ha & Hr & _);
    [reflexivity|vm_compute; reflexivity|reflexivity|by split|done|reflexivity|reflexivity|reflexivity|reflexivity|].
  exists k. split; [exact Ha|]. by rewrite Hr.
Defined.

(** Two messages are fetched, the second is done first, and the process dies:
    the first is lost. *)
Definition topic (o : nat) : string * raw := ("m" +:+ itoa (Z.of_nat o), hook).
Definition later : Wh := (processWebhook mac uuid parse timeText true third (topic 1).1 (topic 1).2 w0).1.
Definition dying : Loop Wh := mkLoop 2 2 [0] [1] later.

Lemma dying_reachable : rtc (hook_step mac uuid parse timeText true topic) (start w0) dying.
Proof.
  eapply rtc_l; [by apply (lp_fetch _ 0 0 [] [] w0); unfold maxWorkers; simpl; lia|].
  eapply rtc_l; [by apply (lp_fetch _ 1 0 [0] [] w0); unfold maxWorkers; simpl; lia|].
  apply rtc_once. apply (lp_finish _ 2 0 [0] 1 [] [] w0 later true). by exists third.
Qed.

Lemma webhook_workers_witness : ~ In 0 (lpDone (restarted dying)) /\ ~ In 0 (lpFlight (restarted dying)).
Proof.
  destruct (webhook_workers mac uuid parse timeText true topic w0 dying dying_reachable) as (_ & _ & H).
  apply (H 0 (restarted dying)); [simpl; lia|simpl; lia|apply rtc_refl].
Defined.
End WebhookExamples.
