(* ===== verification/Alerting.v ===== *)
(** The alerting service: services/alerting/pkg/repository, pkg/handlers,
    pkg/saga and the deliverer of pkg/webhook.  The world of the saga ([Sg]) is
    the collection of alerts, the messages published and the requests sent to
    a SIEM.  The messages it consumes are those the detectors of [Threat]
    publish. *)

From S2P Require Import Prelude GoStrings Json Http Redis Workers Webhook AlertStore Threat.
From Stdlib Require Import Ascii DecimalString DecimalZ.

(** ** Data *)

Record SagaStep := mkSagaStep {
  ssStep : string; ssStatus : string; ssError : string; ssAt : Z; ssRetries : Z;
}.

(** [repository.Alert].  A nil slice of steps is [None]: the driver writes it as
    null.  Floats are the numbers' documents. *)
Record SagaAlert := mkSagaAlert {
  saID : string; saOrgID : string; saType : string; saSeverity : string; saStatus : string;
  saRiskScore : json; saDetectorID : string; saRawEvent : gomap; saSagaSteps : option (list SagaStep);
  saCreatedAt : Z; saAckAt : option Z; saResolvedAt : option Z; saMTTR : json;
}.

Definition ErrDuplicateKey : goerr := ErrNew "E11000 duplicate key error".
Definition ErrNotArray : goerr := ErrNew "The field 'saga_steps' must be an array but is of type null".

Definition set_steps (s : option (list SagaStep)) (a : SagaAlert) : SagaAlert :=
  mkSagaAlert (saID a) (saOrgID a) (saType a) (saSeverity a) (saStatus a) (saRiskScore a) (saDetectorID a)
    (saRawEvent a) s (saCreatedAt a) (saAckAt a) (saResolvedAt a) (saMTTR a).

(** The document stored: dates have milliseconds. *)
Definition bsonStep (s : SagaStep) : SagaStep :=
  mkSagaStep (ssStep s) (ssStatus s) (ssError s) (bsonTime (ssAt s)) (ssRetries s).
Definition stored (a : SagaAlert) : SagaAlert :=
  mkSagaAlert (saID a) (saOrgID a) (saType a) (saSeverity a) (saStatus a) (saRiskScore a) (saDetectorID a)
    (saRawEvent a) (option_map (map bsonStep) (saSagaSteps a)) (bsonTime (saCreatedAt a))
    (option_map bsonTime (saAckAt a)) (option_map bsonTime (saResolvedAt a)) (saMTTR a).

(** An operation fails before it took effect, or after (the flag). *)
Notation opFault := (option (goerr * bool)) (only parsing).

(** ** Repository *)

Definition hasAlert (id : string) (l : list SagaAlert) : bool := existsb (fun a => saID a =s? id) l.

(** [InsertOne]; "_id" is unique. *)
Definition CreateSagaAlert (fault : opFault) (a : SagaAlert) (l : list SagaAlert) : list SagaAlert * option goerr :=
  match fault with
  | Some (e, false) => (l, Some e)
  | _ =>
      if hasAlert (saID a) l then (l, Some ErrDuplicateKey)
      else (l ++ [stored a], match fault with Some (e, _) => Some e | None => None end)
  end.

(** [UpdateOne]: the first document that the filter accepts. *)
Fixpoint updateFirst (p : SagaAlert -> bool) (g : SagaAlert -> SagaAlert) (l : list SagaAlert) : list SagaAlert :=
  match l with
  | [] => []
  | a :: l' => if p a then g a :: l' else a :: updateFirst p g l'
  end.

(** [$push] on an array; on null it is an error. *)
Definition UpdateSagaStep (fault : opFault) (id : string) (step : SagaStep) (l : list SagaAlert)
  : list SagaAlert * option goerr :=
  match fault with
  | Some (e, false) => (l, Some e)
  | _ =>
      match List.find (fun a => saID a =s? id) l with
      | Some a =>
          match saSagaSteps a with
          | None => (l, Some ErrNotArray)
          | Some ss => (updateFirst (fun a => saID a =s? id) (set_steps (Some (ss ++ [bsonStep step]))) l,
                        match fault with Some (e, _) => Some e | None => None end)
          end
      | None => (l, match fault with Some (e, _) => Some e | None => None end)
      end
  end.

Definition GetByID (fault : option goerr) (orgID id : string) (l : list SagaAlert) : res SagaAlert :=
  match fault with
  | Some e => Err e
  | None =>
      match List.find (fun a => (saID a =s? id) && (saOrgID a =s? orgID)) l with
      | Some a => Ok a
      | None => Err ErrNoDocuments
      end
  end.

Definition StatusOpen : string := "open".
Definition StatusAcknowledged : string := "acknowledged".
Definition StatusResolved : string := "resolved".

Definition acknowledged (now : Z) (a : SagaAlert) : SagaAlert :=
  mkSagaAlert (saID a) (saOrgID a) (saType a) (saSeverity a) StatusAcknowledged (saRiskScore a) (saDetectorID a)
    (saRawEvent a) (saSagaSteps a) (saCreatedAt a) (Some (bsonTime now)) (saResolvedAt a) (saMTTR a).

Definition resolved (now : Z) (mttr : json) (a : SagaAlert) : SagaAlert :=
  mkSagaAlert (saID a) (saOrgID a) (saType a) (saSeverity a) StatusResolved (saRiskScore a) (saDetectorID a)
    (saRawEvent a) (saSagaSteps a) (saCreatedAt a) (saAckAt a) (Some (bsonTime now)) mttr.

(** [UpdateOne] with its failures; no match is no error. *)
Definition updateOne (fault : opFault) (p : SagaAlert -> bool) (g : SagaAlert -> SagaAlert) (l : list SagaAlert)
  : list SagaAlert * option goerr :=
  match fault with
  | Some (e, false) => (l, Some e)
  | Some (e, true) => (updateFirst p g l, Some e)
  | None => (updateFirst p g l, None)
  end.

Definition Acknowledge (now : Z) (fault : opFault) (orgID id : string) (l : list SagaAlert)
  : list SagaAlert * option goerr :=
  updateOne fault (fun a => (saID a =s? id) && (saOrgID a =s? orgID) && (saStatus a =s? StatusOpen))
    (acknowledged now) l.

Section alerting.
(** [time.Time] in JSON; the float of a duration in seconds; HMAC; the text of a
    JSON document, and the document of a text. *)
Variable rfc3339 : string -> option Z.
Variable timeText : Z -> string.
Variable seconds : Z -> json.
Variable hmac : string -> string -> string.
Variable jsonText : json -> string.
Variable parseJSON : string -> raw.

Definition Resolve (now : Z) (ffind : option goerr) (fupdate : opFault) (orgID id : string) (l : list SagaAlert)
  : list SagaAlert * option goerr :=
  match GetByID ffind orgID id l with
  | Err e => (l, Some e)
  | Ok alert =>
      updateOne fupdate (fun a => (saID a =s? id) && (saOrgID a =s? orgID))
        (resolved now (seconds (now - saCreatedAt alert))) l
  end.

(** [List]: ascending ids behind the cursor; a negative limit is a single batch
    of that size. *)
Definition sagaFilter (orgID status severity cursor : string) (a : SagaAlert) : bool :=
  (saOrgID a =s? orgID) && ((status =s? "") || (saStatus a =s? status)) &&
  ((severity =s? "") || (saSeverity a =s? severity)) &&
  ((cursor =s? "") || String.ltb cursor (saID a)).

Fixpoint insertByID (a : SagaAlert) (l : list SagaAlert) : list SagaAlert :=
  match l with
  | [] => [a]
  | b :: l' => if String.leb (saID a) (saID b) then a :: b :: l' else b :: insertByID a l'
  end.
Definition sortByID (l : list SagaAlert) : list SagaAlert := foldr insertByID [] l.

(** [firstn], for a bound of any size. *)
Fixpoint firstAlerts (n : Z) (l : list SagaAlert) : list SagaAlert :=
  match l with
  | [] => []
  | a :: l' => if (n <=? 0)%Z then [] else a :: firstAlerts (n - 1) l'
  end.

Definition ListSagaAlerts (fault : option goerr) (orgID status severity cursor : string) (limit : Z)
  (l : list SagaAlert) : res (list SagaAlert * string) :=
  match fault with
  | Some e => Err e
  | None =>
      let sorted := sortByID (List.filter (sagaFilter orgID status severity cursor) l) in
      let alerts := if (limit =? 0)%Z then sorted else firstAlerts (Z.abs limit) sorted in
      Ok (alerts, match last alerts with Some a => saID a | None => "" end)
  end.

(** ** Handlers *)

Definition stepDoc (s : SagaStep) : json :=
  JObj ([("step", JStr (ssStep s)); ("status", JStr (ssStatus s))] ++
        (if ssError s =s? "" then [] else [("error", JStr (ssError s))]) ++
        [("at", JStr (timeText (ssAt s))); ("retries", JNum (ssRetries s))]).

Definition timeOpt (k : string) (t : option Z) : list (string * json) :=
  match t with Some t => [(k, JStr (timeText t))] | None => [] end.

Definition sagaAlertDoc (a : SagaAlert) : json :=
  JObj ([("id", JStr (saID a)); ("org_id", JStr (saOrgID a)); ("type", JStr (saType a));
         ("severity", JStr (saSeverity a)); ("status", JStr (saStatus a)); ("risk_score", saRiskScore a);
         ("detector_id", JStr (saDetectorID a));
         ("raw_event", match saRawEvent a with Some m => JObj (map_to_list m) | None => JNull end);
         ("saga_steps", match saSagaSteps a with Some l => JArr (map stepDoc l) | None => JNull end);
         ("created_at", JStr (timeText (saCreatedAt a)))] ++
        timeOpt "ack_at" (saAckAt a) ++ timeOpt "resolved_at" (saResolvedAt a) ++ [("mttr_seconds", saMTTR a)]).

Definition errorText (msg : string) (code : Z) : Response := mkResponse code [] (JStr msg).

(** The value of [strconv.ParseInt] whose error is ignored: 0 for what is no
    number, and the nearest integer for a number out of range, which it stops
    reading at 64 bits. *)
Fixpoint digitsUpTo (acc : Z) (s : string) : option Z :=
  match s with
  | EmptyString => Some acc
  | String c s' =>
      match digit_of c with
      | Some d => if (2 ^ 64 <=? acc * 10 + d)%Z then Some (2 ^ 64 - 1)%Z else digitsUpTo (acc * 10 + d)%Z s'
      | None => None
      end
  end.

Definition ParseIntValue (s : string) : Z :=
  let unsigned s := match s with EmptyString => None | _ => digitsUpTo 0 s end in
  let '(neg, digits) :=
    match s with
    | String c s' => if Ascii.eqb c "-" then (true, s') else if Ascii.eqb c "+" then (false, s') else (false, s)
    | EmptyString => (false, s)
    end in
  match unsigned digits with
  | None => 0%Z
  | Some n => if neg : bool then (- Z.min n (2 ^ 63))%Z else Z.min n (2 ^ 63 - 1)
  end.

Example ParseIntValue_ex :
  map ParseIntValue [""; "x"; "-7"; "25"; "9223372036854775808"; "-99999999999999999999x"; "99x"] =
  [0; 0; -7; 25; 2 ^ 63 - 1; - 2 ^ 63; 0]%Z.
Proof. vm_compute. reflexivity. Qed.

(** The limit of the query. *)
Definition sagaLimit (limit : string) : Z :=
  let n := ParseIntValue limit in if (n =? 0)%Z then 50%Z else n.

Definition HandleListSagaAlerts (orgID status severity cursor limit : string) (fault : option goerr)
  (l : list SagaAlert) : Response :=
  if orgID =s? "" then errorText "Unauthorized" StatusUnauthorized
  else match ListSagaAlerts fault orgID status severity cursor (sagaLimit limit) l with
  | Err e => errorText (error_text e) StatusInternalServerError
  | Ok (alerts, next) =>
      mkResponse StatusOK [("X-Next-Cursor", next); ("Content-Type", "application/json")]
        (match alerts with [] => JNull | _ => JArr (map sagaAlertDoc alerts) end)
  end.

Definition HandleGetSagaAlert (orgID id : string) (fault : option goerr) (l : list SagaAlert) : Response :=
  match GetByID fault orgID id l with
  | Err _ => errorText "Alert not found" StatusNotFound
  | Ok a => mkResponse StatusOK [("Content-Type", "application/json")] (sagaAlertDoc a)
  end.

Definition answerUpdate (r : list SagaAlert * option goerr) : list SagaAlert * Response :=
  match r with
  | (l, Some e) => (l, errorText (error_text e) StatusInternalServerError)
  | (l, None) => (l, mkResponse StatusNoContent [] JNull)
  end.

Definition HandleAcknowledge (now : Z) (orgID id : string) (fault : opFault) (l : list SagaAlert) :=
  answerUpdate (Acknowledge now fault orgID id l).

Definition HandleResolve (now : Z) (orgID id : string) (ffind : option goerr) (fupdate : opFault) (l : list SagaAlert) :=
  answerUpdate (Resolve now ffind fupdate orgID id l).

(** ** SIEM *)

(** [formatForSIEM]: the body and the headers, in any order. *)
Definition formatForSIEM (siemType : string) (now : Z) (uuid payload secret : string)
  : string * list (string * string) :=
  let ct := ("Content-Type", "application/json") in
  let '(sig, delivery, ts) := SignPayload hmac now uuid payload secret in
  let signed := [("X-OpenGuard-Signature", sig); ("X-OpenGuard-Delivery", delivery); ("X-OpenGuard-Timestamp", ts)] in
  if siemType =s? "splunk" then
    (match parseJSON payload with
     | Some j => jsonText (JObj [("event", j); ("sourcetype", JStr "openguard_alert")])
     | None => ""
     end, [ct; ("Authorization", "Splunk " +:+ secret)])
  else if siemType =s? "datadog" then (payload, [ct; ("DD-API-KEY", secret)])
  else if siemType =s? "sentinel" then (payload, ct :: signed ++ [("Log-Type", "OpenGuardAlert")])
  else (payload, ct :: signed).

Definition DeliverSIEM (now : Z) (uuid siemType url secret payload : string) (o : hookOutcome)
  : option HookRequest * option goerr :=
  let '(body, headers) := formatForSIEM siemType now uuid payload secret in
  match o with
  | HookBad e => (None, Some e)
  | HookFailed e => (Some (mkHookRequest url headers body), Some e)
  | HookStatus code =>
      (Some (mkHookRequest url headers body),
       if (400 <=? code)%Z then Some (ErrNew ("SIEM delivery failed with status: " +:+ itoa code)) else None)
  end.

(** ** The saga *)

(** A message's alert. *)
Definition upd_step (k : string) (s : SagaStep) (j : json) : res SagaStep :=
  let '(mkSagaStep st su er at_ re) := s in
  if key_is "step" k then v <-? dec_string st j; Ok (mkSagaStep v su er at_ re)
  else if key_is "status" k then v <-? dec_string su j; Ok (mkSagaStep st v er at_ re)
  else if key_is "error" k then v <-? dec_string er j; Ok (mkSagaStep st su v at_ re)
  else if key_is "at" k then v <-? dec_time rfc3339 at_ j; Ok (mkSagaStep st su er v re)
  else if key_is "retries" k then v <-? dec_int re j; Ok (mkSagaStep st su er at_ v)
  else Ok s.

Definition zeroTime : Z := (-62135596800 * Second)%Z.

Fixpoint dec_steps (l : list json) : res (list SagaStep) :=
  match l with
  | [] => Ok []
  | j :: l' => s <-? unmarshal_struct upd_step (mkSagaStep "" "" "" zeroTime 0) (Some j); ss <-? dec_steps l'; Ok (s :: ss)
  end.

Definition dec_step_slice (j : json) : res (option (list SagaStep)) :=
  match j with
  | JNull => Ok None
  | JArr l => ss <-? dec_steps l; Ok (Some ss)
  | _ => Err ErrUnmarshalType
  end.

Definition dec_time_ptr (cur : option Z) (j : json) : res (option Z) :=
  match j with JNull => Ok None | _ => t <-? dec_time rfc3339 (default zeroTime cur) j; Ok (Some t) end.

Definition upd_alert (k : string) (a : SagaAlert) (j : json) : res SagaAlert :=
  let '(mkSagaAlert i o t se st sc de ra ss cr ack rs mt) := a in
  if key_is "id" k then v <-? dec_string i j; Ok (mkSagaAlert v o t se st sc de ra ss cr ack rs mt)
  else if key_is "org_id" k then v <-? dec_string o j; Ok (mkSagaAlert i v t se st sc de ra ss cr ack rs mt)
  else if key_is "type" k then v <-? dec_string t j; Ok (mkSagaAlert i o v se st sc de ra ss cr ack rs mt)
  else if key_is "severity" k then v <-? dec_string se j; Ok (mkSagaAlert i o t v st sc de ra ss cr ack rs mt)
  else if key_is "status" k then v <-? dec_string st j; Ok (mkSagaAlert i o t se v sc de ra ss cr ack rs mt)
  else if key_is "risk_score" k then v <-? dec_number sc j; Ok (mkSagaAlert i o t se st v de ra ss cr ack rs mt)
  else if key_is "detector_id" k then v <-? dec_string de j; Ok (mkSagaAlert i o t se st sc v ra ss cr ack rs mt)
  else if key_is "raw_event" k then v <-? dec_map ra j; Ok (mkSagaAlert i o t se st sc de v ss cr ack rs mt)
  else if key_is "saga_steps" k then v <-? dec_step_slice j; Ok (mkSagaAlert i o t se st sc de ra v cr ack rs mt)
  else if key_is "created_at" k then v <-? dec_time rfc3339 cr j; Ok (mkSagaAlert i o t se st sc de ra ss v ack rs mt)
  else if key_is "ack_at" k then v <-? dec_time_ptr ack j; Ok (mkSagaAlert i o t se st sc de ra ss cr v rs mt)
  else if key_is "resolved_at" k then v <-? dec_time_ptr rs j; Ok (mkSagaAlert i o t se st sc de ra ss cr ack v mt)
  else if key_is "mttr_seconds" k then v <-? dec_number mt j; Ok (mkSagaAlert i o t se st sc de ra ss cr ack rs v)
  else Ok a.

Definition zeroAlert : SagaAlert :=
  mkSagaAlert "" "" "" "" "" (JNum 0) "" None None zeroTime None None (JNum 0).

Definition decodeAlert (value : raw) : res SagaAlert := unmarshal_struct upd_alert zeroAlert value.

Record Sg := mkSg {
  sgAlerts : list SagaAlert;
  sgPublished : list (string * string * json);     (* topic, key, document *)
  sgSIEM : list HookRequest;
}.

(** One step's environment: the failures of its attempts, stops while it waits
    behind them, and the update of the alert that records it. *)
Record StepEnv := mkStepEnv {
  seFault : nat -> opFault; seStopped : nat -> bool; seRecord : opFault; seAt : Z;
}.

Definition recordStep (env : StepEnv) (id : string) (step : SagaStep) (w : Sg) : Sg :=
  mkSg (UpdateSagaStep (seRecord env) id step (sgAlerts w)).1 (sgPublished w) (sgSIEM w).

(** [executeStep] from attempt [i] on, with [n] left; [fn] is the attempt. *)
Fixpoint tryStep (env : StepEnv) (id name : string) (fn : nat -> Sg -> Sg * option goerr) (n i : nat)
  (lastErr : goerr) (w : Sg) : Sg * option goerr :=
  match n with
  | O => (recordStep env id (mkSagaStep name "failed" (error_text lastErr) (seAt env) 5) w, Some lastErr)
  | S n' =>
      match fn i w with
      | (w, None) => (recordStep env id (mkSagaStep name "completed" "" (seAt env) (Z.of_nat i)) w, None)
      | (w, Some e) =>
          if seStopped env i then (w, Some ErrCanceled) else tryStep env id name fn n' (S i) e w
      end
  end.

Definition maxAttempts : nat := 5.
Definition executeStep (env : StepEnv) (id name : string) (fn : nat -> Sg -> Sg * option goerr) (w : Sg)
  : Sg * option goerr := tryStep env id name fn maxAttempts 0 (ErrNew "") w.

(** [Publish]: the broker may have the message although it reports an error. *)
Definition publishTo (topic key : string) (doc : json) (fault : opFault) (w : Sg) : Sg * option goerr :=
  let w' := mkSg (sgAlerts w) (sgPublished w ++ [(topic, key, doc)]) (sgSIEM w) in
  match fault with
  | Some (e, false) => (w, Some e)
  | Some (e, true) => (w', Some e)
  | None => (w', None)
  end.

Record SagaEnv := mkSagaEnv {
  sePersist : StepEnv; seNotify : StepEnv; seSIEM : StepEnv; seAudit : StepEnv;
  seSIEMNow : Z; seSIEMUUID : string; seSIEMOutcome : nat -> hookOutcome;
}.

(** "This would come from org config in a real impl". *)
Definition siemURL : string := "".
Definition siemSecret : string := "".

Definition auditDoc (a : SagaAlert) : json :=
  JObj [("event_id", JStr ("alert-" +:+ saID a)); ("type", JStr "threat.alert.created");
        ("org_id", JStr (saOrgID a)); ("actor_id", JStr (saDetectorID a)); ("actor_type", JStr "detector");
        ("payload", sagaAlertDoc a)].

Definition persistOnce (env : SagaEnv) (a : SagaAlert) (i : nat) (w : Sg) : Sg * option goerr :=
  let '(l, e) := CreateSagaAlert (seFault (sePersist env) i) a (sgAlerts w) in
  (mkSg l (sgPublished w) (sgSIEM w), e).

Definition persistStep (env : SagaEnv) (a : SagaAlert) (w : Sg) : Sg * option goerr :=
  executeStep (sePersist env) (saID a) "persist" (persistOnce env a) w.

Definition notifyStep (env : SagaEnv) (a : SagaAlert) (w : Sg) : Sg * option goerr :=
  executeStep (seNotify env) (saID a) "notify"
    (fun i => publishTo "notifications.outbound" (saID a) (sagaAlertDoc a) (seFault (seNotify env) i)) w.

Definition siemStep (env : SagaEnv) (a : SagaAlert) (w : Sg) : Sg * option goerr :=
  if siemURL =s? "" then (w, None)
  else executeStep (seSIEM env) (saID a) "siem"
    (fun i w => let '(sent, e) := DeliverSIEM (seSIEMNow env) (seSIEMUUID env) "generic" siemURL siemSecret
                                    (jsonText (sagaAlertDoc a)) (seSIEMOutcome env i) in
                (mkSg (sgAlerts w) (sgPublished w) (sgSIEM w ++ match sent with Some r => [r] | None => [] end), e)) w.

Definition auditStep (env : SagaEnv) (a : SagaAlert) (w : Sg) : Sg * option goerr :=
  executeStep (seAudit env) (saID a) "audit"
    (fun i => publishTo "audit.trail" (saID a) (auditDoc a) (seFault (seAudit env) i)) w.

(** [processMessage]; only a failure to persist ends it. *)
Definition processAlert (env : SagaEnv) (value : raw) (w : Sg) : Sg :=
  match decodeAlert value with
  | Err _ => w
  | Ok a =>
      match persistStep env a w with
      | (w, Some _) => w
      | (w, None) =>
          let w := (notifyStep env a w).1 in
          let w := (siemStep env a w).1 in
          (auditStep env a w).1
      end
  end.

(** The service: the saga works on messages of the topic, again after a restart,
    and the handlers on the alerts. *)
Inductive saga_step (topic : nat -> raw) : Sg -> option nat -> Sg -> Prop :=
| sg_message env o w : saga_step topic w (Some o) (processAlert env (topic o) w)
| sg_acknowledge now fault orgID id l p s :
    saga_step topic (mkSg l p s) None (mkSg (HandleAcknowledge now orgID id fault l).1 p s)
| sg_resolve now ffind fupdate orgID id l p s :
    saga_step topic (mkSg l p s) None (mkSg (HandleResolve now orgID id ffind fupdate l).1 p s).
End alerting.

(** ** Properties *)

Section properties.
Context (rfc3339 : string -> option Z) (timeText : Z -> string) (seconds : Z -> json)
        (hmac : string -> string -> string) (jsonText : json -> string) (parseJSON : string -> raw).
#[local] Notation process := (processAlert rfc3339 timeText hmac jsonText parseJSON).
#[local] Notation persist := persistStep.
#[local] Notation alert_of value := (decodeAlert rfc3339 value).

(** *** The collection *)

Lemma hasAlert_In id l : hasAlert id l = true <-> In id (map saID l).
Proof.
  unfold hasAlert. rewrite existsb_exists, in_map_iff. split.
  - intros (a & Hin & <-%String.eqb_eq). eauto.
  - intros (a & <- & Hin). exists a. by rewrite String.eqb_refl.
Qed.

Lemma CreateSagaAlert_cases f a l l' e :
  CreateSagaAlert f a l = (l', e) ->
  (l' = l /\ e <> None) \/ (hasAlert (saID a) l = false /\ l' = l ++ [stored a]).
Proof.
  unfold CreateSagaAlert. destruct f as [[e0 []]|].
  - destruct (hasAlert _ _); intros [= <- <-]; auto.
  - intros [= <- <-]. by left.
  - destruct (hasAlert _ _); intros [= <- <-]; auto.
Qed.

Lemma Create_clean a l : hasAlert (saID a) l = false -> CreateSagaAlert None a l = (l ++ [stored a], None).
Proof. unfold CreateSagaAlert. by intros ->. Qed.

Lemma updateFirst_map {B} (f : SagaAlert -> B) p g l : (forall a, f (g a) = f a) -> map f (updateFirst p g l) = map f l.
Proof. intros Hg. induction l as [|a l IH]; simpl; [done|]. destruct (p a); simpl; [by rewrite Hg|by rewrite IH]. Qed.

Lemma UpdateSagaStep_ids f id s l : map saID (UpdateSagaStep f id s l).1 = map saID l.
Proof.
  unfold UpdateSagaStep. destruct f as [[e []]|]; [|done|]; destruct (List.find _ _) as [a|]; try done;
    destruct (saSagaSteps a); try done; by apply updateFirst_map.
Qed.

(** *** Steps *)

Lemma tryStep_S env id name fn n i e w :
  tryStep env id name fn (S n) i e w =
  match fn i w with
  | (w, None) => (recordStep env id (mkSagaStep name "completed" "" (seAt env) (Z.of_nat i)) w, None)
  | (w, Some e) => if seStopped env i then (w, Some ErrCanceled) else tryStep env id name fn n (S i) e w
  end.
Proof. done. Qed.

(** What every attempt and the record of the step keep, the step keeps. *)
Lemma executeStep_keeps (P : Sg -> Prop) env id name fn w :
  (forall i w, P w -> P (fn i w).1) -> (forall s w, P w -> P (recordStep env id s w)) ->
  P w -> P (executeStep env id name fn w).1.
Proof.
  intros Hf Hr. unfold executeStep. generalize (ErrNew "") 0. generalize maxAttempts as n. intros n. revert w.
  induction n as [|n IH]; intros w e i Hw; cbn [tryStep]; [by apply Hr|].
  specialize (Hf i w Hw). destruct (fn i w) as [w1 [e1|]]; simpl in Hf; [|by apply Hr].
  destruct (seStopped env i); [done|]. by apply IH.
Qed.

Lemma recordStep_ids env id s w : map saID (sgAlerts (recordStep env id s w)) = map saID (sgAlerts w).
Proof. apply UpdateSagaStep_ids. Qed.

Lemma publishTo_alerts topic key doc f w : sgAlerts (publishTo topic key doc f w).1 = sgAlerts w.
Proof. by destruct f as [[e []]|]. Qed.

(** *** Persisting *)

Lemma persistTry_spec env a n i e0 w w' e :
  tryStep (sePersist env) (saID a) "persist" (persistOnce env a) n i e0 w = (w', e) ->
  sgPublished w' = sgPublished w /\ sgSIEM w' = sgSIEM w /\
  (e = None -> hasAlert (saID a) (sgAlerts w) = false) /\
  (map saID (sgAlerts w') = map saID (sgAlerts w) \/
   (hasAlert (saID a) (sgAlerts w) = false /\ map saID (sgAlerts w') = map saID (sgAlerts w) ++ [saID a])) /\
  (e = None -> hasAlert (saID a) (sgAlerts w') = true).
Proof.
  revert w i e0. induction n as [|n IH]; intros w i e0; cbn [tryStep].
  - intros [= <- <-]. rewrite recordStep_ids. split; [done|]. split; [done|]. split; [done|]. split; [by left|done].
  - unfold persistOnce at 1. destruct (CreateSagaAlert _ _ _) as [l e1] eqn:Ec. apply CreateSagaAlert_cases in Ec.
    set (w1 := mkSg l (sgPublished w) (sgSIEM w)).
    destruct e1 as [e1|].
    + destruct (seStopped _ i).
      * intros [= <- <-]. split; [done|]. split; [done|]. split; [done|]. split; [|done]. simpl.
        destruct Ec as [[-> _]|[Hh ->]]; [by left|right]. by rewrite map_app.
      * intros Ht. apply IH in Ht as (Hp & Hs & Hn & Hi & Hh). split; [done|]. split; [done|].
        destruct Ec as [[-> _]|[Hf ->]]; [by auto|]. simpl in Hn, Hi, Hh.
        assert (Hin : hasAlert (saID a) (sgAlerts w ++ [stored a]) = true).
        { apply hasAlert_In. rewrite map_app. apply in_or_app. right. by left. }
        rewrite Hin in Hn, Hi. split; [intros He; by specialize (Hn He)|]. rewrite map_app in Hi.
        split; [right; by destruct Hi as [Hi|[? _]]|done].
    + intros [= <- <-]. rewrite recordStep_ids. split; [done|]. split; [done|].
      destruct Ec as [[_ ?]|[Hh ->]]; [done|]. split; [done|]. split; [right; simpl; by rewrite map_app|].
      intros _. apply hasAlert_In. rewrite recordStep_ids. simpl. rewrite map_app. apply in_or_app. right. by left.
Qed.

Lemma persist_spec env a w w' e :
  persist env a w = (w', e) ->
  sgPublished w' = sgPublished w /\ sgSIEM w' = sgSIEM w /\
  (e = None -> hasAlert (saID a) (sgAlerts w) = false) /\
  (map saID (sgAlerts w') = map saID (sgAlerts w) \/
   (hasAlert (saID a) (sgAlerts w) = false /\ map saID (sgAlerts w') = map saID (sgAlerts w) ++ [saID a])) /\
  (e = None -> hasAlert (saID a) (sgAlerts w') = true).
Proof. apply persistTry_spec. Qed.

(** The steps behind the persisting one. *)
Definition announce (env : SagaEnv) (a : SagaAlert) (w : Sg) : Sg :=
  (auditStep timeText env a
     (siemStep timeText hmac jsonText parseJSON env a (notifyStep timeText env a w).1).1).1.

Lemma processAlert_eq env value w :
  process env value w =
  match alert_of value with
  | Err _ => w
  | Ok a => match persist env a w with (w1, Some _) => w1 | (w1, None) => announce env a w1 end
  end.
Proof. reflexivity. Qed.

Lemma announce_keeps (P : Sg -> Prop) env a w :
  (forall w f topic doc, P w -> P (publishTo topic (saID a) doc f w).1) ->
  (forall e s w, P w -> P (recordStep e (saID a) s w)) ->
  P w -> P (announce env a w).
Proof.
  intros Hp Hr Hw. unfold announce, auditStep, notifyStep, siemStep. cbn [siemURL String.eqb].
  apply executeStep_keeps; [by intros; apply Hp|by intros; apply Hr|].
  apply executeStep_keeps; [by intros; apply Hp|by intros; apply Hr|done].
Qed.

Lemma announce_spec env a w :
  map saID (sgAlerts (announce env a w)) = map saID (sgAlerts w) /\
  forall m, In m (sgPublished (announce env a w)) -> In m (sgPublished w) \/ m.1.2 = saID a.
Proof.
  apply (announce_keeps (fun w' => map saID (sgAlerts w') = map saID (sgAlerts w) /\
    forall m, In m (sgPublished w') -> In m (sgPublished w) \/ m.1.2 = saID a)); [| |by auto].
  - intros w1 f topic doc [Hi Hm]. rewrite publishTo_alerts. split; [done|].
    destruct f as [[e []]|]; simpl; [|done|];
      (intros m [Hin|[<-|[]]]%in_app_or; [by apply Hm|by right]).
  - intros e s w1 [Hi Hm]. rewrite recordStep_ids. by split.
Qed.

(** The alert that a message gets past the persisting step. *)
Definition entered (env : SagaEnv) (value : raw) (w : Sg) : list string :=
  match alert_of value with
  | Err _ => []
  | Ok a => match persist env a w with (_, None) => [saID a] | (_, Some _) => [] end
  end.

(** Runs of the service, with the alerts that got past the first step. *)
Inductive saga_trace (topic : nat -> raw) : Sg -> list string -> Sg -> Prop :=
| tr_nil w : saga_trace topic w [] w
| tr_message env o w ids w' :
    saga_trace topic (process env (topic o) w) ids w' ->
    saga_trace topic w (entered env (topic o) w ++ ids) w'
| tr_handler w w1 ids w' :
    saga_step rfc3339 timeText seconds hmac jsonText parseJSON topic w None w1 ->
    saga_trace topic w1 ids w' -> saga_trace topic w ids w'.

Lemma process_spec env value w :
  (forall x, In x (map saID (sgAlerts w)) -> In x (map saID (sgAlerts (process env value w)))) /\
  (forall x, In x (entered env value w) ->
     hasAlert x (sgAlerts w) = false /\ In x (map saID (sgAlerts (process env value w)))) /\
  (forall m, In m (sgPublished (process env value w)) -> In m (sgPublished w) \/ In m.1.2 (entered env value w)).
Proof.
  rewrite processAlert_eq. unfold entered. destruct (alert_of value) as [a|]; [|by repeat split; auto].
  destruct (persist env a w) as [w1 e] eqn:Ep. apply persist_spec in Ep as (Hp & _ & Hf & Hi & Hh).
  assert (Hsub : forall x, In x (map saID (sgAlerts w)) -> In x (map saID (sgAlerts w1))).
  { intros x Hx. destruct Hi as [-> | [_ ->]]; [done|]. apply in_or_app. by left. }
  destruct e as [e|].
  - split; [done|]. split; [done|]. rewrite Hp. auto.
  - destruct (announce_spec env a w1) as [Hia Hma]. rewrite Hia. split; [done|]. split.
    + intros x [<-|[]]. split; [by apply Hf|]. by apply hasAlert_In, Hh.
    + rewrite Hp in Hma. intros m [?|?]%Hma; [by left|]. right. simpl. auto.
Qed.

Lemma answerUpdate_alerts r : (answerUpdate r).1 = r.1.
Proof. by destruct r as [l [e|]]. Qed.

Lemma updateOne_ids f p g l : (forall a, saID (g a) = saID a) -> map saID (updateOne f p g l).1 = map saID l.
Proof. intros Hg. destruct f as [[e []]|]; simpl; try done; by apply updateFirst_map. Qed.

Lemma handler_ids topic w w1 :
  saga_step rfc3339 timeText seconds hmac jsonText parseJSON topic w None w1 ->
  map saID (sgAlerts w1) = map saID (sgAlerts w) /\ sgPublished w1 = sgPublished w.
Proof.
  inversion 1; subst; simpl; unfold HandleAcknowledge, HandleResolve; rewrite answerUpdate_alerts; split; try done.
  - by apply updateOne_ids.
  - unfold Resolve. destruct (GetByID _ _ _ _); [|done]. by apply updateOne_ids.
Qed.

(** C20: An alert is announced by one run of the saga at most, however often its
    message is delivered and whatever fails: in every run of the service the
    alerts that get past the persisting step are distinct and new, and what is
    published is about them. *)
Theorem saga_announces_once topic w ids w' :
  saga_trace topic w ids w' ->
  NoDup ids /\ (forall x, In x ids -> hasAlert x (sgAlerts w) = false) /\
  (forall m, In m (sgPublished w') -> In m (sgPublished w) \/ In m.1.2 ids).
Proof.
  induction 1 as [w|env o w ids w' Ht (IHn & IHf & IHp)|w w1 ids w' Hs Ht (IHn & IHf & IHp)].
  - split; [constructor|]. split; [done|]. auto.
  - destruct (process_spec env (topic o) w) as (Hsub & Hnew & Hpub). split; [|split].
    + apply NoDup_app. split.
      { unfold entered. destruct (alert_of _); [|constructor]. destruct (persist _ _ _) as [? []]; [constructor|].
        apply NoDup_singleton. }
      split; [|done]. intros x Hx%list_elem_of_In%Hnew Hx'%list_elem_of_In%IHf.
      destruct Hx as [_ Hx]. apply hasAlert_In in Hx. congruence.
    + intros x [Hx|Hx]%in_app_or; [by apply Hnew|]. apply not_true_iff_false. intros Hh%hasAlert_In%Hsub%hasAlert_In.
      apply IHf in Hx. congruence.
    + intros m [Hm%Hpub|Hm]%IHp; [|right; apply in_or_app; by right].
      destruct Hm as [Hm|Hm]; [by left|right; apply in_or_app; by left].
  - apply handler_ids in Hs as [Hi Hp]. rewrite Hp in IHp. split; [done|]. split; [|done].
    intros x Hx%IHf. apply not_true_iff_false in Hx. apply not_true_iff_false. by rewrite hasAlert_In, <- Hi, <- hasAlert_In.
Qed.

Lemma stored_silent env value w a :
  alert_of value = Ok a -> hasAlert (saID a) (sgAlerts w) = true ->
  sgPublished (process env value w) = sgPublished w /\ sgSIEM (process env value w) = sgSIEM w.
Proof.
  intros Ha Hh. rewrite processAlert_eq, Ha.
  destruct (persist env a w) as [w1 [e|]] eqn:Ep; apply persist_spec in Ep as (Hp & Hs & Hf & _); [done|].
  by rewrite Hf in Hh.
Qed.

(** The retry of the first step is not safe.  An alert that is stored is
    never announced, by no delivery of its message and whatever happens; and
    when its first insertion takes effect but reports an error - a lost
    answer - it is stored and this run does not announce it either. *)
Theorem lost_answer_silences env value w a :
  alert_of value = Ok a ->
  let w' := process env value w in
  (hasAlert (saID a) (sgAlerts w) = true -> sgPublished w' = sgPublished w /\ sgSIEM w' = sgSIEM w) /\
  (forall e, hasAlert (saID a) (sgAlerts w) = false -> seFault (sePersist env) 0 = Some (e, true) ->
     sgPublished w' = sgPublished w /\ sgSIEM w' = sgSIEM w /\ hasAlert (saID a) (sgAlerts w') = true).
Proof.
  intros Ha. cbv zeta. split; [by apply stored_silent|].
  intros e Hh Hf. rewrite processAlert_eq, Ha.
  - unfold persistStep, executeStep, maxAttempts. rewrite tryStep_S.
    assert (Ho : persistOnce env a 0 w = (mkSg (sgAlerts w ++ [stored a]) (sgPublished w) (sgSIEM w), Some e)).
    { unfold persistOnce, CreateSagaAlert. by rewrite Hf, Hh. }
    rewrite Ho. set (w1 := mkSg _ _ _).
    assert (H1 : hasAlert (saID a) (sgAlerts w1) = true).
    { apply hasAlert_In. simpl. rewrite map_app. apply in_or_app. right. by left. }
    destruct (seStopped _ 0); [split; [done|]; split; [done|exact H1]|].
    destruct (tryStep _ _ _ _ 4 1 e w1) as [w2 [e2|]] eqn:Et; apply persistTry_spec in Et as (Hp & Hs & Hfr & Hi & _).
    + split; [done|]. split; [done|]. apply hasAlert_In. apply hasAlert_In in H1.
      destruct Hi as [-> |[_ ->]]; [done|apply in_or_app; by left].
    + by rewrite Hfr in H1.
Qed.

(** *** A run without lost answers *)

(** The attempts fail without effect for a while, and then one succeeds. *)
Definition works (e : StepEnv) : Prop :=
  exists k, k < maxAttempts /\ seFault e k = None /\
    forall j, j < k -> (exists err, seFault e j = Some (err, false)) /\ seStopped e j = false.

Lemma executeStep_works env id name fn w w1 :
  works env -> (forall i v err, seFault env i = Some (err, false) -> fn i v = (v, Some err)) ->
  (forall i, seFault env i = None -> fn i w = (w1, None)) ->
  exists s, executeStep env id name fn w = (recordStep env id s w1, None).
Proof.
  intros (k & Hk & Hok & Hbad) Hf Hs. unfold executeStep.
  assert (Hgo : forall d i e, i + d = k -> exists s,
    tryStep env id name fn (maxAttempts - i) i e w = (recordStep env id s w1, None)).
  { induction d as [|d IH]; intros i e Hi; replace (maxAttempts - i) with (S (maxAttempts - S i)) by lia; cbn [tryStep].
    - replace i with k by lia. rewrite (Hs k Hok). by eexists.
    - destruct (Hbad i ltac:(lia)) as [[err Herr] Hst]. rewrite (Hf i w err Herr), Hst. apply IH. lia. }
  apply (Hgo k 0). done.
Qed.

Lemma publish_works env id name topic key doc w :
  works env -> exists s, executeStep env id name (fun i => publishTo topic key doc (seFault env i)) w =
    (recordStep env id s (mkSg (sgAlerts w) (sgPublished w ++ [(topic, key, doc)]) (sgSIEM w)), None).
Proof. intros Hw. apply executeStep_works; [done| |]; [by intros i v err ->|by intros i ->]. Qed.

(** What the saga is for.  A new alert whose steps each succeed within five
    attempts, no failed attempt having taken effect, is stored as the message
    has it, announced once to the notification service and once to the audit
    trail, in this order; nothing is sent to a SIEM, whose address is a
    constant of the code. *)
Theorem saga_completes env value w a :
  alert_of value = Ok a -> hasAlert (saID a) (sgAlerts w) = false ->
  works (sePersist env) -> works (seNotify env) -> works (seAudit env) ->
  let w' := process env value w in
  sgPublished w' = sgPublished w ++ [("notifications.outbound", saID a, sagaAlertDoc timeText a);
                                     ("audit.trail", saID a, auditDoc timeText a)] /\
  sgSIEM w' = sgSIEM w /\ map saID (sgAlerts w') = map saID (sgAlerts w) ++ [saID a].
Proof.
  intros Ha Hh Hp Hn Hau. cbv zeta. rewrite processAlert_eq, Ha. unfold persistStep.
  destruct (executeStep_works (sePersist env) (saID a) "persist" (persistOnce env a) w
    (mkSg (sgAlerts w ++ [stored a]) (sgPublished w) (sgSIEM w)) Hp) as [s1 ->].
  { intros i v err He. unfold persistOnce, CreateSagaAlert. rewrite He. by destruct v. }
  { intros i He. unfold persistOnce. rewrite He, Create_clean by done. done. }
  unfold announce, notifyStep, auditStep, siemStep. cbn [siemURL String.eqb].
  destruct (publish_works (seNotify env) (saID a) "notify" "notifications.outbound" (saID a) (sagaAlertDoc timeText a)
    (recordStep (sePersist env) (saID a) s1 (mkSg (sgAlerts w ++ [stored a]) (sgPublished w) (sgSIEM w))) Hn) as [s2 ->].
  cbn [fst]. match goal with |- context [executeStep (seAudit env) _ _ _ ?v] =>
    destruct (publish_works (seAudit env) (saID a) "audit" "audit.trail" (saID a) (auditDoc timeText a) v Hau) as [s3 ->] end.
  cbn [fst]. rewrite !recordStep_ids. cbn [sgAlerts]. rewrite !recordStep_ids. cbn [sgAlerts].
  rewrite !recordStep_ids. cbn [sgAlerts recordStep sgPublished sgSIEM]. rewrite map_app, <- app_assoc. done.
Qed.

(** *** The record of the steps *)

Definition unrecorded (l : list SagaAlert) : Prop := Forall (fun a => saSagaSteps a = None) l.

Lemma updateFirst_Forall (P : SagaAlert -> Prop) p g l :
  (forall a, P a -> P (g a)) -> Forall P l -> Forall P (updateFirst p g l).
Proof. intros Hg. induction 1 as [|a l Ha Hl IH]; simpl; [constructor|]. destruct (p a); constructor; auto. Qed.

Lemma UpdateSagaStep_unrecorded f id s l : unrecorded l -> (UpdateSagaStep f id s l).1 = l.
Proof.
  intros Hu. unfold UpdateSagaStep. assert (Hn : forall a, List.find (fun a => saID a =s? id) l = Some a -> saSagaSteps a = None).
  { intros a [Hin _]%find_some. unfold unrecorded in Hu. rewrite Forall_forall in Hu. by apply Hu, list_elem_of_In. }
  destruct f as [[e []]|]; [|done|]; destruct (List.find _ _) as [a|]; try done; by rewrite (Hn a).
Qed.

(** The steps of the saga are never recorded.  The driver stores the steps
    an alert does not have yet as null, and MongoDB refuses to push onto null,
    an error the code ignores: if no message brings steps of its own, every
    alert's record stays null, whatever succeeds and whatever fails. *)
Theorem saga_steps_never_recorded topic w ids w' :
  (forall o a, alert_of (topic o) = Ok a -> saSagaSteps a = None) ->
  saga_trace topic w ids w' -> unrecorded (sgAlerts w) -> unrecorded (sgAlerts w').
Proof.
  intros Hm. induction 1 as [w|env o w ids w' Ht IH|w w1 ids w' Hs Ht IH]; intros Hu; [done| |]; apply IH; clear IH Ht.
  - rewrite processAlert_eq. destruct (alert_of (topic o)) as [a|] eqn:Ea; [|done]. apply Hm in Ea.
    assert (Hr : forall e s v, unrecorded (sgAlerts v) -> unrecorded (sgAlerts (recordStep e (saID a) s v))).
    { intros e s v Hv. unfold recordStep. cbn [sgAlerts]. by rewrite UpdateSagaStep_unrecorded. }
    pose proof (executeStep_keeps (fun v => unrecorded (sgAlerts v)) (sePersist env) (saID a) "persist" (persistOnce env a) w) as Hk.
    fold (persist env a w) in Hk. specialize (Hk ltac:(
      intros i v Hv; unfold persistOnce; destruct (CreateSagaAlert _ _ _) as [l e] eqn:Ec; apply CreateSagaAlert_cases in Ec;
      cbn [fst sgAlerts]; destruct Ec as [[-> _]|[_ ->]]; [done|]; apply Forall_app; split; [done|];
      repeat constructor; simpl; by rewrite Ea) ltac:(intros; by apply Hr) Hu).
    destruct (persist env a w) as [w1 [e|]]; [done|].
    apply (announce_keeps (fun v => unrecorded (sgAlerts v))); [|intros; by apply Hr|done].
    intros v f tp doc Hv. by rewrite publishTo_alerts.
  - inversion Hs; subst; simpl in *; unfold HandleAcknowledge, HandleResolve; rewrite answerUpdate_alerts.
    + unfold Acknowledge, updateOne. destruct fault as [[e []]|]; simpl; try done; by apply updateFirst_Forall.
    + unfold Resolve. destruct (GetByID _ _ _ _); [|done].
      unfold updateOne. destruct fupdate as [[e []]|]; simpl; try done; by apply updateFirst_Forall.
Qed.

(** *** The handlers *)

(** What a handler of a tenant may do to an alert. *)
Definition handled_by (orgID id : string) (a b : SagaAlert) : Prop :=
  b = a \/
  (saID a = id /\ saOrgID a = orgID /\ saID b = id /\ saOrgID b = orgID /\ saSagaSteps b = saSagaSteps a /\
   saCreatedAt b = saCreatedAt a /\
   ((saStatus a = StatusOpen /\ saStatus b = StatusAcknowledged /\ is_Some (saAckAt b) /\ saResolvedAt b = saResolvedAt a) \/
    (saStatus b = StatusResolved /\ is_Some (saResolvedAt b) /\ saAckAt b = saAckAt a))).

Lemma updateFirst_handled orgID id p g l :
  (forall a, p a = true -> handled_by orgID id a (g a)) -> Forall2 (handled_by orgID id) l (updateFirst p g l).
Proof.
  intros Hg. assert (Hid : forall k, Forall2 (handled_by orgID id) k k).
  { intros k. induction k; constructor; [by left|done]. }
  induction l as [|a l IH]; simpl; [constructor|]. destruct (p a) eqn:Ep; constructor; auto. by left.
Qed.

Lemma updateOne_handled orgID id f p g l :
  (forall a, p a = true -> handled_by orgID id a (g a)) -> Forall2 (handled_by orgID id) l (updateOne f p g l).1.
Proof.
  intros Hg. assert (Hid : Forall2 (handled_by orgID id) l l).
  { clear Hg. induction l; constructor; [by left|done]. }
  destruct f as [[e []]|]; simpl; [|done|]; by apply updateFirst_handled.
Qed.

(** Alerts change status for their tenant only, and along the life cycle:
    acknowledging turns an open alert of the caller's tenant to acknowledged,
    resolving turns any to resolved, and neither touches anything else. *)
Theorem alert_life_cycle now orgID id fault ffind l :
  Forall2 (handled_by orgID id) l (HandleAcknowledge now orgID id fault l).1 /\
  Forall2 (handled_by orgID id) l (HandleResolve seconds now orgID id ffind fault l).1.
Proof.
  assert (Hid : Forall2 (handled_by orgID id) l l) by (induction l; constructor; [by left|done]).
  unfold HandleAcknowledge, HandleResolve. rewrite !answerUpdate_alerts. split.
  - apply updateOne_handled. intros a Hp. bool_to_prop. right. repeat (split; [done|]). left. simpl. eauto.
  - unfold Resolve. destruct (GetByID _ _ _ _) as [found|]; [|done]. apply updateOne_handled. intros a Hp. bool_to_prop.
    right. repeat (split; [done|]). right. simpl. eauto.
Qed.

(** *** Where the messages come from *)

(** [json.Marshal] of an alert of the threat service. *)
Definition threatDoc `{ObjectIDs} (scoreDoc : Z -> json) (a : Alert) : json :=
  JObj ([("id", JStr (Hex (alID a))); ("org_id", JStr (alOrgID a)); ("user_id", JStr (alUserID a));
         ("type", JStr (alDetector a)); ("risk_score", scoreDoc (alScore a)); ("severity", JStr (alSeverity a));
         ("status", JStr (alStatus a)); ("created_at", JStr (timeText (alCreatedAt a)))] ++
        timeOpt timeText "resolved_at" (alResolvedAt a) ++
        match alMTTR a with Some m => [("mttr_seconds", JNum m)] | None => [] end ++
        match alMetadata a with [] => [] | m => [("metadata", JObj m)] end).

(** What the saga reads of it. *)
Definition received `{ObjectIDs} (scoreDoc : Z -> json) (a : Alert) : SagaAlert :=
  mkSagaAlert (Hex (alID a)) (alOrgID a) (alDetector a) (alSeverity a) (alStatus a) (scoreDoc (alScore a)) "" None None
    (alCreatedAt a) None None (JNum 0).

Lemma threatDoc_received `{ObjectIDs} scoreDoc a :
  alResolvedAt a = None -> alMTTR a = None -> rfc3339 (timeText (alCreatedAt a)) = Some (alCreatedAt a) ->
  (forall cur, dec_number cur (scoreDoc (alScore a)) = Ok (scoreDoc (alScore a))) ->
  alert_of (Some (threatDoc scoreDoc a)) = Ok (received scoreDoc a).
Proof.
  intros Hr Hm Ht Hs. unfold threatDoc. rewrite Hr, Hm. unfold decodeAlert. cbn [timeOpt app unmarshal_struct dec_members].
  unfold upd_alert, zeroAlert. json_keys. cbn [dec_string res_bind dec_time]. rewrite Hs, Ht. cbn [res_bind].
  destruct (alMetadata a); cbn [dec_members]; json_keys; done.
Qed.

(** From the detectors to the saga.  An alert that a detector could store is
    announced under its own id, but without the detector that raised it; one
    that could not be stored still goes to the saga, under the id of no alert,
    and then is announced only if it is the first such alert ever. *)
Theorem detector_to_saga `{ObjectIDs} (R : Type) `{Redis R} cacheDoc scoreDoc now f key a (st : ThreatState R) env w :
  alID a = nilObjectID -> alResolvedAt a = None -> alMTTR a = None -> efPublish f = None ->
  (forall t, rfc3339 (timeText t) = Some t) -> (forall s cur, dec_number cur (scoreDoc s) = Ok (scoreDoc s)) ->
  exists k sent, tsPublished (emit cacheDoc now f key a st) = tsPublished st ++ [(k, sent)] /\
    alert_of (Some (threatDoc scoreDoc sent)) = Ok (received scoreDoc sent) /\
    saDetectorID (received scoreDoc sent) = "" /\
    (forall oid, efStore f = Ok oid -> saID (received scoreDoc sent) = Hex oid) /\
    (forall e, efStore f = Err e -> saID (received scoreDoc sent) = Hex nilObjectID /\
       (hasAlert (Hex nilObjectID) (sgAlerts w) = true ->
        sgPublished (process env (Some (threatDoc scoreDoc sent)) w) = sgPublished w)).
Proof.
  intros Hid Hr Hm Hp Ht Hs. unfold emit.
  destruct (CreateAlert now a (efStore f) (tsAlerts st)) as [[alerts sent] err] eqn:Ec. rewrite Hp. simpl.
  exists (Hex (alID sent)), sent. split; [done|].
  assert (Hsent : alResolvedAt sent = None /\ alMTTR sent = None /\
    alID sent = match efStore f with Ok oid => oid | Err _ => nilObjectID end).
  { unfold CreateAlert in Ec. destruct (efStore f); injection Ec as _ <- _; by rewrite ?Hid. }
  destruct Hsent as (Hr' & Hm' & Hid'). pose proof (threatDoc_received scoreDoc sent Hr' Hm' (Ht _) (Hs _)) as Hd.
  split; [done|]. split; [done|]. split.
  - intros oid Hoid. simpl. by rewrite Hid', Hoid.
  - intros e He. simpl. rewrite Hid', He. split; [done|]. intros Hh.
    apply (stored_silent env _ w _ Hd). simpl. by rewrite Hid', He.
Qed.
End properties.

(** ** Witnesses *)

Module AlertingExamples.
Definition at_text (s : string) : option Z := option_map Z.of_int (NilEmpty.int_of_string s).
Definition mac (k d : string) : string := k +:+ ("|" +:+ d).
Definition text (_ : json) : string := "".
Definition parse (_ : string) : raw := None.

Lemma at_text_itoa t : at_text (itoa t) = Some t.
Proof. unfold at_text, itoa. rewrite NilEmpty.isi. simpl. by rewrite DecimalZ.of_to. Qed.

(** The message of a threat alert. *)
Definition message : raw :=
  Some (JObj [("id", JStr "x7"); ("org_id", JStr "o"); ("type", JStr "brute_force"); ("risk_score", JNum 90);
              ("severity", JStr "HIGH"); ("status", JStr "open"); ("created_at", JStr "5000000")]).
Definition alert : SagaAlert :=
  mkSagaAlert "x7" "o" "brute_force" "HIGH" "open" (JNum 90) "" None None 5000000 None None (JNum 0).
Definition messages (_ : nat) : raw := message.

Definition fine : StepEnv := mkStepEnv (fun _ => None) (fun _ => false) None 0.
(** Two attempts fail before they take effect. *)
Definition slow : StepEnv :=
  mkStepEnv (fun i => if i <? 2 then Some (ErrNew "down", false) else None) (fun _ => false) None 0.
(** The first attempt takes effect, but its answer is lost. *)
Definition lost : StepEnv :=
  mkStepEnv (fun i => match i with O => Some (ErrNew "timeout", true) | _ => None end) (fun _ => false) None 0.
Definition envOf (p : StepEnv) : SagaEnv := mkSagaEnv p fine fine fine 0 "u" (fun _ => HookStatus 200).
Definition w0 : Sg := mkSg [] [] [].
Definition run (env : SagaEnv) (w : Sg) : Sg := processAlert at_text itoa mac text parse env message w.

Lemma slow_works : works slow.
Proof.
  exists 2. split; [unfold maxAttempts; lia|]. split; [done|].
  intros [|[|j]] Hj; [by split; [eexists|]|by split; [eexists|]|lia].
Qed.
Lemma fine_works : works fine.
Proof. exists 0. split; [unfold maxAttempts; lia|]. split; [done|]. lia. Qed.

(** The message is delivered twice, and acknowledged in between. *)
Definition acked (w : Sg) : Sg :=
  mkSg (HandleAcknowledge 6000000 "o" "x7" None (sgAlerts w)).1 (sgPublished w) (sgSIEM w).
Definition twice : Sg := run (envOf fine) (acked (run (envOf slow) w0)).

Lemma twice_trace : saga_trace at_text itoa JNum mac text parse messages w0 ["x7"] twice.
Proof.
  set (w1 := run (envOf slow) w0).
  apply (tr_message at_text itoa JNum mac text parse messages (envOf slow) 0 w0 [] twice).
  apply (tr_handler at_text itoa JNum mac text parse messages w1 (acked w1)).
  { exact (sg_acknowledge at_text itoa JNum mac text parse messages 6000000 None "o" "x7" (sgAlerts w1)
             (sgPublished w1) (sgSIEM w1)). }
  apply (tr_message at_text itoa JNum mac text parse messages (envOf fine) 1 (acked w1) [] twice), tr_nil.
Qed.

Lemma saga_announces_once_witness :
  NoDup ["x7"] /\ length (sgPublished twice) = 2 /\
  (forall m, In m (sgPublished twice) -> In m [] \/ In m.1.2 ["x7"]).
Proof.
  destruct (saga_announces_once at_text itoa JNum mac text parse messages w0 ["x7"] twice twice_trace) as (Hn & _ & Hp).
  split; [exact Hn|]. split; [vm_compute; reflexivity|exact Hp].
Defined.

Lemma lost_answer_silences_witness :
  sgPublished (run (envOf lost) w0) = [] /\ hasAlert "x7" (sgAlerts (run (envOf lost) w0)) = true /\
  sgPublished (run (envOf fine) (run (envOf lost) w0)) = [].
Proof.
  destruct (lost_answer_silences at_text itoa mac text parse (envOf lost) message w0 alert) as [_ H];
    [vm_compute; reflexivity|].
  destruct (H (ErrNew "timeout")) as (H1 & _ & H3); [reflexivity|reflexivity|].
  destruct (lost_answer_silences at_text itoa mac text parse (envOf fine) message (run (envOf lost) w0) alert) as [H4 _];
    [vm_compute; reflexivity|].
  destruct (H4 H3) as [H5 _]. split; [exact H1|]. split; [exact H3|]. exact (eq_trans H5 H1).
Defined.

Lemma saga_completes_witness :
  sgPublished (run (envOf slow) w0) =
    [("notifications.outbound", "x7", sagaAlertDoc itoa alert); ("audit.trail", "x7", auditDoc itoa alert)].
Proof.
  destruct (saga_completes at_text itoa mac text parse (envOf slow) message w0 alert) as (H & _);
    [vm_compute; reflexivity|reflexivity|exact slow_works|exact fine_works|exact fine_works|exact H].
Defined.

Lemma saga_steps_never_recorded_witness : unrecorded (sgAlerts twice) /\ length (sgAlerts twice) = 1.
Proof.
  split; [|vm_compute; reflexivity].
  apply (saga_steps_never_recorded at_text itoa JNum mac text parse messages w0 ["x7"] twice);
    [|exact twice_trace|constructor].
  intros o a H. vm_compute in H. injection H as <-. reflexivity.
Defined.

(** A brute force alert whose insertion failed, after another such one. *)
Definition bruteForce : Alert := newAlert "o" "u" "brute_force" 90 "HIGH" [].
Definition failing : emitFaults := mkEmitFaults (Err (ErrNew "down")) None.
Definition st0 : ThreatState MiniRedis := mkThreatState emptyRedis [] [].
Definition earlier : Sg := mkSg [set_steps None (received JNum (newAlert "p" "v" "brute_force" 90 "HIGH" []))] [] [].

Lemma detector_to_saga_witness :
  exists k sent, tsPublished (emit (fun _ => JNull) 5000000 failing "threat:k" bruteForce st0) = [(k, sent)] /\
    saID (received JNum sent) = "x0" /\
    sgPublished (processAlert at_text itoa mac text parse (envOf fine) (Some (threatDoc itoa JNum sent)) earlier) = [].
Proof.
  destruct (detector_to_saga at_text itoa mac text parse MiniRedis (fun _ => JNull) JNum 5000000 failing "threat:k"
              bruteForce st0 (envOf fine) earlier) as (k & sent & Hp & _ & _ & _ & He);
    [reflexivity|reflexivity|reflexivity|reflexivity|exact at_text_itoa|reflexivity|].
  destruct (He (ErrNew "down")) as [Hi Hs]; [reflexivity|].
  exists k, sent. split; [exact Hp|]. split; [exact Hi|]. apply Hs. vm_compute. reflexivity.
Defined.
End AlertingExamples.
