(* ===== verification/AlertStats.v ===== *)
(** The statistics of the alerting service: [Repository.GetStats] of
    services/alerting/pkg/repository/repository.go and its handler.  MongoDB
    groups the alerts of a tenant by severity; the doubles and their averages
    are an interface, the order of the groups is MongoDB's choice. *)

From S2P Require Import Prelude Json Http AlertStore Alerting.
From stdpp Require Import gmap.
From Stdlib Require Import QArith.

#[local] Open Scope nat_scope.

(** Doubles: the value of a stored number, MongoDB's [$avg] over numbers, and
    what the code computes with them. *)
Class Doubles (F : Type) := {
  dread : json -> F;
  davg : list F -> F;
  dadd : F -> F -> F;
  dzero : F;
  ddivn : F -> nat -> F;
  ddoc : F -> json;
}.

Section stats.
Context {F : Type} `{Doubles F}.

(** One group of the pipeline. *)
Record sevGroup := mkSevGroup { sgSeverity : string; sgCount : nat; sgAvg : F }.

Definition ofOrg (orgID : string) (l : list SagaAlert) : list SagaAlert :=
  List.filter (fun a => saOrgID a =s? orgID) l.
Definition ofSeverity (sev : string) (l : list SagaAlert) : list SagaAlert :=
  List.filter (fun a => saSeverity a =s? sev) l.

Definition severities (l : list SagaAlert) : list string := remove_dups (map saSeverity l).

(** [$match], then [$group]; every document has its three fields, since the
    driver writes each of them. *)
Definition groupBySeverity (l : list SagaAlert) : list sevGroup :=
  map (fun sev => let part := ofSeverity sev l in
                  mkSevGroup sev (length part) (davg (map (fun a => dread (saMTTR a)) part)))
      (severities l).

(** The sum of ones is an int32 as long as it fits; then the assertion
    [res["count"].(int32)] panics. *)
Definition isInt32 (g : sevGroup) : bool := (Z.of_nat (sgCount g) <? 2 ^ 31)%Z.

Record Stats := mkStats { stCounts : gmap string Z; stAvgMTTR : F }.

Definition totalMTTR (b : list sevGroup) : F := fold_left (fun t g => dadd t (sgAvg g)) b dzero.

(** The loop over the groups. *)
Definition statsOf (b : list sevGroup) : Stats :=
  mkStats (list_to_map (map (fun g => (sgSeverity g, Z.of_nat (sgCount g))) b))
          (match b with [] => dzero | _ => ddivn (totalMTTR b) (length b) end).

(** [None]: the assertion panics. *)
Definition GetStats (order : list sevGroup -> list sevGroup) (fault : option goerr) (orgID : string)
  (l : list SagaAlert) : option (res Stats) :=
  match fault with
  | Some e => Some (Err e)
  | None =>
      let b := order (groupBySeverity (ofOrg orgID l)) in
      if forallb isInt32 b then Some (Ok (statsOf b)) else None
  end.

Definition statsDoc (s : Stats) : json :=
  JObj [("avg_mttr", ddoc (stAvgMTTR s));
        ("severity_counts", JObj (map (fun x => (x.1, JNum x.2)) (map_to_list (stCounts s))))].

Definition HandleGetStats (order : list sevGroup -> list sevGroup) (fault : option goerr) (orgID : string)
  (l : list SagaAlert) : option Response :=
  match GetStats order fault orgID l with
  | None => None
  | Some (Err e) => Some (errorText (error_text e) StatusInternalServerError)
  | Some (Ok s) => Some (mkResponse StatusOK [("Content-Type", "application/json")] (statsDoc s))
  end.

(** The detectors the handler lists; they are constants. *)
Definition detectorDoc (id name weight : string) : json :=
  JObj [("id", JStr id); ("name", JStr name); ("status", JStr "active"); ("weight", JFloat weight)].

Definition HandleGetDetectors : Response :=
  mkResponse StatusOK [("Content-Type", "application/json")]
    (JArr [detectorDoc "brute-force" "Brute Force Detector" "0.8";
           detectorDoc "impossible-travel" "Impossible Travel" "0.9";
           detectorDoc "dlp-pii" "DLP PII Scanner" "0.7"]).

(** ** Properties *)

Lemma groups_severities l : map sgSeverity (groupBySeverity l) = severities l.
Proof. unfold groupBySeverity. rewrite map_map. apply map_id. Qed.

Lemma severities_In sev l : In sev (severities l) <-> ofSeverity sev l <> [].
Proof.
  unfold severities. rewrite <- list_elem_of_In, elem_of_remove_dups, list_elem_of_In, in_map_iff.
  unfold ofSeverity. split.
  - intros (a & <- & Ha) Hn. assert (Hin : In a (List.filter (fun x => saSeverity x =s? saSeverity a) l)).
    { apply filter_In. split; [done|apply String.eqb_refl]. }
    by rewrite Hn in Hin.
  - destruct (List.filter _ l) as [|a l'] eqn:E; [done|]. intros _.
    assert (Hin : In a (List.filter (fun x => saSeverity x =s? sev) l)) by (rewrite E; by left).
    apply filter_In in Hin as [Ha Hs]. bool_to_prop. by exists a.
Qed.

Lemma ofOrg_app orgID l l' : ofOrg orgID (l ++ l') = ofOrg orgID l ++ ofOrg orgID l'.
Proof. apply List.filter_app. Qed.

Lemma count_keys (b : list sevGroup) :
  (map (fun g => (sgSeverity g, Z.of_nat (sgCount g))) b).*1 = map sgSeverity b.
Proof. induction b as [|g b IH]; [done|]. cbn. f_equal. exact IH. Qed.

Section order.
Variable order : list sevGroup -> list sevGroup.
Hypothesis order_perm : forall b, order b ≡ₚ b.

Lemma counts_of b : NoDup (map sgSeverity b) ->
  stCounts (statsOf (order b)) = stCounts (statsOf b).
Proof.
  intros Hn. simpl. apply list_to_map_proper; [|by rewrite order_perm].
  rewrite count_keys. by rewrite order_perm.
Qed.

(** The counts of the statistics are exact.  As long as no severity has
    more alerts than an int32 holds, the statistics of a tenant name a severity
    exactly when the tenant has alerts of it, with their number, in whatever
    order the database answers; alerts of other tenants do not show. *)
Theorem stats_exact orgID l others s :
  GetStats order None orgID l = Some (Ok s) -> ofOrg orgID others = [] ->
  (forall sev n, stCounts s !! sev = Some n <->
     n = Z.of_nat (length (ofSeverity sev (ofOrg orgID l))) /\ ofSeverity sev (ofOrg orgID l) <> []) /\
  GetStats order None orgID (l ++ others) = Some (Ok s).
Proof.
  unfold GetStats. intros Hg Ho. rewrite ofOrg_app, Ho, app_nil_r. split; [|done].
  destruct (forallb _ _); [|done]. injection Hg as <-.
  assert (Hn : NoDup (map sgSeverity (groupBySeverity (ofOrg orgID l)))).
  { rewrite groups_severities. apply NoDup_remove_dups. }
  intros sev n. rewrite counts_of by done. simpl.
  rewrite <- elem_of_list_to_map by (by rewrite count_keys).
  rewrite list_elem_of_In, in_map_iff. unfold groupBySeverity. split.
  - intros (g & Hx & (sv & <- & Hsv)%in_map_iff). simpl in Hx. injection Hx as -> <-.
    split; [done|]. by apply severities_In.
  - intros [-> Hne%severities_In].
    exists (mkSevGroup sev (length (ofSeverity sev (ofOrg orgID l)))
      (davg (map (fun a => dread (saMTTR a)) (ofSeverity sev (ofOrg orgID l))))).
    split; [done|]. apply in_map_iff. by exists sev.
Qed.
End order.
End stats.

(** ** Examples *)

Module StatsExamples.

(** Rationals for doubles. *)
#[export] Instance rationals : Doubles Q := {|
  dread j := match j with JNum z => inject_Z z | _ => 0%Q end;
  davg l := Qred (fold_left Qplus l 0%Q / inject_Z (Z.of_nat (length l)));
  dadd a b := Qred (a + b);
  dzero := 0%Q;
  ddivn a n := Qred (a / inject_Z (Z.of_nat n));
  ddoc q := match Qred q with Qmake z 1 => JNum z | _ => JFloat "fraction" end;
|}.

Definition alertOf (id org sev status : string) (mttr : Z) : SagaAlert :=
  mkSagaAlert id org "brute_force" sev status (JNum 90) "" None None 0 None None (JNum mttr).

Definition stats := GetStats (fun b => b) None "o".
Definition mttr (l : list SagaAlert) : option Q :=
  match stats l with Some (Ok s) => Some (stAvgMTTR s) | _ => None end.

Definition solved : SagaAlert := alertOf "a1" "o" "HIGH" "resolved" 100.

(** An alert that nobody has resolved counts as resolved in no time... *)
Example open_alerts_lower_mttr :
  mttr [solved] = Some 100%Q /\ mttr [solved; alertOf "a2" "o" "HIGH" "open" 0] = Some 50%Q /\
  mttr [solved; alertOf "a2" "o" "HIGH" "open" 0; alertOf "a3" "o" "LOW" "open" 0] = Some 25%Q.
Proof. vm_compute. repeat split. Qed.

(** ...and the mean is that of the severities, not of the alerts. *)
Example mean_of_means :
  mttr [alertOf "a1" "o" "LOW" "resolved" 10; alertOf "a2" "o" "LOW" "resolved" 10;
        alertOf "a3" "o" "LOW" "resolved" 10; alertOf "a4" "o" "HIGH" "resolved" 90] = Some 50%Q.
Proof. vm_compute. reflexivity. Qed.

Lemma stats_exact_witness :
  forall s, stats [solved] = Some (Ok s) ->
  stCounts s !! "HIGH" = Some 1%Z /\ stats [solved; alertOf "b1" "p" "LOW" "open" 0] = Some (Ok s).
Proof.
  intros s Hs.
  destruct (stats_exact (fun b => b) (fun b => Permutation_refl b) "o" [solved] [alertOf "b1" "p" "LOW" "open" 0] s Hs
    ltac:(vm_compute; reflexivity)) as [Hc Ho].
  split; [|exact Ho]. apply Hc. split; [vm_compute; reflexivity|]. vm_compute. discriminate.
Defined.

End StatsExamples.
