(* ===== verification/Registry.v ===== *)
(** The connector registry: services/connector-registry/pkg/repository,
    pkg/service and pkg/handlers, on the table that
    services/iam/migrations/008_create_connectors.up.sql creates.  That table
    has no column [status], which the queries name: whether the deployed table
    has one, and its default, is a parameter ([statusColumn]).  Validations and
    suspensions work in two phases, between which others run ([reg_step]). *)

From S2P Require Import Prelude GoStrings Json Http Redis Pg Crypto.
From stdpp Require Import gmap.

(** ** Data *)

(** A row of [connectors]; the prefix and the hash of the key may be null. *)
Record ConnectorRow := mkConnectorRow {
  crID : string; crOrgID : string; crName : string; crClientSecret : string; crRedirectURIs : list string;
  crPrefix : option string; crHash : option string; crStatus : string; crCreatedAt : Z; crUpdatedAt : Z;
}.

Record RegDB := mkRegDB { rgOrgs : list string; rgRows : list ConnectorRow }.
Definition set_regRows (l : list ConnectorRow) (db : RegDB) : RegDB := mkRegDB (rgOrgs db) l.

Definition ErrConnectorNotFound : goerr := ErrNew "connector not found".
Definition ErrNoConnectorRows : goerr := ErrNew "no rows in result set".
Definition ErrNoStatusColumn : goerr := ErrNew "column status does not exist".
Definition ErrScanNull : goerr := ErrNew "cannot scan NULL into *string".
Definition ErrConnectorUnique : goerr := ErrNew "duplicate key value violates unique constraint".
Definition ErrConnectorOrg : goerr := ErrNew "violates foreign key constraint".
Definition ErrConnectorURIs : goerr := ErrNew "null value violates not-null constraint".
Definition ErrKeyFormat : goerr := ErrNew "invalid api key format".
Definition ErrKeyInvalid : goerr := ErrNew "invalid api key".
Definition ErrSuspended : goerr := ErrNew "connector is suspended".

Section registry.
Context {S : Type} `{PgSession S} {R : Type} `{Redis R} `{Kdf}.
Variable pgUUID : uuidCast.
(** How pgx encodes a slice argument; [None] is SQL's [NULL]. *)
Variable pgxArray : option (list string) -> option (list string).
Variable ro : role.
(** The default of the column [status]; [None] when the table has none. *)
Variable statusColumn : option string.
(** [time.Time] in JSON, and [base64.URLEncoding]. *)
Variable timeDoc : Z -> json.
Variable b64url : string -> string.

(** ** Repository *)

(** [withConn]. *)
Definition withConn {A} (ctxOrg : string) (conn : S) (f : Faults) (fn : S -> RegDB -> RegDB * res A) (db : RegDB)
  : RegDB * res A :=
  if ctxOrg =s? "" then (db, Err (ErrNew "missing org_id in context"))
  else match fAcquire f with
  | Some e => (db, Err (ErrWrap "acquire connection: " e ""))
  | None =>
      match SetSessionVar conn ctxOrg (fSet f) with
      | (_, Some e) => (db, Err e)
      | (conn', None) => fn conn' db
      end
  end.

Definition rowFilter (sess : S) : res (string -> bool) := rls_filter pgUUID ro (current_setting sess app_org).

Definition insert_connector (sess : S) (now : Z) (id orgID name secret : string) (uris : option (list string))
  (prefix hash : string) (db : RegDB) : res (RegDB * unit) :=
  org <-? uuid_arg pgUUID orgID;
  vis <-? rowFilter sess;
  if negb (vis org) then Err ErrRLS
  else match pgxArray uris with
  | None => Err ErrConnectorURIs
  | Some us =>
      if existsb (fun r => (crID r =s? id) || bool_decide (crPrefix r = Some prefix) || bool_decide (crHash r = Some hash))
           (rgRows db) then Err ErrConnectorUnique
      else if negb (existsb (String.eqb org) (rgOrgs db)) then Err ErrConnectorOrg
      else Ok (set_regRows (rgRows db ++
                 [mkConnectorRow id org name secret us (Some prefix) (Some hash) (default "" statusColumn) now now]) db, tt)
  end.

Definition CreateConnector (ctxOrg : string) (conn : S) (f : Faults) (now : Z) (id orgID name secret : string)
  (uris : option (list string)) (prefix hash : string) (db : RegDB) : RegDB * res unit :=
  withConn ctxOrg conn f (fun sess => autocommit f (insert_connector sess now id orgID name secret uris prefix hash)) db.

(** One row, by a condition, for a query that names the column [status]. *)
Definition selectOne (sess : S) (f : Faults) (p : ConnectorRow -> bool) (db : RegDB) : res ConnectorRow :=
  match fQuery f, statusColumn with
  | Some e, _ => Err e
  | None, None => Err ErrNoStatusColumn
  | None, Some _ =>
      vis <-? rowFilter sess;
      match List.find (fun r => p r && vis (crOrgID r)) (rgRows db) with
      | Some r => Ok r
      | None => Err ErrNoConnectorRows
      end
  end.

Definition orNotFound {A} (r : res A) : res A :=
  match r with
  | Err e => if errors_is e ErrNoConnectorRows then Err ErrConnectorNotFound else Err e
  | Ok a => Ok a
  end.

Definition scanString (v : option string) : res string := match v with Some s => Ok s | None => Err ErrScanNull end.

Definition uriDoc (us : list string) : json := JArr (map JStr us).

Definition GetConnectorByID (ctxOrg : string) (conn : S) (f : Faults) (id : string) (db : RegDB) : res (gmap string json) :=
  orNotFound (withConn ctxOrg conn f (fun sess db =>
    (db, r <-? selectOne sess f (fun r => crID r =s? id) db;
         prefix <-? scanString (crPrefix r); hash <-? scanString (crHash r);
         Ok (list_to_map [("id", JStr (crID r)); ("org_id", JStr (crOrgID r)); ("name", JStr (crName r));
               ("client_secret", JStr (crClientSecret r)); ("redirect_uris", uriDoc (crRedirectURIs r));
               ("api_key_prefix", JStr prefix); ("api_key_hash", JStr hash); ("status", JStr (crStatus r));
               ("created_at", timeDoc (crCreatedAt r)); ("updated_at", timeDoc (crUpdatedAt r))]))) db).2.

(** The map that [FindByPrefix] makes of a row. *)
Definition connectorMap (r : ConnectorRow) (hash : string) : gmap string json :=
  list_to_map [("id", JStr (crID r)); ("org_id", JStr (crOrgID r)); ("name", JStr (crName r));
    ("client_secret", JStr (crClientSecret r)); ("redirect_uris", uriDoc (crRedirectURIs r));
    ("api_key_hash", JStr hash); ("status", JStr (crStatus r))].

Definition FindByPrefix (ctxOrg : string) (conn : S) (f : Faults) (prefix : string) (db : RegDB) : res (gmap string json) :=
  orNotFound (withConn ctxOrg conn f (fun sess db =>
    (db, r <-? selectOne sess f (fun r => bool_decide (crPrefix r = Some prefix)) db;
         hash <-? scanString (crHash r); Ok (connectorMap r hash))) db).2.

Definition delete_connector (sess : S) (id : string) (db : RegDB) : res (RegDB * unit) :=
  vis <-? rowFilter sess;
  Ok (set_regRows (List.filter (fun r => negb ((crID r =s? id) && vis (crOrgID r))) (rgRows db)) db, tt).

Definition DeleteConnectorRow (ctxOrg : string) (conn : S) (f : Faults) (id : string) (db : RegDB) : RegDB * res unit :=
  withConn ctxOrg conn f (fun sess => autocommit f (delete_connector sess id)) db.

Definition set_crStatus (now : Z) (s : string) (r : ConnectorRow) : ConnectorRow :=
  mkConnectorRow (crID r) (crOrgID r) (crName r) (crClientSecret r) (crRedirectURIs r) (crPrefix r) (crHash r) s
    (crCreatedAt r) now.

Definition update_status (sess : S) (now : Z) (id status : string) (db : RegDB) : res (RegDB * unit) :=
  match statusColumn with
  | None => Err ErrNoStatusColumn
  | Some _ =>
      vis <-? rowFilter sess;
      Ok (set_regRows (map (fun r => if (crID r =s? id) && vis (crOrgID r) then set_crStatus now status r else r)
                         (rgRows db)) db, tt)
  end.

Definition UpdateStatus (ctxOrg : string) (conn : S) (f : Faults) (now : Z) (id status : string) (db : RegDB)
  : RegDB * res unit :=
  withConn ctxOrg conn f (fun sess => autocommit f (update_status sess now id status)) db.

(** ** Service *)

(** [crypto.GenerateRandomString], of the bytes the generator yields. *)
Definition GenerateRandomString (n : nat) (bytes : string) : string := String.substring 0 n (b64url bytes).

(** [generateAPIKey]: 24 bytes, or the fallback when the generator fails. *)
Definition generateAPIKey (bytes : res string) (fallback : string) : string :=
  match bytes with
  | Ok b => "ogk_" +:+ b64url b
  | Err _ => "ogk_err_" +:+ GenerateRandomString 32 fallback
  end.

Definition keyPrefixLen : nat := 12.
Definition keyPrefix (apiKey : string) : string := String.substring 0 keyPrefixLen apiKey.

(** What one registration draws and meets. *)
Record RegisterEnv (C : Type) := mkRegisterEnv {
  geKey : res string; geFallback : string; geSalt : string; geSecret : string; geConn : C; geFaults : Faults;
}.
Arguments mkRegisterEnv {C} _ _ _ _ _ _.
Arguments geKey {C} _.
Arguments geFallback {C} _.
Arguments geSalt {C} _.
Arguments geSecret {C} _.
Arguments geConn {C} _.
Arguments geFaults {C} _.

Definition RegisterConnector (ctxOrg : string) (now : Z) (env : RegisterEnv S) (id orgID name : string)
  (uris : option (list string)) (db : RegDB) : RegDB * res string :=
  let apiKeyRaw := generateAPIKey (geKey env) (geFallback env) in
  let hash := HashPBKDF2 (geSalt env) apiKeyRaw in
  let clientSecret := GenerateRandomString 32 (geSecret env) in
  match CreateConnector ctxOrg (geConn env) (geFaults env) now id orgID name clientSecret uris (keyPrefix apiKeyRaw)
          hash db with
  | (db, Err e) => (db, Err e)
  | (db, Ok _) => (db, Ok apiKeyRaw)
  end.

Definition hashKey (prefix : string) : string := "apikey:hash:" +:+ prefix.
Definition dataKey (prefix : string) : string := "apikey:data:" +:+ prefix.
Definition apiKeyTTL : Z := (5 * Minute)%Z.

Definition isSuspended (m : gomap) : bool :=
  match map_get m "status" with Some (JStr s) => s =s? "suspended" | _ => false end.

(** The bytes of a value as text; those of a JSON document are no hash. *)
Definition rval_text (v : rval) : string := match v with RText s => s | RDoc _ => "" end.

(** The cache's verdict, if it has one. *)
Definition validateCached (now : Z) (apiKey : string) (rdb : option R) : option (res gomap) :=
  match rdb with
  | None => None
  | Some r =>
      match rget now r (hashKey (keyPrefix apiKey)) with
      | Ok (Some h) =>
          if VerifyPBKDF2 apiKey (rval_text h) then
            match rget now r (dataKey (keyPrefix apiKey)) with
            | Ok (Some d) =>
                match unmarshal_map (rval_raw d) with
                | Ok m => Some (if isSuspended m then Err ErrSuspended else Ok m)
                | Err _ => None
                end
            | _ => None
            end
          else Some (Err ErrKeyInvalid)
      | _ => None
      end
  end.

Definition validateDB (ctxOrg : string) (conn : S) (f : Faults) (apiKey : string) (db : RegDB) : res (gmap string json) :=
  m <-? FindByPrefix ctxOrg conn f (keyPrefix apiKey) db;
  if negb (VerifyPBKDF2 apiKey (get_string (Some m) "api_key_hash")) then Err ErrKeyInvalid
  else if isSuspended (Some m) then Err ErrSuspended
  else Ok m.

(** The first phase of [ValidateAPIKey]: its answer, and what it then caches. *)
Definition validateKey (ctxOrg : string) (now : Z) (conn : S) (f : Faults) (apiKey : string) (db : RegDB) (rdb : option R)
  : res gomap * option (string * gmap string json) :=
  if String.length apiKey <? keyPrefixLen then (Err ErrKeyFormat, None)
  else match validateCached now apiKey rdb with
  | Some r => (r, None)
  | None =>
      match validateDB ctxOrg conn f apiKey db with
      | Err e => (Err e, None)
      | Ok m => (Ok (Some m), Some (keyPrefix apiKey, m))
      end
  end.

(** The second phase: the pipeline, whose error is ignored. *)
Definition cacheConnector (now : Z) (prefix : string) (m : gmap string json) (rdb : option R) : option R :=
  match rdb with
  | None => None
  | Some r =>
      Some (pipe_then (fun r => rset now r (hashKey prefix) (RText (get_string (Some m) "api_key_hash")) apiKeyTTL)
              (fun r => rset now r (dataKey prefix) (RDoc (JObj (map_to_list m))) apiKeyTTL) r).1
  end.

Definition ValidateAPIKey (ctxOrg : string) (now : Z) (conn : S) (f : Faults) (apiKey : string) (db : RegDB)
  (rdb : option R) : option R * res gomap :=
  match validateKey ctxOrg now conn f apiKey db rdb with
  | (r, Some (prefix, m)) => (cacheConnector now prefix m rdb, r)
  | (r, None) => (rdb, r)
  end.

(** What [SuspendConnector] and [DeleteConnector] do first. *)
Definition uncache (now : Z) (prefix : string) (r : R) : R * option goerr :=
  pipe_then (fun r => rdel now r [hashKey prefix]) (fun r => rdel now r [dataKey prefix]) r.

Definition invalidate (ctxOrg : string) (now : Z) (conn : S) (f : Faults) (id : string) (db : RegDB) (rdb : option R)
  : option R :=
  match GetConnectorByID ctxOrg conn f id db, rdb with
  | Ok m, Some r => Some (uncache now (get_string (Some m) "api_key_prefix") r).1
  | _, _ => rdb
  end.

Definition DeleteConnector (ctxOrg : string) (now : Z) (c1 c2 : S) (f1 f2 : Faults) (id : string) (db : RegDB)
  (rdb : option R) : RegDB * option R * res unit :=
  let rdb := invalidate ctxOrg now c1 f1 id db rdb in
  let '(db, r) := DeleteConnectorRow ctxOrg c2 f2 id db in (db, rdb, r).

Definition SuspendConnector (ctxOrg : string) (now : Z) (c1 c2 : S) (f1 f2 : Faults) (id : string) (db : RegDB)
  (rdb : option R) : RegDB * option R * res unit :=
  let rdb := invalidate ctxOrg now c1 f1 id db rdb in
  let '(db, r) := UpdateStatus ctxOrg c2 f2 now id "suspended" db in (db, rdb, r).

(** ** Handlers *)

Record RegisterBody := mkRegisterBody {
  gbID : string; gbOrgID : string; gbName : string; gbURIs : option (list string);
}.

Definition dec_uris (j : json) : res (option (list string)) :=
  match j with JNull => Ok None | _ => l <-? dec_strings [] j; Ok (Some l) end.

Definition upd_register (k : string) (b : RegisterBody) (j : json) : res RegisterBody :=
  let '(mkRegisterBody i o n u) := b in
  if key_is "id" k then v <-? dec_string i j; Ok (mkRegisterBody v o n u)
  else if key_is "org_id" k then v <-? dec_string o j; Ok (mkRegisterBody i v n u)
  else if key_is "name" k then v <-? dec_string n j; Ok (mkRegisterBody i o v u)
  else if key_is "redirect_uris" k then v <-? dec_uris j; Ok (mkRegisterBody i o n v)
  else Ok b.

Definition plainError (msg : string) (code : Z) : Response := mkResponse code [] (JStr msg).

(** [ctxOrg] is the tenant of the request's token. *)
Definition HandleRegister (ctxOrg : string) (now : Z) (env : RegisterEnv S) (b : raw) (db : RegDB) : RegDB * Response :=
  match decode_body upd_register (mkRegisterBody "" "" "" None) b with
  | Err e => (db, plainError (error_text e) StatusBadRequest)
  | Ok body =>
      match RegisterConnector ctxOrg now env (gbID body) (gbOrgID body) (gbName body) (gbURIs body) db with
      | (db, Err e) => (db, plainError (error_text e) StatusInternalServerError)
      | (db, Ok key) => (db, writeJSON [] StatusCreated (JObj [("id", JStr (gbID body)); ("api_key", JStr key)]))
      end
  end.

Definition gomapDoc (m : gomap) : json := match m with Some m => JObj (map_to_list m) | None => JNull end.

Definition HandleValidate (ctxOrg : string) (now : Z) (conn : S) (f : Faults) (hs : list (string * string)) (db : RegDB)
  (rdb : option R) : option R * Response :=
  let apiKey := header_get "X-API-Key" hs in
  if apiKey =s? "" then (rdb, plainError "missing x-api-key header" StatusUnauthorized)
  else match ValidateAPIKey ctxOrg now conn f apiKey db rdb with
  | (rdb, Err e) => (rdb, plainError (error_text e) StatusUnauthorized)
  | (rdb, Ok m) => (rdb, writeJSON [] StatusOK (gomapDoc m))
  end.

(** ** The service *)

Record Reg := mkReg {
  rgDB : RegDB;
  rgRedis : option R;
  rgNow : Z;
  rgPending : list (string * gmap string json);       (* connectors read and not cached yet *)
}.

(** The rest of the world may change Redis, but not write the keys of the cache. *)
Definition foreign_change (now : Z) (r r' : R) : Prop :=
  forall t p k, (now <= t)%Z -> k = hashKey p \/ k = dataKey p -> rview t r' k = rview t r k \/ rview t r' k = None.

(** One step; the label is the connector that is deleted, if one is. *)
Inductive reg_step : option string -> Reg -> Reg -> Prop :=
| rs_time now' db rdb now l : (now <= now')%Z -> reg_step None (mkReg db rdb now l) (mkReg db rdb now' l)
| rs_redis r r' db now l : foreign_change now r r' -> reg_step None (mkReg db (Some r) now l) (mkReg db (Some r') now l)
| rs_register ctxOrg env b db rdb now l :
    reg_step None (mkReg db rdb now l) (mkReg (HandleRegister ctxOrg now env b db).1 rdb now l)
| rs_validate ctxOrg conn f apiKey db rdb now l :
    reg_step None (mkReg db rdb now l)
      (mkReg db rdb now (match (validateKey ctxOrg now conn f apiKey db rdb).2 with Some c => l ++ [c] | None => l end))
| rs_cache l1 p m l2 db rdb now :
    reg_step None (mkReg db rdb now (l1 ++ (p, m) :: l2)) (mkReg db (cacheConnector now p m rdb) now (l1 ++ l2))
| rs_stop l1 c l2 db rdb now : reg_step None (mkReg db rdb now (l1 ++ c :: l2)) (mkReg db rdb now (l1 ++ l2))
| rs_invalidate ctxOrg conn f id db rdb now l :
    reg_step None (mkReg db rdb now l) (mkReg db (invalidate ctxOrg now conn f id db rdb) now l)
| rs_suspend ctxOrg conn f id db rdb now l :
    reg_step None (mkReg db rdb now l) (mkReg (UpdateStatus ctxOrg conn f now id "suspended" db).1 rdb now l)
| rs_delete ctxOrg conn f id db rdb now l :
    reg_step (Some id) (mkReg db rdb now l) (mkReg (DeleteConnectorRow ctxOrg conn f id db).1 rdb now l).
End registry.
Arguments mkRegisterEnv {C} _ _ _ _ _ _.
Arguments geKey {C} _.
Arguments geFallback {C} _.
Arguments geSalt {C} _.
Arguments geSecret {C} _.
Arguments geConn {C} _.
Arguments geFaults {C} _.

(** ** Properties *)

Lemma members_map_to_list (m : gmap string json) : members_map (map_to_list m) = m.
Proof.
  unfold members_map. rewrite <- fold_left_rev_right.
  transitivity (list_to_map (M := gmap string json) (rev (map_to_list m))).
  - induction (rev (map_to_list m)) as [|[k x] l IH]; simpl; [done|by rewrite IH].
  - rewrite (list_to_map_proper _ (map_to_list m)); [apply list_to_map_to_list| |].
    + apply (NoDup_Permutation_proper _ (map_to_list m).*1); [|apply NoDup_fst_map_to_list].
      by rewrite <- Permutation_rev.
    + by rewrite <- Permutation_rev.
Qed.

Lemma length_substring n s : String.length (String.substring 0 n s) = Nat.min n (String.length s).
Proof. revert n. induction s as [|c s IH]; intros [|n]; simpl; [done..|]. by rewrite IH. Qed.

Lemma find_snoc {A} (p : A -> bool) l x :
  (forall y, In y l -> p y = false) -> List.find p (l ++ [x]) = if p x then Some x else None.
Proof.
  induction l as [|y l IH]; simpl; intros Hl; [done|]. rewrite (Hl y) by auto. apply IH. auto.
Qed.

Section properties.
Context {S : Type} `{PgSessionLaws S} {R : Type} `{RedisLaws R} `{Kdf}.
Context (pgUUID : uuidCast) (pgxArray : option (list string) -> option (list string)) (ro : role)
        (statusColumn : option string) (timeDoc : Z -> json) (b64url : string -> string).
#[local] Notation find_by_prefix := (FindByPrefix pgUUID ro statusColumn).
#[local] Notation get_connector := (GetConnectorByID pgUUID ro statusColumn timeDoc).
#[local] Notation validate_db := (validateDB pgUUID ro statusColumn).
#[local] Notation validate_key := (validateKey pgUUID ro statusColumn).
#[local] Notation validate := (ValidateAPIKey pgUUID ro statusColumn).
#[local] Notation register := (RegisterConnector pgUUID pgxArray ro statusColumn b64url).
#[local] Notation suspend := (SuspendConnector pgUUID ro statusColumn timeDoc).
#[local] Notation step := (reg_step pgUUID pgxArray ro statusColumn timeDoc b64url).

(** *** Redis *)

Lemma rset_view now r k v ttl r' e t k' :
  rset now r k v ttl = (r', e) -> (now <= t)%Z ->
  rview t r' k' = rview t r k' \/ (k' = k /\ rview t r' k' = if (t <? now + ttl)%Z then Some (RStr v) else None).
Proof.
  intros [Ha|[_ Ha]]%rset_applied Ht; unfold view_of in Ha; rewrite Ha by done; [|by left].
  unfold view_set. destruct (decide (k' = k)) as [->|]; auto.
Qed.

Lemma rdel_view now r ks r' e t k :
  rdel now r ks = (r', e) -> (now <= t)%Z -> rview t r' k = rview t r k \/ rview t r' k = None.
Proof.
  intros [Ha|[_ Ha]]%rdel_applied Ht; unfold view_of in Ha; rewrite Ha by done; [|by left].
  unfold view_del. destruct (decide (k ∈ ks)); auto.
Qed.

Lemma uncache_view now p r t k :
  (now <= t)%Z -> rview t (uncache now p r).1 k = rview t r k \/ rview t (uncache now p r).1 k = None.
Proof.
  intros Ht. unfold uncache, pipe_then. destruct (rdel now r _) as [r1 e1] eqn:E1.
  destruct (rdel now r1 _) as [r2 e2] eqn:E2. simpl.
  destruct (rdel_view _ _ _ _ _ t k E2 Ht) as [->| ->]; [|by right]. by eapply rdel_view.
Qed.

Lemma keys_apart p q : hashKey p <> dataKey q.
Proof. intros E. apply (append_inv_head "apikey:" ("hash:" +:+ p) ("data:" +:+ q)) in E. discriminate. Qed.
Lemma hashKey_inj p q : hashKey p = hashKey q -> p = q.
Proof. apply append_inv_head. Qed.
Lemma dataKey_inj p q : dataKey p = dataKey q -> p = q.
Proof. apply append_inv_head. Qed.

(** What the pipeline can leave under each key of the cache. *)
Lemma cacheConnector_view now p m r t k :
  (now <= t)%Z ->
  exists r', cacheConnector now p m (Some r) = Some r' /\
    (rview t r' k = rview t r k \/ rview t r' k = None \/
     ((t < now + apiKeyTTL)%Z /\
      ((k = hashKey p /\ rview t r' k = Some (RStr (RText (get_string (Some m) "api_key_hash")))) \/
       (k = dataKey p /\ rview t r' k = Some (RStr (RDoc (JObj (map_to_list m)))))))).
Proof.
  intros Ht. unfold cacheConnector, pipe_then.
  destruct (rset now r _ _ _) as [r1 e1] eqn:E1. destruct (rset now r1 _ _ _) as [r2 e2] eqn:E2.
  exists r2. split; [done|].
  destruct (rset_view _ _ _ _ _ _ _ t k E2 Ht) as [->|[-> ->]].
  - destruct (rset_view _ _ _ _ _ _ _ t k E1 Ht) as [->|[-> ->]]; [by left|].
    destruct (Z.ltb_spec t (now + apiKeyTTL)); [|by auto]. right. right. auto.
  - destruct (Z.ltb_spec t (now + apiKeyTTL)); [|by auto]. right. right. auto.
Qed.

(** *** The repository *)

Lemma withConn_read {A} ctxOrg conn f (fn : S -> RegDB -> res A) db :
  (withConn ctxOrg conn f (fun sess db => (db, fn sess db)) db).1 = db.
Proof.
  unfold withConn. destruct (ctxOrg =s? ""); [done|]. destruct (fAcquire f); [done|].
  by destruct (SetSessionVar _ _ _) as [? []].
Qed.

Lemma withConn_ok {A} ctxOrg conn f (fn : S -> RegDB -> RegDB * res A) db db' a :
  withConn ctxOrg conn f fn db = (db', Ok a) ->
  ctxOrg <> "" /\ fAcquire f = None /\ fSet f = None /\
  fn (pg_set_config conn app_org ctxOrg true) db = (db', Ok a).
Proof.
  unfold withConn. destruct (String.eqb_spec ctxOrg ""); [done|]. destruct (fAcquire f); [done|].
  destruct (fSet f); simpl; [done|auto].
Qed.

Lemma selectOne_ok sess f p db r :
  selectOne pgUUID ro statusColumn sess f p db = Ok r -> In r (rgRows db) /\ p r = true /\ statusColumn <> None.
Proof.
  unfold selectOne. destruct (fQuery f); [done|]. destruct statusColumn; [|done].
  intros (vis & _ & Hf)%res_bind_ok. destruct (List.find _ _) as [r'|] eqn:E; [|done]. injection Hf as ->.
  apply find_some in E as [Hin Hp]. by apply andb_prop in Hp as [Hp _].
Qed.

Lemma orNotFound_ok {A} (x : res A) a : orNotFound x = Ok a -> x = Ok a.
Proof. unfold orNotFound. destruct x; [done|]. by destruct (errors_is _ _). Qed.

Lemma connectorMap_hash r h : get_string (Some (connectorMap r h)) "api_key_hash" = h.
Proof. reflexivity. Qed.
Lemma connectorMap_status r h : isSuspended (Some (connectorMap r h)) = (crStatus r =s? "suspended").
Proof. reflexivity. Qed.

Lemma FindByPrefix_ok ctxOrg conn f p db m :
  find_by_prefix ctxOrg conn f p db = Ok m ->
  exists row h, In row (rgRows db) /\ crPrefix row = Some p /\ crHash row = Some h /\ m = connectorMap row h /\
    statusColumn <> None.
Proof.
  unfold FindByPrefix. intros Hx%orNotFound_ok. destruct (withConn _ _ _ _ _) as [d x] eqn:E. simpl in Hx. subst x.
  apply withConn_ok in E as (_ & _ & _ & [= _ Hr]).
  apply res_bind_ok in Hr as (row & (Hin & Hp & Hs)%selectOne_ok & Hr). bool_to_prop.
  apply res_bind_ok in Hr as (h & Hh & [= <-]). unfold scanString in Hh. destruct (crHash row) as [h'|] eqn:Eh; [|done].
  injection Hh as ->. by exists row, h.
Qed.

Lemma validateDB_ok ctxOrg conn f key db m :
  validate_db ctxOrg conn f key db = Ok m ->
  exists row h, In row (rgRows db) /\ crPrefix row = Some (keyPrefix key) /\ crHash row = Some h /\ m = connectorMap row h /\
    VerifyPBKDF2 key h = true /\ crStatus row <> "suspended" /\ statusColumn <> None.
Proof.
  unfold validateDB. intros (m' & (row & h & Hin & Hp & Hh & -> & Hs)%FindByPrefix_ok & Hx)%res_bind_ok.
  rewrite connectorMap_hash, connectorMap_status in Hx. destruct (VerifyPBKDF2 key h) eqn:Ev; [|done]. simpl in Hx.
  destruct (String.eqb_spec (crStatus row) "suspended"); [done|]. injection Hx as <-. by exists row, h.
Qed.

(** *** What the cache holds *)

(** The instants and databases that a run went through. *)
Definition history : Type := list (Z * RegDB).

(** An active connector with the prefix was in the table, and was cached less
    than five minutes before [t]. *)
Definition backed (hist : history) (now t : Z) (p : string) (row : ConnectorRow) : Prop :=
  exists tr tw db, In (tr, db) hist /\ In row (rgRows db) /\ crPrefix row = Some p /\ crStatus row <> "suspended" /\
    (tr <= tw <= now)%Z /\ (t < tw + apiKeyTTL)%Z.

Definition cache_inv (hist : history) (now : Z) (r : R) : Prop :=
  forall t p, (now <= t)%Z ->
    (forall d, rview t r (hashKey p) = Some d ->
       exists row h, d = RStr (RText h) /\ crHash row = Some h /\ backed hist now t p row) /\
    (forall d, rview t r (dataKey p) = Some d ->
       exists row h, d = RStr (RDoc (JObj (map_to_list (connectorMap row h)))) /\ crHash row = Some h /\
         backed hist now t p row).

(** A connector that was read from the table and waits to be cached. *)
Definition was_read (hist : history) (now : Z) (c : string * gmap string json) : Prop :=
  exists row h tr db, c.2 = connectorMap row h /\ crHash row = Some h /\ In (tr, db) hist /\ In row (rgRows db) /\
    crPrefix row = Some c.1 /\ crStatus row <> "suspended" /\ (tr <= now)%Z.

Definition cold (now : Z) (rdb : option R) : Prop :=
  forall r, rdb = Some r -> forall t p, (now <= t)%Z -> rview t r (hashKey p) = None /\ rview t r (dataKey p) = None.

(** Runs of the service from a cold cache. *)
Inductive reg_trace : history -> Reg (R := R) -> Prop :=
| rt_start db rdb now : cold now rdb -> reg_trace [(now, db)] (mkReg db rdb now [])
| rt_step hist lbl st st' :
    reg_trace hist st -> step lbl st st' -> reg_trace ((rgNow st', rgDB st') :: hist) st'.

Lemma backed_more hist now now' t t' p row e :
  backed hist now t p row -> (now <= now')%Z -> (t' <= t)%Z -> backed (e :: hist) now' t' p row.
Proof. intros (tr & tw & db & Hin & ? & ? & ? & ? & ?) ? ?. exists tr, tw, db. split; [by right|]. repeat split; auto; lia. Qed.

Lemma was_read_more hist now now' c e : was_read hist now c -> (now <= now')%Z -> was_read (e :: hist) now' c.
Proof. intros (row & h & tr & db & ? & ? & ? & ? & ? & ? & ?) ?. exists row, h, tr, db. repeat split; auto; [by right|lia]. Qed.

(** A change of Redis that writes no key of the cache keeps the invariant. *)
Lemma cache_inv_weaken hist now now' r r' e :
  cache_inv hist now r -> (now <= now')%Z ->
  (forall t k p, (now' <= t)%Z -> k = hashKey p \/ k = dataKey p -> rview t r' k = rview t r k \/ rview t r' k = None) ->
  cache_inv (e :: hist) now' r'.
Proof.
  intros Hi Hle Hv t p Ht. destruct (Hi t p ltac:(lia)) as [Hh Hd]. split; intros d Hr.
  - destruct (Hv t (hashKey p) p Ht ltac:(by left)) as [E|E]; rewrite E in Hr; [|done].
    apply Hh in Hr as (row & h & ? & ? & Hb). exists row, h. split; [done|]. split; [done|]. by eapply backed_more; [exact Hb| |].
  - destruct (Hv t (dataKey p) p Ht ltac:(by right)) as [E|E]; rewrite E in Hr; [|done].
    apply Hd in Hr as (row & h & ? & ? & Hb). exists row, h. split; [done|]. split; [done|]. by eapply backed_more; [exact Hb| |].
Qed.

Lemma cache_inv_write hist now r p m e :
  cache_inv hist now r -> was_read hist now (p, m) ->
  exists r', cacheConnector now p m (Some r) = Some r' /\ cache_inv (e :: hist) now r'.
Proof.
  intros Hi (row & h & tr & db & Hm & Hh & Hin & Hrow & Hp & Hs & Hle). simpl in Hm, Hp. subst m.
  destruct (cacheConnector_view now p (connectorMap row h) r now "" ltac:(lia)) as (r' & Hr' & _).
  exists r'. split; [done|]. intros t q Ht.
  assert (Hb : (t < now + apiKeyTTL)%Z -> backed (e :: hist) now t p row).
  { intros Hlt. exists tr, now, db. split; [by right|]. repeat split; auto; lia. }
  assert (Hv : forall k, rview t r' k = rview t r k \/ rview t r' k = None \/
     ((t < now + apiKeyTTL)%Z /\
      ((k = hashKey p /\ rview t r' k = Some (RStr (RText h))) \/
       (k = dataKey p /\ rview t r' k = Some (RStr (RDoc (JObj (map_to_list (connectorMap row h))))))))).
  { intros k. destruct (cacheConnector_view now p (connectorMap row h) r t k Ht) as (r2 & Hr2 & Hv).
    rewrite Hr' in Hr2. injection Hr2 as <-. exact Hv. }
  destruct (Hi t q Ht) as [Hh0 Hd0]. split; intros d Hd.
  - destruct (Hv (hashKey q)) as [E|[E|[Hlt [[Ek E]|[Ek _]]]]]; rewrite ?E in Hd; [|done| |by apply keys_apart in Ek].
    + apply Hh0 in Hd as (row' & h' & ? & ? & Hb'). exists row', h'. split; [done|]. split; [done|].
      by eapply backed_more; [exact Hb'| |].
    + apply hashKey_inj in Ek as ->. injection Hd as <-. exists row, h. auto.
  - destruct (Hv (dataKey q)) as [E|[E|[Hlt [[Ek _]|[Ek E]]]]]; rewrite ?E in Hd; [|done|by symmetry in Ek; apply keys_apart in Ek|].
    + apply Hd0 in Hd as (row' & h' & ? & ? & Hb'). exists row', h'. split; [done|]. split; [done|].
      by eapply backed_more; [exact Hb'| |].
    + apply dataKey_inj in Ek as ->. injection Hd as <-. exists row, h. auto.
Qed.

Lemma validateKey_read ctxOrg now conn f key db rdb res c :
  validate_key ctxOrg now conn f key db rdb = (res, Some c) ->
  exists m, res = Ok (Some m) /\ c = (keyPrefix key, m) /\ validate_db ctxOrg conn f key db = Ok m.
Proof.
  unfold validateKey. destruct (_ <? _); [done|]. destruct (validateCached _ _ _); [done|].
  destruct (validateDB _ _ _ _ _ _ _ _) as [m|]; [|done]. intros [= <- <-]. by exists m.
Qed.

Lemma invalidate_view ctxOrg now conn f id db r :
  exists r', invalidate pgUUID ro statusColumn timeDoc ctxOrg now conn f id db (Some r) = Some r' /\
    forall t k, (now <= t)%Z -> rview t r' k = rview t r k \/ rview t r' k = None.
Proof.
  unfold invalidate. destruct (GetConnectorByID _ _ _ _ _ _ _ _ _) as [m|e]; [|by eauto].
  eexists. split; [reflexivity|]. intros t k Ht. by apply uncache_view.
Qed.

(** The invariant of a run. *)
Record reg_inv (hist : history) (st : Reg (R := R)) : Prop := mkRegInv {
  ri_now : In (rgNow st, rgDB st) hist;
  ri_pending : Forall (was_read hist (rgNow st)) (rgPending st);
  ri_cache : forall r, rgRedis st = Some r -> cache_inv hist (rgNow st) r;
}.

Lemma pending_more hist now now' l e : Forall (was_read hist now) l -> (now <= now')%Z -> Forall (was_read (e :: hist) now') l.
Proof. intros Hl Hle. eapply Forall_impl; [exact Hl|]. intros c Hc. by eapply was_read_more. Qed.

Lemma reg_inv_step hist lbl st st' :
  reg_inv hist st -> step lbl st st' -> reg_inv ((rgNow st', rgDB st') :: hist) st'.
Proof.
  intros [Hn Hp Hc] Hs. destruct Hs; simpl in *.
  - split; simpl; [by left|by eapply pending_more|]. intros r Hr. eapply cache_inv_weaken; [by apply Hc|done|by left].
  - split; simpl; [by left|by eapply pending_more|]. intros r2 [= <-].
    eapply cache_inv_weaken; [by apply Hc|lia|]. intros t k p Ht Hk.
    match goal with Hf : foreign_change _ _ _ |- _ => by eapply Hf end.
  - split; simpl; [by left|by eapply pending_more|]. intros r Hr. eapply cache_inv_weaken; [by apply Hc|lia|by left].
  - split; simpl; [by left| |intros r Hr; eapply cache_inv_weaken; [by apply Hc|lia|by left]].
    destruct (validateKey _ _ _ _ _ _ _ _ _ _) as [res [c|]] eqn:E; simpl; [|by eapply pending_more].
    apply Forall_app. split; [by eapply pending_more|]. constructor; [|constructor].
    apply validateKey_read in E as (m & _ & -> & (row & h & Hin & Hpr & Hh & -> & _ & Hst & _)%validateDB_ok).
    exists row, h, now, db. simpl. repeat split; auto; lia.
  - apply Forall_app in Hp as [Hp1 Hp2]. inversion Hp2 as [|? ? Hx Hp3]; subst.
    split; simpl; [by left|apply Forall_app; split; by eapply pending_more|].
    intros r' Hr'. destruct rdb as [r|]; [|done].
    destruct (cache_inv_write hist now r p m (now, db) (Hc r eq_refl) Hx) as (r2 & E & Hi). by rewrite E in Hr'; injection Hr' as <-.
  - apply Forall_app in Hp as [Hp1 Hp2]. inversion Hp2 as [|? ? Hx Hp3]; subst.
    split; simpl; [by left|apply Forall_app; split; by eapply pending_more|].
    intros r Hr. eapply cache_inv_weaken; [by apply Hc|lia|by left].
  - split; simpl; [by left|by eapply pending_more|]. intros r' Hr'. destruct rdb as [r|];
      [|unfold invalidate in Hr'; by destruct (GetConnectorByID _ _ _ _ _ _ _ _ _)].
    destruct (invalidate_view ctxOrg now conn f id db r) as (r2 & E & Hv). rewrite E in Hr'. injection Hr' as <-.
    eapply cache_inv_weaken; [by apply Hc|lia|]. intros t k p Ht _. by apply Hv.
  - split; simpl; [by left|by eapply pending_more|]. intros r Hr. eapply cache_inv_weaken; [by apply Hc|lia|by left].
  - split; simpl; [by left|by eapply pending_more|]. intros r Hr. eapply cache_inv_weaken; [by apply Hc|lia|by left].
Qed.

Lemma reg_trace_inv hist st : reg_trace hist st -> reg_inv hist st.
Proof.
  induction 1 as [db rdb now Hcold|hist lbl st st' _ IH Hs]; [|by eapply reg_inv_step].
  split; simpl; [by left|constructor|]. intros r -> t p Ht. destruct (Hcold r eq_refl t p Ht) as [-> ->]. done.
Qed.

Lemma ValidateAPIKey_result ctxOrg now conn f key db rdb :
  (validate ctxOrg now conn f key db rdb).2 = (validate_key ctxOrg now conn f key db rdb).1.
Proof. unfold ValidateAPIKey. by destruct (validateKey _ _ _ _ _ _ _ _ _ _) as [? [[? ?]|]]. Qed.

Lemma validateCached_ok hist now key r m :
  cache_inv hist now r -> validateCached now key (Some r) = Some (Ok m) ->
  exists row1 h1 row2 h2, crHash row1 = Some h1 /\ VerifyPBKDF2 key h1 = true /\ backed hist now now (keyPrefix key) row1 /\
    crHash row2 = Some h2 /\ m = Some (connectorMap row2 h2) /\ backed hist now now (keyPrefix key) row2.
Proof.
  intros Hi. unfold validateCached. destruct (Hi now (keyPrefix key) ltac:(lia)) as [Hh Hd].
  destruct (rget now r (hashKey _)) as [[h|]|] eqn:E1; try done. apply rget_ok in E1.
  apply Hh in E1 as (row1 & h1 & [= ->] & Hh1 & Hb1). simpl. destruct (VerifyPBKDF2 key h1) eqn:Ev; [|done].
  destruct (rget now r (dataKey _)) as [[d|]|] eqn:E2; try done. apply rget_ok in E2.
  apply Hd in E2 as (row2 & h2 & [= ->] & Hh2 & Hb2). simpl. rewrite members_map_to_list.
  destruct (isSuspended _); [done|]. intros [= <-]. by exists row1, h1, row2, h2.
Qed.

(** C24: What a validated key means, over all interleavings of registrations,
    validations, suspensions and deletions and whatever fails: a connector with
    the key's prefix was active in the table, its hash accepts the key, and the
    answer describes a connector that was active under that prefix, each cached
    less than five minutes ago. *)
Theorem validated_key_vouched hist st ctxOrg conn f key m rdb' :
  reg_trace hist st -> validate ctxOrg (rgNow st) conn f key (rgDB st) (rgRedis st) = (rdb', Ok m) ->
  exists row1 h1 row2 h2, crHash row1 = Some h1 /\ VerifyPBKDF2 key h1 = true /\
    backed hist (rgNow st) (rgNow st) (keyPrefix key) row1 /\
    crHash row2 = Some h2 /\ m = Some (connectorMap row2 h2) /\
    backed hist (rgNow st) (rgNow st) (keyPrefix key) row2.
Proof.
  intros [Hn _ Hc]%reg_trace_inv Hv%(f_equal snd). rewrite ValidateAPIKey_result in Hv. simpl in Hv.
  unfold validateKey in Hv. destruct (_ <? _); [done|].
  destruct (validateCached _ _ _) as [x|] eqn:Ec.
  - simpl in Hv. subst x. destruct (rgRedis st) as [r|] eqn:Er; [|done]. by eapply validateCached_ok; [apply Hc|].
  - destruct (validateDB _ _ _ _ _ _ _ _) as [m'|] eqn:Ed; [|done]. injection Hv as <-.
    apply validateDB_ok in Ed as (row & h & Hin & Hp & Hh & -> & Hver & Hst & _).
    assert (Hb : backed hist (rgNow st) (rgNow st) (keyPrefix key) row).
    { exists (rgNow st), (rgNow st), (rgDB st). repeat split; auto; unfold apiKeyTTL, Minute, Second, Millisecond; lia. }
    by exists row, h, row, h.
Qed.

(** *** Suspension *)

(** No key with the prefix is accepted any more. *)
Record dead (id p : string) (st : Reg (R := R)) : Prop := mkDead {
  de_row : exists row, In row (rgRows (rgDB st)) /\ crID row = id /\ crPrefix row = Some p;
  de_all : forall row, In row (rgRows (rgDB st)) -> crPrefix row = Some p -> crStatus row = "suspended";
  de_pending : forall c, In c (rgPending st) -> c.1 <> p;
  de_cache : forall r, rgRedis st = Some r -> forall t, (rgNow st <= t)%Z -> rview t r (hashKey p) = None;
}.

(** A statement that is not a query: without effect, or its own. *)
Lemma write_cases {A} ctxOrg conn f (stmt : S -> RegDB -> res (RegDB * A)) db :
  let db' := (withConn ctxOrg conn f (fun sess => autocommit f (stmt sess)) db).1 in
  db' = db \/ exists sess a, stmt sess db = Ok (db', a).
Proof.
  cbv zeta. unfold withConn, autocommit. destruct (ctxOrg =s? ""); [by left|]. destruct (fAcquire f); [by left|].
  destruct (SetSessionVar _ _ _) as [s [e|]]; [by left|]. destruct (fQuery f); [by left|].
  destruct (stmt s db) as [[d a]|e] eqn:E; [|by left]. right. by exists s, a.
Qed.

(** The rows behind a registration. *)
Lemma HandleRegister_rows ctxOrg env now b db :
  let db' := (HandleRegister pgUUID pgxArray ro statusColumn b64url ctxOrg now env b db).1 in
  rgRows db' = rgRows db \/
  exists row p, rgRows db' = rgRows db ++ [row] /\ crPrefix row = Some p /\
    forall x, In x (rgRows db) -> crPrefix x <> Some p.
Proof.
  cbv zeta. unfold HandleRegister. destruct (decode_body _ _ _) as [body|e]; [|by left]. unfold RegisterConnector, CreateConnector.
  set (key := generateAPIKey _ _ _).
  pose proof (write_cases ctxOrg (geConn env) (geFaults env) (fun sess =>
    insert_connector pgUUID pgxArray ro statusColumn sess now (gbID body) (gbOrgID body) (gbName body)
      (GenerateRandomString b64url 32 (geSecret env)) (gbURIs body) (keyPrefix key) (HashPBKDF2 (geSalt env) key)) db) as Hw.
  cbv beta zeta in Hw. destruct (withConn _ _ _ _ _) as [d r].
  assert (Hd : rgRows d = rgRows db \/ exists row p, rgRows d = rgRows db ++ [row] /\ crPrefix row = Some p /\
    forall x, In x (rgRows db) -> crPrefix x <> Some p); [|by destruct r].
  destruct Hw as [E|(sess & u & E)]; simpl in E; [left; by rewrite E|].
  unfold insert_connector in E. apply res_bind_ok in E as (org & _ & E). apply res_bind_ok in E as (vis & _ & E).
  destruct (negb _); [done|]. destruct (pgxArray _) as [us|]; [|done]. destruct (existsb _ (rgRows db)) eqn:Ex; [done|].
  destruct (negb _); [done|]. injection E as <- _. right. eexists _, _. split; [reflexivity|]. split; [reflexivity|].
  intros x Hx Hp. apply not_true_iff_false in Ex. apply Ex, existsb_In. exists x. split; [done|].
  rewrite bool_decide_true by done. by rewrite orb_true_r.
Qed.

Lemma dead_step id p lbl st st' : lbl <> Some id -> step lbl st st' -> dead id p st -> dead id p st'.
Proof.
  intros Hl Hs [(row & Hin & Hid & Hp) Ha Hpe Hc].
  destruct Hs as [now' db rdb now l Hle|r r' db now l Hf|ctxOrg env b db rdb now l|ctxOrg conn f key db rdb now l
    |l1 q m l2 db rdb now|l1 c l2 db rdb now|ctxOrg conn f id' db rdb now l|ctxOrg conn f id' db rdb now l
    |ctxOrg conn f id' db rdb now l]; simpl in *.
  - split; simpl; [by exists row|done..|]. intros r Hr t Ht. apply Hc; [done|lia].
  - split; simpl; [by exists row|done..|]. intros r2 [= <-] t Ht.
    destruct (Hf t p (hashKey p) Ht ltac:(by left)) as [->|]; [by apply Hc|done].
  - destruct (HandleRegister_rows ctxOrg env now b db) as [E|(nrow & q & E & Hq & Hu)]; split; simpl; rewrite ?E; try done.
    + by exists row.
    + exists row. split; [apply in_or_app; by left|done].
    + intros x [Hx|[<-|[]]]%in_app_or Hxp; [by apply Ha|]. rewrite Hq in Hxp. injection Hxp as ->. by destruct (Hu row).
  - split; simpl; [by exists row|done| |done]. destruct (validateKey _ _ _ _ _ _ _ _ _ _) as [res [c|]] eqn:E; simpl; [|done].
    intros c' [Hc'|[<-|[]]]%in_app_or; [by apply Hpe|].
    apply validateKey_read in E as (m & _ & -> & (r & h & Hr & Hrp & _ & _ & _ & Hst & _)%validateDB_ok). simpl. intros <-.
    by apply Hst, Ha.
  - split; simpl; [by exists row|done| |].
    + intros c Hx. apply Hpe. apply in_app_or in Hx as [?|?]; apply in_or_app; [by left|right; by right].
    + intros r' Hr' t Ht. destruct rdb as [r|]; [|done].
      destruct (cacheConnector_view now q m r t (hashKey p) Ht) as (r2 & E & Hv). rewrite E in Hr'. injection Hr' as <-.
      destruct Hv as [->|[->|[_ [[Ek _]|[Ek _]]]]]; [by apply Hc|done| |by apply keys_apart in Ek].
      apply hashKey_inj in Ek as ->. exfalso. apply (Hpe (q, m)); [|done]. apply in_or_app. right. by left.
  - split; simpl; [by exists row|done| |done].
    intros x Hx. apply Hpe. apply in_app_or in Hx as [?|?]; apply in_or_app; [by left|right; by right].
  - split; simpl; [by exists row|done|done|]. intros r' Hr' t Ht. destruct rdb as [r|];
      [|unfold invalidate in Hr'; by destruct (GetConnectorByID _ _ _ _ _ _ _ _ _)].
    destruct (invalidate_view ctxOrg now conn f id' db r) as (r2 & E & Hv). rewrite E in Hr'. injection Hr' as <-.
    destruct (Hv t (hashKey p) Ht) as [->|]; [by apply Hc|done].
  - assert (Hd : (UpdateStatus pgUUID ro statusColumn ctxOrg conn f now id' "suspended" db).1 = db \/
      exists p, (UpdateStatus pgUUID ro statusColumn ctxOrg conn f now id' "suspended" db).1 =
        set_regRows (map (fun r => if p r : bool then set_crStatus now "suspended" r else r) (rgRows db)) db).
    { destruct (write_cases ctxOrg conn f (fun sess => update_status pgUUID ro statusColumn sess now id' "suspended") db)
        as [E|(sess & u & E)]; [left; exact E|]. unfold update_status in E at 1. destruct statusColumn; [|done]. apply res_bind_ok in E as (vis & _ & [= E _]). right. eexists. symmetry. exact E. }
    destruct Hd as [->|[b ->]]; [split; simpl; [by exists row|done..]|]. split; simpl; [| |done|done].
    + eexists. split; [by apply in_map|]. destruct (b row); by simpl.
    + intros x (y & <- & Hy)%in_map_iff. destruct (b y); simpl; [done|by apply Ha].
  - assert (Hd : (DeleteConnectorRow pgUUID ro ctxOrg conn f id' db).1 = db \/
      exists vis, (DeleteConnectorRow pgUUID ro ctxOrg conn f id' db).1 =
        set_regRows (List.filter (fun r => negb ((crID r =s? id') && vis r)) (rgRows db)) db).
    { destruct (write_cases ctxOrg conn f (fun sess => delete_connector pgUUID ro sess id') db)
        as [E|(sess & u & E)]; [left; exact E|]. unfold delete_connector in E at 1. apply res_bind_ok in E as (vis & _ & [= E _]). right. exists (fun r => vis (crOrgID r)). symmetry. exact E. }
    destruct Hd as [->|[vis ->]]; [split; simpl; [by exists row|done..]|]. split; simpl; [| |done|done].
    + exists row. split; [|done]. apply filter_In. split; [done|]. destruct (String.eqb_spec (crID row) id'); [congruence|done].
    + intros x [Hx _]%filter_In. by apply Ha.
Qed.

Lemma dead_rejects id p st ctxOrg conn f key :
  dead id p st -> keyPrefix key = p ->
  exists e, (validate ctxOrg (rgNow st) conn f key (rgDB st) (rgRedis st)).2 = Err e.
Proof.
  intros [_ Ha _ Hc] Hk. rewrite ValidateAPIKey_result. unfold validateKey. destruct (_ <? _); [by eexists|].
  destruct (validateCached _ _ _) as [x|] eqn:Ec; simpl.
  - exfalso. unfold validateCached in Ec. destruct (rgRedis st) as [r|] eqn:Er; [|done]. rewrite Hk in Ec.
    destruct (rget _ r (hashKey p)) as [[h|]|] eqn:E1; try done. apply rget_ok in E1.
    by rewrite (Hc r eq_refl (rgNow st) (Z.le_refl _)) in E1.
  - destruct (validateDB _ _ _ _ _ _ _ _) as [m|e] eqn:Ed; simpl; [|by eexists]. exfalso.
    apply validateDB_ok in Ed as (row & h & Hin & Hp & _ & _ & _ & Hst & _). rewrite Hk in Hp. by apply Hst, Ha.
Qed.

(** Prefixes are unique. *)
Definition unique_prefixes (db : RegDB) : Prop :=
  forall x y p, In x (rgRows db) -> In y (rgRows db) -> crPrefix x = Some p -> crPrefix y = Some p -> x = y.

(** Pooled connections of the same role see the same rows. *)
Lemma pooled_filter (c : S) ctxOrg :
  pooled c -> rowFilter pgUUID ro (pg_set_config c app_org ctxOrg true) =
              Ok (match ro with RoleSubject => fun _ => false | RoleBypass => fun _ => true end).
Proof.
  intros [Ht Hs]%pooled_unset. unfold rowFilter, rls_filter. destruct ro; [|done].
  by rewrite pg_set_local_autocommit, Hs by done.
Qed.

Lemma GetConnectorByID_ok ctxOrg (conn : S) f id db m :
  pooled conn -> get_connector ctxOrg conn f id db = Ok m ->
  exists row p, In row (rgRows db) /\ crID row = id /\ crPrefix row = Some p /\
    get_string (Some m) "api_key_prefix" = p /\ ro = RoleBypass /\ statusColumn <> None.
Proof.
  intros Hpo. unfold GetConnectorByID. intros Hx%orNotFound_ok. destruct (withConn _ _ _ _ _) as [d x] eqn:E. simpl in Hx. subst x.
  apply withConn_ok in E as (_ & _ & _ & [= _ Hr]). apply res_bind_ok in Hr as (row & Hs & Hr).
  assert (Hb : ro = RoleBypass).
  { unfold selectOne in Hs. destruct (fQuery f); [done|]. destruct statusColumn; [|done]. rewrite pooled_filter in Hs by done.
    destruct ro; [|done]. simpl in Hs. destruct (List.find _ _) eqn:Ef; [|done]. apply find_some in Ef as [_ Ef].
    by rewrite andb_false_r in Ef. }
  apply selectOne_ok in Hs as (Hin & Hp & Hst). bool_to_prop.
  apply res_bind_ok in Hr as (p & Hpr & Hr). apply res_bind_ok in Hr as (h & _ & [= <-]).
  unfold scanString in Hpr. destruct (crPrefix row) as [p'|] eqn:Ep; [|done]. injection Hpr as ->.
  exists row, p. repeat split; auto.
Qed.

(** What other than the deletion of a connector may happen. *)
Definition reach_without (id : string) : Reg -> Reg -> Prop := rtc (fun a b => exists lbl, lbl <> Some id /\ step lbl a b).

(** A suspension is final.  When a connector was suspended without an error,
    its cache entries were removed, and no validation of its key was under way,
    then no key with its prefix is ever accepted again, whatever happens and
    whatever fails, short of the deletion of the connector. *)
Theorem suspension_sticks ctxOrg (c1 c2 : S) f1 f2 id m st db' rdb' st' ctxOrg' (conn : S) f key :
  pooled c1 -> pooled c2 -> unique_prefixes (rgDB st) ->
  get_connector ctxOrg c1 f1 id (rgDB st) = Ok m ->
  let p := get_string (Some m) "api_key_prefix" in
  (forall r, rgRedis st = Some r -> (uncache (rgNow st) p r).2 = None) ->
  (forall c, In c (rgPending st) -> c.1 <> p) ->
  suspend ctxOrg (rgNow st) c1 c2 f1 f2 id (rgDB st) (rgRedis st) = (db', rdb', Ok tt) ->
  reach_without id (mkReg db' rdb' (rgNow st) (rgPending st)) st' -> keyPrefix key = p ->
  exists e, (validate ctxOrg' (rgNow st') conn f key (rgDB st') (rgRedis st')).2 = Err e.
Proof.
  intros Hp1 Hp2 Hu Hg. cbv zeta. intros Hred Hpend Hs Hreach Hk.
  assert (Hd : dead id (get_string (Some m) "api_key_prefix") (mkReg db' rdb' (rgNow st) (rgPending st))).
  { pose proof (GetConnectorByID_ok _ _ _ _ _ _ Hp1 Hg) as (row & q & Hin & Hid & Hpr & Hq & Hro & Hst).
    rewrite Hq in *. unfold SuspendConnector, invalidate in Hs. rewrite Hg in Hs.
    destruct (UpdateStatus _ _ _ _ _ _ _ _ _ _) as [d x] eqn:Eu. injection Hs as -> Hr ->.
    apply withConn_ok in Eu as (_ & _ & _ & Eu). apply autocommit_ok in Eu. unfold update_status in Eu.
    destruct statusColumn; [|done]. rewrite (pooled_filter c2 ctxOrg Hp2), Hro in Eu. simpl in Eu. injection Eu as <-.
    split; simpl; [| |done|].
    - eexists. split; [by apply in_map|]. rewrite andb_true_r. destruct (crID row =s? id); by simpl.
    - intros x (y & <- & Hy)%in_map_iff Hx. rewrite andb_true_r in *.
      assert (Hyq : crPrefix y = Some q) by (destruct (crID y =s? id); exact Hx).
      rewrite (Hu y row q Hy Hin Hyq Hpr), Hid, String.eqb_refl. done.
    - intros r' -> t Ht. destruct (rgRedis st) as [r|]; [|done]. injection Hr as <-. specialize (Hred r eq_refl).
      rewrite Hq in *. destruct (uncache (rgNow st) q r) as [r2 e] eqn:Ec. simpl in Hred. subst e.
      unfold uncache in Ec. apply pipe_then_ok in Ec as (r1 & E1 & E2). simpl.
      destruct (rdel_view _ _ _ _ _ t (hashKey q) E2 Ht) as [->|]; [|done].
      rewrite (rdel_ok _ _ _ _ E1) by done. unfold view_del. by rewrite decide_True by set_solver. }
  eapply dead_rejects; [|exact Hk]. revert Hd. induction Hreach as [x|x y z (lbl & Hl & Hs') _ IH]; [done|].
  intros Hd. apply IH. by eapply dead_step.
Qed.

(** *** Registration *)

Context `{!KdfLaws}.

(** The key that a registration returns is a key of the connector: without
    failures and with nothing cached under its prefix, validating it answers
    with that connector.  A registration over a pooled connection succeeds only
    when the role is not subject to row-level security. *)
Theorem registered_key_validates ctxOrg now (env : RegisterEnv S) id orgID name uris db db' key rdb ctxOrg' (conn : S) d :
  pooled (geConn env) -> pooled conn -> (forall b, 8 <= String.length (b64url b)) ->
  register ctxOrg now env id orgID name uris db = (db', Ok key) ->
  ro = RoleBypass /\
  (statusColumn = Some d -> d <> "suspended" -> ctxOrg' <> "" ->
   (forall r, rdb = Some r -> rview now r (hashKey (keyPrefix key)) = None) ->
   exists org us hash, pgUUID orgID = Some org /\ pgxArray uris = Some us /\
     (validate ctxOrg' now conn noFaults key db' rdb).2 =
       Ok (Some (connectorMap (mkConnectorRow id org name (GenerateRandomString b64url 32 (geSecret env)) us
                                 (Some (keyPrefix key)) (Some hash) d now now) hash))).
Proof.
  intros Hp Hpc Hb Hr. unfold RegisterConnector in Hr. set (k := generateAPIKey _ _ _) in *.
  destruct (CreateConnector _ _ _ _ _ _ _ _ _ _ _ _ _ _ _ _) as [d1 [u|e]] eqn:Ec; [|done]. injection Hr as -> <-.
  apply withConn_ok in Ec as (_ & _ & _ & Ec). apply autocommit_ok in Ec. unfold insert_connector in Ec.
  apply res_bind_ok in Ec as (org & Horg & Ec). apply res_bind_ok in Ec as (vis & Hv & Ec).
  rewrite pooled_filter in Hv by done. injection Hv as <-.
  assert (Hro : ro = RoleBypass) by (destruct ro; [done|reflexivity]). split; [done|].
  assert (Hvis : forall o, match ro with RoleSubject => fun _ : string => false | RoleBypass => fun _ => true end o = true)
    by (by rewrite Hro). rewrite Hvis in Ec. simpl in Ec. destruct (pgxArray uris) as [us|] eqn:Eu; [|done].
  destruct (existsb _ (rgRows db)) eqn:Ex; [done|]. destruct (negb _); [done|]. injection Ec as <- _.
  intros Hcol Hd Hctx Hcold. exists org, us, (HashPBKDF2 (geSalt env) k).
  unfold uuid_arg in Horg. destruct (pgUUID orgID) as [o|]; [|done]. injection Horg as ->. split; [done|]. split; [done|].
  rewrite ValidateAPIKey_result. unfold validateKey.
  assert (Hlen : (String.length k <? keyPrefixLen) = false).
  { apply Nat.ltb_ge. unfold k, generateAPIKey, keyPrefixLen. destruct (geKey env) as [b|e].
    - rewrite length_append. simpl. specialize (Hb b). lia.
    - rewrite length_append. unfold GenerateRandomString. rewrite length_substring. specialize (Hb (geFallback env)).
      change (String.length "ogk_err_") with 8. lia. }
  rewrite Hlen.
  assert (Hc : validateCached now k rdb = None).
  { unfold validateCached. destruct rdb as [r|]; [|done]. destruct (rget now r _) as [[h|]|] eqn:Eg; try done.
    apply rget_ok in Eg. by rewrite (Hcold r eq_refl) in Eg. }
  rewrite Hc. assert (Hst : default "" statusColumn = d) by (by rewrite Hcol). rewrite Hst.
  set (row := mkConnectorRow _ _ _ _ _ _ _ _ _ _).
  assert (Hf : find_by_prefix ctxOrg' conn noFaults (keyPrefix k)
    (set_regRows (rgRows db ++ [row]) db) = Ok (connectorMap row (HashPBKDF2 (geSalt env) k))).
  { unfold FindByPrefix, withConn. apply String.eqb_neq in Hctx. rewrite Hctx. simpl. unfold selectOne. simpl. rewrite Hcol.
    rewrite pooled_filter by done. simpl. rewrite find_snoc.
    - rewrite Hvis. simpl. by rewrite bool_decide_true by done.
    - intros x Hx. rewrite Hvis, andb_true_r. apply bool_decide_false. intros Hpx. apply not_true_iff_false in Ex. apply Ex.
      apply existsb_In. exists x. split; [done|]. rewrite bool_decide_true by done. by rewrite orb_true_r. }
  unfold validateDB. rewrite Hf. simpl. rewrite connectorMap_hash, connectorMap_status.
  destruct (verify_HashPBKDF2 (geSalt env) k k) as [-> _]. rewrite String.eqb_refl. simpl.
  apply String.eqb_neq in Hd. by rewrite Hd.
Qed.

(** *** The deployed table *)

(** On the table that the migrations create no key is ever accepted: the
    queries name a column that is not there. *)
Lemma migrated_table_accepts_none hist st ctxOrg conn f key :
  statusColumn = None -> reg_trace hist st ->
  exists e, (validate ctxOrg (rgNow st) conn f key (rgDB st) (rgRedis st)).2 = Err e.
Proof.
  intros Hn Ht.
  assert (Hdb : forall o c f k d, exists e, validate_db o c f k d = Err e).
  { intros. destruct (validateDB _ _ _ _ _ _ _ _) as [m|e] eqn:E; [|by eexists].
    by apply validateDB_ok in E as (row & h & _ & _ & _ & _ & _ & _ & Hs). }
  assert (Hinv : rgPending st = [] /\ cold (rgNow st) (rgRedis st)).
  { induction Ht as [db rdb now Hc|hist lbl st st' _ [Hp Hc] Hs]; [done|].
    destruct Hs; simpl in *; try (split; [done|]); try done; try (by destruct l1).
    - intros r Hr t p Ht. apply Hc; [done|lia].
    - intros r2 [= <-] t p Ht. match goal with Hf : foreign_change _ _ _ |- _ => rename Hf into Hfc end.
      destruct (Hc r eq_refl t p Ht) as [H5 H6]. split; [destruct (Hfc t p (hashKey p) Ht ltac:(by left)) as [->|]
        |destruct (Hfc t p (dataKey p) Ht ltac:(by right)) as [->|]]; done.
    - subst l. destruct (validateKey _ _ _ _ _ _ _ _ _ _) as [res [c|]] eqn:E; [|done].
      apply validateKey_read in E as (m & _ & _ & E). destruct (Hdb ctxOrg0 conn0 f0 apiKey db) as [e E']. congruence.
    - intros r' Hr' t p Ht. destruct rdb as [r|]; [|unfold invalidate in Hr'; by destruct (GetConnectorByID _ _ _ _ _ _ _ _ _)].
      destruct (invalidate_view ctxOrg0 now conn0 f0 id db r) as (r2 & E & Hv). rewrite E in Hr'. injection Hr' as <-.
      destruct (Hc r eq_refl t p Ht) as [H5 H6]. split; [destruct (Hv t (hashKey p) Ht) as [->|]|destruct (Hv t (dataKey p) Ht) as [->|]]; done. }
  destruct Hinv as [_ Hc]. rewrite ValidateAPIKey_result. unfold validateKey. destruct (_ <? _); [by eexists|].
  destruct (validateCached _ _ _) as [x|] eqn:Ec.
  - exfalso. unfold validateCached in Ec. destruct (rgRedis st) as [r|]; [|done].
    destruct (rget _ r _) as [[h|]|] eqn:E1; try done. apply rget_ok in E1.
    destruct (Hc r eq_refl (rgNow st) (keyPrefix key) (Z.le_refl _)). congruence.
  - destruct (Hdb ctxOrg conn f key (rgDB st)) as [e ->]. by exists e.
Qed.

(** Nor can a connector be registered when the pool's role is subject to
    row-level security: outside a transaction the tenant is not set. *)
Lemma registration_refused ctxOrg now (env : RegisterEnv S) id orgID name uris db :
  pooled (geConn env) -> ro = RoleSubject ->
  exists e, register ctxOrg now env id orgID name uris db = (db, Err e).
Proof.
  intros Hp Hro. unfold RegisterConnector, CreateConnector, withConn, autocommit.
  destruct (ctxOrg =s? ""); [by eexists|]. destruct (fAcquire _); [by eexists|]. unfold SetSessionVar.
  destruct (fSet _); [by eexists|]. destruct (fQuery _); [by eexists|]. unfold insert_connector.
  destruct (uuid_arg pgUUID orgID) as [org|e]; simpl; [|by eexists]. rewrite pooled_filter by done. rewrite Hro. simpl. by eexists.
Qed.
End properties.

(** ** Witnesses *)

Module RegistryExamples.
Import MiniCrypto.
Definition uuid (s : string) : option string := if s =s? "" then None else Some s.
Definition arr (x : option (list string)) : option (list string) := x.
Definition b64 (s : string) : string := s +:+ "12345678".
Definition env : RegisterEnv MiniPg := mkRegisterEnv (Ok "abcdefghijklmnop") "f" "salt" "secret" pg_fresh noFaults.
Definition conn : MiniPg := pg_fresh.
Definition key : string := "ogk_abcdefghijklmnop12345678".
Definition prefix : string := "ogk_abcdefgh".
Definition hash : string := HashPBKDF2 "salt" key.
Definition row : ConnectorRow :=
  mkConnectorRow "c" "o" "App" "secret12345678" ["https://app"] (Some prefix) (Some hash) "active" 0 0.
Definition db0 : RegDB := mkRegDB ["o"] [].
Definition db1 : RegDB := mkRegDB ["o"] [row].
Definition answer : gmap string json := connectorMap row hash.
Definition cached (now : Z) : option MiniRedis := cacheConnector now prefix answer (Some emptyRedis).
Definition late : Z := (299 * Second)%Z.

#[local] Notation validate now db rdb := (ValidateAPIKey uuid RoleBypass (Some "active") "o" now conn noFaults key db rdb).
#[local] Notation rstep := (reg_step (S := MiniPg) (R := MiniRedis) uuid arr RoleBypass (Some "active") JNum b64).
#[local] Notation rtrace := (reg_trace (S := MiniPg) (R := MiniRedis) uuid arr RoleBypass (Some "active") JNum b64).

Lemma registered : RegisterConnector uuid arr RoleBypass (Some "active") b64 "o" 0 env "c" "o" "App" (Some ["https://app"]) db0 =
  (db1, Ok key).
Proof. reflexivity. Qed.

Lemma key_verifies : VerifyPBKDF2 key hash = true.
Proof. unfold hash. destruct (verify_HashPBKDF2 "salt" key key) as [-> _]. apply String.eqb_refl. Qed.

Lemma row_found : validateDB uuid RoleBypass (Some "active") "o" conn noFaults key db1 = Ok answer.
Proof.
  unfold validateDB. change (FindByPrefix uuid RoleBypass (Some "active") "o" conn noFaults (keyPrefix key) db1) with (Ok answer).
  cbn [res_bind]. unfold answer. by rewrite connectorMap_hash, connectorMap_status, key_verifies.
Qed.

(** What the cache answers, from 0 to 299 seconds. *)
Lemma cache_hit now : (0 <= now <= late)%Z -> (validate now db1 (cached 0)).2 = Ok (Some answer) /\
  forall db, (validate now db (cached 0)).2 = (validate now db1 (cached 0)).2.
Proof.
  intros Hn. unfold late, Second, Millisecond in Hn.
  assert (Hc : validateCached now key (cached 0) = Some (Ok (Some answer))).
  { unfold cached, cacheConnector, pipe_then, validateCached. simpl. unfold mrView, mrPut, mrRead. simpl.
    change (keyPrefix key) with prefix. rewrite lookup_insert_ne by (symmetry; apply keys_apart).
    rewrite !lookup_insert_eq. assert (Hlt : (now <? 0 + apiKeyTTL)%Z = true).
    { apply Z.ltb_lt. unfold apiKeyTTL, Minute, Second, Millisecond. lia. }
    rewrite Hlt. cbn [str_of rval_text rval_raw unmarshal_map]. unfold answer. rewrite connectorMap_hash, key_verifies.
    by rewrite members_map_to_list, connectorMap_status. }
  split; [|intros db]; rewrite !ValidateAPIKey_result; unfold validateKey; by rewrite Hc.
Qed.

Lemma registered_key_validates_witness : exists us h, (validate 0 db1 (Some emptyRedis)).2 =
  Ok (Some (connectorMap (mkConnectorRow "c" "o" "App" "secret12345678" us (Some prefix) (Some h) "active" 0 0) h)).
Proof.
  destruct (registered_key_validates uuid arr RoleBypass (Some "active") b64 "o" 0 env "c" "o" "App"
              (Some ["https://app"]) db0 db1 key (Some emptyRedis) "o" conn "active") as [_ H];
    [constructor|constructor| |exact registered|].
  { intros b. unfold b64. rewrite length_append. simpl. lia. }
  destruct H as (org & us & h & [= <-] & _ & H); [reflexivity|discriminate|discriminate|by intros r [= <-]|].
  exists us, h. exact H.
Defined.

(** *** Steps *)

Lemma read_step : rstep None (mkReg db1 (Some emptyRedis) 0 []) (mkReg db1 (Some emptyRedis) 0 [(prefix, answer)]).
Proof.
  pose proof (rs_validate (S := MiniPg) (R := MiniRedis) uuid arr RoleBypass (Some "active") JNum b64
    "o" conn noFaults key db1 (Some emptyRedis) 0 []) as Hs.
  unfold validateKey in Hs. rewrite row_found in Hs. exact Hs.
Qed.

Lemma cache_step db : rstep None (mkReg db (Some emptyRedis) 0 [(prefix, answer)]) (mkReg db (cached 0) 0 []).
Proof.
  exact (rs_cache (S := MiniPg) (R := MiniRedis) uuid arr RoleBypass (Some "active") JNum b64 [] prefix answer [] db
           (Some emptyRedis) 0).
Qed.

Lemma wait_step db rdb : rstep None (mkReg db rdb 0 []) (mkReg db rdb late []).
Proof. apply (rs_time (S := MiniPg) (R := MiniRedis)). unfold late, Second, Millisecond. lia. Qed.

(** The key is read and cached at 0; the connector is deleted at once; the key
    is still accepted 299 seconds later. *)
Lemma late_trace : exists hist, rtrace hist (mkReg db0 (cached 0) late []).
Proof.
  eexists. eapply rt_step; [|apply wait_step]. eapply rt_step;
    [|exact (rs_delete (S := MiniPg) (R := MiniRedis) uuid arr RoleBypass (Some "active") JNum b64
               "o" conn noFaults "c" db1 (cached 0) 0 [])].
  eapply rt_step; [|apply cache_step]. eapply rt_step; [|apply read_step].
  apply (rt_start (S := MiniPg) (R := MiniRedis)). by intros r [= <-].
Qed.

Lemma validated_key_vouched_witness :
  exists hist row1 h1, crHash row1 = Some h1 /\ VerifyPBKDF2 key h1 = true /\ backed hist late late prefix row1.
Proof.
  destruct late_trace as [hist Ht].
  destruct (validated_key_vouched uuid arr RoleBypass (Some "active") JNum b64 hist _ "o" conn noFaults key
              (Some answer) (validate late db0 (cached 0)).1 Ht) as (row1 & h1 & row2 & h2 & H1 & H2 & H3 & _).
  - destruct (cache_hit late) as [Hv Hd]; [by vm_compute|]. rewrite <- (Hd db0) in Hv. cbn [rgNow rgDB rgRedis].
    destruct (validate late db0 (cached 0)) as [a b]. cbn [fst snd] in *. by rewrite Hv.
  - exists hist, row1, h1. split; [exact H1|]. split; [exact H2|exact H3].
Defined.

(** A suspension that nothing interferes with; then a validation. *)
Definition db2 : RegDB := mkRegDB ["o"] [set_crStatus 1 "suspended" row].
Definition uncached : option MiniRedis := option_map (fun r => (uncache 1 prefix r).1) (cached 0).

Lemma suspension_sticks_witness :
  exists e, (validate 1 db2 uncached).2 = Err e.
Proof.
  eassert (Hg : GetConnectorByID uuid RoleBypass (Some "active") JNum "o" conn noFaults "c" db1 = Ok _) by reflexivity.
  refine (suspension_sticks uuid arr RoleBypass (Some "active") JNum b64 "o" conn conn noFaults noFaults "c" _
           (mkReg db1 (cached 0) 1 []) db2 uncached (mkReg db2 uncached 1 []) "o" conn noFaults key
           _ _ _ Hg _ _ _ (rtc_refl _ _) _).
  - constructor.
  - constructor.
  - intros x y p [<-|[]] [<-|[]]. done.
  - intros r [= <-]. reflexivity.
  - by intros c [].
  - reflexivity.
  - reflexivity.
Defined.

(** The cache is invalidated before the table is updated: a validation in
    between caches the active connector again, and the key of a suspended
    connector is accepted for five minutes more, though nothing failed. *)
Definition db3 : RegDB := mkRegDB ["o"] [set_crStatus 0 "suspended" row].

Lemma suspension_race :
  UpdateStatus uuid RoleBypass (Some "active") "o" conn noFaults 0 "c" "suspended" db1 = (db3, Ok tt) /\
  rtc (fun a b => rstep None a b) (mkReg db1 (Some emptyRedis) 0 []) (mkReg db3 (cached 0) late []) /\
  (validate late db3 (cached 0)).2 = Ok (Some answer).
Proof.
  split; [reflexivity|]. split.
  - eapply rtc_l; [exact (rs_invalidate (S := MiniPg) (R := MiniRedis) uuid arr RoleBypass (Some "active") JNum b64
      "o" conn noFaults "c" db1 (Some emptyRedis) 0 [])|].
    eapply rtc_l; [exact read_step|].
    eapply rtc_l; [exact (rs_suspend (S := MiniPg) (R := MiniRedis) uuid arr RoleBypass (Some "active") JNum b64
      "o" conn noFaults "c" db1 (Some emptyRedis) 0 [(prefix, answer)])|].
    eapply rtc_l; [apply cache_step|]. eapply rtc_l; [apply wait_step|apply rtc_refl].
  - destruct (cache_hit late) as [Hv Hd]; [by vm_compute|]. by rewrite (Hd db3).
Qed.
End RegistryExamples.
