(* ===== verification/Compliance.v ===== *)
(** The compliance service: services/compliance/pkg/consumer, pkg/repository,
    pkg/handlers and pkg/storage.  Two worlds: the writer ([Wr]) copies the
    audit trail from Kafka to ClickHouse in batches; the reports ([Cp]) are
    jobs in PostgreSQL, generated by goroutines and stored in S3.  PDF
    generation (in which the scores are printed in any order), RSA signing and
    the arithmetic of floats are parameters; rows of ClickHouse do not expire. *)

From S2P Require Import Prelude GoStrings Json Http Pg Resilience AlertStore Alerting AuditChain AuditApi.
From stdpp Require Import gmap.
From Stdlib Require Import Ascii Sorting.Sorted.

(** ** Data *)

(** [repository.Event]: a row of [events] in ClickHouse. *)
Record ChEvent := mkChEvent {
  ceEventID : string; ceType : string; ceOrgID : string; ceActorID : string; ceActorType : string;
  ceOccurredAt : Z; ceSource : string; cePayload : string;
}.

(** [ComplianceReport]: a row of [reports]; its last three texts may be null. *)
Record Report := mkReport {
  rpID : string; rpOrgID : string; rpFramework : string; rpStatus : string;
  rpS3Key : option string; rpS3SigKey : option string; rpErrorMsg : option string;
  rpCreatedAt : Z; rpUpdatedAt : Z;
}.

Definition ErrCheck : goerr := ErrNew "violates check constraint".
Definition ErrReportUnique : goerr := ErrNew "duplicate key value violates unique constraint".
Definition ErrReportNoRows : goerr := ErrNew "no rows in result set".
Definition ErrReportNull : goerr := ErrNew "cannot scan NULL into *string".

(** ** The writer *)

Section writer.
Variable rfc3339 : string -> option Z.

(** The struct has no JSON names: its fields match their Go names. *)
Definition upd_ch_event (k : string) (e : ChEvent) (j : json) : res ChEvent :=
  let '(mkChEvent i t o a at_ oc s p) := e in
  if key_is "EventID" k then v <-? dec_string i j; Ok (mkChEvent v t o a at_ oc s p)
  else if key_is "Type" k then v <-? dec_string t j; Ok (mkChEvent i v o a at_ oc s p)
  else if key_is "OrgID" k then v <-? dec_string o j; Ok (mkChEvent i t v a at_ oc s p)
  else if key_is "ActorID" k then v <-? dec_string a j; Ok (mkChEvent i t o v at_ oc s p)
  else if key_is "ActorType" k then v <-? dec_string at_ j; Ok (mkChEvent i t o a v oc s p)
  else if key_is "OccurredAt" k then v <-? dec_time rfc3339 oc j; Ok (mkChEvent i t o a at_ v s p)
  else if key_is "Source" k then v <-? dec_string s j; Ok (mkChEvent i t o a at_ oc v p)
  else if key_is "Payload" k then v <-? dec_string p j; Ok (mkChEvent i t o a at_ oc s v)
  else Ok e.

Definition set_ceOccurredAt (t : Z) (e : ChEvent) : ChEvent :=
  mkChEvent (ceEventID e) (ceType e) (ceOrgID e) (ceActorID e) (ceActorType e) t (ceSource e) (cePayload e).

(** A message's event; one without an instant occurred now. *)
Definition decodeChEvent (now : Z) (value : raw) : res ChEvent :=
  e <-? unmarshal_struct upd_ch_event (mkChEvent "" "" "" "" "" zeroTime "" "") value;
  Ok (if (ceOccurredAt e =? zeroTime)%Z then set_ceOccurredAt now e else e).

Fixpoint decodeMessages (now : Z) (messages : list raw) : list ChEvent :=
  match messages with
  | [] => []
  | m :: ms => match decodeChEvent now m with Ok e => e :: decodeMessages now ms | Err _ => decodeMessages now ms end
  end.

(** What is stored of an event: its instant to the millisecond. *)
Definition chRow (e : ChEvent) : ChEvent := set_ceOccurredAt (bsonTime (ceOccurredAt e)) e.

(** [IngestEvents]: one batch; it fails before it took effect, or after. *)
Definition IngestEvents (fault : option (goerr * bool)) (events : list ChEvent) (store : list ChEvent)
  : list ChEvent * option goerr :=
  match fault with
  | Some (e, false) => (store, Some e)
  | Some (e, true) => (store ++ map chRow events, Some e)
  | None => (store ++ map chRow events, None)
  end.

(** [flush]: the store, and whether the offsets are committed. *)
Definition writerFlush (now : Z) (fault : option (goerr * bool)) (commit : bool) (messages : list raw)
  (store : list ChEvent) : list ChEvent * bool :=
  match decodeMessages now messages with
  | [] => (store, commit)
  | events =>
      match IngestEvents fault events store with
      | (store, Some _) => (store, false)
      | (store, None) => (store, commit)
      end
  end.

(** The loop of [Start].  [wrStored] records the offsets of the batches whose
    ingestion succeeded. *)
Record Wr := mkWr { wrNext : nat; wrCommitted : nat; wrBatch : list nat; wrStore : list ChEvent; wrStored : list nat }.

Definition ingested (now : Z) (fault : option (goerr * bool)) (messages : list raw) : bool :=
  match decodeMessages now messages, fault with [], _ => true | _, None => true | _, Some _ => false end.

Definition flushBatch (topic : nat -> raw) (now : Z) (fault : option (goerr * bool)) (commit : bool) (w : Wr) : Wr :=
  let '(store, committed) := writerFlush now fault commit (map topic (wrBatch w)) (wrStore w) in
  mkWr (wrNext w) (if committed then wrNext w else wrCommitted w) [] store
    (if ingested now fault (map topic (wrBatch w)) then wrStored w ++ wrBatch w else wrStored w).

(** The faults of a step: [None] when its ingestion works. *)
Inductive wr_step (topic : nat -> raw) (batchSize : Z) : option (goerr * bool) -> Wr -> Wr -> Prop :=
| wr_fetch now fault commit n c b s d :
    let w := mkWr (S n) c (b ++ [n]) s d in
    wr_step topic batchSize fault (mkWr n c b s d)
      (if (batchSize <=? Z.of_nat (length (b ++ [n])))%Z then flushBatch topic now fault commit w else w)
| wr_tick now fault commit n c b s d :
    b <> [] -> wr_step topic batchSize fault (mkWr n c b s d) (flushBatch topic now fault commit (mkWr n c b s d)).

Inductive wr_restart : Wr -> Wr -> Prop :=
| wr_restarted n c b s d : wr_restart (mkWr n c b s d) (mkWr c c [] s d).

(** ** Queries on ClickHouse *)

Definition sameKey (a b : ChEvent) : bool :=
  (ceOrgID a =s? ceOrgID b) && (ceType a =s? ceType b) && (ceOccurredAt a =? ceOccurredAt b)%Z &&
  (ceEventID a =s? ceEventID b).

(** [FINAL]: of the rows with one sorting key the last one is left. *)
Definition chFinal (l : list ChEvent) : list ChEvent :=
  foldr (fun e acc => if existsb (sameKey e) acc then acc else e :: acc) [] l.

Definition thirtyDays : Z := (30 * (24 * Hour))%Z.

(** [countIf(type LIKE 'prefix%')] of the tenant's last thirty days. *)
Definition countLike (orgID : string) (now : Z) (prefix : string) (store : list ChEvent) : Z :=
  Z.of_nat (length (List.filter (fun e => (ceOrgID e =s? orgID) && (now - thirtyDays <? ceOccurredAt e)%Z &&
                                          HasPrefix (ceType e) prefix) (chFinal store))).

Definition postureScore (count : Z) : Z := if (100 <? count)%Z then 100 else count.

(** The float of a sum of scores with weights in tenths. *)
Variable mix : list (Z * Z) -> json.

(** [GetPosture]: framework and score. *)
Definition GetPosture (fault : option goerr) (orgID : string) (now : Z) (store : list ChEvent) : res (list (string * json)) :=
  match fault with
  | Some e => Err e
  | None =>
      let score p := postureScore (countLike orgID now p store) in
      let auth := score "auth." in let policy := score "policy." in
      let access := score "data.access" in let threat := score "threat." in
      Ok [("GDPR", mix [(auth, 3); (access, 7)]); ("HIPAA", mix [(auth, 2); (access, 6); (threat, 2)]);
          ("SOC2", mix [(auth, 2); (policy, 4); (threat, 4)])]%Z
  end.

Definition dayOf (t : Z) : Z := (t / (24 * Hour))%Z.

(** The types of the events, each once, and how often each was inserted. *)
Fixpoint distinctTypes (l : list ChEvent) : list string :=
  match l with
  | [] => []
  | e :: l' => let ts := distinctTypes l' in if existsb (String.eqb (ceType e)) ts then ts else ceType e :: ts
  end.

(** [GetStats] on the materialized view, which counts what is inserted; days
    are inclusive.  Equal totals may come in any order.  What the driver
    delivers is read without [rows.Err()]. *)
Definition ChStats (f : Faults) (orgID : string) (from to : Z) (store : list ChEvent) : res (list (string * Z)) :=
  match fQuery f with
  | Some e => Err e
  | None =>
      let l := List.filter (fun e => (ceOrgID e =s? orgID) && (dayOf from <=? dayOf (ceOccurredAt e))%Z &&
                                     (dayOf (ceOccurredAt e) <=? dayOf to)%Z) store in
      let totals := map (fun t => (t, Z.of_nat (length (List.filter (fun e => ceType e =s? t) l)))) (distinctTypes l) in
      Ok (rows_list (deliver (fRows f) (order_by (fun a b => (b.2 <=? a.2)%Z) totals)))
  end.

(** [time.Parse] of a day. *)
Variable parseDay : string -> option Z.

Definition statsRange (now : Z) (fromStr toStr : string) : Z * Z :=
  (match parseDay fromStr with Some f => if fromStr =s? "" then now - thirtyDays else f | None => now - thirtyDays end,
   match parseDay toStr with Some t => if toStr =s? "" then now else t | None => now end)%Z.

Definition plainText (msg : string) (code : Z) : Response := mkResponse code [] (JStr msg).
Definition jsonOK (j : json) : Response := mkResponse StatusOK [("Content-Type", "application/json")] j.

Definition HandleGetPosture (orgID : string) (now : Z) (fault : option goerr) (store : list ChEvent) : Response :=
  match GetPosture fault orgID now store with
  | Err e => plainText (error_text e) StatusInternalServerError
  | Ok p => jsonOK (JObj p)
  end.

Definition HandleGetStats (orgID fromStr toStr : string) (now : Z) (f : Faults) (store : list ChEvent) : Response :=
  let '(from, to) := statsRange now fromStr toStr in
  match ChStats f orgID from to store with
  | Err e => plainText (error_text e) StatusInternalServerError
  | Ok [] => jsonOK JNull
  | Ok l => jsonOK (JArr (map (fun s => JObj [("type", JStr s.1); ("total", JNum s.2)]) l))
  end.
End writer.

(** ** Reports *)

Section reports.
Context {S : Type} `{Weighted S}.
Variable pgUUID : uuidCast.
(** gofpdf: the document of framework, tenant, job, instant and posture. *)
Variable pdf : string -> string -> string -> Z -> list (string * json) -> res string.
Variable mix : list (Z * Z) -> json.
Variable timeDoc : Z -> json.

Definition validFramework (f : string) : bool := existsb (String.eqb f) ["gdpr"; "soc2"; "hipaa"].
Definition validStatus (s : string) : bool := existsb (String.eqb s) ["pending"; "generating"; "ready"; "failed"].

Definition insert_report (r : Report) (rows : list Report) : res (list Report * unit) :=
  id <-? uuid_arg pgUUID (rpID r);
  org <-? uuid_arg pgUUID (rpOrgID r);
  if negb (validFramework (rpFramework r)) || negb (validStatus (rpStatus r)) then Err ErrCheck
  else if existsb (fun x => rpID x =s? id) rows then Err ErrReportUnique
  else Ok (rows ++ [mkReport id org (rpFramework r) (rpStatus r) None None None (rpCreatedAt r) (rpUpdatedAt r)], tt).

Definition CreateReportJob (f : Faults) (r : Report) (rows : list Report) : list Report * res unit :=
  autocommit f (insert_report r) rows.

Definition setReport (now : Z) (status s3Key s3SigKey errMsg : string) (r : Report) : Report :=
  mkReport (rpID r) (rpOrgID r) (rpFramework r) status (Some s3Key) (Some s3SigKey) (Some errMsg) (rpCreatedAt r) now.

Definition update_report (now : Z) (id status s3Key s3SigKey errMsg : string) (rows : list Report)
  : res (list Report * unit) :=
  i <-? uuid_arg pgUUID id;
  if negb (validStatus status) then Err ErrCheck
  else Ok (map (fun r => if rpID r =s? i then setReport now status s3Key s3SigKey errMsg r else r) rows, tt).

Definition UpdateReportStatus (f : Faults) (now : Z) (id status s3Key s3SigKey errMsg : string) (rows : list Report)
  : list Report * res unit :=
  autocommit f (update_report now id status s3Key s3SigKey errMsg) rows.

(** Scanning a row into strings: a null is an error. *)
Definition scanReport (r : Report) : res Report :=
  match rpS3Key r, rpS3SigKey r, rpErrorMsg r with
  | Some _, Some _, Some _ => Ok r
  | _, _, _ => Err ErrReportNull
  end.

Fixpoint scanAll (l : list Report) : res (list Report) :=
  match l with [] => Ok [] | r :: l' => x <-? scanReport r; xs <-? scanAll l'; Ok (x :: xs) end.

Definition GetReport (f : Faults) (orgID id : string) (rows : list Report) : res Report :=
  match fQuery f with
  | Some e => Err e
  | None =>
      i <-? uuid_arg pgUUID id; o <-? uuid_arg pgUUID orgID;
      match List.find (fun r => (rpID r =s? i) && (rpOrgID r =s? o)) rows with
      | Some r => scanReport r
      | None => Err ErrReportNoRows
      end
  end.

(** Both listings read what the driver delivers, without [rows.Err()]. *)
Definition readReports (f : Faults) (l : list Report) : res (list Report) :=
  match fQuery f with Some e => Err e | None => scanAll (rows_list (deliver (fRows f) l)) end.

Definition newestReport (a b : Report) : bool := (rpCreatedAt b <=? rpCreatedAt a)%Z.
Definition oldestReport (a b : Report) : bool := (rpCreatedAt a <=? rpCreatedAt b)%Z.

Definition ListReports (f : Faults) (orgID : string) (rows : list Report) : res (list Report) :=
  o <-? uuid_arg pgUUID orgID;
  readReports f (order_by newestReport (List.filter (fun r => rpOrgID r =s? o) rows)).

Definition GetPendingReports (f : Faults) (rows : list Report) : res (list Report) :=
  readReports f (order_by oldestReport (List.filter (fun r => rpStatus r =s? "pending") rows)).

(** *** Generation *)

(** S3: objects by key; an upload fails before it took effect, or after. *)
Definition Upload (fault : option (goerr * bool)) (key data : string) (objects : gmap string string)
  : gmap string string * option goerr :=
  match fault with
  | Some (e, false) => (objects, Some e)
  | Some (e, true) => (<[key := data]> objects, Some e)
  | None => (<[key := data]> objects, None)
  end.

Record Job := mkJob { jbID : string; jbOrgID : string; jbFramework : string }.

(** What generating one report meets: its two updates, the posture, the
    signature if there is a key, and the uploads. *)
Record GenEnv := mkGenEnv {
  gvStart : Faults; gvFinish : Faults; gvNow : Z; gvPosture : option goerr;
  gvSignature : option (res string); gvUpload : option (goerr * bool); gvSigUpload : option (goerr * bool);
}.

(** The last update of a report. *)
Record Outcome := mkOutcome { ocStatus : string; ocS3Key : string; ocS3SigKey : string; ocErrorMsg : string }.

Definition objectKey (orgID jobID : string) : string := "reports/" +:+ (orgID +:+ ("/" +:+ (jobID +:+ ".pdf"))).

Definition startReport (env : GenEnv) (j : Job) (rows : list Report) : list Report :=
  (UpdateReportStatus (gvStart env) (gvNow env) (jbID j) "generating" "" "" "" rows).1.

(** From the document to the uploads. *)
Definition renderReport (env : GenEnv) (j : Job) (store : list ChEvent) (objects : gmap string string)
  : gmap string string * Outcome :=
  let posture := match GetPosture mix (gvPosture env) (jbOrgID j) (gvNow env) store with Ok p => p | Err _ => [] end in
  match pdf (jbFramework j) (jbOrgID j) (jbID j) (gvNow env) posture with
  | Err e => (objects, mkOutcome "failed" "" "" (error_text e))
  | Ok pdfBytes =>
      let sig := match gvSignature env with Some (Ok s) => Some s | _ => None end in
      let s3Key := objectKey (jbOrgID j) (jbID j) in
      match Upload (gvUpload env) s3Key pdfBytes objects with
      | (objects, Some e) => (objects, mkOutcome "failed" "" "" ("Upload failed: " +:+ error_text e))
      | (objects, None) =>
          match sig with
          | Some s => let s3SigKey := s3Key +:+ ".sig" in
                      ((Upload (gvSigUpload env) s3SigKey s objects).1, mkOutcome "ready" s3Key s3SigKey "")
          | None => (objects, mkOutcome "ready" s3Key "" "")
          end
      end
  end.

Definition finishReport (env : GenEnv) (j : Job) (o : Outcome) (rows : list Report) : list Report :=
  (UpdateReportStatus (gvFinish env) (gvNow env) (jbID j) (ocStatus o) (ocS3Key o) (ocS3SigKey o) (ocErrorMsg o) rows).1.

(** [generateReport]; the errors of its updates are ignored. *)
Definition generateReport (env : GenEnv) (j : Job) (store : list ChEvent) (rows : list Report)
  (objects : gmap string string) : list Report * gmap string string :=
  let rows := startReport env j rows in
  let '(objects, o) := renderReport env j store objects in
  (finishReport env j o rows, objects).

(** *** Handlers *)

Definition upd_framework (k : string) (s : string) (j : json) : res string :=
  if key_is "framework" k then dec_string s j else Ok s.

(** [CreateReport]: what [Execute] runs only starts the goroutine. *)
Definition HandleCreateReport (orgID : string) (b : raw) (jobID : string) (now : Z) (f : Faults) (rows : list Report)
  (bulk : Bulkhead S) : list Report * Bulkhead S * Response * option Job :=
  match decode_body upd_framework "" b with
  | Err _ => (rows, bulk, plainText "Invalid request" StatusBadRequest, None)
  | Ok framework =>
      match CreateReportJob f (mkReport jobID orgID framework "pending" None None None now now) rows with
      | (rows, Err e) => (rows, bulk, plainText (error_text e) StatusInternalServerError, None)
      | (rows, Ok _) =>
          match BulkheadExecute bulk (fun _ => (Some (mkJob jobID orgID framework), None)) None with
          | (bulk, _, Some _) =>
              (rows, bulk, mkResponse StatusTooManyRequests [("Retry-After", "30")] (JStr "Bulkhead full, try again later"), None)
          | (bulk, job, None) =>
              (rows, bulk, mkResponse StatusAccepted [("Content-Type", "application/json")] (JObj [("job_id", JStr jobID)]), job)
          end
      end
  end.

Definition omitempty (k : string) (s : option string) : list (string * json) :=
  match s with Some s => if s =s? "" then [] else [(k, JStr s)] | None => [] end.

Definition reportDoc (r : Report) : json :=
  JObj ([("id", JStr (rpID r)); ("org_id", JStr (rpOrgID r)); ("framework", JStr (rpFramework r)); ("status", JStr (rpStatus r))] ++
        omitempty "s3_key" (rpS3Key r) ++ omitempty "s3_sig_key" (rpS3SigKey r) ++ omitempty "error_msg" (rpErrorMsg r) ++
        [("created_at", timeDoc (rpCreatedAt r)); ("updated_at", timeDoc (rpUpdatedAt r))]).

Definition HandleListReports (orgID : string) (f : Faults) (rows : list Report) : Response :=
  match ListReports f orgID rows with
  | Err e => plainText (error_text e) StatusInternalServerError
  | Ok [] => jsonOK JNull
  | Ok l => jsonOK (JArr (map reportDoc l))
  end.

Definition HandleGetReportStatus (orgID id : string) (f : Faults) (rows : list Report) : Response :=
  match GetReport f orgID id rows with
  | Err _ => plainText "Report not found" StatusNotFound
  | Ok r => jsonOK (reportDoc r)
  end.

(** [presign] is the storage's signed address of a key. *)
Definition HandleDownloadReport (presign : string -> res string) (orgID id : string) (f : Faults) (rows : list Report) : Response :=
  match GetReport f orgID id rows with
  | Err _ => plainText "Report not ready or not found" StatusNotFound
  | Ok r =>
      if negb (rpStatus r =s? "ready") then plainText "Report not ready or not found" StatusNotFound
      else match presign (default "" (rpS3Key r)) with
      | Err _ => plainText "Failed to generate download URL" StatusInternalServerError
      | Ok url => mkResponse 302 [("Location", url)] (JStr url)
      end
  end.

(** *** The service *)

(** Where a goroutine is: before its first update, before the document, or
    before its last update. *)
Inductive jobPhase := JobStart | JobRender | JobFinish (o : Outcome).

Record Cp := mkCp {
  cpRows : list Report; cpObjects : gmap string string; cpStore : list ChEvent;
  cpBulk : Bulkhead S; cpJobs : list (Job * jobPhase);
}.

(** One tick of [StartWorker]; its reports are generated one by one, each in
    the surroundings [env] gives it. *)
Definition workerReport (env : string -> GenEnv) (store : list ChEvent) (st : list Report * gmap string string * Bulkhead S) (r : Report)
  : list Report * gmap string string * Bulkhead S :=
  let '(rows, objects, bulk) := st in
  let j := mkJob (rpID r) (rpOrgID r) (rpFramework r) in
  let '(bulk, (rows, objects), _) :=
    BulkheadExecute bulk (fun w => (generateReport (env (rpID r)) j store w.1 w.2, None)) (rows, objects) in
  (rows, objects, bulk).

Definition workerTick (f : Faults) (env : string -> GenEnv) (w : Cp) : Cp :=
  match GetPendingReports f (cpRows w) with
  | Err _ => w
  | Ok reports =>
      let '(rows, objects, bulk) := fold_left (workerReport env (cpStore w)) reports (cpRows w, cpObjects w, cpBulk w) in
      mkCp rows objects (cpStore w) bulk (cpJobs w)
  end.

Inductive cp_step : Cp -> Cp -> Prop :=
| cp_create orgID b jobID now f rows objs store bulk jobs :
    let r := HandleCreateReport orgID b jobID now f rows bulk in
    cp_step (mkCp rows objs store bulk jobs)
      (mkCp r.1.1.1 objs store r.1.1.2 (jobs ++ match r.2 with Some j => [(j, JobStart)] | None => [] end))
| cp_start env j rows objs store bulk l1 l2 :
    cp_step (mkCp rows objs store bulk (l1 ++ (j, JobStart) :: l2))
      (mkCp (startReport env j rows) objs store bulk (l1 ++ (j, JobRender) :: l2))
| cp_render env j rows objs store bulk l1 l2 :
    let r := renderReport env j store objs in
    cp_step (mkCp rows objs store bulk (l1 ++ (j, JobRender) :: l2))
      (mkCp rows r.1 store bulk (l1 ++ (j, JobFinish r.2) :: l2))
| cp_finish env j o rows objs store bulk l1 l2 :
    cp_step (mkCp rows objs store bulk (l1 ++ (j, JobFinish o) :: l2))
      (mkCp (finishReport env j o rows) objs store bulk (l1 ++ l2))
| cp_worker f env w : cp_step w (workerTick f env w)
| cp_ingest store' rows objs store bulk jobs :
    cp_step (mkCp rows objs store bulk jobs) (mkCp rows objs store' bulk jobs)
| cp_occupied bulk' rows objs store bulk jobs :       (* requests inside Execute *)
    cp_step (mkCp rows objs store bulk jobs) (mkCp rows objs store bulk' jobs)
| cp_crash bulk' rows objs store bulk jobs :
    cp_step (mkCp rows objs store bulk jobs) (mkCp rows objs store bulk' []).
End reports.
Arguments Cp S : clear implicits.

(** ** Properties of the reports *)

Section report_properties.
Context {S : Type} `{Weighted S} (pgUUID : uuidCast)
        (pdf : string -> string -> string -> Z -> list (string * json) -> res string)
        (mix : list (Z * Z) -> json) (timeDoc : Z -> json).
#[local] Notation step := (cp_step (S := S) pgUUID pdf mix).

Fixpoint last_byte (s : string) : option ascii :=
  match s with
  | EmptyString => None
  | String c s' => match s' with EmptyString => Some c | _ => last_byte s' end
  end.

Lemma last_byte_append a b : b <> "" -> last_byte (a +:+ b) = last_byte b.
Proof.
  intros Hb. induction a as [|c a IH]; simpl; [done|]. rewrite IH. destruct (a +:+ b) eqn:E; [|done].
  destruct a; [by destruct b|done].
Qed.

Lemma objectKey_last o j : last_byte (objectKey o j) = Some "f"%char.
Proof. unfold objectKey. rewrite !last_byte_append; try done; by destruct o, j. Qed.

Lemma sig_not_object o j o' j' : objectKey o j +:+ ".sig" <> objectKey o' j'.
Proof. intros E%(f_equal last_byte). rewrite objectKey_last, last_byte_append in E; done. Qed.

(** A report is stored under a key of S3. *)
Definition isStored (objects : gmap string string) (key : string) : Prop :=
  exists bytes fw o j t p, objects !! key = Some bytes /\ objectKey o j = key /\ pdf fw o j t p = Ok bytes.

Lemma Upload_cases f key data objects objects' e :
  Upload f key data objects = (objects', e) -> (objects' = objects /\ e <> None) \/ objects' = <[key := data]> objects.
Proof. unfold Upload. destruct f as [[e0 []]|]; intros [= <- <-]; auto. Qed.

Lemma Upload_ok f key data objects objects' : Upload f key data objects = (objects', None) -> objects' = <[key := data]> objects.
Proof. intros [[_ ?]|?]%Upload_cases; done. Qed.

Lemma isStored_insert objects key bytes fw o j t p k :
  pdf fw o j t p = Ok bytes -> objectKey o j = key -> isStored objects k \/ k = key -> isStored (<[key := bytes]> objects) k.
Proof.
  intros Hp Hk Hs. destruct (decide (k = key)) as [->|Hne].
  - exists bytes, fw, o, j, t, p. by rewrite lookup_insert_eq.
  - destruct Hs as [(b & fw' & o' & j' & t' & p' & Hl & Hk' & Hp')|]; [|done].
    exists b, fw', o', j', t', p'. by rewrite lookup_insert_ne.
Qed.

Lemma isStored_sig objects o j data k : isStored objects k -> isStored (<[objectKey o j +:+ ".sig" := data]> objects) k.
Proof.
  intros (b & fw' & o' & j' & t' & p' & Hl & Hk' & Hp'). exists b, fw', o', j', t', p'.
  rewrite lookup_insert_ne; [done|]. rewrite <- Hk'. apply sig_not_object.
Qed.

(** What rendering leaves behind. *)
Lemma renderReport_spec env j store objects objects' o :
  renderReport pdf mix env j store objects = (objects', o) ->
  (forall k, isStored objects k -> isStored objects' k) /\
  (ocStatus o = "failed" \/
   (ocStatus o = "ready" /\ ocS3Key o = objectKey (jbOrgID j) (jbID j) /\ isStored objects' (objectKey (jbOrgID j) (jbID j)))).
Proof.
  unfold renderReport. destruct (pdf _ _ _ _ _) as [bytes|e] eqn:Ep; [|intros [= <- <-]; split; [done|by left]].
  destruct (Upload (gvUpload env) _ _ _) as [objs1 [e|]] eqn:Eu.
  - intros [= <- <-]. split; [|by left]. apply Upload_cases in Eu as [[-> _]| ->]; [done|].
    intros k Hk. eapply isStored_insert; [exact Ep|done|by left].
  - apply Upload_ok in Eu as ->. assert (Hk : forall k, isStored objects k \/ k = objectKey (jbOrgID j) (jbID j) ->
      isStored (<[objectKey (jbOrgID j) (jbID j) := bytes]> objects) k).
    { intros k Hk. by eapply isStored_insert. }
    destruct (match gvSignature env with Some (Ok s) => Some s | _ => None end) as [sg|]; intros [= <- <-].
    + assert (Hsig : forall k, isStored (<[objectKey (jbOrgID j) (jbID j) := bytes]> objects) k ->
        isStored (Upload (gvSigUpload env) (objectKey (jbOrgID j) (jbID j) +:+ ".sig") sg
                    (<[objectKey (jbOrgID j) (jbID j) := bytes]> objects)).1 k).
      { intros k Hs. destruct (Upload _ _ sg _) as [o2 e2] eqn:E2.
        apply Upload_cases in E2 as [[-> _]| ->]; [done|]. by apply isStored_sig. }
      split; [intros k Hs; apply Hsig, Hk; by left|]. right. split; [done|]. split; [done|]. apply Hsig, Hk. by right.
    + split; [intros k Hs; apply Hk; by left|]. right. split; [done|]. split; [done|]. apply Hk. by right.
Qed.

Lemma UpdateReportStatus_cases f now id st k1 k2 e rows :
  (UpdateReportStatus pgUUID f now id st k1 k2 e rows).1 = rows \/
  exists i, pgUUID id = Some i /\
    (UpdateReportStatus pgUUID f now id st k1 k2 e rows).1 =
      map (fun r => if rpID r =s? i then setReport now st k1 k2 e r else r) rows.
Proof.
  unfold UpdateReportStatus, autocommit. destruct (fQuery f); [by left|]. unfold update_report, uuid_arg.
  destruct (pgUUID id) as [i|]; [|by left]. simpl. destruct (negb _); [by left|]. right. by exists i.
Qed.

Lemma CreateReportJob_cases f r rows rows' x :
  CreateReportJob pgUUID f r rows = (rows', x) ->
  (rows' = rows /\ exists e, x = Err e) \/
  exists id org, pgUUID (rpID r) = Some id /\ pgUUID (rpOrgID r) = Some org /\
    (forall y, In y rows -> rpID y <> id) /\
    rows' = rows ++ [mkReport id org (rpFramework r) (rpStatus r) None None None (rpCreatedAt r) (rpUpdatedAt r)].
Proof.
  unfold CreateReportJob, autocommit. destruct (fQuery f) as [e|]; [intros [= <- <-]; left; eauto|].
  unfold insert_report, uuid_arg. destruct (pgUUID (rpID r)) as [id|]; simpl; [|intros [= <- <-]; left; eauto].
  destruct (pgUUID (rpOrgID r)) as [org|]; simpl; [|intros [= <- <-]; left; eauto].
  destruct (_ || _); [intros [= <- <-]; left; eauto|]. destruct (existsb _ rows) eqn:Ex; [intros [= <- <-]; left; eauto|].
  intros [= <- _]. right. exists id, org. repeat (split; [done|]). split; [|done].
  intros y Hy He. apply not_true_iff_false in Ex. apply Ex, existsb_In. exists y. split; [done|]. by apply String.eqb_eq.
Qed.

Lemma HandleCreateReport_cases orgID b jobID now f rows (bulk : Bulkhead S) :
  let r := HandleCreateReport pgUUID orgID b jobID now f rows bulk in
  (r.1.1.1 = rows /\ r.2 = None) \/
  exists id org fw, pgUUID jobID = Some id /\ pgUUID orgID = Some org /\ (forall y, In y rows -> rpID y <> id) /\
    r.1.1.1 = rows ++ [mkReport id org fw "pending" None None None now now] /\
    (r.2 = None \/ r.2 = Some (mkJob jobID orgID fw)).
Proof.
  cbv zeta. unfold HandleCreateReport. destruct (decode_body _ _ _) as [fw|e]; [|by left].
  destruct (CreateReportJob _ _ _ _) as [rows' x] eqn:Ec.
  apply CreateReportJob_cases in Ec as [[-> [e ->]]|(id & org & Hi & Ho & Hf & ->)]; [by left|]. simpl in *. right.
  exists id, org, fw. destruct x as [u|e]; simpl; [|by repeat split; auto].
  unfold BulkheadExecute. destruct (enter bulk) as [b1 [e|]]; simpl; repeat split; auto.
Qed.

(** *** The invariant *)

Definition jobFor (j : Job) (r : Report) : Prop := pgUUID (jbID j) = Some (rpID r) /\ pgUUID (jbOrgID j) = Some (rpOrgID r).

Definition readyRow (objects : gmap string string) (r : Report) : Prop :=
  rpStatus r = "ready" -> exists o j, rpS3Key r = Some (objectKey o j) /\ pgUUID o = Some (rpOrgID r) /\
    pgUUID j = Some (rpID r) /\ isStored objects (objectKey o j).

Definition outcomeFor (objects : gmap string string) (j : Job) (o : Outcome) : Prop :=
  ocStatus o = "failed" \/
  (ocStatus o = "ready" /\ ocS3Key o = objectKey (jbOrgID j) (jbID j) /\ isStored objects (objectKey (jbOrgID j) (jbID j))).

Definition jobPhaseOk (objects : gmap string string) (j : Job) (ph : jobPhase) (r : Report) : Prop :=
  match ph with
  | JobStart => rpStatus r = "pending"
  | JobRender => rpStatus r = "pending" \/ rpStatus r = "generating"
  | JobFinish o => (rpStatus r = "pending" \/ rpStatus r = "generating") /\ outcomeFor objects j o
  end.

Record cp_inv (w : Cp S) : Prop := mkCpInv {
  ci_ids : NoDup (map rpID (cpRows w));
  ci_pending : forall r, In r (cpRows w) -> rpStatus r = "pending" -> rpS3Key r = None;
  ci_ready : forall r, In r (cpRows w) -> readyRow (cpObjects w) r;
  ci_jobs : forall j ph, In (j, ph) (cpJobs w) -> exists r, In r (cpRows w) /\ jobFor j r /\ jobPhaseOk (cpObjects w) j ph r;
  ci_single : NoDup (map (fun x => pgUUID (jbID x.1)) (cpJobs w));
}.

Lemma readyRow_more objs objs' r : (forall k, isStored objs k -> isStored objs' k) -> readyRow objs r -> readyRow objs' r.
Proof. intros Hk Hr Hs. destruct (Hr Hs) as (o & j & ? & ? & ? & ?). exists o, j. auto. Qed.

Lemma jobPhaseOk_more objs objs' j ph r :
  (forall k, isStored objs k -> isStored objs' k) -> jobPhaseOk objs j ph r -> jobPhaseOk objs' j ph r.
Proof. intros Hk. destruct ph as [| |o]; simpl; auto. intros [? [?|(? & ? & ?)]]; split; auto; [by left|right; auto]. Qed.

(** The worker never has anything to do: scanning a pending report fails. *)
Lemma scanAll_none l : (forall r, In r l -> rpS3Key r = None) -> scanAll l = Ok [] \/ exists e, scanAll l = Err e.
Proof. destruct l as [|r l]; simpl; [by left|]. intros Hn. right. unfold scanReport. rewrite Hn by auto. by eexists. Qed.

Lemma workerTick_idle f env w : cp_inv w -> workerTick pgUUID pdf mix f env w = w.
Proof.
  intros Hi. unfold workerTick, GetPendingReports, readReports. destruct (fQuery f); [done|].
  set (l := rows_list _). assert (Hl : forall r, In r l -> rpS3Key r = None).
  { intros r Hr. assert (Hin : In r (List.filter (fun r => rpStatus r =s? "pending") (cpRows w))).
    { apply (order_by_In oldestReport). subst l. unfold deliver in Hr. destruct (fRows f) as [[n e]|]; simpl in Hr; [|done].
      rewrite <- (take_drop n (order_by _ _)). apply in_or_app. by left. }
    apply filter_In in Hin as [Hin Hs]. bool_to_prop. by apply (ci_pending w Hi). }
  destruct (scanAll_none l Hl) as [->|[e ->]]; [|done]. by destruct w.
Qed.

(** Other jobs are for other rows. *)
Lemma other_job (l1 l2 : list (Job * jobPhase)) j ph j' ph' r :
  NoDup (map (fun x => pgUUID (jbID x.1)) (l1 ++ (j, ph) :: l2)) -> In (j', ph') (l1 ++ l2) -> jobFor j r -> ~ jobFor j' r.
Proof.
  intros Hn Hin [Hj _] [Hj' _]. rewrite map_app in Hn. simpl in Hn. rewrite <- Permutation_middle, NoDup_cons in Hn.
  destruct Hn as [Hn _]. apply Hn. rewrite Hj, <- Hj', <- map_app. apply list_elem_of_In.
  exact (in_map (fun x : Job * jobPhase => pgUUID (jbID x.1)) _ _ Hin).
Qed.

(** An update of the row of one job. *)
Lemma update_row_cases f now j st k1 k2 e rows :
  let rows' := (UpdateReportStatus pgUUID f now (jbID j) st k1 k2 e rows).1 in
  rows' = rows \/
  rows' = map (fun r => if decide (pgUUID (jbID j) = Some (rpID r)) then setReport now st k1 k2 e r else r) rows.
Proof.
  cbv zeta. destruct (UpdateReportStatus_cases f now (jbID j) st k1 k2 e rows) as [->|(i & Hi & ->)]; [by left|]. right.
  apply map_ext. intros r. rewrite Hi. destruct (String.eqb_spec (rpID r) i) as [->|Hne].
  - by rewrite decide_True.
  - rewrite decide_False by congruence. done.
Qed.

Definition rowUpdate (j : Job) (now : Z) (st k1 k2 e : string) (r : Report) : Report :=
  if decide (pgUUID (jbID j) = Some (rpID r)) then setReport now st k1 k2 e r else r.

Lemma rowUpdate_ids j now st k1 k2 e rows : map rpID (map (rowUpdate j now st k1 k2 e) rows) = map rpID rows.
Proof. rewrite map_map. apply map_ext. intros r. unfold rowUpdate. by destruct (decide _). Qed.

(** The rows and the other jobs after an update of the row of a job. *)
Lemma update_inv rows objs l1 l2 j ph store bulk r0 now st k1 k2 e :
  cp_inv (mkCp rows objs store bulk (l1 ++ (j, ph) :: l2)) -> In r0 rows -> jobFor j r0 -> st <> "pending" ->
  (st = "ready" -> k1 = objectKey (jbOrgID j) (jbID j) /\ isStored objs k1) ->
  cp_inv (mkCp (map (rowUpdate j now st k1 k2 e) rows) objs store bulk (l1 ++ l2)).
Proof.
  intros [Hids Hpe Hre Hjo Hsi] Hin0 Hj0 Hst Hrd. simpl in *. split; simpl.
  - by rewrite rowUpdate_ids.
  - intros r (r1 & <- & Hr1)%in_map_iff. unfold rowUpdate. destruct (decide _); [done|by apply Hpe].
  - intros r (r1 & <- & Hr1)%in_map_iff. unfold rowUpdate. destruct (decide _) as [Hd|]; [|by apply Hre].
    intros Hs. simpl in Hs. destruct (Hrd Hs) as [-> Hk]. exists (jbOrgID j), (jbID j). simpl.
    assert (r1 = r0) as ->.
    { apply (NoDup_map_In rpID rows); try done. destruct Hj0 as [Hj0 _]. congruence. }
    destruct Hj0 as [? ?]. auto.
  - intros j' ph' Hin. destruct (Hjo j' ph') as (r & Hr & Hfor & Hph).
    { apply in_app_or in Hin as [?|?]; apply in_or_app; [by left|right; by right]. }
    exists r. split; [|done]. apply in_map_iff. exists r. split; [|done]. unfold rowUpdate. rewrite decide_False; [done|].
    intros Hd. destruct Hfor as [Hf1 _]. rewrite map_app in Hsi. simpl in Hsi. rewrite <- Permutation_middle, NoDup_cons in Hsi.
    apply (proj1 Hsi). rewrite <- map_app, Hd, <- Hf1. apply list_elem_of_In.
    exact (in_map (fun x : Job * jobPhase => pgUUID (jbID x.1)) _ _ Hin).
  - rewrite map_app in *. simpl in Hsi. rewrite <- Permutation_middle, NoDup_cons in Hsi. by destruct Hsi.
Qed.

(** Without a job, and with a job in another phase. *)
Lemma inv_less rows objs store bulk l1 x l2 :
  cp_inv (mkCp rows objs store bulk (l1 ++ x :: l2)) -> cp_inv (mkCp rows objs store bulk (l1 ++ l2)).
Proof.
  intros [Hids Hpe Hre Hjo Hsi]. simpl in *. split; simpl; try done.
  - intros j ph Hin. apply Hjo. apply in_app_or in Hin as [?|?]; apply in_or_app; [by left|right; by right].
  - rewrite map_app in *. simpl in Hsi. rewrite <- Permutation_middle, NoDup_cons in Hsi. by destruct Hsi.
Qed.

Lemma inv_phase rows objs store bulk l1 j ph ph' l2 r :
  cp_inv (mkCp rows objs store bulk (l1 ++ l2)) -> In r rows -> jobFor j r -> jobPhaseOk objs j ph' r ->
  NoDup (map (fun x => pgUUID (jbID x.1)) (l1 ++ (j, ph) :: l2)) ->
  cp_inv (mkCp rows objs store bulk (l1 ++ (j, ph') :: l2)).
Proof.
  intros [Hids Hpe Hre Hjo Hsi] Hr Hf Hp Hn. simpl in *. split; simpl; try done.
  - intros j' p' Hin. apply in_app_or in Hin as [Hin|[[= <- <-]|Hin]].
    + apply Hjo, in_or_app. by left.
    + by exists r.
    + apply Hjo, in_or_app. by right.
  - rewrite map_app in *. exact Hn.
Qed.

Lemma start_cases env j rows :
  startReport pgUUID env j rows = rows \/
  startReport pgUUID env j rows = map (rowUpdate j (gvNow env) "generating" "" "" "") rows.
Proof. apply update_row_cases. Qed.

Lemma finish_cases env j o rows :
  finishReport pgUUID env j o rows = rows \/
  finishReport pgUUID env j o rows =
    map (rowUpdate j (gvNow env) (ocStatus o) (ocS3Key o) (ocS3SigKey o) (ocErrorMsg o)) rows.
Proof. apply update_row_cases. Qed.

Lemma rowUpdate_In j now st k1 k2 e r rows :
  In r rows -> jobFor j r -> In (setReport now st k1 k2 e r) (map (rowUpdate j now st k1 k2 e) rows).
Proof. intros Hr [Hf _]. apply in_map_iff. exists r. split; [|done]. unfold rowUpdate. by rewrite decide_True. Qed.

Lemma cp_inv_step w w' : cp_inv w -> step w w' -> cp_inv w'.
Proof.
  intros Hi Hs. destruct Hs as [orgID b jobID now f rows objs store bulk jobs r|env j rows objs store bulk l1 l2
    |env j rows objs store bulk l1 l2 r|env j o rows objs store bulk l1 l2|f env w|store' rows objs store bulk jobs
    |bulk' rows objs store bulk jobs|bulk' rows objs store bulk jobs].
  - destruct (HandleCreateReport_cases orgID b jobID now f rows bulk) as [[Hr1 Hr2]|(id & org & fw & Hid & Ho & Hf & Hr1 & Hr2)];
      fold r in Hr1, Hr2; destruct Hi as [Hids Hpe Hre Hjo Hsi]; simpl in *; rewrite Hr1.
    { rewrite Hr2, app_nil_r. by split. }
    set (row := mkReport id org fw "pending" None None None now now) in *.
    assert (Hnew : forall j ph, In (j, ph) jobs -> pgUUID (jbID j) <> Some id).
    { intros j ph Hin Hj. destruct (Hjo j ph Hin) as (r' & Hr' & [Hf' _] & _). apply (Hf r' Hr'). congruence. }
    split; simpl.
    + rewrite map_app. apply NoDup_app. split; [done|]. split; [|by apply NoDup_singleton].
      intros x (y & <- & Hy)%list_elem_of_In%in_map_iff Hx%list_elem_of_singleton. by apply (Hf y Hy).
    + intros y [Hy|[<-|[]]]%in_app_or; [by apply Hpe|done].
    + intros y [Hy|[<-|[]]]%in_app_or; [by apply Hre|done].
    + intros j ph [Hin|Hin]%in_app_or.
      * destruct (Hjo j ph Hin) as (r' & Hr' & ?). exists r'. split; [apply in_or_app; by left|done].
      * destruct Hr2 as [E|E]; rewrite E in Hin; [done|]. destruct Hin as [[= <- <-]|[]].
        exists row. split; [apply in_or_app; right; by left|]. by repeat split.
    + rewrite map_app. destruct Hr2 as [E|E]; rewrite E; simpl; [by rewrite app_nil_r|].
      apply NoDup_app. split; [done|]. split; [|by apply NoDup_singleton].
      intros x Hx Hx'%list_elem_of_singleton. subst x.
      apply list_elem_of_In, in_map_iff in Hx as ([j ph] & Hj & Hin). simpl in Hj. apply (Hnew j ph Hin). congruence.
  - destruct (ci_jobs _ Hi j JobStart) as (r & Hr & Hf & Hp); [simpl; apply in_or_app; right; by left|]. simpl in *.
    destruct (start_cases env j rows) as [->| ->].
    + eapply inv_phase; [by eapply inv_less|exact Hr|exact Hf|by left|exact (ci_single _ Hi)].
    + eapply inv_phase; [eapply update_inv; [exact Hi|exact Hr|exact Hf|done|done]|by apply rowUpdate_In|exact Hf|by right|].
      exact (ci_single _ Hi).
  - destruct (ci_jobs _ Hi j JobRender) as (r0 & Hr & Hf & Hp); [simpl; apply in_or_app; right; by left|]. simpl in *.
    destruct (renderReport pdf mix env j store objs) as [objs' o] eqn:Er. apply renderReport_spec in Er as [Hk Ho].
    subst r. cbn [fst snd]. destruct Hi as [Hids Hpe Hre Hjo Hsi]. simpl in *. split; simpl; try done.
    + intros y Hy. eapply readyRow_more; [exact Hk|by apply Hre].
    + intros j' ph' Hin. apply in_app_or in Hin as [Hin|[[= <- <-]|Hin]].
      * destruct (Hjo j' ph') as (r' & ? & ? & ?); [apply in_or_app; by left|]. exists r'. split; [done|]. split; [done|].
        by eapply jobPhaseOk_more.
      * exists r0. split; [done|]. split; [done|]. by split.
      * destruct (Hjo j' ph') as (r' & ? & ? & ?); [apply in_or_app; right; by right|]. exists r'. split; [done|]. split; [done|].
        by eapply jobPhaseOk_more.
    + rewrite map_app in *. exact Hsi.
  - destruct (ci_jobs _ Hi j (JobFinish o)) as (r & Hr & Hf & Hp & Ho); [simpl; apply in_or_app; right; by left|]. simpl in *.
    destruct (finish_cases env j o rows) as [->| ->]; [by eapply inv_less|].
    eapply update_inv; [exact Hi|exact Hr|exact Hf| |].
    + destruct Ho as [->|(-> & _ & _)]; done.
    + intros Hst. destruct Ho as [Hs|(_ & Hk & Hst2)]; [congruence|]. rewrite Hk. auto.
  - by rewrite workerTick_idle.
  - destruct Hi as [Hids Hpe Hre Hjo Hsi]. by split.
  - destruct Hi as [Hids Hpe Hre Hjo Hsi]. by split.
  - destruct Hi as [Hids Hpe Hre Hjo Hsi]. simpl in *. split; simpl; try done. constructor.
Qed.

(** Runs from an empty table. *)
Definition cpInit (bulk : Bulkhead S) (store : list ChEvent) (objects : gmap string string) : Cp S :=
  mkCp [] objects store bulk [].

Lemma cp_reachable_inv bulk store objects w : rtc step (cpInit bulk store objects) w -> cp_inv w.
Proof.
  revert w. apply (rtc_ind_r cp_inv); [split; simpl; try done; constructor|]. intros w1 w2 _ Hs Hi. by eapply cp_inv_step.
Qed.

(** A row that the table can hold: its columns are uuids and values that the
    checks of the table admit; its texts are null exactly while it is pending. *)
Definition wfReport (r : Report) : Prop :=
  validFramework (rpFramework r) = true /\ validStatus (rpStatus r) = true /\
  (exists id, pgUUID id = Some (rpID r)) /\ (exists o, pgUUID o = Some (rpOrgID r)) /\
  (rpS3Key r = None <-> rpStatus r = "pending") /\
  (rpS3SigKey r = None <-> rpStatus r = "pending") /\ (rpErrorMsg r = None <-> rpStatus r = "pending").

Lemma wfReport_set now st k1 k2 e r :
  wfReport r -> validStatus st = true -> st <> "pending" -> wfReport (setReport now st k1 k2 e r).
Proof. intros (? & ? & ? & ? & _) Hv Hn. repeat (split; [done|]). by repeat split. Qed.

Lemma wfReport_update j now st k1 k2 e rows :
  Forall wfReport rows -> validStatus st = true -> st <> "pending" -> Forall wfReport (map (rowUpdate j now st k1 k2 e) rows).
Proof.
  intros Hw Hv Hn. apply Forall_map. eapply Forall_impl; [exact Hw|]. intros r Hr. simpl. unfold rowUpdate.
  destruct (decide _); [by apply wfReport_set|done].
Qed.

Lemma wfReport_create orgID b jobID now f rows (bulk : Bulkhead S) :
  Forall wfReport rows -> Forall wfReport (HandleCreateReport pgUUID orgID b jobID now f rows bulk).1.1.1.
Proof.
  intros Hw. unfold HandleCreateReport. destruct (decode_body _ _ _) as [fw|e]; [|done].
  unfold CreateReportJob, autocommit. destruct (fQuery f) as [e|]; [done|]. unfold insert_report, uuid_arg. simpl.
  destruct (pgUUID jobID) as [id|] eqn:Eid; simpl; [|done]. destruct (pgUUID orgID) as [org|] eqn:Eorg; simpl; [|done].
  destruct (validFramework fw) eqn:Ef; simpl; [|done]. destruct (existsb _ rows); simpl; [done|].
  assert (Hrows : Forall wfReport (rows ++ [mkReport id org fw "pending" None None None now now])).
  { apply Forall_app. split; [done|]. repeat constructor; try done; by eexists. }
  destruct (fAck f); simpl; [done|]. unfold BulkheadExecute. by destruct (enter bulk) as [b1 [e|]].
Qed.

Lemma wfReport_step w w' : cp_inv w -> Forall wfReport (cpRows w) -> step w w' -> Forall wfReport (cpRows w').
Proof.
  intros Hi Hw Hs. destruct Hs as [orgID b jobID now f rows objs store bulk jobs r|env j rows objs store bulk l1 l2
    |env j rows objs store bulk l1 l2 r|env j o rows objs store bulk l1 l2|f env w|store' rows objs store bulk jobs
    |bulk' rows objs store bulk jobs|bulk' rows objs store bulk jobs]; simpl in *; try done.
  - by apply wfReport_create.
  - destruct (start_cases env j rows) as [->| ->]; [done|by apply wfReport_update].
  - destruct (ci_jobs _ Hi j (JobFinish o)) as (r & _ & _ & _ & Ho); [simpl; apply in_or_app; right; by left|].
    destruct (finish_cases env j o rows) as [->| ->]; [done|].
    destruct Ho as [->|(-> & _)]; by apply wfReport_update.
  - by rewrite workerTick_idle.
Qed.

(** C25: The table of reports stays well formed in every run of requests,
    generations, ticks of the worker and restarts, whatever fails: ids are
    distinct, every row passes the checks of the table, its texts are null
    exactly while it is pending; and every goroutine works on a row of the
    table, no two on the same one. *)
Theorem reports_well_formed bulk store objects w :
  rtc step (cpInit bulk store objects) w ->
  Forall wfReport (cpRows w) /\ NoDup (map rpID (cpRows w)) /\
  NoDup (map (fun x => pgUUID (jbID x.1)) (cpJobs w)) /\
  (forall j ph, In (j, ph) (cpJobs w) -> exists r, In r (cpRows w) /\ jobFor j r).
Proof.
  intros Hr. assert (Hw : Forall wfReport (cpRows w)).
  { revert w Hr. apply rtc_ind_r; [constructor|]. intros w1 w2 Hr Hs IH.
    eapply wfReport_step; [by eapply cp_reachable_inv|done|done]. }
  apply cp_reachable_inv in Hr as [Hids _ _ Hjo Hsi]. repeat (split; [done|]).
  intros j ph Hin. destruct (Hjo j ph Hin) as (r & ? & ? & _). by exists r.
Qed.

(** *** What the service promises *)

(** How a row may change. *)
Definition progress (a b : Report) : Prop :=
  b = a \/
  (rpID b = rpID a /\ rpOrgID b = rpOrgID a /\ rpFramework b = rpFramework a /\ rpCreatedAt b = rpCreatedAt a /\
   ((rpStatus a = "pending" /\ In (rpStatus b) ["generating"; "ready"; "failed"]) \/
    (rpStatus a = "generating" /\ In (rpStatus b) ["ready"; "failed"]))).

Lemma rowUpdate_progress j now st k1 k2 e rows r :
  NoDup (map rpID rows) -> In r rows -> jobFor j r -> progress r (setReport now st k1 k2 e r) ->
  Forall2 progress rows (map (rowUpdate j now st k1 k2 e) rows).
Proof.
  intros Hn Hr [Hf _] Hp. apply Forall2_map_self. intros x Hx. unfold rowUpdate. destruct (decide _) as [Hd|]; [|by left].
  assert (x = r) as ->; [|exact Hp]. apply (NoDup_map_In rpID rows); try done. congruence.
Qed.

(** The life of a report, in every run of requests, generations, ticks of
    the worker and restarts, whatever fails: reports are only added, pending;
    a pending report becomes generating, ready or failed, a generating one
    ready or failed, and these are final; nothing else of a report changes but
    its keys, its error and the instant of the change. *)
Theorem report_life_cycle bulk store objects w w' :
  rtc step (cpInit bulk store objects) w -> step w w' ->
  exists old new, cpRows w' = old ++ new /\ Forall2 progress (cpRows w) old /\ Forall (fun r => rpStatus r = "pending") new.
Proof.
  intros Hi%cp_reachable_inv Hs. assert (Hsame : forall l, Forall2 progress l l).
  { intros l. induction l; constructor; [by left|done]. }
  assert (Hkeep : forall rows, exists old new, rows = old ++ new /\ Forall2 progress rows old /\
    Forall (fun r => rpStatus r = "pending") new).
  { intros rows. exists rows, []. rewrite app_nil_r. split; [done|]. split; [apply Hsame|constructor]. }
  destruct Hs as [orgID b jobID now f rows objs st bulk' jobs r|env j rows objs st bulk' l1 l2
    |env j rows objs st bulk' l1 l2 r|env j o rows objs st bulk' l1 l2|f env w|st' rows objs st bulk' jobs
    |bulk' rows objs st bulk'' jobs|bulk' rows objs st bulk'' jobs]; simpl; try by apply Hkeep.
  - destruct (HandleCreateReport_cases orgID b jobID now f rows bulk') as [[Hr1 _]|(id & org & fw & _ & _ & _ & Hr1 & _)];
      fold r in Hr1; rewrite Hr1; [by apply Hkeep|]. eexists _, _. split; [done|]. split; [apply Hsame|by repeat constructor].
  - destruct (ci_jobs _ Hi j JobStart) as (r & Hr & Hf & Hp); [simpl; apply in_or_app; right; by left|]. simpl in *.
    destruct (start_cases env j rows) as [->| ->]; [by apply Hkeep|]. eexists _, []. rewrite app_nil_r. split; [done|].
    split; [|constructor]. eapply rowUpdate_progress; [exact (ci_ids _ Hi)|exact Hr|exact Hf|].
    right. repeat (split; [done|]). left. split; [done|]. simpl. auto.
  - destruct (ci_jobs _ Hi j (JobFinish o)) as (r & Hr & Hf & Hp & Ho); [simpl; apply in_or_app; right; by left|]. simpl in *.
    destruct (finish_cases env j o rows) as [->| ->]; [by apply Hkeep|]. eexists _, []. rewrite app_nil_r. split; [done|].
    split; [|constructor]. eapply rowUpdate_progress; [exact (ci_ids _ Hi)|exact Hr|exact Hf|].
    right. repeat (split; [done|]). destruct Hp as [Hp|Hp]; [left|right]; (split; [done|]); simpl;
      destruct Ho as [->|(-> & _ & _)]; auto.
  - rewrite workerTick_idle by done. by apply Hkeep.
Qed.

Lemma GetReport_ok f orgID id rows r :
  GetReport pgUUID f orgID id rows = Ok r ->
  In r rows /\ pgUUID orgID = Some (rpOrgID r) /\ pgUUID id = Some (rpID r) /\ is_Some (rpS3Key r).
Proof.
  unfold GetReport, uuid_arg. destruct (fQuery f); [done|]. destruct (pgUUID id) as [i|]; [|done].
  destruct (pgUUID orgID) as [o|]; [|done]. simpl. destruct (List.find _ _) as [x|] eqn:Ef; [|done].
  apply find_some in Ef as [Hin Hp]. bool_to_prop. unfold scanReport. intros Hs.
  destruct (rpS3Key x) eqn:Ek, (rpS3SigKey x), (rpErrorMsg x); try done. injection Hs as ->. subst. by rewrite Ek.
Qed.

(** What can be downloaded: in every run, an answer that redirects is for a
    report of the caller's tenant that is ready, and the address is that of an
    object of S3 in which a report is stored under the key of this tenant and
    this report. *)
Theorem download_is_stored bulk store objects w presign orgID id f :
  rtc step (cpInit bulk store objects) w -> status (HandleDownloadReport pgUUID presign orgID id f (cpRows w)) = 302%Z ->
  exists r o j url, In r (cpRows w) /\ pgUUID orgID = Some (rpOrgID r) /\ pgUUID id = Some (rpID r) /\ rpStatus r = "ready" /\
    presign (objectKey o j) = Ok url /\
    HandleDownloadReport pgUUID presign orgID id f (cpRows w) = mkResponse 302 [("Location", url)] (JStr url) /\
    pgUUID o = pgUUID orgID /\ pgUUID j = pgUUID id /\ isStored (cpObjects w) (objectKey o j).
Proof.
  intros Hi%cp_reachable_inv. unfold HandleDownloadReport. destruct (GetReport _ _ _ _ _) as [r|e] eqn:Eg; [|done].
  apply GetReport_ok in Eg as (Hr & Ho & Hid & _). destruct (String.eqb_spec (rpStatus r) "ready") as [Hs|]; [|done]. simpl.
  destruct (ci_ready _ Hi r Hr Hs) as (o & j & Hk & Ho' & Hj & Hst). rewrite Hk. simpl.
  destruct (presign (objectKey o j)) as [url|] eqn:Eu; [|done]. intros _. exists r, o, j, url.
  repeat (split; [done|]). split; [congruence|]. split; [congruence|done].
Qed.

(** *** Reports that are refused *)

(** A pending report for which no goroutine was started. *)
Definition orphan (r : Report) (w : Cp S) : Prop :=
  In r (cpRows w) /\ rpStatus r = "pending" /\ forall j ph, In (j, ph) (cpJobs w) -> pgUUID (jbID j) <> Some (rpID r).

Lemma rowUpdate_other j now st k1 k2 e r rows :
  In r rows -> pgUUID (jbID j) <> Some (rpID r) -> In r (map (rowUpdate j now st k1 k2 e) rows).
Proof. intros Hr Hne. apply in_map_iff. exists r. split; [|done]. unfold rowUpdate. by rewrite decide_False. Qed.

Lemma orphan_step r w w' : cp_inv w -> orphan r w -> step w w' -> orphan r w'.
Proof.
  intros Hi (Hr & Hst & Hj) Hs. destruct Hs as [orgID b jobID now f rows objs store bulk jobs x|env j rows objs store bulk l1 l2
    |env j rows objs store bulk l1 l2 x|env j o rows objs store bulk l1 l2|f env w|store' rows objs store bulk jobs
    |bulk' rows objs store bulk jobs|bulk' rows objs store bulk jobs]; simpl in *.
  - destruct (HandleCreateReport_cases orgID b jobID now f rows bulk) as [[Hr1 Hr2]|(id & org & fw & Hid & _ & Hf & Hr1 & Hr2)];
      fold x in Hr1, Hr2; unfold orphan; simpl; rewrite Hr1.
    { rewrite Hr2, app_nil_r. auto. }
    split; [apply in_or_app; by left|]. split; [done|]. intros j ph [Hin|Hin]%in_app_or; [by eapply Hj|].
    destruct Hr2 as [E|E]; rewrite E in Hin; [done|]. destruct Hin as [[= <- <-]|[]]. simpl. rewrite Hid. intros [= E2]. by apply (Hf r).
  - assert (Hne : pgUUID (jbID j) <> Some (rpID r)) by (apply (Hj j JobStart), in_or_app; right; by left).
    split; simpl; [destruct (start_cases env j rows) as [->| ->]; [done|by apply rowUpdate_other]|]. split; [done|].
    intros j' ph' [Hin|[[= <- <-]|Hin]]%in_app_or; [|done|]; apply (Hj j' ph'), in_or_app; [by left|right; by right].
  - split; simpl; [done|]. split; [done|].
    intros j' ph' [Hin|[[= <- <-]|Hin]]%in_app_or; [|apply (Hj j JobRender), in_or_app; right; by left|];
      apply (Hj j' ph'), in_or_app; [by left|right; by right].
  - assert (Hne : pgUUID (jbID j) <> Some (rpID r)) by (apply (Hj j (JobFinish o)), in_or_app; right; by left).
    split; simpl; [destruct (finish_cases env j o rows) as [->| ->]; [done|by apply rowUpdate_other]|]. split; [done|].
    intros j' ph' [Hin|Hin]%in_app_or; apply (Hj j' ph'), in_or_app; [by left|right; by right].
  - by rewrite workerTick_idle.
  - done.
  - done.
  - split; [done|]. split; [done|]. by intros j ph [].
Qed.

Lemma scanAll_err l r : In r l -> rpS3Key r = None -> exists e, scanAll l = Err e.
Proof.
  intros Hin Hn. induction l as [|x l IH]; [done|]. simpl. destruct Hin as [->|Hin].
  - unfold scanReport. rewrite Hn. by eexists.
  - destruct (scanReport x) as [y|e]; simpl; [|by eexists]. destruct (IH Hin) as [e ->]. by exists e.
Qed.

(** A report that is refused is stuck, and takes its tenant's list with it.
    A pending report that no goroutine works on - the bulkhead was full, or
    the service restarted - stays pending in every run that follows, however
    often the worker ticks; and while it does, listing the reports of its
    tenant fails, and asking for its status answers that there is none. *)
Theorem refused_report_is_stuck bulk store objects w w' r orgID id :
  rtc step (cpInit bulk store objects) w -> orphan r w -> rtc step w w' ->
  pgUUID orgID = Some (rpOrgID r) -> pgUUID id = Some (rpID r) ->
  In r (cpRows w') /\ rpStatus r = "pending" /\
  status (HandleListReports pgUUID timeDoc orgID noFaults (cpRows w')) = StatusInternalServerError /\
  status (HandleGetReportStatus pgUUID timeDoc orgID id noFaults (cpRows w')) = StatusNotFound.
Proof.
  intros Hw Ho Hs Horg Hid. assert (Hend : cp_inv w' /\ orphan r w').
  { pose proof (cp_reachable_inv _ _ _ _ Hw) as Hi. clear Hw. revert Hi Ho. induction Hs as [w|w1 w2 w3 Hs _ IH]; [done|].
    intros Hi Ho. apply IH; [by eapply cp_inv_step|by eapply orphan_step]. }
  destruct Hend as [Hi (Hin & Hst & _)]. pose proof (ci_pending _ Hi r Hin Hst) as Hn.
  split; [done|]. split; [done|]. split.
  - unfold HandleListReports, ListReports, uuid_arg. rewrite Horg. simpl. unfold readReports. simpl.
    destruct (scanAll_err (order_by newestReport (List.filter (fun x => rpOrgID x =s? rpOrgID r) (cpRows w'))) r) as [e ->]; try done.
    apply order_by_In, filter_In. by rewrite String.eqb_refl.
  - unfold HandleGetReportStatus. destruct (GetReport _ _ _ _ _) as [x|e] eqn:Eg; [|done]. exfalso.
    apply GetReport_ok in Eg as (Hx & _ & Hxid & [k Hk]).
    assert (x = r) as -> by (apply (NoDup_map_In rpID (cpRows w')); try done; [exact (ci_ids _ Hi)|congruence]). congruence.
Qed.
End report_properties.

(** ** Properties of the writer *)

Section writer_properties.
Context (rfc3339 : string -> option Z).
#[local] Notation decode := (decodeChEvent rfc3339).
#[local] Notation step topic size := (wr_step rfc3339 topic size).

(** An event but for its instant. *)
Definition timeless (e : ChEvent) : ChEvent := set_ceOccurredAt 0 e.
Definition eventOf (value : raw) : list ChEvent := match decode 0 value with Ok e => [timeless e] | Err _ => [] end.

Lemma decode_timeless now value :
  match decode now value with Ok e => eventOf value = [timeless e] | Err _ => eventOf value = [] end.
Proof.
  unfold eventOf, decodeChEvent. destruct (unmarshal_struct _ _ _) as [e|]; simpl; [|done].
  by destruct (ceOccurredAt e =? zeroTime)%Z.
Qed.

Lemma decodeMessages_timeless now ms : map timeless (decodeMessages rfc3339 now ms) = flat_map eventOf ms.
Proof.
  induction ms as [|m ms IH]; simpl; [done|]. pose proof (decode_timeless now m) as Hm.
  destruct (decode now m) as [e|]; rewrite Hm; simpl; by rewrite IH.
Qed.

Lemma chRow_timeless l : map timeless (map chRow l) = map timeless l.
Proof. rewrite map_map. by apply map_ext. Qed.

(** A flush without failure. *)
Lemma writerFlush_ok now commit ms store :
  writerFlush rfc3339 now None commit ms store = (store ++ map chRow (decodeMessages rfc3339 now ms), commit).
Proof. unfold writerFlush. destruct (decodeMessages _ _ _); simpl; [by rewrite app_nil_r|done]. Qed.

Definition wrInit : Wr := mkWr 0 0 [] [] [].

(** What a run without failed ingestions and restarts has done. *)
Definition copied (topic : nat -> raw) (batchSize : Z) (w : Wr) : Prop :=
  exists k, wrBatch w = seq k (wrNext w - k) /\ k <= wrNext w /\ wrCommitted w <= k /\
    map timeless (wrStore w) = flat_map eventOf (map topic (seq 0 k)) /\
    (Z.of_nat (length (wrBatch w)) < Z.max 1 batchSize)%Z.

Lemma flushBatch_copied topic batchSize now commit n c b s d :
  (exists k, b = seq k (n - k) /\ k <= n /\ c <= k /\ map timeless s = flat_map eventOf (map topic (seq 0 k))) ->
  copied topic batchSize (flushBatch rfc3339 topic now None commit (mkWr n c b s d)).
Proof.
  intros (k & -> & Hk & Hc & Hs). unfold flushBatch. simpl. rewrite writerFlush_ok.
  exists n. simpl. rewrite Nat.sub_diag. split; [done|]. split; [lia|]. split; [destruct commit; lia|]. split; [|lia].
  rewrite map_app, chRow_timeless, decodeMessages_timeless, Hs, <- flat_map_app, <- map_app.
  replace n with (k + (n - k)) at 2 by lia. by rewrite seq_app.
Qed.

(** Without failures the writer copies the trail: at every moment the rows
    of the store are, but for their instants, the decodable messages below the
    current batch, in order and each once; the batch holds the messages after
    them, fewer than its size; and no offset is committed beyond what is
    stored. *)
Theorem writer_copies topic batchSize w :
  rtc (step topic batchSize None) wrInit w -> copied topic batchSize w.
Proof.
  revert w. apply rtc_ind_r.
  - exists 0. simpl. repeat split; auto; lia.
  - intros w1 w2 _ Hs (k & Hb & Hk & Hc & Hst & Hlt). inversion Hs as [now fault commit n c b s d w Ef E1 E2|now fault commit n c b s d Hne Ef E1 E2];
      subst; simpl in *.
    + assert (Hb2 : seq k (n - k) ++ [n] = seq k (S n - k)).
      { replace (S n - k) with (n - k + 1) by lia. rewrite seq_app. f_equal. simpl. f_equal. lia. }
      subst w. rewrite <- Hb in Hb2. rewrite Hb2. destruct (Z.leb_spec batchSize (Z.of_nat (length (seq k (S n - k))))) as [Hge|Hlt2].
      * apply flushBatch_copied. exists k. repeat split; auto; lia.
      * exists k. simpl. repeat split; auto; lia.
    + apply flushBatch_copied. exists k. repeat split; auto.
Qed.

(** *** Failed batches *)

Definition wr_any topic batchSize (a b : Wr) : Prop := (exists f, step topic batchSize f a b) \/ wr_restart a b.

Definition passed (o : nat) (w : Wr) : Prop := o < wrNext w /\ forall x, In x (wrBatch w) -> o < x.

Lemma passed_flush o topic now f commit w : passed o w ->
  passed o (flushBatch rfc3339 topic now f commit w) /\
  (In o (wrStored (flushBatch rfc3339 topic now f commit w)) -> In o (wrStored w)) /\
  (o < wrCommitted w -> o < wrCommitted (flushBatch rfc3339 topic now f commit w)).
Proof.
  intros [Hn Hb]. unfold flushBatch. destruct (writerFlush _ _ _ _ _ _) as [s committed]. split; [by split|]. split; simpl.
  - destruct (ingested _ _ _ _); [|done]. intros [?|Hin%Hb]%in_app_or; [done|lia].
  - destruct committed; [intros _; exact Hn|done].
Qed.

Lemma passed_step o topic size f w w' : passed o w -> step topic size f w w' ->
  passed o w' /\ (In o (wrStored w') -> In o (wrStored w)) /\ (o < wrCommitted w -> o < wrCommitted w').
Proof.
  intros [Hn Hb] Hs. destruct Hs as [now fault commit n c b s d w|now fault commit n c b s d Hne]; simpl in *.
  - assert (Hp : passed o w).
    { split; simpl; [lia|]. intros x [Hx|[<-|[]]]%in_app_or; [by apply Hb|done]. }
    destruct (size <=? _)%Z; [by apply (passed_flush o topic now fault commit) in Hp|done].
  - by apply (passed_flush o topic now fault commit (mkWr n c b s d)).
Qed.

(** What the comment in the code promises does not hold: a batch whose
    ingestion fails is not delivered again once a later batch was committed.
    From then on its messages are never ingested, restarts included. *)
Theorem failed_batch_is_lost topic batchSize w now fault commit o w2 w3 :
  In o (wrBatch w) -> (forall x, In x (wrBatch w) -> x < wrNext w) -> ~ In o (wrStored w) ->
  ingested rfc3339 now fault (map topic (wrBatch w)) = false ->
  rtc (fun a b => exists f, step topic batchSize f a b) (flushBatch rfc3339 topic now fault commit w) w2 ->
  o < wrCommitted w2 -> rtc (wr_any topic batchSize) w2 w3 ->
  o < wrCommitted w3 /\ ~ In o (wrBatch w3) /\ ~ In o (wrStored w3).
Proof.
  intros Hin Hb Hns Hf Hr2 Hc Hr3. assert (H1 : passed o (flushBatch rfc3339 topic now fault commit w) /\
    ~ In o (wrStored (flushBatch rfc3339 topic now fault commit w))).
  { unfold flushBatch. destruct (writerFlush _ _ _ _ _ _) as [s committed]. rewrite Hf. split; [|done].
    split; simpl; [by apply Hb|done]. }
  assert (H2 : passed o w2 /\ ~ In o (wrStored w2)).
  { clear Hc Hr3. revert H1. induction Hr2 as [|a b c [f Hs] _ IH]; [done|]. intros [Hp Hn]. apply IH.
    destruct (passed_step _ _ _ _ _ _ Hp Hs) as (? & ? & _). auto. }
  assert (H3 : passed o w3 /\ ~ In o (wrStored w3) /\ o < wrCommitted w3).
  { destruct H2 as [Hp Hn]. clear -Hp Hn Hc Hr3. induction Hr3 as [|a b c Hs _ IH]; [done|].
    destruct Hs as [[f Hs]|Hs].
    - destruct (passed_step _ _ _ _ _ _ Hp Hs) as (? & ? & ?). apply IH; auto.
    - destruct Hs. simpl in *. apply IH; simpl; [exact Hc|by split|exact Hn]. }
  destruct H3 as ([_ Hx] & ? & ?). split; [done|]. split; [|done]. intros Hi%Hx. lia.
Qed.

(** *** Tenants *)

Lemma upd_ch_event_org k e j e' : key_is "OrgID" k = false -> upd_ch_event rfc3339 k e j = Ok e' -> ceOrgID e' = ceOrgID e.
Proof.
  intros Hk Hu. destruct e. unfold upd_ch_event in Hu. rewrite Hk in Hu.
  repeat match type of Hu with
  | (if ?b then _ else _) = _ => destruct b; [apply res_bind_ok in Hu as (v & _ & [= <-]); reflexivity|]
  end.
  by injection Hu as <-.
Qed.

Lemma dec_members_org l e e' :
  (forall k j, In (k, j) l -> key_is "OrgID" k = false) -> dec_members (upd_ch_event rfc3339) l e = Ok e' -> ceOrgID e' = ceOrgID e.
Proof.
  revert e. induction l as [|[k j] l IH]; simpl; intros e Hk; [intros H; injection H as ->; reflexivity|].
  intros (e1 & He1 & H)%res_bind_ok. rewrite (IH e1); [|by intros k' j' Hin; apply (Hk k' j'); right|done].
  eapply upd_ch_event_org; [|exact He1]. apply (Hk k j). by left.
Qed.

(** The messages of the trail: what the audit service ingests, if its client
    sends no member that Go takes for [OrgID], and what the saga writes. *)
Inductive trail_message (timeText : Z -> string) : raw -> Prop :=
| tm_ingest dlpURL mode orgID b now dlp publish st topic id e g :
    Ingest dlpURL mode orgID b now dlp publish = IngestResponse st (Some (topic, id, e)) ->
    unmarshal_map b = Ok (Some g) -> (forall k j, g !! k = Some j -> key_is "OrgID" k = false) ->
    trail_message timeText (Some (JObj (map_to_list e)))
| tm_alert a : trail_message timeText (Some (auditDoc timeText a)).

Lemma trail_message_org timeText value now e : trail_message timeText value -> decode now value = Ok e -> ceOrgID e = "".
Proof.
  intros Ht. assert (Hd : forall now e, ceOrgID (if (ceOccurredAt e =? zeroTime)%Z then set_ceOccurredAt now e else e) = ceOrgID e).
  { intros n x. by destruct (_ =? _)%Z. }
  destruct Ht as [dlpURL mode orgID b n dlp publish st topic id g' g Hi Hg Hk|a].
  - unfold Ingest in Hi. rewrite Hg in Hi. destruct (orgID =s? ""); [done|]. destruct (_ && _ && _); [done|].
    destruct (publish _ _ _); [done|]. injection Hi as _ _ _ <-.
    unfold decodeChEvent. intros (x & Hx & [= <-])%res_bind_ok. rewrite Hd. simpl in Hx.
    apply dec_members_org in Hx; [exact Hx|]. intros k j Hin%list_elem_of_In%elem_of_map_to_list.
    assert (Hkeys : k = "org_id" \/ k = "event_id" \/ g !! k = Some j).
    { unfold stampEvent in Hin. destruct (<["org_id" := JStr orgID]> g !! "event_id") as [[]|];
        try (destruct (decide (k = "event_id")) as [->|]; [by auto|rewrite lookup_insert_ne in Hin by done]);
        (destruct (decide (k = "org_id")) as [->|]; [by auto|rewrite lookup_insert_ne in Hin by done]); auto. }
    destruct Hkeys as [->|[->|Hg']]; [reflexivity|reflexivity|by eapply Hk].
  - unfold decodeChEvent, auditDoc, sagaAlertDoc. cbn [unmarshal_struct dec_members app]. unfold upd_ch_event. json_keys.
    cbn [dec_string res_bind]. done.
Qed.

Lemma decodeMessages_org timeText now ms :
  Forall (trail_message timeText) ms -> Forall (fun e => ceOrgID e = "") (decodeMessages rfc3339 now ms).
Proof.
  induction 1 as [|m ms Hm _ IH]; simpl; [constructor|]. destruct (decode now m) eqn:E; [|done].
  constructor; [by eapply trail_message_org|done].
Qed.

Lemma flushBatch_org timeText topic now f commit w :
  (forall o, trail_message timeText (topic o)) -> Forall (fun e => ceOrgID e = "") (wrStore w) ->
  Forall (fun e => ceOrgID e = "") (wrStore (flushBatch rfc3339 topic now f commit w)).
Proof.
  intros Ht Hs. unfold flushBatch, writerFlush.
  assert (Hm : Forall (fun e => ceOrgID e = "") (map chRow (decodeMessages rfc3339 now (map topic (wrBatch w))))).
  { apply Forall_map. eapply Forall_impl; [apply (decodeMessages_org timeText)|by intros e].
    apply Forall_map, Forall_forall. intros o _. apply Ht. }
  destruct (decodeMessages _ _ _); [done|].
  destruct f as [[e []]|]; simpl; [apply Forall_app; by split|done|apply Forall_app; by split].
Qed.

Lemma chFinal_In e l : In e (chFinal l) -> In e l.
Proof. induction l as [|x l IH]; simpl; [done|]. destruct (existsb _ _); [auto|]. intros [->|?]; auto. Qed.

(** The posture sees no tenant.  The struct that the writer decodes has no
    JSON names, so the member "org_id" of an event is not its tenant: in every
    run of the writer over a trail of ingested events and alerts, failures and
    restarts included, every score of every tenant is computed from zeros. *)
Theorem posture_is_blind (mix : list (Z * Z) -> json) timeText topic batchSize w orgID now :
  (forall o, trail_message timeText (topic o)) -> rtc (wr_any topic batchSize) wrInit w -> orgID <> "" ->
  GetPosture mix None orgID now (wrStore w) =
    Ok [("GDPR", mix [(0, 3); (0, 7)]); ("HIPAA", mix [(0, 2); (0, 6); (0, 2)]); ("SOC2", mix [(0, 2); (0, 4); (0, 4)])]%Z.
Proof.
  intros Ht Hr Ho. assert (Hs : Forall (fun e => ceOrgID e = "") (wrStore w)).
  { revert w Hr. apply rtc_ind_r; [constructor|]. intros w1 w2 _ [[f Hs]|Hs] IH.
    - destruct Hs; simpl in *; [destruct (_ <=? _)%Z|]; try (by eapply flushBatch_org); done.
    - by destruct Hs. }
  assert (Hz : forall p, countLike orgID now p (wrStore w) = 0%Z).
  { intros p. unfold countLike. rewrite filter_none; [done|]. intros e He%chFinal_In.
    rewrite Forall_forall in Hs. rewrite (Hs e (proj2 (list_elem_of_In _ _) He)).
    destruct (String.eqb_spec "" orgID); [congruence|done]. }
  unfold GetPosture. by rewrite !Hz.
Qed.
End writer_properties.

(** ** Examples *)

Module ComplianceExamples.

Definition uuid (s : string) : option string := if s =s? "" then None else Some s.
Definition paper (_ _ _ : string) (_ : Z) (_ : list (string * json)) : res string := Ok "pdf".
Definition zeroMix (_ : list (Z * Z)) : json := JNum 0.
Definition bulk : Bulkhead (Z * Z) := NewBulkhead 10.
Definition body : raw := Some (JObj [("framework", JStr "gdpr")]).
Definition job : Job := mkJob "j" "o" "gdpr".
Definition env : GenEnv := mkGenEnv noFaults noFaults 1 None (Some (Ok "sig")) None None.
#[local] Notation step := (cp_step (S := Z * Z) uuid paper zeroMix).

Definition row : Report := mkReport "j" "o" "gdpr" "pending" None None None 0 0.
Definition w0 : Cp (Z * Z) := cpInit bulk [] ∅.
Definition w1 : Cp (Z * Z) := mkCp [row] ∅ [] bulk [(job, JobStart)].
Definition w2 : Cp (Z * Z) := mkCp (startReport uuid env job [row]) ∅ [] bulk [(job, JobRender)].
Definition drawn : gmap string string * Outcome := renderReport paper zeroMix env job [] ∅.
Definition w3 : Cp (Z * Z) := mkCp (cpRows w2) drawn.1 [] bulk [(job, JobFinish drawn.2)].
Definition w4 : Cp (Z * Z) := mkCp (finishReport uuid env job drawn.2 (cpRows w3)) drawn.1 [] bulk [].

Lemma create_step : step w0 w1.
Proof. exact (cp_create (S := Z * Z) uuid paper zeroMix "o" body "j" 0 noFaults [] ∅ [] bulk []). Qed.

Lemma start_step : step w1 w2.
Proof. exact (cp_start (S := Z * Z) uuid paper zeroMix env job [row] ∅ [] bulk [] []). Qed.

Lemma render_step : step w2 w3.
Proof. exact (cp_render (S := Z * Z) uuid paper zeroMix env job (cpRows w2) ∅ [] bulk [] []). Qed.

Lemma finish_step : step w3 w4.
Proof. exact (cp_finish (S := Z * Z) uuid paper zeroMix env job drawn.2 (cpRows w3) drawn.1 [] bulk [] []). Qed.

Lemma done_trace : rtc step w0 w4.
Proof.
  eapply rtc_l; [exact create_step|]. eapply rtc_l; [exact start_step|]. eapply rtc_l; [exact render_step|].
  eapply rtc_l; [exact finish_step|]. apply rtc_refl.
Qed.

Lemma reports_well_formed_witness : Forall (wfReport uuid) (cpRows w4) /\ map rpStatus (cpRows w4) = ["ready"].
Proof.
  split; [|reflexivity]. exact (proj1 (reports_well_formed uuid paper zeroMix bulk [] ∅ w4 done_trace)).
Defined.

Lemma report_life_cycle_witness :
  exists old new, cpRows w2 = old ++ new /\ Forall2 progress (cpRows w1) old /\ Forall (fun r => rpStatus r = "pending") new.
Proof.
  apply (report_life_cycle uuid paper zeroMix bulk [] ∅ w1 w2); [|exact start_step].
  eapply rtc_l; [exact create_step|apply rtc_refl].
Defined.

Definition presign (k : string) : res string := Ok ("https://s3/" +:+ k).

Lemma download_is_stored_witness :
  exists o j url, presign (objectKey o j) = Ok url /\ isStored paper (cpObjects w4) (objectKey o j).
Proof.
  destruct (download_is_stored uuid paper zeroMix bulk [] ∅ w4 presign "o" "j" noFaults done_trace) as
    (r & o & j & url & _ & _ & _ & _ & Hu & _ & _ & _ & Hs); [reflexivity|]. by exists o, j, url.
Defined.

(** A capacity of zero, which is what an unreadable setting becomes. *)
Definition shut : Bulkhead (Z * Z) := NewBulkhead 0.
Definition v1 : Cp (Z * Z) := mkCp [row] ∅ [] shut [].

Lemma refused_report_is_stuck_witness :
  status (HandleListReports uuid JNum "o" noFaults [row]) = StatusInternalServerError.
Proof.
  apply (refused_report_is_stuck uuid paper zeroMix JNum shut [] ∅ v1 v1 row "o" "j"); try reflexivity.
  - eapply rtc_l; [|apply rtc_refl].
    exact (cp_create (S := Z * Z) uuid paper zeroMix "o" body "j" 0 noFaults [] ∅ [] shut []).
  - split; [by left|]. split; [reflexivity|]. intros j ph [].
Defined.

(** The bulkhead guards the start of a goroutine, not its run: one place is
    enough for any number of them. *)
Lemma bulkhead_does_not_bound :
  exists rows, rtc step (cpInit (NewBulkhead 1) [] ∅)
    (mkCp rows ∅ [] (NewBulkhead 1) [(mkJob "j" "o" "gdpr", JobStart); (mkJob "k" "o" "gdpr", JobStart)]).
Proof.
  eexists. eapply rtc_l; [exact (cp_create (S := Z * Z) uuid paper zeroMix "o" body "j" 0 noFaults [] ∅ [] (NewBulkhead 1) [])|].
  eapply rtc_l; [|apply rtc_refl].
  exact (cp_create (S := Z * Z) uuid paper zeroMix "o" body "k" 0 noFaults [row] ∅ [] (NewBulkhead 1) [(job, JobStart)]).
Qed.

(** *** The writer *)

Definition noDates (_ : string) : option Z := None.
Definition posted : raw := Some (JObj [("type", JStr "auth.failed")]).
Definition members : event := {[ "type" := JStr "auth.failed" ]}.
Definition topic (_ : nat) : raw := Some (JObj (map_to_list (stampEvent "o" 7 members))).
Definition day : Z := (30 * (24 * Hour))%Z.

Lemma writer_copies_witness : copied noDates topic 2 (flushBatch noDates topic day None true (mkWr 2 0 [0; 1] [] [])).
Proof.
  apply (writer_copies noDates topic 2).
  eapply rtc_l; [exact (wr_fetch noDates topic 2 day None true 0 0 [] [] [])|].
  eapply rtc_l; [exact (wr_fetch noDates topic 2 day None true 1 0 [0] [] [])|]. apply rtc_refl.
Defined.

(** What the audit service publishes for the tenant "o" reaches the store
    without its tenant. *)
Lemma ingested_message o : trail_message (fun _ => "") (topic o).
Proof.
  eapply (tm_ingest (fun _ => "") "" "audit" "o" posted 7 (fun _ => DlpDown) (fun _ _ _ => None) StatusAccepted
    "audit.trail" "evt-7" (stampEvent "o" 7 members) members); [reflexivity|reflexivity|].
  unfold members. intros k j Hk. apply lookup_singleton_Some in Hk as [<- _]. reflexivity.
Qed.

Lemma posture_is_blind_witness :
  GetPosture zeroMix None "o" day (wrStore (flushBatch noDates topic day None true (mkWr 1 0 [0] [] []))) =
    Ok [("GDPR", JNum 0); ("HIPAA", JNum 0); ("SOC2", JNum 0)].
Proof.
  apply (posture_is_blind noDates zeroMix (fun _ => "") topic 1); [exact ingested_message| |done].
  eapply rtc_l; [|apply rtc_refl]. left. exists None.
  exact (wr_fetch noDates topic 1 day None true 0 0 [] [] []).
Defined.

(** A batch of one whose ingestion fails, and the one after it. *)
Definition down : option (goerr * bool) := Some (ErrNew "connection refused", false).

Lemma failed_batch_is_lost_witness :
  exists w, wrNext w = 2 /\ wrCommitted w = 2 /\ ~ In 0 (wrStored w).
Proof.
  set (failed := flushBatch noDates topic day down true (mkWr 1 0 [0] [] [])).
  set (later := flushBatch noDates topic day None true (mkWr 2 0 [1] [] [])). exists later.
  split; [reflexivity|]. split; [reflexivity|].
  apply (failed_batch_is_lost noDates topic 1 (mkWr 1 0 [0] [] []) day down true 0 later later).
  - by left.
  - intros x [<-|[]]. simpl. lia.
  - by intros [].
  - reflexivity.
  - eapply rtc_l; [|apply rtc_refl]. exists None. exact (wr_fetch noDates topic 1 day None true 1 0 [] [] []).
  - unfold later. vm_compute. lia.
  - apply rtc_refl.
Defined.
End ComplianceExamples.
