(* ===== verification/IamAdmin.v ===== *)
(** The administrative half of the identity service's HTTP API: SCIM
    (services/iam/pkg/handlers/scim.go) and the routes under /mgmt
    (handler.go), with the statements on tenants and connectors that only they
    use (repository_org.go, repository_connector.go).  A SCIM request carries
    the tenant of its token, a request under /mgmt that of its user; no route
    looks at the role of the user. *)

From S2P Require Import Prelude GoStrings Json Redis Pg Resilience Hex Crypto Http Outbox Middleware.
From S2P Require Import IamStore IamService IamUsers IamTokens IamLogin IamHandlers.
From stdpp Require Import gmap.
From Stdlib Require Import Ascii Sorting.Sorted.

(** ** Parameters and documents *)

(** [fmt.Sscanf(s, "%d", &n)], [None] when it fails. *)
Definition Sscanf_int (s : string) : option Z :=
  let '(sign, digits) :=
    match skip_blanks s with
    | String c s' => if Ascii.eqb c "-"%char then ((-1)%Z, s') else if Ascii.eqb c "+"%char then (1%Z, s') else (1%Z, String c s')
    | EmptyString => (1%Z, "")
    end in
  match digits with
  | String c _ =>
      match digit_of c with
      | Some _ => let z := (sign * scan_digits 0 digits)%Z in if in_int64 z then Some z else None
      | None => None
      end
  | EmptyString => None
  end.

Definition parseIntParam (s : string) (def : Z) : Z :=
  if s =s? "" then def else default def (Sscanf_int s).

Example parseIntParam_ex :
  map (fun s => parseIntParam s 100) [""; "x"; "7"; " -3x"; "+"; "99999999999999999999"] = [100; 100; 7; -3; 100; 100]%Z.
Proof. vm_compute. reflexivity. Qed.

(** What [PostScimUser] uses of [scimUser]; the other members are decoded for
    their types. *)
Record ScimPayload := mkScimPayload { spExternalID : string; spDisplayName : string; spEmails : list (string * bool) }.

Definition upd_email (k : string) (e : string * bool) (j : json) : res (string * bool) :=
  if key_is "value" k then v <-? dec_string e.1 j; Ok (v, e.2)
  else if key_is "primary" k then p <-? dec_bool e.2 j; Ok (e.1, p)
  else Ok e.

Definition upd_meta (k : string) (u : unit) (j : json) : res unit :=
  if existsb (fun n => key_is n k) ["resourceType"; "created"; "lastModified"; "version"; "location"]
  then _ <-? dec_string "" j; Ok u else Ok u.

Definition upd_scim (k : string) (p : ScimPayload) (j : json) : res ScimPayload :=
  if key_is "schemas" k then _ <-? dec_strings [] j; Ok p
  else if key_is "id" k then _ <-? dec_string "" j; Ok p
  else if key_is "externalId" k then v <-? dec_string (spExternalID p) j; Ok (mkScimPayload v (spDisplayName p) (spEmails p))
  else if key_is "userName" k then _ <-? dec_string "" j; Ok p
  else if key_is "displayName" k then v <-? dec_string (spDisplayName p) j; Ok (mkScimPayload (spExternalID p) v (spEmails p))
  else if key_is "active" k then _ <-? dec_bool false j; Ok p
  else if key_is "emails" k then
    v <-? dec_slice (fun e => unmarshal_struct upd_email ("", false) (Some e)) j;
    Ok (mkScimPayload (spExternalID p) (spDisplayName p) v)
  else if key_is "meta" k then _ <-? unmarshal_struct upd_meta tt (Some j); Ok p
  else Ok p.

(** The primary address, else the first. *)
Definition scimAddress (emails : list (string * bool)) : string :=
  let email := match find (fun e : string * bool => e.2) emails with Some e => e.1 | None => "" end in
  if email =s? "" then match emails with e :: _ => e.1 | [] => "" end else email.

Definition upd_op (k : string) (o : ScimPatchOp) (j : json) : res ScimPatchOp :=
  if key_is "op" k then v <-? dec_string (poOp o) j; Ok (mkScimPatchOp v (poPath o) (poValue o))
  else if key_is "path" k then v <-? dec_string (poPath o) j; Ok (mkScimPatchOp (poOp o) v (poValue o))
  else if key_is "value" k then v <-? dec_raw (poValue o) j; Ok (mkScimPatchOp (poOp o) (poPath o) v)
  else Ok o.

Definition upd_patch (k : string) (ops : list ScimPatchOp) (j : json) : res (list ScimPatchOp) :=
  if key_is "schemas" k then _ <-? dec_strings [] j; Ok ops
  else if key_is "Operations" k then dec_slice (fun o => unmarshal_struct upd_op (mkScimPatchOp "" "" None) (Some o)) j
  else Ok ops.

Definition mapToScim (user : User) : json :=
  JObj ([("schemas", JArr [JStr "urn:ietf:params:scim:schemas:core:2.0:User"]); ("id", JStr (uID user))] ++
        opt_str "externalId" (default "" (uSCIMExternalID user)) ++
        [("userName", JStr (uEmail user)); ("displayName", JStr (uDisplayName user));
         ("active", JBool (uStatus user =s? "active"));
         ("emails", JArr [JObj [("value", JStr (uEmail user)); ("primary", JBool true)]]);
         ("meta", JObj [("resourceType", JStr "User"); ("created", JStr ""); ("lastModified", JStr "");
                        ("version", JStr ("v" +:+ itoa (uVersion user))); ("location", JStr ("/scim/v2/Users/" +:+ uID user))])]).

Definition writeScimError (st : Z) (scimType detail : string) : Response :=
  mkResponse st [("Content-Type", "application/scim+json")]
    (JObj [("detail", JStr detail); ("schemas", JArr [JStr "urn:ietf:params:scim:api:messages:2.0:Error"]);
           ("scimType", JStr scimType); ("status", JStr (itoa st))]).

Definition connectorDoc (c : Connector) : json :=
  JObj ([("id", JStr (cnID c)); ("org_id", JStr (cnOrgID c)); ("name", JStr (cnName c))] ++
        opt_str "client_secret" (cnClientSecret c) ++ [("redirect_uris", JArr (map JStr (cnRedirectURIs c)))]).

(** A nil slice is null. *)
Definition sliceDoc {A} (doc : A -> json) (l : list A) : json :=
  match l with [] => JNull | _ => JArr (map doc l) end.

(** ** Tenants and connectors *)

Definition ErrNotNull : goerr := ErrNew "null value violates not-null constraint".

(** What one change of tenants or connectors meets; [aeSlug] says whether the
    slug drawn from the name is taken, slugs being left out of the tables. *)
Record AdminEnv (S : Type) := mkAdminEnv {
  aeConn : S; aeID : string; aeSlug : bool; aeBegin : option goerr; aeOrg : option goerr; aeSet : option goerr;
  aeInsert : option goerr; aeCommit : commitOutcome;
}.
Arguments mkAdminEnv {S} _ _ _ _ _ _ _ _.
Arguments aeConn {S} _.
Arguments aeID {S} _.
Arguments aeSlug {S} _.
Arguments aeBegin {S} _.
Arguments aeOrg {S} _.
Arguments aeSet {S} _.
Arguments aeInsert {S} _.
Arguments aeCommit {S} _.

Section store.
Context {S : Type} `{PgSession S}.
Variable pgUUID : uuidCast.
Variable ro : role.

(** [INSERT INTO orgs ... RETURNING id]; the policy compares the id itself. *)
Definition insert_org (sess : S) (id : string) (slugTaken : bool) (db : DB) : res (DB * string) :=
  vis <-? visible pgUUID ro sess;
  if negb (vis id) then Err ErrRLS
  else if slugTaken || existsb (String.eqb id) (orgs db) then Err ErrUnique
  else Ok (set_connectors (orgs db ++ [id]) (connectors db) db, id).

(** [CreateOrg] sets no tenant. *)
Definition CreateOrg (c : dbc S) (id : string) (slugTaken : bool) (db : DB) : DB * res string :=
  match fAcquire (dFaults c) with
  | Some e => (db, Err e)
  | None => autocommit (dFaults c) (insert_org (dConn c) id slugTaken) db
  end.

Definition insert_iam_connector (sess : S) (id orgID name secret : string) (uris : option (list string)) (db : DB)
  : res (DB * unit) :=
  org <-? uuid_arg pgUUID orgID;
  vis <-? visible pgUUID ro sess;
  match uris with
  | None => Err ErrNotNull
  | Some us =>
      if negb (vis org) then Err ErrRLS
      else if existsb (fun k => cnID k =s? id) (connectors db) then Err ErrUnique
      else if negb (existsb (String.eqb org) (orgs db)) then Err ErrForeignKey
      else Ok (set_connectors (orgs db) (connectors db ++ [mkConnector id org name secret us]) db, tt)
  end.

(** [CreateConnector]: a tenant of its own, and the connector, in one
    transaction.  The id of the tenant is returned with an error of the
    commit. *)
Definition CreateIamConnector (env : AdminEnv S) (id name secret : string) (uris : option (list string)) (db : DB)
  : DB * res string :=
  match aeBegin env with
  | Some e => (db, Err e)
  | None =>
      let sess := pg_begin (aeConn env) in
      match tx_exec (Begin db) (aeOrg env) (insert_org sess (aeID env) (aeSlug env)) with
      | (_, Err e) => (db, Err e)
      | (tx, Ok orgID) =>
          match TxSetSessionVar sess orgID (aeSet env) with
          | (_, Some e) => (db, Err e)
          | (sess, None) =>
              match tx_exec tx (aeInsert env) (insert_iam_connector sess id orgID name secret uris) with
              | (_, Err e) => (db, Err e)
              | (tx, Ok _) =>
                  match Commit db tx (aeCommit env) with
                  | (db, Some e) => (db, Err e)
                  | (db, None) => (db, Ok orgID)
                  end
              end
          end
      end
  end.

Definition set_connector (name : string) (uris : list string) (k : Connector) : Connector :=
  mkConnector (cnID k) (cnOrgID k) name (cnClientSecret k) uris.

(** A null for the addresses is an error only if there is a row. *)
Definition UpdateIamConnector (ctxOrg : string) (c : dbc S) (id name : string) (uris : option (list string)) (db : DB)
  : DB * res unit :=
  execOrg ctxOrg c (fun sess db =>
    vis <-? visible pgUUID ro sess;
    let hit k := (cnID k =s? id) && vis (cnOrgID k) in
    match uris with
    | Some us => Ok (set_connectors (orgs db) (map (fun k => if hit k then set_connector name us k else k) (connectors db)) db, tt)
    | None => if existsb hit (connectors db) then Err ErrNotNull else Ok (db, tt)
    end) db.

Definition DeleteIamConnector (ctxOrg : string) (c : dbc S) (id : string) (db : DB) : DB * res unit :=
  execOrg ctxOrg c (fun sess db =>
    vis <-? visible pgUUID ro sess;
    Ok (set_connectors (orgs db) (List.filter (fun k => negb ((cnID k =s? id) && vis (cnOrgID k))) (connectors db)) db, tt)) db.
End store.

(** ** Handlers *)

(** What they read of a request: the body, the query and the id of the path. *)
Record AdminRequest := mkAdminRequest { arBody : raw; arQuery : list (string * string); arID : string }.

Record PostEnv (S : Type) := mkPostEnv { peRegister : RegisterEnv (S := S); pePassword : string; peUser : dbc S }.
Arguments mkPostEnv {S} _ _ _.
Arguments peRegister {S} _.
Arguments pePassword {S} _.
Arguments peUser {S} _.

Section handlers.
Context {S R B : Type} `{PgSession S} `{Redis R} `{Breaker B} `{Aead} `{IamLib}.
Variable cfg : Config.
Variable timeDoc : Z -> json.

#[local] Notation World := (@Iam R B).
#[local] Notation GetCurrentUser := (GetUserByID libUUID (cfRole cfg)).

Definition missingSCIM : Response := writeScimError StatusUnauthorized "unauthorized" "Missing SCIM context".
Definition scimInternal (e : goerr) : Response := writeScimError StatusInternalServerError "internal" (error_text e).
Definition internal (e : goerr) : Response := writeError StatusInternalServerError (error_text e).

(** *** SCIM *)

Definition scimListDoc (total startIndex : Z) (users : list User) : json :=
  JObj [("schemas", JArr [JStr "urn:ietf:params:scim:api:messages:2.0:ListResponse"]); ("totalResults", JNum total);
        ("startIndex", JNum startIndex); ("itemsPerPage", JNum (Z.of_nat (length users)));
        ("Resources", JArr (map mapToScim users))].

(** The count reads [db], the page [db']. *)
Definition ListScimUsers (ctx : Context) (c : dbc S) (r : AdminRequest) (db db' : DB) : Response :=
  let orgID := GetSCIMOrgID ctx in
  if orgID =s? "" then missingSCIM
  else
    let startIndex := Z.max (parseIntParam (form_get "startIndex" (arQuery r)) 1) 1 in
    let count := Z.min (parseIntParam (form_get "count" (arQuery r)) 100) 1000 in
    match ListUsersPaginated libUUID libHeap (cfRole cfg) c orgID (form_get "filter" (arQuery r)) (startIndex - 1) count db db' with
    | Err e => scimInternal e
    | Ok (users, total) => writeJSON [] StatusOK (scimListDoc total startIndex users)
    end.

(** [None] is a panic: [mapToScim] of no user. *)
Definition PostScimUser (now : Z) (ctx : Context) (env : PostEnv S) (r : AdminRequest) (w : World) : World * option Response :=
  let orgID := GetSCIMOrgID ctx in
  if orgID =s? "" then (w, Some missingSCIM)
  else match decode_body upd_scim (mkScimPayload "" "" []) (arBody r) with
  | Err e => (w, Some (writeScimError StatusBadRequest "invalidSyntax" (error_text e)))
  | Ok payload =>
      match RegisterUser cfg orgID now (peRegister env)
              (mkRegisterUserRequest orgID (scimAddress (spEmails payload)) (GenerateRandomString 32 (pePassword env))
                 (spDisplayName payload) "user" (spExternalID payload)) w with
      | (w, Err e) =>
          (w, Some (if HasPrefix (error_text e) "CONFLICT:"
                    then writeScimError StatusConflict "conflict" (TrimPrefix (error_text e) "CONFLICT:")
                    else scimInternal e))
      | (w, Ok (id, created)) =>
          (w, match GetCurrentUser orgID (peUser env) id (iDB w) with
              | Err _ => None
              | Ok user => Some (writeJSON [] (if created : bool then StatusCreated else StatusOK) (mapToScim user))
              end)
      end
  end.

Definition GetScimUser (ctx : Context) (c : dbc S) (r : AdminRequest) (db : DB) : Response :=
  match GetCurrentUser (GetSCIMOrgID ctx) c (arID r) db with
  | Ok user => if uStatus user =s? "deprovisioned" then writeScimError StatusNotFound "notFound" "User not found"
               else writeJSON [] StatusOK (mapToScim user)
  | Err _ => writeScimError StatusNotFound "notFound" "User not found"
  end.

Definition DeleteScimUser (now : Z) (ctx : Context) (env : DeleteEnv (S := S)) (r : AdminRequest) (w : World) : World * Response :=
  match DeleteUser cfg (GetSCIMOrgID ctx) now env (arID r) w with
  | (w, Some e) => (w, scimInternal e)
  | (w, None) => (w, mkResponse StatusNoContent [] JNull)
  end.

Definition PatchScimUser (now : Z) (ctx : Context) (env : PatchEnv (S := S)) (r : AdminRequest) (db : DB) : DB * Response :=
  match decode_body upd_patch [] (arBody r) with
  | Err e => (db, writeScimError StatusBadRequest "invalidSyntax" (error_text e))
  | Ok ops =>
      match PatchUser cfg (GetSCIMOrgID ctx) now env (arID r) ops db with
      | (db, Err e) => (db, scimInternal e)
      | (db, Ok user) => (db, writeJSON [] StatusOK (mapToScim user))
      end
  end.

(** *** Under /mgmt, behind [AuthJWTWithBlocklist] *)

Definition HandleMe (ctx : Context) (c : dbc S) (db : DB) : Response :=
  if GetUserID ctx =s? "" then writeError StatusUnauthorized "Unauthorized"
  else match GetCurrentUser (rlsOrgID ctx) c (GetUserID ctx) db with
  | Err e => internal e
  | Ok user => writeJSON [] StatusOK (loginDoc timeDoc user (mkTokenResponse "" "" 0 ""))
  end.

Definition HandleCreateOrg (c : dbc S) (id : string) (slugTaken : bool) (r : AdminRequest) (db : DB) : DB * Response :=
  match decodeStrings ["name"] (arBody r) with
  | Err _ => (db, invalidBody)
  | Ok _ =>
      match CreateOrg libUUID (cfRole cfg) c id slugTaken db with
      | (db, Err e) => (db, internal e)
      | (db, Ok id) => (db, writeJSON [] StatusCreated (JObj [("id", JStr id)]))
      end
  end.

(** The tenant of the body counts for callers of the system tenant only. *)
Definition targetOrg (ctxOrg bodyOrg : string) : string :=
  if (bodyOrg =s? "") || negb (ctxOrg =s? systemOrg) then ctxOrg else bodyOrg.

Definition HandleCreateUser (now : Z) (ctx : Context) (env : RegisterEnv (S := S)) (r : AdminRequest) (w : World)
  : World * Response :=
  match decodeStrings ["org_id"; "email"; "password"; "display_name"; "role"] (arBody r) with
  | Err _ => (w, invalidBody)
  | Ok b =>
      if GetOrgID ctx =s? "" then (w, writeError StatusUnauthorized "Unauthorized: missing org_id")
      else match RegisterUser cfg (rlsOrgID ctx) now env
                   (mkRegisterUserRequest (targetOrg (GetOrgID ctx) (field "org_id" b)) (field "email" b)
                      (field "password" b) (field "display_name" b) (field "role" b) "") w with
      | (w, Err e) => (w, internal e)
      | (w, Ok (id, _)) => (w, writeJSON [] StatusCreated (JObj [("id", JStr id)]))
      end
  end.

Definition HandleListUsers (ctx : Context) (c : dbc S) (r : AdminRequest) (db : DB) : Response :=
  match ListUsers libUUID libHeap (cfRole cfg) c (GetOrgID ctx) (form_get "filter" (arQuery r)) db with
  | Err e => internal e
  | Ok users => writeJSON [] StatusOK (sliceDoc (userDoc timeDoc) users)
  end.

Definition HandleReprovisionUser (now : Z) (ctx : Context) (env : ReprovisionEnv (S := S)) (r : AdminRequest) (db : DB)
  : DB * Response :=
  if GetOrgID ctx =s? "" then (db, writeError StatusUnauthorized "Unauthorized: missing org_id")
  else match ReprovisionUser cfg (rlsOrgID ctx) now env (GetOrgID ctx) (arID r) db with
  | (db, Some e) => (db, internal e)
  | (db, None) => (db, writeJSON [] StatusOK (JObj [("status", JStr "reprovisioning_started")]))
  end.

Definition HandleListConnectors (ctx : Context) (c : dbc S) (db : DB) : Response :=
  match ListConnectors libUUID (cfRole cfg) (rlsOrgID ctx) c db with
  | Err e => internal e
  | Ok l => writeJSON [] StatusOK (sliceDoc connectorDoc l)
  end.

(** The body of a connector. *)
Record ConnectorBody := mkConnectorBody { cbID : string; cbName : string; cbSecret : string; cbURIs : option (list string) }.

Definition dec_opt_strings (j : json) : res (option (list string)) :=
  match j with JNull => Ok None | _ => us <-? dec_strings [] j; Ok (Some us) end.

(** [full] tells the body of a creation from the one of an update. *)
Definition upd_connector (full : bool) (k : string) (b : ConnectorBody) (j : json) : res ConnectorBody :=
  if full && key_is "id" k then v <-? dec_string (cbID b) j; Ok (mkConnectorBody v (cbName b) (cbSecret b) (cbURIs b))
  else if key_is "name" k then v <-? dec_string (cbName b) j; Ok (mkConnectorBody (cbID b) v (cbSecret b) (cbURIs b))
  else if full && key_is "client_secret" k then v <-? dec_string (cbSecret b) j; Ok (mkConnectorBody (cbID b) (cbName b) v (cbURIs b))
  else if key_is "redirect_uris" k then v <-? dec_opt_strings j; Ok (mkConnectorBody (cbID b) (cbName b) (cbSecret b) v)
  else Ok b.

Definition HandleCreateConnector (env : AdminEnv S) (r : AdminRequest) (db : DB) : DB * Response :=
  match decode_body (upd_connector true) (mkConnectorBody "" "" "" None) (arBody r) with
  | Err _ => (db, invalidBody)
  | Ok b =>
      match CreateIamConnector libUUID (cfRole cfg) env (cbID b) (cbName b) (cbSecret b) (cbURIs b) db with
      | (db, Err e) => (db, internal e)
      | (db, Ok orgID) => (db, writeJSON [] StatusCreated (JObj [("id", JStr (cbID b)); ("org_id", JStr orgID)]))
      end
  end.

Definition HandleUpdateConnector (ctx : Context) (c : dbc S) (r : AdminRequest) (db : DB) : DB * Response :=
  match decode_body (upd_connector false) (mkConnectorBody "" "" "" None) (arBody r) with
  | Err _ => (db, invalidBody)
  | Ok b =>
      match UpdateIamConnector libUUID (cfRole cfg) (rlsOrgID ctx) c (arID r) (cbName b) (cbURIs b) db with
      | (db, Err e) => (db, internal e)
      | (db, Ok _) => (db, writeJSON [] StatusOK (JObj [("status", JStr "updated")]))
      end
  end.

Definition HandleDeleteConnector (ctx : Context) (c : dbc S) (r : AdminRequest) (db : DB) : DB * Response :=
  match DeleteIamConnector libUUID (cfRole cfg) (rlsOrgID ctx) c (arID r) db with
  | (db, Err e) => (db, internal e)
  | (db, Ok _) => (db, writeJSON [] StatusOK (JObj [("status", JStr "deleted")]))
  end.

(** [generate] is the key the TOTP library draws for an address: its secret
    and its URL. *)
Definition HandleTOTPSetup (generate : string -> res (string * string)) (ctx : Context) (c : dbc S) (db : DB) : Response :=
  match GetCurrentUser (rlsOrgID ctx) c (GetUserID ctx) db with
  | Err e => internal e
  | Ok user =>
      match generate (uEmail user) with
      | Err e => internal e
      | Ok (secret, url) => writeJSON [] StatusOK (JObj [("secret", JStr secret); ("url", JStr url)])
      end
  end.

Definition HandleTOTPEnable (now : Z) (ctx : Context) (env : TOTPEnv (S := S)) (r : AdminRequest) (db : DB) : DB * Response :=
  match decodeStrings ["code"; "secret"] (arBody r) with
  | Err _ => (db, invalidBody)
  | Ok b =>
      match EnableTOTP cfg (rlsOrgID ctx) now env (GetOrgID ctx) (GetUserID ctx) (field "code" b) (field "secret" b) db with
      | (db, Err e) => (db, writeError StatusBadRequest (error_text e))
      | (db, Ok codes) =>
          (db, writeJSON [] StatusOK (JObj [("backup_codes", JArr (map JStr codes)); ("status", JStr "mfa_enabled")]))
      end
  end.

(** *** Authorization *)

(** [escape] is [url.QueryEscape]; the redirect of a request to the login
    page. *)
Definition HandleAuthorize (escape : string -> string) (dashboardURL : string) (ctx : Context) (c : dbc S) (r : AdminRequest)
  (db : DB) : Response :=
  let q := fun n => form_get n (arQuery r) in
  if (q "client_id" =s? "") || (q "redirect_uri" =s? "") then writeError StatusBadRequest "missing client_id or redirect_uri"
  else if q "code_challenge" =s? "" then writeError StatusBadRequest "code_challenge required"
  else if negb (q "code_challenge_method" =s? "S256") then writeError StatusBadRequest "only S256 code_challenge_method supported"
  else match GetConnectorByID libUUID (cfRole cfg) (rlsOrgID ctx) c (q "client_id") db with
  | Err _ => writeError StatusUnauthorized "invalid client_id"
  | Ok connector =>
      if negb (existsb (String.eqb (q "redirect_uri")) (cnRedirectURIs connector))
      then writeError StatusUnauthorized "invalid redirect_uri"
      else
        let base := if dashboardURL =s? "" then "http://localhost:4200" else dashboardURL in
        let loginURL := base +:+ ("/login?client_id=" +:+ (escape (q "client_id") +:+ ("&redirect_uri=" +:+
          (escape (q "redirect_uri") +:+ ("&state=" +:+ (escape (q "state") +:+ ("&code_challenge=" +:+
          (escape (q "code_challenge") +:+ ("&code_challenge_method=" +:+ escape (q "code_challenge_method")))))))))) in
        mkResponse 302 [("Location", loginURL)] JNull
  end.
End handlers.

(** ** Properties *)

(** A number survives its way through a query. *)
Lemma scan_digits_from s acc z : digits_from acc s = Some z -> scan_digits acc s = z.
Proof.
  revert acc. induction s as [|c s IH]; simpl; intros acc; [by intros [= ->]|].
  destruct (digit_of c); [apply IH|done].
Qed.

Lemma blank_not_digit c : existsb (Ascii.eqb c) [" "; "009"; "011"; "012"; "013"]%char = true -> digit_of c = None.
Proof. simpl. rewrite !orb_true_iff. intros [H|[H|[H|[H|[H|H]]]]]; [..|done]; by apply Ascii.eqb_eq in H as ->. Qed.

Lemma Sscanf_itoa z : in_int64 z = true -> (0 <= z)%Z -> Sscanf_int (itoa z) = Some z.
Proof.
  intros Hz H0. pose proof (Atoi_itoa z Hz) as Ha. unfold Atoi in Ha. unfold Sscanf_int.
  assert (Hneg : forall s, itoa z <> String "-"%char s).
  { intros s. unfold itoa. destruct z as [|p|p]; [done| |lia]. simpl.
    destruct (string_of_uint_nonempty _ (to_uint_nonnil p)) as (c & s' & -> & Hc & _). intros [= -> _]. done. }
  destruct (itoa z) as [|c s] eqn:Ei; [done|]. destruct (Ascii.eqb_spec c "-") as [->|_]; [by destruct (Hneg s)|].
  assert (Hplus : Ascii.eqb c "+" = false).
  { unfold itoa in Ei. destruct z as [|p|p]; [by injection Ei as <- _| |lia]. simpl in Ei.
    destruct (string_of_uint_nonempty _ (to_uint_nonnil p)) as (c' & s' & Es & _ & Hc). rewrite Es in Ei.
    by injection Ei as <- _. }
  rewrite Hplus in Ha. destruct (digits_from 0 (String c s)) as [v|] eqn:Ed; [|done].
  destruct (in_int64 v); [injection Ha as ->|done].
  assert (Hd : exists d, digit_of c = Some d) by (simpl in Ed; destruct (digit_of c); [eauto|done]).
  destruct Hd as [d Hd]. cbn [skip_blanks].
  destruct (existsb _ _) eqn:Eb; [apply blank_not_digit in Eb; congruence|].
  destruct (Ascii.eqb_spec c "-") as [->|_]; [done|]. rewrite Hplus, Hd, (scan_digits_from _ _ _ Ed).
  change (1 * z)%Z with (match z with Z0 => Z0 | Zpos y => Zpos y | Zneg y => Zneg y end).
  assert ((match z with Z0 => Z0 | Zpos y => Zpos y | Zneg y => Zneg y end) = z) as -> by (by destruct z). by rewrite Hz.
Qed.

Lemma itoa_nonempty z : (itoa z =s? "") = false.
Proof.
  unfold itoa. destruct z as [|p|p]; [done|..]; simpl; [|done].
  destruct (string_of_uint_nonempty _ (to_uint_nonnil p)) as (c & s & -> & _). done.
Qed.

Lemma parse_itoa z def : in_int64 z = true -> (0 <= z)%Z -> parseIntParam (itoa z) def = z.
Proof. intros Hz H0. unfold parseIntParam. by rewrite itoa_nonempty, Sscanf_itoa. Qed.

(** Pages of [n] elements. *)
Lemma pages_concat {A} n (l : list A) k :
  concat (map (fun i => take n (drop (i * n) l)) (seq 0 k)) = take (k * n) l.
Proof.
  induction k as [|k IH]; [done|]. rewrite seq_S, map_app, concat_app, IH. simpl. rewrite app_nil_r.
  rewrite (Nat.add_comm n). by rewrite <- take_take_drop.
Qed.

Section properties.
Context {S R B : Type} `{PgSession S} `{Redis R} `{Breaker B} `{Aead} `{IamLibLaws}.
Variable cfg : Config.

#[local] Notation World := (@Iam R B).

(** *** Users that are created *)

Definition newUser (now : Z) (id org email hash name role : string) : User :=
  mkUser id org email hash name role "initializing" 0 None false "" None 1 now now.

(** A registration without an external id adds one user or none. *)
Lemma outboxTx_users (env : OutEnv) wrap now orgID key payload db db' e :
  outboxTx env wrap now orgID key payload db = (db', e) -> users db' = users db.
Proof.
  unfold outboxTx. destruct (CreateOutboxEvent _ _ _ _ _ _ _ _ _) as [tx [u|err]]; [|by intros [= <- _]].
  destruct (Commit _ _ _). by intros [= <- _].
Qed.

Lemma CreateUser_cases (c : dbc S) id now orgID email hash name role st db db' r :
  CreateUser libUUID (cfRole cfg) c id now orgID email hash name role st db = (db', r) ->
  (users db' = users db /\ exists e, r = Err e) \/
  exists org, libUUID orgID = Some org /\
    users db' = users db ++ [mkUser id org email hash name role st 0 None false "" None 1 now now] /\
    (r = Ok id \/ exists e, r = Err e).
Proof.
  intros [(-> & ?)|(a & Hi & Hr)]%execOrg_cases; [by left|]. right. unfold insert_user, uuid_arg in Hi.
  destruct (libUUID orgID) as [org|]; [|done]. simpl in Hi. exists org.
  destruct (visible _ _ _) as [vis|]; [|done]. simpl in Hi. destruct (negb (vis org)); [done|].
  destruct (existsb _ (users db)); [done|]. destruct (negb _); [done|]. injection Hi as <- <-. done.
Qed.

Lemma RegisterUser_plain ctxOrg now (env : RegisterEnv (S := S)) req (w w' : World) r :
  rqSCIMExternalID req = "" -> RegisterUser cfg ctxOrg now env req w = (w', r) ->
  (users (iDB w') = users (iDB w) /\ exists e, r = Err e) \/
  exists org hash, libUUID (rqOrgID req) = Some org /\
    users (iDB w') = users (iDB w) ++ [newUser now (ruID env) org (rqEmail req) hash (rqDisplayName req) (rqRole req)] /\
    (r = Ok (ruID env, true) \/ exists e, r = Err e).
Proof.
  intros He. unfold RegisterUser, registerNew. rewrite He. simpl.
  destruct (PoolGenerate _ _ _) as [hash|e]; [|intros [= <- <-]; left; eauto].
  destruct (oeBegin _); [intros [= <- <-]; left; eauto|].
  destruct (CreateUser _ _ _ _ _ _ _ _ _ _ _ _) as [db x] eqn:Ec.
  apply CreateUser_cases in Ec as [(Hu & e & ->)|(org & Ho & Hu & [->|[e ->]])].
  - intros [= <- <-]. left. split; [done|eauto].
  - destruct (outboxTx _ _ _ _ _ _ db) as [db2 [e|]] eqn:Eo; apply outboxTx_users in Eo; intros [= <- <-]; right; exists org, hash;
      (split; [done|]); simpl; (split; [unfold newUser; congruence|eauto]).
  - intros [= <- <-]. right. exists org, hash. split; [done|]. split; [done|eauto].
Qed.

(** Users created under /mgmt: whatever the request and whatever fails, at
    most one user is added and no other changes.  Its tenant is the caller's,
    unless the caller belongs to the system tenant; its role is the one the
    body asks for, whoever the caller is; and it is answered with its id or
    with an error. *)
Theorem created_user_tenant now ctx (env : RegisterEnv (S := S)) r (w : World) :
  let '(w', resp) := HandleCreateUser cfg now ctx env r w in
  (users (iDB w') = users (iDB w) /\ status resp <> StatusCreated) \/
  exists b org hash, decodeStrings ["org_id"; "email"; "password"; "display_name"; "role"] (arBody r) = Ok b /\
    users (iDB w') = users (iDB w) ++ [newUser now (ruID env) org (field "email" b) hash (field "display_name" b) (field "role" b)] /\
    GetOrgID ctx <> "" /\ libUUID (targetOrg (GetOrgID ctx) (field "org_id" b)) = Some org /\
    (GetOrgID ctx <> systemOrg -> libUUID (GetOrgID ctx) = Some org) /\
    (resp = writeJSON [] StatusCreated (JObj [("id", JStr (ruID env))]) \/ status resp = StatusInternalServerError).
Proof.
  unfold HandleCreateUser. destruct (decodeStrings _ _) as [b|]; [|cbv beta iota; by left].
  destruct (String.eqb_spec (GetOrgID ctx) "") as [|Hne]; [cbv beta iota; by left|].
  destruct (RegisterUser _ _ _ _ _ _) as [w' x] eqn:Er. apply RegisterUser_plain in Er; [|done].
  destruct Er as [(Hu & e & ->)|(org & hash & Ho & Hu & Hx)]; [cbv beta iota; by left|].
  assert (Hsys : GetOrgID ctx <> systemOrg -> libUUID (GetOrgID ctx) = Some org).
  { intros Hs. simpl in Ho. unfold targetOrg in Ho. rewrite (proj2 (String.eqb_neq _ _) Hs), orb_true_r in Ho. done. }
  destruct Hx as [->|[e ->]]; cbv beta iota; right; exists b, org, hash; (split; [done|]); (split; [done|]); (split; [done|]);
    (split; [done|]); (split; [done|]); [by left|by right].
Qed.

(** *** The list of a tenant *)

Definition pageRequest (filter : string) (n i : nat) : AdminRequest :=
  mkAdminRequest None [("startIndex", itoa (1 + Z.of_nat (i * n))); ("count", itoa (Z.of_nat n)); ("filter", filter)] "".

(** Paging through the users of a tenant: on one state of the table, the
    requests for the pages of [n] answer with consecutive pieces of one list,
    the users of the token's tenant that the filter admits, each once and
    oldest first, with their total; and enough pages are the whole list. *)
Theorem scim_pages_complete ctx (c : dbc S) filter n org db :
  cfRole cfg = RoleBypass -> healthy c -> GetSCIMOrgID ctx <> systemOrg -> libUUID (GetSCIMOrgID ctx) = Some org ->
  0 < n <= 1000 ->
  exists l, Permutation l (map list_row (List.filter (fun u => email_cond filter u && (uOrgID u =s? org)) (users db))) /\
    StronglySorted (fun a b => (uCreatedAt a <= uCreatedAt b)%Z) l /\
    (forall i, in_int64 (1 + Z.of_nat (i * n)) = true ->
       ListScimUsers cfg ctx c (pageRequest filter n i) db db =
       writeJSON [] StatusOK (scimListDoc (Z.of_nat (length l)) (1 + Z.of_nat (i * n)) (take n (drop (i * n) l)))) /\
    (forall k, length l <= k * n -> concat (map (fun i => take n (drop (i * n) l)) (seq 0 k)) = l).
Proof.
  intros Hro Hc Hsys Horg Hn.
  set (rows := libHeap (List.filter (fun u => email_cond filter u && true && (uOrgID u =s? org)) (users db))).
  exists (map list_row (order_by older_user rows)). split; [|split; [|split]].
  - apply Permutation_map. rewrite order_by_perm. unfold rows. rewrite heap_perm.
    erewrite List.filter_ext; [reflexivity|]. intros u. by rewrite andb_true_r.
  - assert (Hs : StronglySorted (fun x y => older_user x y = true) (order_by older_user rows)).
    { apply order_by_sorted; unfold older_user; intros x y; [|intros z]; rewrite ?Z.leb_le; lia. }
    induction Hs as [|u m Hm IH Hu]; simpl; constructor; [done|]. apply Forall_map. eapply Forall_impl; [exact Hu|].
    intros v Hv. unfold older_user in Hv. simpl. by apply Z.leb_le.
  - intros i Hi. assert (Hne : GetSCIMOrgID ctx <> "") by (intros E; rewrite E, uuid_empty in Horg; done).
    unfold ListScimUsers. rewrite (proj2 (String.eqb_neq _ _) Hne). unfold pageRequest, form_get. cbv zeta.
    cbn [arQuery find fst snd String.eqb Ascii.eqb Bool.eqb].
    rewrite !parse_itoa by (done || lia || (unfold in_int64; rewrite andb_true_iff, Z.leb_le, Z.ltb_lt; lia)).
    rewrite Z.max_l, Z.min_l by lia. unfold ListUsersPaginated. rewrite (proj2 (String.eqb_neq _ _) Hsys).
    rewrite readOrg_healthy by done. unfold uuid_arg, listed, visible. rewrite Horg, Hro. cbn [res_bind rls_filter].
    fold rows. unfold page_of. rewrite (proj2 (Z.ltb_ge _ _)), (proj2 (Z.ltb_ge _ _)) by lia. cbn [orb res_bind].
    unfold delivered. rewrite Hc. cbn [noFaults fRows deliver rows_list].
    replace (Z.to_nat (1 + Z.of_nat (i * n) - 1)) with (i * n) by lia. rewrite Nat2Z.id.
    rewrite length_map, (Permutation_length (order_by_perm older_user rows)). by rewrite skipn_map, firstn_map.
  - intros k Hk. rewrite pages_concat. by apply firstn_all2.
Qed.

(** *** Creating a user twice *)

Lemma existsb_none {A} (p : A -> bool) (l : list A) : List.filter p l = [] -> forall x, In x l -> p x = false.
Proof. intros Hf x Hx. destruct (p x) eqn:E; [|done]. assert (In x []) as []. rewrite <- Hf. by apply filter_In. Qed.

Definition hasExternal (org ext : string) (u : User) : bool :=
  (uOrgID u =s? org) && true && match uSCIMExternalID u with Some x => x =s? ext | None => false end.

Lemma external_lookup ctxOrg (c : dbc S) orgID org ext db :
  cfRole cfg = RoleBypass -> healthy c -> libUUID orgID = Some org ->
  GetUserByExternalID libUUID libHeap (cfRole cfg) ctxOrg c orgID ext db =
    notFound (res_map public_row (one_row (libHeap (List.filter (hasExternal org ext) (users db))))).
Proof.
  intros Hro Hc Ho. unfold GetUserByExternalID, uuid_arg, visible. rewrite readOrg_healthy, Ho, Hro by done. simpl.
  f_equal.
Qed.

Lemma update_fresh (sess : S) id g db u :
  cfRole cfg = RoleBypass -> (forall x, In x (users db) -> uID x <> id) -> uID u = id ->
  forall db', update_users libUUID libHeap (cfRole cfg) sess (fun x => uID x =s? id) g (set_users (users db ++ [u]) db) = Ok (db', [g u]) ->
  users db' = users db ++ [g u].
Proof.
  intros Hro Hf Hu db'. unfold update_users, visible. rewrite Hro. simpl.
  destruct (forallb _ _); [|done]. intros [= <- _]. simpl. rewrite map_app. simpl. rewrite Hu, String.eqb_refl. simpl.
  f_equal. rewrite <- (map_id (users db)) at 2. apply map_ext_in. intros x Hx.
  by rewrite (proj2 (String.eqb_neq _ _) (Hf x Hx)).
Qed.

Lemma RegisterUser_external ctxOrg now (env : RegisterEnv (S := S)) req (w w' : World) id :
  cfRole cfg = RoleBypass -> libUUID (ruID env) = Some (ruID env) ->
  (forall x, In x (users (iDB w)) -> uID x <> ruID env) ->
  rqSCIMExternalID req <> "" -> RegisterUser cfg ctxOrg now env req w = (w', Ok (id, true)) ->
  id = ruID env /\ exists org hash, libUUID (rqOrgID req) = Some org /\
    users (iDB w') = users (iDB w) ++ [set_scim (rqSCIMExternalID req) "initializing" now
      (newUser now (ruID env) org (rqEmail req) hash (rqDisplayName req) (rqRole req))].
Proof.
  intros Hro Hid Hf He. unfold RegisterUser. rewrite (proj2 (String.eqb_neq _ _) He). cbv zeta.
  destruct (GetUserByExternalID _ _ _ _ _ _ _ _) as [user|e]; [destruct (_ =s? _); intros H'; by simplify_eq|].
  unfold registerNew. destruct (PoolGenerate _ _ _) as [hash|]; [|done]. destruct (oeBegin _); [done|].
  destruct (CreateUser _ _ _ _ _ _ _ _ _ _ _ _) as [db x] eqn:Ec.
  assert (Hdb : x = Ok (ruID env) -> exists org, libUUID (rqOrgID req) = Some org /\
    db = set_users (users (iDB w) ++ [newUser now (ruID env) org (rqEmail req) hash (rqDisplayName req) (rqRole req)]) (iDB w)).
  { intros ->. apply execOrg_ok in Ec. unfold insert_user, uuid_arg in Ec. destruct (libUUID (rqOrgID req)) as [org|]; [|done].
    exists org. split; [done|]. simpl in Ec. destruct (visible _ _ _) as [vis|]; [|done]. simpl in Ec. destruct (negb (vis org)); [done|].
    destruct (existsb _ (users (iDB w))); [done|]. destruct (negb _); [done|]. by injection Ec as <-. }
  destruct x as [uid|err]; [|done]. assert (uid = ruID env) as ->.
  { apply CreateUser_cases in Ec as [(_ & e1 & [=])|(org & _ & _ & [[= ->]|[e1 [=]]])]. done. }
  destruct (Hdb eq_refl) as (org & Ho & ->). clear Hdb Ec. rewrite (proj2 (String.eqb_neq _ _) He).
  destruct (UpdateUserSCIM _ _ _ _ _ _ _ _ _ _) as [db1 [u|err]] eqn:Eu; [|done].
  apply execOrg_ok in Eu. unfold uuid_arg in Eu. rewrite Hid in Eu. simpl in Eu.
  apply res_bind_ok in Eu as ([d l] & Eu & [= <- _]).
  assert (Hl : l = [set_scim (rqSCIMExternalID req) "initializing" now
    (newUser now (ruID env) org (rqEmail req) hash (rqDisplayName req) (rqRole req))]).
  { revert Eu. unfold update_users, visible. rewrite Hro. simpl. destruct (forallb _ _); [|done]. intros [= _ <-].
    rewrite List.filter_app. simpl. rewrite String.eqb_refl. simpl.
    rewrite filter_none; [apply heap_single|]. intros x Hx. by rewrite (proj2 (String.eqb_neq _ _) (Hf x Hx)). }
  subst l. apply update_fresh in Eu; [|done|done|done]. simpl.
  destruct (outboxTx _ _ _ _ _ _ d) as [db2 [err|]] eqn:Eo; [done|]. apply outboxTx_users in Eo. intros [= <- <-].
  split; [done|]. exists org, hash. split; [done|]. simpl. congruence.
Qed.

(** Creating a SCIM user is idempotent in its external id: once a request
    was answered with 201, every later one of the same tenant with the same
    external id changes nothing and is answered with 200 and the same
    resource, whatever else its body says. *)
Theorem scim_post_idempotent now ctx (env : PostEnv S) r (w w1 : World) hs doc p now2 env2 r2 p2 :
  cfRole cfg = RoleBypass -> libUUID (ruID (peRegister env)) = Some (ruID (peRegister env)) ->
  (forall u, In u (users (iDB w)) -> uID u <> ruID (peRegister env)) -> healthy (ruExternal (peRegister env)) ->
  decode_body upd_scim (mkScimPayload "" "" []) (arBody r) = Ok p -> spExternalID p <> "" ->
  PostScimUser cfg now ctx env r w = (w1, Some (mkResponse StatusCreated hs doc)) ->
  decode_body upd_scim (mkScimPayload "" "" []) (arBody r2) = Ok p2 -> spExternalID p2 = spExternalID p ->
  healthy (ruExternal (peRegister env2)) -> healthy (peUser env2) ->
  PostScimUser cfg now2 ctx env2 r2 w1 = (w1, Some (mkResponse StatusOK hs doc)).
Proof.
  intros Hro Hid Hf Hx Hp He Hpost Hp2 Hext Hx2 Hu2. unfold PostScimUser in Hpost. rewrite Hp in Hpost. cbv zeta in Hpost.
  destruct (GetSCIMOrgID ctx =s? "") eqn:Eo; [by injection Hpost|].
  set (req := mkRegisterUserRequest _ _ _ _ _ _) in Hpost.
  destruct (RegisterUser _ _ _ _ _ _) as [w' [[id created]|e]] eqn:Er; [|by destruct (HasPrefix _ _)].
  injection Hpost as -> Hpost. destruct (GetUserByID _ _ _ _ _ _) as [user|] eqn:Eg; [|done].
  destruct created; [|done]. injection Hpost as <- <-.
  pose proof (RegisterUser_external (GetSCIMOrgID ctx) now (peRegister env) req w w1 id Hro Hid Hf He Er) as [-> (org & hash & Ho & Hrows)].
  set (row := set_scim _ _ _ _) in Hrows. simpl in Ho.
  assert (Hnone : List.filter (hasExternal org (spExternalID p)) (users (iDB w)) = []).
  { revert Er. unfold RegisterUser. change (rqSCIMExternalID req) with (spExternalID p).
    rewrite (proj2 (String.eqb_neq _ _) He). cbv zeta. rewrite (external_lookup _ _ _ org) by done.
    destruct (List.filter _ _) as [|u l] eqn:Ef; [done|]. intros Er. exfalso. revert Er.
    destruct (libHeap (u :: l)) as [|u' l'] eqn:Eh; simpl; [|destruct (uStatus u' =s? _); congruence].
    pose proof (heap_perm (u :: l)) as Hperm. rewrite Eh in Hperm. by apply Permutation_nil_cons in Hperm. }
  unfold PostScimUser. rewrite Eo, Hp2. cbv zeta. unfold RegisterUser. cbn [rqSCIMExternalID rqOrgID].
  rewrite Hext, (proj2 (String.eqb_neq _ _) He), (external_lookup _ _ _ org) by done.
  rewrite Hrows, List.filter_app, Hnone. cbn [List.filter app].
  assert (hasExternal org (spExternalID p) row = true) as -> by (unfold hasExternal; simpl; by rewrite !String.eqb_refl).
  rewrite heap_single. cbn [one_row res_map notFound uStatus public_row uID row set_scim newUser].
  replace ("initializing" =s? "deprovisioned") with false by done.
  unfold GetUserByID. rewrite readOrg_healthy by done. apply notFound_ok, readOrg_ok in Eg. simpl in Eg |- *.
  unfold visible in *. rewrite Hro in *. unfold uuid_arg in *. rewrite Hid in *. simpl in *.
  apply res_bind_ok in Eg as (u & Hu & [= <-]). by rewrite Hu.
Qed.
(** The statement that reads a user names no tenant: where row-level security
    does not apply, the token of any tenant reads the users of all of them.
    Neither the external id nor the version is read, so the answer lacks the
    one and has zero for the other. *)
Lemma scim_reads_any_tenant ctx (c : dbc S) u db :
  cfRole cfg = RoleBypass -> healthy c -> libUUID (uID u) = Some (uID u) ->
  List.filter (fun x => uID x =s? uID u) (users db) = [u] -> uStatus u <> "deprovisioned" ->
  GetScimUser cfg ctx c (mkAdminRequest None [] (uID u)) db = writeJSON [] StatusOK (mapToScim (public_row u)) /\
  uSCIMExternalID (public_row u) = None /\ uVersion (public_row u) = 0%Z.
Proof.
  intros Hro Hc Hid Hu Hs. split; [|done]. unfold GetScimUser, GetUserByID, uuid_arg, visible. cbn [arID].
  rewrite readOrg_healthy, Hid, Hro by done. simpl.
  erewrite List.filter_ext; [rewrite Hu|by intros x; rewrite andb_true_r]. simpl.
  by rewrite (proj2 (String.eqb_neq _ _) Hs).
Qed.
End properties.

(** ** Examples *)

Module AdminExamples.
Export MiniIam.

Definition ctx : Context := mkContext "" "" "" "" None "o" "".
Definition outEnv : OutEnv := mkOutEnv None "e1" None CommitOk.
Definition postEnv : PostEnv MiniPg := mkPostEnv (mkRegisterEnv call None "s" outEnv call "u2" call) "R" call.
Definition payload : raw :=
  Some (JObj [("externalId", JStr "x"); ("displayName", JStr "Bob");
              ("emails", JArr [JObj [("value", JStr "b@x"); ("primary", JBool true)]])]).
Definition request : AdminRequest := mkAdminRequest payload [] "".
Definition again : AdminRequest := mkAdminRequest (Some (JObj [("externalId", JStr "x")])) [] "".
Definition wA : @Iam MiniRedis MiniBreaker := mkIam db0 emptyRedis closedBreaker.
Definition created : @Iam MiniRedis MiniBreaker := (PostScimUser cfg now ctx postEnv request wA).1.
Definition bob : User :=
  set_scim "x" "initializing" now (newUser now "u2" "o" "b@x" "$2a$R" "Bob" "user").

Lemma scim_post_idempotent_witness :
  PostScimUser cfg (now + Second) ctx postEnv again created =
    (created, Some (writeJSON [] StatusOK (mapToScim (public_row bob)))).
Proof.
  apply (scim_post_idempotent cfg now ctx postEnv request wA created [("Content-Type", "application/json")]
    (mapToScim (public_row bob)) (mkScimPayload "x" "Bob" [("b@x", true)]) (now + Second) postEnv again
    (mkScimPayload "x" "" [])); try reflexivity.
  - intros u [<-|[]]. discriminate.
  - discriminate.
Defined.

Lemma scim_pages_complete_witness :
  exists l, length l = 1 /\ ListScimUsers cfg ctx call (pageRequest "" 1 0) db0 db0 =
    writeJSON [] StatusOK (scimListDoc 1 1 (take 1 (drop 0 l))).
Proof.
  destruct (scim_pages_complete cfg ctx call "" 1 "o" db0) as (l & Hl & _ & Hp & _);
    [reflexivity|reflexivity|discriminate|reflexivity|lia|].
  apply Permutation_length in Hl. change (length l = 1) in Hl. exists l. split; [exact Hl|].
  rewrite (Hp 0) by reflexivity. rewrite Hl. reflexivity.
Defined.

(** A negative count is passed on; the database refuses it, and since
    [rows.Err()] is not read the answer is an empty page. *)
Lemma negative_count_empty :
  status (ListScimUsers cfg ctx call (mkAdminRequest None [("count", "-1")] "") db0 db0) = StatusOK.
Proof. vm_compute. reflexivity. Qed.

(** A user without any role makes itself an administrator. *)
Lemma anyone_creates_admins :
  map (fun u => (uOrgID u, uRole u))
    (users (iDB (HandleCreateUser cfg now (mkContext "u" "o" "" "j" None "" "o") (peRegister postEnv)
       (mkAdminRequest (Some (JObj [("email", JStr "m@x"); ("password", JStr "pw"); ("role", JStr "admin")])) [] "") wA).1)) =
  [("o", "user"); ("o", "admin")].
Proof. vm_compute. reflexivity. Qed.
End AdminExamples.
