(* ===== verification/IamSeed.v ===== *)
(** Seed data of the identity service: services/iam/pkg/seed/seed.go, which
    the service runs at its start when "SEED_DB" says so ([Boot.iamSetup]),
    and the command services/iam/cmd/seed.  Statements run on pooled
    connections without a tenant. *)

From S2P Require Import Prelude GoStrings Json Redis Pg Resilience Crypto RateLimit IamStore IamService IamTokens IamLogin IamAdmin.

(** ** Data *)

Definition acmeOrgID : string := "11111111-1111-1111-1111-111111111111".

Record seedOrg := mkSeedOrg { soID : string; soName : string; soSlug : string }.
Record seedUser := mkSeedUser { suEmail : string; suPass : string; suName : string; suRole : string; suOrgID : string }.

Definition seedOrgs : list seedOrg :=
  [mkSeedOrg systemOrg "OpenGuard System" "openguard-system"; mkSeedOrg acmeOrgID "Acme Corp" "acme-corp"].

Definition seedUsers : list seedUser :=
  [mkSeedUser "admin@openguard.io" "admin123" "System Admin" "admin" systemOrg;
   mkSeedUser "test@openguard.io" "test123" "Test User" "user" systemOrg;
   mkSeedUser "admin@acme.example" "changeme123!" "Acme Admin" "admin" acmeOrgID].

Definition seedConnector : Connector :=
  mkConnector "task-app" acmeOrgID "Task Management App" "task-secret-123" ["http://localhost:3000/api/auth/callback"].

(** How the statements fare: the connection of each, whether another tenant
    has the slug, the id a new user gets, and the salt of each password. *)
Record SeedEnv (S : Type) := mkSeedEnv {
  seOrg : string -> dbc S; seSlug : string -> bool; seUser : string -> dbc S; seUserID : string -> string;
  seSalt : string -> string; seConnector : dbc S;
}.
Arguments mkSeedEnv {S} _ _ _ _ _ _.
Arguments seOrg {S} _.
Arguments seSlug {S} _.
Arguments seUser {S} _.
Arguments seUserID {S} _.
Arguments seSalt {S} _.
Arguments seConnector {S} _.

Section seed.
Context {S : Type} `{PgSession S} `{IamLib}.
Variable ro : role.

(** [pool.Exec]: no tenant is set. *)
Definition poolExec {A} (c : dbc S) (stmt : S -> DB -> res (DB * A)) (db : DB) : DB * res A :=
  match fAcquire (dFaults c) with
  | Some e => (db, Err e)
  | None => autocommit (dFaults c) (stmt (dConn c)) db
  end.

(** INSERT INTO orgs ... ON CONFLICT (id) DO NOTHING.  The policy of the table
    is asked first. *)
Definition insert_org_once (sess : S) (id : string) (slugTaken : bool) (db : DB) : res (DB * unit) :=
  org <-? uuid_arg libUUID id;
  vis <-? visible libUUID ro sess;
  if negb (vis org) then Err ErrRLS
  else if existsb (String.eqb org) (orgs db) then Ok (db, tt)
  else if slugTaken then Err ErrUnique
  else Ok (set_connectors (orgs db ++ [org]) (connectors db) db, tt).

Definition set_credentials (hash name role : string) (now : Z) (u : User) : User :=
  mkUser (uID u) (uOrgID u) (uEmail u) hash name role (uStatus u) (uFailedLoginCount u) (uLockedUntil u) (uMFAEnabled u)
    (uMFAMethod u) (uSCIMExternalID u) (uVersion u) (uCreatedAt u) now.

Definition keyOf (org email : string) (u : User) : bool := (uOrgID u =s? org) && (uEmail u =s? email).

(** INSERT INTO users ... ON CONFLICT (org_id, email) DO UPDATE. *)
Definition upsert_user (sess : S) (id : string) (now : Z) (orgID email hash name role : string) (db : DB) : res (DB * unit) :=
  org <-? uuid_arg libUUID orgID;
  vis <-? visible libUUID ro sess;
  if negb (vis org) then Err ErrRLS
  else if existsb (keyOf org email) (users db)
  then Ok (set_users (map (fun u => if keyOf org email u then set_credentials hash name role now u else u) (users db)) db, tt)
  else if negb (existsb (String.eqb org) (orgs db)) then Err ErrForeignKey
  else Ok (set_users (users db ++ [mkUser id org email hash name role "active" 0 None false "" None 1 now now]) db, tt).

Definition set_cnOrg (org : string) (k : Connector) : Connector :=
  mkConnector (cnID k) org (cnName k) (cnClientSecret k) (cnRedirectURIs k).

(** INSERT INTO connectors ... ON CONFLICT (id) DO UPDATE SET org_id: the row
    that is there has to be visible too. *)
Definition upsert_connector (sess : S) (k : Connector) (db : DB) : res (DB * unit) :=
  org <-? uuid_arg libUUID (cnOrgID k);
  vis <-? visible libUUID ro sess;
  if negb (vis org) then Err ErrRLS
  else if negb (existsb (String.eqb org) (orgs db)) then Err ErrForeignKey
  else match find (fun x => cnID x =s? cnID k) (connectors db) with
       | Some x =>
           if negb (vis (cnOrgID x)) then Err ErrRLS
           else Ok (set_connectors (orgs db) (map (fun x => if cnID x =s? cnID k then set_cnOrg org x else x) (connectors db)) db, tt)
       | None => Ok (set_connectors (orgs db) (connectors db ++ [set_cnOrg org k]) db, tt)
       end.

(** A loop that returns at the first error. *)
Fixpoint forEach {A} (f : A -> DB -> DB * option goerr) (l : list A) (db : DB) : DB * option goerr :=
  match l with
  | [] => (db, None)
  | a :: l' => match f a db with (db, None) => forEach f l' db | (db, Some e) => (db, Some e) end
  end.

Definition seedOneOrg (env : SeedEnv S) (o : seedOrg) (db : DB) : DB * option goerr :=
  match poolExec (seOrg env (soID o)) (fun sess => insert_org_once sess (soID o) (seSlug env (soSlug o))) db with
  | (db, Err e) => (db, Some (ErrWrap ("failed to create org " +:+ (soName o +:+ ": ")) e ""))
  | (db, Ok _) => (db, None)
  end.

Definition seedOneUser (env : SeedEnv S) (now : Z) (u : seedUser) (db : DB) : DB * option goerr :=
  match bcryptGenerate (seSalt env (suEmail u)) (suPass u) with
  | Err e => (db, Some (ErrWrap "failed to hash password: " e ""))
  | Ok hash =>
      match poolExec (seUser env (suEmail u))
              (fun sess => upsert_user sess (seUserID env (suEmail u)) now (suOrgID u) (suEmail u) hash (suName u) (suRole u)) db with
      | (db, Err e) => (db, Some (ErrWrap ("failed to create user " +:+ (suEmail u +:+ ": ")) e ""))
      | (db, Ok _) => (db, None)
      end
  end.

Definition Seed (env : SeedEnv S) (now : Z) (db : DB) : DB * option goerr :=
  match forEach (seedOneOrg env) seedOrgs db with
  | (db, Some e) => (db, Some e)
  | (db, None) =>
      match forEach (seedOneUser env now) seedUsers db with
      | (db, Some e) => (db, Some e)
      | (db, None) =>
          match poolExec (seConnector env) (fun sess => upsert_connector sess seedConnector) db with
          | (db, Err e) => (db, Some (ErrWrap "failed to create task-app connector: " e ""))
          | (db, Ok _) => (db, None)
          end
      end
  end.
End seed.

(** ** The command *)

(** The columns of a table that need a value, and its unique constraints, in
    services/iam/migrations. *)
Definition orgsRequired : list string := ["name"; "slug"].
Definition usersUnique : list (list string) := [["id"]; ["org_id"; "email"]].

Definition ErrNotNullSlug : goerr := ErrNew "null value in column violates not-null constraint".
Definition ErrNoConstraint : goerr := ErrNew "there is no unique or exclusion constraint matching the ON CONFLICT specification".

(** What the server says of an INSERT before it looks at any row. *)
Definition insertErr (columns required : list string) (conflict : list string) (unique : list (list string)) : option goerr :=
  if negb (existsb (fun k => bool_decide (k = conflict)) unique) then Some ErrNoConstraint
  else if forallb (fun c => existsb (String.eqb c) columns) required then None else Some ErrNotNullSlug.

(** The statements of services/iam/cmd/seed/main.go, each with what the server
    answers; the first failure ends the command.  [connect], [hash] and [set]
    are the outcomes of the other calls, [org] and [user] what the two
    statements give when the server can plan them. *)
Definition seedCommand (connect org hash set_ user : option goerr) : option goerr :=
  match connect with
  | Some e => Some e
  | None =>
      match insertErr ["id"; "name"; "status"] orgsRequired ["id"] [["id"]; ["slug"]] with
      | Some e => Some e
      | None =>
          match org, hash, set_ with
          | Some e, _, _ | None, Some e, _ | None, None, Some e => Some e
          | None, None, None =>
              match insertErr ["org_id"; "email"; "password_hash"; "display_name"; "role"; "status"] ["org_id"; "email"] ["email"] usersUnique with
              | Some e => Some e
              | None => user
              end
          end
      end
  end.

(** ** Properties *)

Section properties.
Context {S : Type} `{PgSession S} `{IamLibLaws}.
Variable ro : role.

#[local] Notation Seed := (Seed (S := S) ro).

Lemma poolExec_ok {A} (c : dbc S) (stmt : S -> DB -> res (DB * A)) db db' a :
  poolExec c stmt db = (db', Ok a) -> stmt (dConn c) db = Ok (db', a).
Proof. unfold poolExec. destruct (fAcquire _); [done|]. apply autocommit_ok. Qed.

Lemma forEach_invariant {A} (f : A -> DB -> DB * option goerr) (P : DB -> Prop) l db db' :
  (forall a d d', In a l -> P d -> f a d = (d', None) -> P d') ->
  P db -> forEach f l db = (db', None) -> P db'.
Proof.
  revert db. induction l as [|a l IH]; intros db Hf Hp; simpl; [by intros [= <-]|].
  destruct (f a db) as [d [e|]] eqn:Ef; [done|]. intros Hl. eapply IH; [|eapply Hf; [by left|exact Hp|exact Ef]|exact Hl].
  intros x d1 d2 Hx. apply Hf. by right.
Qed.

(** Every element is followed by a state that satisfies what it establishes. *)
Lemma forEach_each {A} (f : A -> DB -> DB * option goerr) (Q : A -> DB -> Prop) l :
  (forall a d d', In a l -> f a d = (d', None) -> Q a d') ->
  (forall a b d d', In a l -> In b l -> Q a d -> f b d = (d', None) -> Q a d') ->
  forall db db', forEach f l db = (db', None) -> forall a, In a l -> Q a db'.
Proof.
  induction l as [|x l IH]; intros Hq Hk db db'; simpl; [done|].
  destruct (f x db) as [d [e|]] eqn:Ef; [done|]. intros Hl a [->|Ha].
  - apply (forEach_invariant f (Q a) l d db'); [|apply (Hq a db); [by left|done]|done].
    intros b d1 d2 Hb. apply Hk; [by left|by right].
  - apply (IH (fun a d d' Hx => Hq a d d' (or_intror Hx)) (fun a b d d' Hx Hy => Hk a b d d' (or_intror Hx) (or_intror Hy)) d db' Hl a Ha).
Qed.

(** What an account that was seeded looks like. *)
Definition hasAccount (s : seedUser) (db : DB) : Prop :=
  exists u org, libUUID (suOrgID s) = Some org /\ In u (users db) /\ uOrgID u = org /\ uEmail u = suEmail s /\
    uRole u = suRole s /\ bcryptCompare (uPasswordHash u) (suPass s) = None.

(** The rows before, with the passwords of seeded addresses at most, and perhaps
    new rows. *)
Definition grown (db db' : DB) : Prop := exists l1 l2, users db' = l1 ++ l2 /\ Forall2 (fun u u' =>
  uID u' = uID u /\ uStatus u' = uStatus u /\ uLockedUntil u' = uLockedUntil u /\ uEmail u' = uEmail u /\ uOrgID u' = uOrgID u /\
  (uPasswordHash u' = uPasswordHash u \/ exists s, In s seedUsers /\ uEmail u = suEmail s /\ libUUID (suOrgID s) = Some (uOrgID u)))
  (users db) l1.

Lemma upsert_user_cases (sess : S) id now orgID email hash name role_ db db' a :
  upsert_user ro sess id now orgID email hash name role_ db = Ok (db', a) ->
  exists org, libUUID orgID = Some org /\
    (users db' = map (fun u => if keyOf org email u then set_credentials hash name role_ now u else u) (users db) /\
       existsb (keyOf org email) (users db) = true \/
     users db' = users db ++ [mkUser id org email hash name role_ "active" 0 None false "" None 1 now now]).
Proof.
  unfold upsert_user. intros (org & Ho & (vis & _ & Hs)%res_bind_ok)%res_bind_ok.
  unfold uuid_arg in Ho. destruct (libUUID orgID) as [o|]; [|done]. injection Ho as <-. exists o. split; [done|].
  destruct (negb (vis o)); [done|]. destruct (existsb (keyOf o email) (users db)) eqn:Ee; [injection Hs as <- _; by left|].
  destruct (negb _); [done|]. injection Hs as <- _. by right.
Qed.

Lemma seedOneUser_account env now s db db' : seedOneUser ro env now s db = (db', None) -> hasAccount s db'.
Proof.
  unfold seedOneUser. destruct (bcryptGenerate _ _) as [hash|e] eqn:Eh; [|done]. apply bcrypt_round in Eh.
  destruct (poolExec _ _ _) as [d [u|e]] eqn:Ep; [|done]. intros [= <-]. apply poolExec_ok in Ep.
  apply upsert_user_cases in Ep as (org & Ho & [[Hu He]|Hu]); unfold hasAccount; rewrite Hu.
  - apply existsb_In in He as (x & Hx & Hk). unfold keyOf in Hk. pose proof Hk as Hk2. apply andb_prop in Hk2 as [Hk1 Hk2].
    apply String.eqb_eq in Hk1, Hk2. exists (set_credentials hash (suName s) (suRole s) now x), org. split; [done|].
    split; [|by repeat split]. apply in_map_iff. exists x. split; [unfold keyOf; by rewrite Hk|done].
  - eexists _, org. split; [done|]. split; [apply in_or_app; right; by left|]. by repeat split.
Qed.

(** Seeding another account keeps this one: their addresses differ. *)
Lemma seedOneUser_other env now s s' db db' :
  suEmail s <> suEmail s' -> hasAccount s db -> seedOneUser ro env now s' db = (db', None) -> hasAccount s db'.
Proof.
  intros Hne (u & org & Ho & Hu & Hrest). unfold seedOneUser. destruct (bcryptGenerate _ _) as [hash|e]; [|done].
  destruct (poolExec _ _ _) as [d [x|e]] eqn:Ep; [|done]. intros [= <-]. apply poolExec_ok in Ep.
  exists u, org. split; [done|]. split; [|done]. apply upsert_user_cases in Ep as (org' & _ & [[-> _]| ->]); [|apply in_or_app; by left].
  apply in_map_iff. exists u. split; [|done]. unfold keyOf. destruct Hrest as (_ & He & _). rewrite He.
  rewrite (proj2 (String.eqb_neq _ _) Hne). by rewrite andb_false_r.
Qed.

Lemma seedUsers_emails s s' : In s seedUsers -> In s' seedUsers -> s = s' \/ suEmail s <> suEmail s'.
Proof. intros Hs Hs'. repeat (destruct Hs as [<-|Hs]; [repeat (destruct Hs' as [<-|Hs']; [first [by left|right; discriminate]|]); done|]); done. Qed.

Lemma grown_refl db : grown db db.
Proof.
  exists (users db), []. split; [by rewrite app_nil_r|]. induction (users db) as [|u l IH]; constructor; [|done]. repeat split; by left.
Qed.

Lemma seedOneUser_grown env now s db0 db db' :
  In s seedUsers -> grown db0 db -> seedOneUser ro env now s db = (db', None) -> grown db0 db'.
Proof.
  intros Hin (l1 & l2 & Hu & Hf). unfold seedOneUser. destruct (bcryptGenerate _ _) as [hash|e]; [|done].
  destruct (poolExec _ _ _) as [d [x|e]] eqn:Ep; [|done]. intros [= <-]. apply poolExec_ok in Ep.
  unfold grown. apply upsert_user_cases in Ep as (org & Ho & [[-> _]| ->]); rewrite Hu.
  - eexists _, _. split; [by rewrite map_app|]. clear Hu. induction Hf as [|u u' l l1 Hr Hf IH]; constructor; [|done].
    destruct Hr as (Hr1 & Hr2 & Hr3 & Hr4 & Hr5 & Hr6). destruct (keyOf org (suEmail s) u') eqn:Ek; [|by repeat split].
    repeat split; try done. right. exists s. split; [done|]. unfold keyOf in Ek. apply andb_prop in Ek as [Ek1 Ek2].
    apply String.eqb_eq in Ek1, Ek2. split; congruence.
  - exists l1, (l2 ++ [mkUser (seUserID env (suEmail s)) org (suEmail s) hash (suName s) (suRole s) "active" 0 None false "" None 1 now now]).
    split; [by rewrite app_assoc|done].
Qed.

Lemma seedOneOrg_users env o db db' : seedOneOrg ro env o db = (db', None) -> users db' = users db.
Proof.
  unfold seedOneOrg. destruct (poolExec _ _ _) as [d [x|e]] eqn:Ep; [|done]. intros [= <-]. apply poolExec_ok in Ep.
  unfold insert_org_once in Ep. apply res_bind_ok in Ep as (org & _ & (vis & _ & Ep)%res_bind_ok).
  destruct (negb _); [done|]. destruct (existsb _ _); [by injection Ep as <- _|]. destruct (seSlug _ _); [done|]. by injection Ep as <- _.
Qed.

Lemma upsert_connector_users (sess : S) k db db' a : upsert_connector ro sess k db = Ok (db', a) -> users db' = users db.
Proof.
  unfold upsert_connector. intros (org & _ & (vis & _ & Hs)%res_bind_ok)%res_bind_ok. destruct (negb _); [done|]. destruct (negb _); [done|].
  destruct (find _ _); [destruct (negb _); [done|]|]; by injection Hs as <- _.
Qed.

(** Seeding sets published passwords.  A seed that succeeds leaves, in any
    database, the three accounts of the source with the passwords of the
    source, whatever passwords they had: an administrator who changed the
    password has the published one again after the next start with "SEED_DB".
    Ids, status and locks of all rows stay, and no other account changes its
    password. *)
Theorem seed_publishes_passwords env now db db' : Seed env now db = (db', None) ->
  (forall s, In s seedUsers -> hasAccount s db') /\ grown db db'.
Proof.
  unfold IamSeed.Seed. destruct (forEach (seedOneOrg ro env) seedOrgs db) as [d1 [e|]] eqn:E1; [done|].
  destruct (forEach (seedOneUser ro env now) seedUsers d1) as [d2 [e|]] eqn:E2; [done|].
  destruct (poolExec _ _ _) as [d3 [x|e]] eqn:E3; [|done]. intros [= <-]. apply poolExec_ok, upsert_connector_users in E3.
  assert (Hd1 : users d1 = users db).
  { apply (forEach_invariant (seedOneOrg ro env) (fun d => users d = users db) seedOrgs db d1); [|done|done].
    intros a d d' _ Hd Ho. apply seedOneOrg_users in Ho. congruence. }
  assert (Hacc : forall s, In s seedUsers -> hasAccount s d2).
  { apply (forEach_each (seedOneUser ro env now) hasAccount seedUsers) with (db := d1).
    - intros a d d' _. apply seedOneUser_account.
    - intros a b d d' Ha Hb Hq Hs. destruct (seedUsers_emails a b Ha Hb) as [->|Hne]; [by eapply seedOneUser_account|].
      by eapply seedOneUser_other.
    - done. }
  assert (Hgr : grown d1 d2).
  { apply (forEach_invariant (seedOneUser ro env now) (grown d1) seedUsers d1 d2); [|apply grown_refl|done].
    intros a d d' Ha Hg Hs. by eapply seedOneUser_grown. }
  unfold hasAccount, grown in *. rewrite E3, <- Hd1. done.
Qed.
End properties.

(** With a role that is subject to row-level security nothing is seeded: the
    connections of the pool carry no tenant. *)
Lemma seed_needs_bypass {S} `{PgSessionLaws S} `{IamLibLaws} (env : SeedEnv S) now db :
  pooled (dConn (seOrg env systemOrg)) -> dFaults (seOrg env systemOrg) = noFaults -> libUUID systemOrg <> None ->
  Seed RoleSubject env now db = (db, Some (ErrWrap "failed to create org OpenGuard System: " ErrRLS "")).
Proof.
  intros [_ Hp]%pooled_unset Hf Hu. unfold Seed, forEach, seedOrgs, seedOneOrg, poolExec. cbn [soID soName soSlug].
  rewrite Hf. unfold autocommit. cbn [noFaults fAcquire fQuery]. unfold insert_org_once, visible, rls_filter. rewrite Hp.
  unfold uuid_arg. destruct (libUUID systemOrg); [|done]. done.
Qed.

(** The command never succeeds: a tenant needs a slug, and addresses are not
    unique. *)
Lemma seed_command_fails connect org hash set_ user : seedCommand connect org hash set_ user <> None.
Proof. unfold seedCommand. destruct connect; [done|]. vm_compute. discriminate. Qed.

Section sign_in.
Context {S R B : Type} `{PgSession S} `{Redis R} `{Breaker B} `{Jwt} `{Aead} `{IamLibLaws}.
Variable cfg : Config.

#[local] Notation World := (@IamService.Iam R B).

(** C23: Whoever reads the source signs in as administrator after a seed that
    succeeded under a role that row-level security does not bind.  Where the
    account of a seeded address is the only one of that address, is not
    locked, is not "initializing" and has no second factor that can be read,
    and the lookup, the comparison and the issue of tokens succeed, the password
    in the source gets a session and tokens of that user, with the role of the
    seed.  (The seed keeps locks and factors as they were.) *)
Theorem seeded_account_signs_in senv t0 db db' s u ctxOrg now (env : LoginEnv (S := S)) ua ip (w : World) db2 t :
  Seed (S := S) RoleBypass senv t0 db = (db', None) -> In s seedUsers -> account (suEmail s) db' u -> iDB w = db' ->
  uStatus u <> "initializing" -> locked_at now u = false ->
  healthy (leUser env) -> leCompare env = None ->
  let db1 := (ResetFailedLogin libUUID libHeap (cfRole cfg) ctxOrg (leReset env).1 (leReset env).2 now (suEmail s) db').1 in
  (forall m, ListMFAConfigs libUUID (cfRole cfg) ctxOrg (leMFA env) (uID u) db1 = Ok m -> m = []) ->
  IssueTokens cfg now (leIssue env) (mkIssueTokensRequest (uOrgID u) (uID u) ua ip (leFamily env)) db1 = (db2, Ok t) ->
  Login cfg ctxOrg now env (suEmail s) (suPass s) ua ip w = (with_db db2 w, Ok (login_row (suEmail s) u, t)) /\ uRole u = suRole s.
Proof.
  intros Hs Hin Ha Hw Hst Hl Hh Hc db1 Hm Hi. apply seed_publishes_passwords in Hs as [Hacc _].
  destruct (Hacc s Hin) as (u' & org & _ & Hu & _ & He & Hrole & Hb).
  assert (u' = u) as ->.
  { assert (Hf : In u' (List.filter (fun x => uEmail x =s? suEmail s) (users db'))) by (apply filter_In; split; [done|by apply String.eqb_eq]).
    rewrite Ha in Hf. by destruct Hf as [<-|[]]. }
  split; [|done]. assert (Hg : GetUserByEmail libUUID libHeap (leUser env) (suEmail s) (iDB w) = Ok (login_row (suEmail s) u)).
  { unfold GetUserByEmail. rewrite !Hh, Hw. cbn [noFaults fAcquire fSet fQuery]. by rewrite (by_email_account _ _ _ _ Ha). }
  eapply Login_complete; [exact Hg|done| |done|exact Hb| |]; rewrite ?Hw; [|exact Hm|exact Hi].
  intros l Hlk. unfold locked_at in Hl. simpl in Hlk. rewrite Hlk in Hl. by apply Z.ltb_ge.
Qed.
End sign_in.

(** ** Examples *)

Module SeedExamples.
Import MiniIam.

Definition senv : SeedEnv MiniPg :=
  mkSeedEnv (fun _ => call) (fun _ => false) (fun _ => call) (fun email => "id of " +:+ email) (fun _ => "salt") call.
Definition blank : DB := mkDB [] [] [] [] [] [] [].
Definition seeded : DB := (Seed RoleBypass senv now blank).1.

(** An administrator chooses a password, and the service starts again. *)
Definition chosen : DB :=
  set_users (map (fun u => if uEmail u =s? "admin@openguard.io" then set_credentials "$2a$correct horse" "Admin" "admin" now u else u)
    (users seeded)) seeded.
Definition reseeded : DB := (Seed RoleBypass senv now chosen).1.

Example password_reset : map uPasswordHash (users chosen) = ["$2a$correct horse"; "$2a$test123"; "$2a$changeme123!"] /\
  map uPasswordHash (users reseeded) = ["$2a$admin123"; "$2a$test123"; "$2a$changeme123!"] /\ length (users reseeded) = 3.
Proof. vm_compute. repeat split. Qed.

Definition admin : seedUser := mkSeedUser "admin@openguard.io" "admin123" "System Admin" "admin" systemOrg.

Lemma seed_publishes_passwords_witness : hasAccount admin reseeded.
Proof.
  refine (proj1 (seed_publishes_passwords RoleBypass senv now chosen reseeded _) admin _); [vm_compute; reflexivity|by left].
Defined.

(** The example of golang-jwt signs for the user "u" of the tenant "o": the
    administrator's ids, in this reading of texts as uuids. *)
#[local] Instance lib2 : IamLib :=
  {| libUUID s := if s =s? "" then None else Some (if s =s? systemOrg then "o" else s);
     libInet := @libInet lib; libScanInet := @libScanInet lib; libHeap := @libHeap lib; bcryptCompare := @bcryptCompare lib;
     bcryptGenerate := @bcryptGenerate lib; totpValidate := @totpValidate lib; hmacSHA256 := @hmacSHA256 lib; IamService.sha256 := @IamService.sha256 lib;
     b64url := @b64url lib; b64rawurl := @b64rawurl lib; libParseIP := @libParseIP lib; libDocText := @libDocText lib |}.

#[local] Instance lib2_laws : IamLibLaws.
Proof. destruct lib_laws as [_ Hp Hb]. split; [done|exact Hp|exact Hb]. Qed.

Definition senv2 : SeedEnv MiniPg :=
  mkSeedEnv (fun _ => call) (fun _ => false) (fun _ => call) (fun email => if email =s? "admin@openguard.io" then "u" else email) (fun _ => "salt") call.
Definition seeded2 : DB := (Seed RoleBypass senv2 now blank).1.
Definition row : User := match users seeded2 with u :: _ => u | [] => alice end.
Definition lenv : LoginEnv (S := MiniPg) := mkLoginEnv call None (call, call) (call, call) (call, call) call "c1" "f" (issue "R1").
Definition wSeed : @IamService.Iam MiniRedis MiniBreaker := mkIam seeded2 emptyRedis closedBreaker.
Definition reset2 : DB := (ResetFailedLogin libUUID libHeap (cfRole cfg) "" call call now "admin@openguard.io" seeded2).1.
Definition issued2 := IssueTokens cfg now (issue "R1") (mkIssueTokensRequest "o" "u" "curl/8.0" "203.0.113.7" "f") reset2.

Lemma seeded_account_signs_in_witness :
  exists w' u t, Login (R := MiniRedis) (B := MiniBreaker) cfg "" now lenv "admin@openguard.io" "admin123" "curl/8.0" "203.0.113.7" wSeed
    = (w', Ok (u, t)) /\ AccessToken t = "tok" /\ uRole row = "admin".
Proof.
  destruct (seeded_account_signs_in (R := MiniRedis) (B := MiniBreaker) cfg senv2 now blank seeded2 admin row "" now lenv
              "curl/8.0" "203.0.113.7" wSeed issued2.1 (mkTokenResponse "tok" "R1" 3600 "Bearer")) as [Hl Hr].
  - vm_compute. reflexivity.
  - by left.
  - vm_compute. reflexivity.
  - reflexivity.
  - vm_compute. discriminate.
  - vm_compute. reflexivity.
  - reflexivity.
  - reflexivity.
  - vm_compute. by intros m [= <-].
  - vm_compute. reflexivity.
  - eexists _, _, _. split; [exact Hl|]. split; [reflexivity|exact Hr].
Defined.
End SeedExamples.
