(* ===== verification/Provisioning.v ===== *)
(** The provisioning saga of the identity service over time: registrations,
    which set a deadline, the watchers that claim the deadlines that have
    passed (services/iam/pkg/saga/watcher.go), the topic they publish on, and
    its consumer (consumer.go, [IamUsers.sagaConsume]), for any number of
    instances of the service. *)

From S2P Require Import Prelude GoStrings Json Redis Pg Resilience Hex Crypto Outbox Middleware.
From S2P Require Import IamStore IamService IamUsers IamTokens IamLogin IamAdmin.
From stdpp Require Import gmap sets.
From Stdlib Require Import Sorting.Sorted.

(** ** Scripts *)

Definition zset {R} `{Redis R} (t : Z) (r : R) (k : string) : gmap string Z :=
  match rview t r k with Some (RZSet z) => z | _ => ∅ end.

Definition drop_members (l : list string) (z : gmap string Z) : gmap string Z :=
  filter (fun kv : string * Z => kv.1 ∉ l) z.

(** EVAL of a script that picks members of a sorted set and removes them: it
    is executed as one command. *)
Class RedisScript (R : Type) `{Redis R} := {
  rpick : Z -> R -> string -> (gmap string Z -> list string) -> R * res (list string);
}.

Class RedisScriptLaws (R : Type) `{RedisScript R} : Prop := {
  rpick_ok now r k pick r' l :
    rpick now r k pick = (r', Ok l) ->
    l = pick (zset now r k) /\ forall t, (now <= t)%Z -> zset t r' k = drop_members l (zset t r k);
  rpick_err now r k pick r' e :
    rpick now r k pick = (r', Err e) ->
    (forall t, (now <= t)%Z -> zset t r' k = zset t r k) \/
    (forall t, (now <= t)%Z -> zset t r' k = drop_members (pick (zset now r k)) (zset t r k));
}.

(** ** The watcher *)

(** The order of a sorted set: by score, then by member. *)
Definition scoreLe (a b : string * Z) : bool := (a.2 <? b.2)%Z || ((a.2 =? b.2)%Z && String.leb a.1 b.1).

Definition claimLimit : nat := 100.

(** The script: ZRANGEBYSCORE -inf bound LIMIT 0 100, then ZREM. *)
Definition dueMembers (bound : Z) (z : gmap string Z) : list string :=
  take claimLimit (map fst (order_by scoreLe (List.filter (fun kv => (kv.2 <=? bound)%Z) (map_to_list z)))).

Definition compensation (now : Z) (sagaID : string) : json :=
  JObj [("compensation", JBool true); ("event", JStr "user.provisioning.failed"); ("reason", JStr "saga_timeout");
        ("saga_id", JStr sagaID); ("ts", JNum (unix now))].

Section saga.
Context {S R B : Type} `{PgSession S} `{RedisScript R} `{Breaker B} `{Aead} `{IamLib}.
Variable cfg : Config.

(** [checkExpired]: the members it claimed and the messages that reached the
    topic.  [publish] is the error of each publication, with whether the
    message was stored all the same. *)
Definition checkExpired (now : Z) (publish : string -> option (goerr * bool)) (r : R) : R * list string * list raw :=
  match rpick now r sagaDeadlines (dueMembers (unix now)) with
  | (r, Err _) => (r, [], [])
  | (r, Ok sagaIDs) =>
      (r, sagaIDs,
       flat_map (fun id => match publish id with Some (_, false) => [] | _ => [Some (compensation now id)] end) sagaIDs)
  end.

Record Pv := mkPv { pvIam : @Iam R B; pvTopic : list raw; pvOffset : nat; pvNow : Z }.

(** Runs, with the registrations and the claims so far.  Ids of users are
    fresh.  What else the service does leaves the deadlines alone. *)
Inductive pv_trace : list (string * Z) -> list (string * Z) -> Pv -> Prop :=
| pv_start iam now :
    (forall t, (now <= t)%Z -> zset t (iRedis iam) sagaDeadlines = ∅) -> pv_trace [] [] (mkPv iam [] 0 now)
| pv_register reg cl iam topic off now ctxOrg env req :
    pv_trace reg cl (mkPv iam topic off now) -> ruID env ∉ map fst reg ->
    let x := RegisterUser cfg ctxOrg now env req iam in
    pv_trace (match x.2 with Ok (id, true) => (id, now) :: reg | _ => reg end) cl (mkPv x.1 topic off now)
| pv_tick reg cl iam topic off now publish :
    pv_trace reg cl (mkPv iam topic off now) ->
    let x := checkExpired now publish (iRedis iam) in
    pv_trace reg (map (fun id => (id, now)) x.1.2 ++ cl) (mkPv (with_redis x.1.1 iam) (topic ++ x.2) off now)
| pv_consume reg cl iam topic off now status env m :
    pv_trace reg cl (mkPv iam topic off now) -> topic !! off = Some m ->
    pv_trace reg cl (mkPv (sagaConsume cfg now status env m iam) topic (Datatypes.S off) now)
| pv_message reg cl iam topic off now m :                     (* from an outbox *)
    pv_trace reg cl (mkPv iam topic off now) -> pv_trace reg cl (mkPv iam (topic ++ [m]) off now)
| pv_other reg cl iam topic off now iam' :
    pv_trace reg cl (mkPv iam topic off now) ->
    (forall t, (now <= t)%Z -> zset t (iRedis iam') sagaDeadlines = zset t (iRedis iam) sagaDeadlines) ->
    pv_trace reg cl (mkPv iam' topic off now)
| pv_time reg cl iam topic off now now' :
    pv_trace reg cl (mkPv iam topic off now) -> (now <= now')%Z -> pv_trace reg cl (mkPv iam topic off now').

(** The ticks of a watcher whose script answers. *)
Fixpoint runTicks (times : list Z) (r : R) : option R :=
  match times with
  | [] => Some r
  | t :: ts => match rpick t r sagaDeadlines (dueMembers (unix t)) with (r, Ok _) => runTicks ts r | _ => None end
  end.
End saga.

(** ** Sets of deadlines *)

Lemma lookup_drop l z k : drop_members l z !! k = if decide (k ∈ l) then None else z !! k.
Proof.
  unfold drop_members. destruct (decide (k ∈ l)) as [Hk|Hk].
  - apply map_lookup_filter_None. right. intros s _. by intros Hn.
  - destruct (z !! k) as [s|] eqn:E; [by apply map_lookup_filter_Some|]. apply map_lookup_filter_None. by left.
Qed.

Lemma dueMembers_In bound z id : In id (dueMembers bound z) -> exists s, z !! id = Some s /\ (s <= bound)%Z.
Proof.
  unfold dueMembers. intros Hin. assert (Hin' : In id (map fst (order_by scoreLe
    (List.filter (fun kv => (kv.2 <=? bound)%Z) (map_to_list z))))).
  { rewrite <- (firstn_skipn claimLimit). apply in_or_app. by left. }
  apply in_map_iff in Hin' as ([k s] & <- & Hin'). apply order_by_In, filter_In in Hin' as [Hin' Hs].
  exists s. split; [|by apply Z.leb_le]. by apply elem_of_map_to_list, list_elem_of_In.
Qed.

Lemma dueMembers_NoDup bound z : NoDup (dueMembers bound z).
Proof.
  unfold dueMembers. assert (Hn : NoDup (map fst (order_by scoreLe (List.filter (fun kv => (kv.2 <=? bound)%Z) (map_to_list z))))).
  { eapply NoDup_Permutation_proper; [apply Permutation_map, order_by_perm|].
    eapply (NoDup_map_sub fst); [|exact (NoDup_fst_map_to_list z)]. apply sublist_submseteq, filter_sublist. }
  rewrite <- (firstn_skipn claimLimit) in Hn. by apply NoDup_app in Hn as [Hn _].
Qed.

Section redis.
Context {R : Type} `{RedisLaws R}.

Lemma zset_mono now t (r : R) k id s : (now <= t)%Z -> zset t r k !! id = Some s -> zset now r k !! id = Some s.
Proof.
  intros Ht. unfold zset. destruct (rview t r k) as [d|] eqn:E; [|done]. by rewrite (rview_mono now t r k d Ht E).
Qed.

(** What ZADD leaves in the set. *)
Lemma zset_zadd now (r : R) k score m t id s :
  (now <= t)%Z -> zset t (rzadd now r k score m).1 k !! id = Some s ->
  (id = m /\ s = score) \/ (zset t r k !! id = Some s).
Proof.
  intros Ht. destruct (rzadd now r k score m) as [r' e] eqn:E.
  apply rzadd_applied in E as [E|[_ E]]; unfold zset; simpl; unfold view_of in E; rewrite E by done; [|by right].
  unfold view_touch. rewrite decide_True by done. destruct (rview now r k) as [d|] eqn:Ev.
  - destruct (rview t r k) as [d'|] eqn:Et; [|done]. unfold add_scored. destruct d' as [v|st|z].
    + intros [<- <-]%lookup_singleton_Some; by left.
    + intros [<- <-]%lookup_singleton_Some; by left.
    + intros [[<- <-]|[_ Hn]]%lookup_insert_Some; [by left|by right].
  - intros [<- <-]%lookup_singleton_Some. by left.
Qed.
End redis.

(** ** Properties *)

Section properties.
Context {S R B : Type} `{PgSession S} `{RedisLaws R} `{!RedisScript R} `{!RedisScriptLaws R} `{Breaker B} `{Aead} `{IamLibLaws}.
Variable cfg : Config.

#[local] Notation World := (@Iam R B).
#[local] Notation trace := (pv_trace (S := S) (R := R) (B := B) cfg).

(** A registration touches the deadlines once, with the id it answers. *)
Lemma RegisterUser_redis ctxOrg now (env : RegisterEnv (S := S)) req (w w' : World) x :
  RegisterUser cfg ctxOrg now env req w = (w', x) ->
  (iRedis w' = iRedis w /\ forall id, x <> Ok (id, true)) \/
  (x = Ok (ruID env, true) /\ iRedis w' = (rzadd now (iRedis w) sagaDeadlines (unix (now + 40 * Second)) (ruID env)).1).
Proof.
  unfold RegisterUser. cbv zeta. destruct (if rqSCIMExternalID req =s? "" then _ else _) as [u|e].
  { destruct (uStatus u =s? _); intros [= <- <-]; left; by split. }
  unfold registerNew. destruct (PoolGenerate _ _ _); [|intros [= <- <-]; left; by split].
  destruct (oeBegin _); [intros [= <- <-]; left; by split|].
  destruct (CreateUser _ _ _ _ _ _ _ _ _ _ _ _) as [db y] eqn:Ec.
  apply CreateUser_cases in Ec as [(_ & e1 & ->)|(org & _ & _ & [->|[e1 ->]])]; [intros [= <- <-]; left; by split| |
    intros [= <- <-]; left; by split].
  destruct (if rqSCIMExternalID req =s? "" then _ else _) as [db1 [u|e1]]; [|intros [= <- <-]; left; by split].
  destruct (outboxTx _ _ _ _ _ _ _) as [db2 [e1|]]; intros [= <- <-]; [left; by split|]. right. by split.
Qed.

Lemma blocklistPipe_deadlines now ttlOf jtis (r : R) t :
  (now <= t)%Z -> rview t (blocklistPipe now ttlOf jtis r).1 sagaDeadlines = rview t r sagaDeadlines.
Proof.
  intros Ht. unfold blocklistPipe. generalize (List.filter (fun jti => (0 <? ttlOf jti)%Z) jtis). intros l.
  enough (Hp : forall p : R -> R * option goerr,
    rview t (fold_left (fun pipe jti => pipe_then pipe (fun r => rset now r (blocklistKey jti) (RText "revoked")
      (setExTTL (ttlOf jti)))) l p r).1 sagaDeadlines = rview t (p r).1 sagaDeadlines) by (rewrite Hp; done).
  induction l as [|j l IH]; intros p; simpl; [done|]. rewrite IH. unfold pipe_then. destruct (p r) as [r1 e1].
  destruct (rset _ r1 _ _ _) as [r2 e2] eqn:E. simpl. eapply rset_frame; [exact E|done|done].
Qed.

Lemma offboard_deadlines ctxOrg now (env : OffboardEnv (S := S)) us (w : World) t :
  (now <= t)%Z ->
  rview t (iRedis (fold_left (offboardUser cfg ctxOrg now env) us w)) sagaDeadlines = rview t (iRedis w) sagaDeadlines.
Proof.
  intros Ht. revert w. induction us as [|u us IH]; intros w; simpl; [done|]. rewrite IH. unfold offboardUser. cbv zeta. simpl.
  destruct (GetActiveJTIs _ _ _ _ _ _ _); [by apply blocklistPipe_deadlines|done].
Qed.

Lemma sagaConsume_deadlines now (status : dbc S) env m (w : World) t :
  (now <= t)%Z -> zset t (iRedis (sagaConsume cfg now status env m w)) sagaDeadlines = zset t (iRedis w) sagaDeadlines.
Proof.
  intros Ht. unfold zset. assert (rview t (iRedis (sagaConsume cfg now status env m w)) sagaDeadlines =
    rview t (iRedis w) sagaDeadlines) as ->; [|done].
  unfold sagaConsume. destruct (unmarshal_struct _ _ _) as [ev|]; [|done]. cbv zeta.
  destruct (_ =s? _); [done|]. destruct (_ =s? _); [done|]. destruct (_ =s? _); [|done].
  unfold OffboardOrg. destruct (ListUsers _ _ _ _ _ _ _) as [us|]; [|done]. cbv zeta.
  destruct (DeprovisionAllUsers _ _ _ _ _ _ _) as [db [u|]]; simpl; [destruct (oeBegin _)|]; simpl;
    by apply offboard_deadlines.
Qed.

(** *** Each deadline is claimed once, and not too early *)

Record pv_inv (reg cl : list (string * Z)) (st : Pv (R := R) (B := B)) : Prop := mkPvInv {
  pi_live : forall t id s, (pvNow st <= t)%Z -> zset t (iRedis (pvIam st)) sagaDeadlines !! id = Some s ->
    ~ In id (map fst cl) /\ exists t0, In (id, t0) reg /\ (t0 <= pvNow st)%Z /\ s = unix (t0 + 40 * Second);
  pi_once : NoDup (map fst cl);
  pi_claimed : forall id t', In (id, t') cl -> (t' <= pvNow st)%Z /\
    exists t0, In (id, t0) reg /\ (t0 <= t')%Z /\ (unix (t0 + 40 * Second) <= unix t')%Z;
}.

Lemma pv_inv_more reg reg' cl iam topic off now iam' topic' off' :
  pv_inv reg cl (mkPv iam topic off now) -> (forall x, In x reg -> In x reg') ->
  (forall t id s, (now <= t)%Z -> zset t (iRedis iam') sagaDeadlines !! id = Some s ->
     zset t (iRedis iam) sagaDeadlines !! id = Some s) ->
  pv_inv reg' cl (mkPv iam' topic' off' now).
Proof.
  intros [Hl Ho Hc] Hr Hz. split; simpl in *.
  - intros t id s Ht Hs. destruct (Hl t id s Ht (Hz t id s Ht Hs)) as (? & t0 & ? & ? & ?). split; [done|]. exists t0. auto.
  - done.
  - intros id t' Hin. destruct (Hc id t' Hin) as (? & t0 & ? & ?). split; [done|]. exists t0. auto.
Qed.

Lemma pv_reachable reg cl st : trace reg cl st -> pv_inv reg cl st.
Proof.
  induction 1 as [iam now Hz|reg cl iam topic off now ctxOrg env req _ IH Hf x|reg cl iam topic off now publish _ IH x
    |reg cl iam topic off now status env m _ IH _|reg cl iam topic off now m _ IH|reg cl iam topic off now iam' _ IH Ho
    |reg cl iam topic off now now' _ IH Ht].
  - split; simpl; [|constructor|done]. intros t id s Ht. by rewrite Hz, lookup_empty.
  - subst x. destruct (RegisterUser _ _ _ _ _ _) as [iam' y] eqn:E.
    apply RegisterUser_redis in E as [[Hr Hy]|[-> Hr]]; simpl.
    + assert ((match y with Ok (id, true) => (id, now) :: reg | _ => reg end) = reg) as ->.
      { destruct y as [[id []]|]; [by destruct (Hy id)|done|done]. }
      eapply pv_inv_more; [exact IH|done|]. intros t id s _. by rewrite Hr.
    + destruct IH as [Hl Ho Hc]. simpl in *. split; simpl.
      * intros t id s Ht Hs. rewrite Hr in Hs. destruct (zset_zadd now _ _ _ _ t id s Ht Hs) as [[-> ->]|Hs'].
        -- split; [|exists now; split; [by left|split; [lia|done]]]. intros ([id' t'] & Hid & Hin)%in_map_iff. simpl in Hid. subst id'.
           destruct (Hc _ _ Hin) as (_ & t0 & Hin0 & _). apply Hf, list_elem_of_In, in_map_iff. by exists (ruID env, t0).
        -- destruct (Hl t id s Ht Hs') as (? & t0 & ? & ? & ?). split; [done|]. exists t0. auto.
      * done.
      * intros id t' Hin. destruct (Hc id t' Hin) as (? & t0 & ? & ?). split; [done|]. exists t0. auto.
  - subst x. unfold checkExpired. destruct (rpick now (iRedis iam) _ _) as [r [ids|e]] eqn:E; simpl.
    + apply rpick_ok in E as [-> Hr]. set (ids := dueMembers _ _) in *. destruct IH as [Hl Ho Hc]. simpl in *.
      assert (Hids : forall id, In id ids -> ~ In id (map fst cl) /\ exists t0, In (id, t0) reg /\ (t0 <= now)%Z /\
        (unix (t0 + 40 * Second) <= unix now)%Z).
      { intros id (s & Hs & Hle)%dueMembers_In. destruct (Hl now id s ltac:(lia) Hs) as (? & t0 & ? & ? & ->). split; [done|]. by exists t0. }
      split; simpl.
      * intros t id s Ht. rewrite Hr, lookup_drop by done. destruct (decide _) as [|Hn]; [done|]. intros Hs.
        destruct (Hl t id s Ht Hs) as (Hnc & Hex). split; [|done]. rewrite map_app, in_app_iff, map_map. simpl. rewrite map_id.
        intros [Hin|Hin]; [|done]. by apply Hn, list_elem_of_In.
      * rewrite map_app, map_map. simpl. rewrite map_id. apply NoDup_app. split; [apply dueMembers_NoDup|]. split; [|done].
        intros id Hin%list_elem_of_In Hin'%list_elem_of_In. by destruct (Hids id Hin).
      * intros id t' [Hin|Hin]%in_app_or.
        -- apply in_map_iff in Hin as (id' & [= -> <-] & Hin). destruct (Hids id Hin) as (_ & t0 & ? & ? & ?). split; [lia|]. by exists t0.
        -- by apply Hc.
    + eapply pv_inv_more; [exact IH|done|]. intros t id s Ht. simpl.
      apply rpick_err in E as [E|E]; rewrite E by done; [done|]. rewrite lookup_drop. by destruct (decide _).
  - eapply pv_inv_more; [exact IH|done|]. intros t id s Ht. by rewrite sagaConsume_deadlines.
  - eapply pv_inv_more; [exact IH|done|done].
  - eapply pv_inv_more; [exact IH|done|]. intros t id s Ht. by rewrite Ho.
  - destruct IH as [Hl Hon Hc]. split; simpl in *; [|done|].
    + intros t id s Ht' Hs. destruct (Hl t id s ltac:(lia) Hs) as (? & t0 & ? & ? & ?). split; [done|]. exists t0. split; [done|]. split; [lia|done].
    + intros id t' Hin. destruct (Hc id t' Hin) as (? & ?). split; [lia|done].
Qed.

(** C21: Over all interleavings of registrations, watchers of any number of
    instances, the consumer and the rest of the service, and whatever fails: a
    deadline is claimed at most once, hence announced by one watcher at most;
    only users that were registered are; and none earlier than 39 seconds
    after its registration. *)
Theorem deadlines_claimed_once reg cl st :
  trace reg cl st ->
  NoDup (map fst cl) /\
  forall id t', In (id, t') cl -> exists t, In (id, t) reg /\ (t + 39 * Second < t')%Z.
Proof.
  intros [_ Ho Hc]%pv_reachable. split; [done|]. intros id t' Hin. destruct (Hc id t' Hin) as (_ & t & Hr & _ & Hu).
  exists t. split; [done|]. unfold unix, Second, Millisecond in *.
  pose proof (Z.div_mod t (1000 * 1000000) ltac:(lia)). pose proof (Z.mod_pos_bound t (1000 * 1000000) ltac:(lia)).
  pose proof (Z.div_mod t' (1000 * 1000000) ltac:(lia)). pose proof (Z.mod_pos_bound t' (1000 * 1000000) ltac:(lia)).
 rewrite Z.div_add in Hu by lia. lia.
Qed.

(** *** What a deadline that has passed does *)

Lemma sagaConsume_compensation now now' (status : dbc S) env id (w : World) :
  sagaConsume cfg now' status env (Some (compensation now id)) w =
  with_db (UpdateUserStatus libUUID libHeap (cfRole cfg) "" status now' id "provisioning_failed" (iDB w)).1 w.
Proof.
  unfold sagaConsume, compensation. cbn [unmarshal_struct dec_members]. unfold upd_saga. json_keys.
  cbn [dec_string res_bind seEvent seUserID seOrgID seSagaID]. reflexivity.
Qed.

(** A deadline that has passed fails its user.  Nothing removes the
    deadline of a user that was provisioned, and the consumer looks at no
    status: when the watcher claims the deadline and its message is published
    and consumed, the user is marked as failed, an active one like any other,
    and no other user changes. *)
Theorem timed_out_user_fails now now' publish (status : dbc S) env (w w2 : World) id u :
  cfRole cfg = RoleBypass -> healthy status -> libUUID id = Some id ->
  List.filter (fun x => uID x =s? id) (users (iDB w2)) = [u] ->
  (uVersion u < int4_max)%Z -> (uFailedLoginCount u <= int4_max)%Z ->
  In id (dueMembers (unix now) (zset now (iRedis w) sagaDeadlines)) -> publish id = None ->
  is_ok (rpick now (iRedis w) sagaDeadlines (dueMembers (unix now))).2 = true ->
  exists m, In m (checkExpired now publish (iRedis w)).2 /\
    users (iDB (sagaConsume cfg now' status env m w2)) =
      map (fun x => if uID x =s? id then set_status "provisioning_failed" now' x else x) (users (iDB w2)).
Proof.
  intros Hro Hc Hid Hu Hv Hf Hdue Hp Hok. exists (Some (compensation now id)). split.
  - unfold checkExpired. destruct (rpick _ _ _ _) as [r [ids|e]] eqn:E; [|done]. apply rpick_ok in E as [-> _]. simpl.
    apply in_flat_map. exists id. split; [done|]. rewrite Hp. by left.
  - rewrite sagaConsume_compensation. unfold UpdateUserStatus, exec_user_id, uuid_arg. rewrite execOrg_healthy, Hid by done.
    unfold update_users, visible. rewrite Hro. simpl.
    erewrite List.filter_ext; [rewrite Hu|by intros x; rewrite andb_true_r]. simpl.
    assert (int4_ok (set_status "provisioning_failed" now' u) = true) as ->.
    { unfold int4_ok. simpl. rewrite andb_true_iff, !Z.leb_le. lia. }
    simpl. apply map_ext. intros x. by rewrite andb_true_r.
Qed.

(** Under row-level security the consumer, which has no tenant, changes no
    user: provisioning neither fails nor succeeds. *)
Lemma consumer_is_blind now (status : dbc S) id st db db' x :
  PgSessionLaws S -> cfRole cfg = RoleSubject -> pooled (dConn status) ->
  UpdateUserStatus libUUID libHeap (cfRole cfg) "" status now id st db = (db', x) -> users db' = users db.
Proof.
  intros Hl Hro Hp [(-> & _)|(a & Hs & _)]%execOrg_cases; [done|].
  apply res_bind_ok in Hs as (i & _ & Hs). apply res_bind_ok in Hs as ([d l] & Hs & [= <- _]).
  unfold update_users in Hs. rewrite pooled_visible in Hs by done. simpl in Hs.
  rewrite filter_none in Hs by (intros; apply andb_false_r). simpl in Hs. injection Hs as <- _. simpl.
  erewrite map_ext; [apply map_id|]. intros y. by rewrite andb_false_r.
Qed.

(** *** The watcher catches up *)

Definition due (b : Z) (z : gmap string Z) : gmap string Z := filter (fun kv : string * Z => (kv.2 <= b)%Z) z.

Definition byScore (x y : string * Z) : Prop := (x.2 <= y.2)%Z.

Lemma sorted_split (b : Z) (l : list (string * Z)) :
  StronglySorted byScore l ->
  exists p q, l = p ++ q /\ (forall x, In x p -> (x.2 <= b)%Z) /\ (forall x, In x q -> (b < x.2)%Z).
Proof.
  induction 1 as [|x l _ (p & q & -> & Hp & Hq) Hx]; [by exists [], []|].
  destruct (Z_le_gt_dec x.2 b) as [Hle|Hgt].
  - exists (x :: p), q. split; [done|]. split; [|done]. intros y [<-|Hy]; auto.
  - exists [], (x :: p ++ q). split; [done|]. split; [done|]. rewrite Forall_forall in Hx.
    intros y [<-|Hy]; [lia|]. specialize (Hx y (proj2 (list_elem_of_In _ _) Hy)). unfold byScore in Hx. lia.
Qed.

Lemma score_sorted l : StronglySorted byScore (order_by scoreLe l).
Proof.
  assert (Hs : forall l, Sorted byScore l -> StronglySorted byScore l).
  { intros m. apply Sorted_StronglySorted. intros x y z. unfold byScore. lia. }
  apply Hs. clear Hs. unfold order_by. induction l as [|x l IH]; simpl; [constructor|].
  induction IH as [|y m Hm IHm Hy]; simpl; [by repeat constructor|].
  destruct (scoreLe x y) eqn:E.
  - constructor; [by constructor|]. constructor. unfold scoreLe in E. rewrite orb_true_iff, andb_true_iff, Z.ltb_lt, Z.eqb_eq in E. unfold byScore. lia.
  - constructor; [done|]. assert (byScore y x).
    { unfold scoreLe in E. rewrite orb_false_iff, Z.ltb_ge in E. unfold byScore. lia. }
    destruct m as [|v m]; simpl; [by constructor|]. inversion Hy; subst. destruct (scoreLe x v); by constructor.
Qed.

Lemma due_claimed b bound z : (b <= bound)%Z ->
  size (due b (drop_members (dueMembers bound z) z)) = size (due b z) - claimLimit.
Proof.
  intros Hb. unfold dueMembers. set (l := order_by scoreLe _).
  assert (Hin : forall k s, In (k, s) l <-> z !! k = Some s /\ (s <= bound)%Z).
  { intros k s. unfold l. rewrite order_by_In, filter_In, <- list_elem_of_In, elem_of_map_to_list, Z.leb_le. done. }
  assert (Hnd : NoDup (map fst l)).
  { unfold l. eapply NoDup_Permutation_proper; [apply Permutation_map, order_by_perm|].
    eapply (NoDup_map_sub fst); [|exact (NoDup_fst_map_to_list z)]. apply sublist_submseteq, filter_sublist. }
  destruct (sorted_split b l (score_sorted _)) as (p & q & Hl & Hp & Hq). rewrite firstn_map.
  assert (Hone : forall c, map_to_list (due b (drop_members (map fst (take c l)) z)) ≡ₚ drop c p).
  { intros c. assert (Hsplit : l = take c l ++ drop c l) by (symmetry; apply take_drop).
    assert (Hdrop : drop c l = drop c p ++ drop (c - length p) q) by (rewrite Hl; apply drop_app).
    rewrite Hsplit, map_app in Hnd. apply NoDup_app in Hnd as (_ & Hdis & Hnd2).
    apply NoDup_Permutation; [apply NoDup_map_to_list| |].
    - rewrite Hdrop, map_app in Hnd2. apply NoDup_app in Hnd2 as [Hn _]. by eapply NoDup_fmap_1.
    - intros [k s]. rewrite elem_of_map_to_list, list_elem_of_In. unfold due. rewrite map_lookup_filter_Some, lookup_drop. simpl.
      split.
      + intros [Hz Hs]. destruct (decide _) as [|Hk]; [done|]. assert (Hkl : In (k, s) l) by (apply Hin; split; [done|lia]).
        rewrite Hsplit in Hkl. apply in_app_or in Hkl as [Hkl|Hkl].
        * destruct Hk. apply list_elem_of_In, in_map_iff. by exists (k, s).
        * rewrite Hdrop in Hkl. apply in_app_or in Hkl as [Hkl|Hkl]; [done|].
          assert (Hkq : In (k, s) q) by (rewrite <- (take_drop (c - length p) q); apply in_or_app; by right).
          apply Hq in Hkq. simpl in Hkq. lia.
      + intros Hk. assert (Hkp : In (k, s) p) by (rewrite <- (take_drop c p); apply in_or_app; by right).
        assert (Hkl : In (k, s) l) by (rewrite Hl; apply in_or_app; by left). apply Hin in Hkl as [Hz _].
        split; [|exact (Hp _ Hkp)]. rewrite decide_False; [done|]. intros Hk'. apply (Hdis k Hk').
        apply list_elem_of_In, in_map_iff. exists (k, s). split; [done|]. rewrite Hdrop. apply in_or_app. by left. }
  rewrite <- length_map_to_list. etransitivity; [apply Permutation_length, Hone|]. rewrite length_drop. f_equal.
  rewrite <- length_map_to_list. symmetry. pose proof (Permutation_length (Hone 0)) as Hlen. simpl in Hlen.
  assert (Hz : drop_members [] z = z) by (apply map_eq; intros k; rewrite lookup_drop, decide_False; [done|apply not_elem_of_nil]).
  by rewrite Hz in Hlen.
Qed.

Lemma due_mono b t t' (r : R) :
  (t <= t')%Z -> size (due b (zset t' r sagaDeadlines)) <= size (due b (zset t r sagaDeadlines)).
Proof.
  intros Ht. apply map_subseteq_size, map_subseteq_spec. intros id s. unfold due. rewrite !map_lookup_filter_Some.
  intros [Hz Hs]. split; [by eapply zset_mono|done].
Qed.

(** The watcher catches up: a hundred deadlines per tick.  When its ticks
    are answered, and are as many as the deadlines that have passed at the
    first of them, divided by a hundred, no deadline that had passed by then
    is left. *)
Theorem watcher_catches_up T times (r r' : R) :
  StronglySorted Z.le (T :: times) -> runTicks times r = Some r' ->
  size (due (unix T) (zset T r sagaDeadlines)) <= claimLimit * length times ->
  forall t id s, Forall (fun x => (x <= t)%Z) (T :: times) -> zset t r' sagaDeadlines !! id = Some s -> (unix T < s)%Z.
Proof.
  intros Hs Hr Hn. assert (Hb : Forall (fun x => (unix T <= unix x)%Z) times).
  { inversion Hs as [|? ? _ Hall]; subst. eapply Forall_impl; [exact Hall|]. intros x Hx. unfold unix.
    apply Z.div_le_mono; [unfold Second, Millisecond; lia|done]. }
  revert Hn Hb. generalize (unix T). intros b. revert T r Hs Hr.
  induction times as [|t1 times IH]; intros T r Hs Hr Hn Hb t id s Ht Hz; simpl in Hr.
  - injection Hr as ->. inversion Ht as [|? ? HT _]; subst. apply (zset_mono T) in Hz; [|done].
    destruct (Z_lt_le_dec b s) as [|Hle]; [done|]. exfalso.
    assert (Hd : due b (zset T r' sagaDeadlines) !! id = Some s) by (apply map_lookup_filter_Some; done).
    simpl in Hn. assert (due b (zset T r' sagaDeadlines) = ∅) as E by (apply map_size_empty_inv; lia).
    by rewrite E, lookup_empty in Hd.
  - destruct (rpick t1 r _ _) as [r1 [ids|e]] eqn:E; [|done]. apply rpick_ok in E as [-> Hr1].
    inversion Hs as [|? ? Hs' Hall]; subst. inversion Hall as [|? ? Ht1 _]; subst.
    inversion Hb as [|? ? Hb1 Hb']; subst. inversion Ht as [|? ? _ Ht']; subst.
    apply (IH t1 r1) with (t := t) (id := id); [done|done| |done|done|done].
    rewrite Hr1, due_claimed by done || lia. pose proof (due_mono b T t1 r Ht1). cbn [length] in Hn. unfold claimLimit in *. lia.
Qed.
End properties.

(** ** Examples *)

#[global] Instance MiniRedis_script : RedisScript MiniRedis := {
  rpick now r k pick :=
    match mrView now r k with
    | Some (RStr _) | Some (RSet _) => (r, Err (if mrDown r then ErrRedisDown else ErrWrongType))
    | d =>
        let z := match d with Some (RZSet z) => z | _ => ∅ end in
        if mrDown r then (r, Err ErrRedisDown)
        else match d with
             | None => (r, Ok (pick z))
             | _ => (mrPut r k (RZSet (drop_members (pick z) z)) (mrExpiry now r k), Ok (pick z))
             end
    end;
}.

#[global] Instance MiniRedis_script_laws : RedisScriptLaws MiniRedis.
Proof.
  split.
  - intros now r k pick r' l. simpl. destruct (mrView now r k) as [d|] eqn:Ev.
    + destruct d as [v|st|z]; try done. destruct (mrDown r); [done|]. intros [= <- <-].
      assert (Hz : zset now r k = z) by (unfold zset; simpl; by rewrite Ev). rewrite Hz. split; [done|].
      intros t Ht. unfold zset. simpl. rewrite mrView_put, decide_True by done. rewrite (mrView_later now t r k _ Ev).
      destruct (mrExpiry now r k) as [x|]; [destruct (t <? x)%Z|]; try done.
    + destruct (mrDown r); [done|]. intros [= <- <-].
      assert (Hz : forall t, (now <= t)%Z -> zset t r k = ∅) by (intros t Ht; unfold zset; simpl; by rewrite (mrView_gone now)).
      rewrite (Hz now) by lia. split; [done|]. intros t Ht. rewrite Hz by done. by apply map_eq.
  - intros now r k pick r' e. simpl. destruct (mrView now r k) as [[v|st|z]|]; [intros [= <- _]; by left..| |];
      destruct (mrDown r); intros H; simplify_eq; by left.
Qed.

Module ProvisioningExamples.
Export AdminExamples.

Definition req : RegisterUserRequest := mkRegisterUserRequest "o" "b@x" "pw" "Bob" "user" "".
Definition registered : @Iam MiniRedis MiniBreaker := (RegisterUser cfg "o" now (peRegister postEnv) req wA).1.
Definition late : Z := (now + 50 * Second)%Z.
Definition published (_ : string) : option (goerr * bool) := None.
#[local] Notation trace := (pv_trace (S := MiniPg) (R := MiniRedis) (B := MiniBreaker) cfg).

Lemma claimed_trace : exists st, trace [("u2", now)] [("u2", late)] st.
Proof.
  eexists. refine (pv_tick cfg [("u2", now)] [] registered [] 0 late published _).
  apply (pv_time cfg _ _ _ _ _ now); [|by vm_compute].
  refine (pv_register cfg [] [] wA [] 0 now "o" (peRegister postEnv) req _ _); [|apply not_elem_of_nil].
  apply pv_start. intros t _. reflexivity.
Qed.

Lemma deadlines_claimed_once_witness : exists t, In ("u2", t) [("u2", now)] /\ (t + 39 * Second < late)%Z.
Proof.
  destruct claimed_trace as [st Ht]. destruct (deadlines_claimed_once cfg _ _ st Ht) as [_ Hc]. apply (Hc "u2" late). by left.
Defined.

(** The user was activated in the meantime. *)
Definition active : User := set_status "active" (now + Second) (newUser now "u2" "o" "b@x" "$2a$pw" "Bob" "user").
Definition activated : @Iam MiniRedis MiniBreaker := with_db (set_users [alice; active] (iDB registered)) registered.
Definition offboardEnv : OffboardEnv (S := MiniPg) :=
  mkOffboardEnv call (fun _ => call) (fun _ _ => call) (fun _ => call) call outEnv.

Lemma timed_out_user_fails_witness :
  exists m, In m (checkExpired late published (iRedis activated)).2 /\
    map uStatus (users (iDB (sagaConsume cfg late call offboardEnv m activated))) = ["active"; "provisioning_failed"].
Proof.
  destruct (timed_out_user_fails cfg late late published call offboardEnv activated activated "u2" active) as (m & Hm & Hu);
    try reflexivity.
  - vm_compute. discriminate.
  - vm_compute. by left.
  - exists m. split; [exact Hm|]. rewrite Hu. reflexivity.
Defined.

Lemma watcher_catches_up_witness :
  option_map (fun r' => zset late r' sagaDeadlines !! "u2") (runTicks [late] (iRedis registered)) = Some None.
Proof.
  destruct (runTicks [late] (iRedis registered)) as [r'|] eqn:Hr; [|revert Hr; vm_compute; discriminate].
  simpl. f_equal. destruct (zset late r' sagaDeadlines !! "u2") as [s|] eqn:E; [exfalso|reflexivity].
  assert (Hlt : (unix late < s)%Z).
  { apply (watcher_catches_up late [late] (iRedis registered) r') with (t := late) (id := "u2"); [|exact Hr| | |exact E].
    - by repeat constructor.
    - vm_compute. lia.
    - by repeat constructor. }
  revert Hr E Hlt. vm_compute. intros [= <-]. discriminate.
Defined.
End ProvisioningExamples.
