(* ===== verification/IamSaml.v ===== *)
(** Signing in with SAML: services/iam/pkg/handlers/saml.go,
    pkg/service/saml.go and pkg/repository/repository_saml.go, on the table of
    services/iam/migrations/012_create_saml_providers.up.sql.  XML, X.509 and
    the checks of the SAML library are an interface ([SamlLib]); a route of the
    assertion consumer carries no tenant but the RelayState of its form. *)

From S2P Require Import Prelude GoStrings Json Redis Pg Resilience Hex Crypto Http Outbox Middleware.
From S2P Require Import IamStore IamService IamTokens IamLogin IamHandlers.
From stdpp Require Import gmap.

(** ** Data *)

Record SAMLProvider := mkSAMLProvider {
  smID : string; smOrgID : string; smEntityID : string; smSSOURL : string; smSLOURL : string; smMetadataXML : string;
  smCertPEM : string; smKeyPEM : string; smNameIDFormat : string; smAttributeMap : json; smEnabled : bool;
  smCreatedAt : Z; smUpdatedAt : Z;
}.

(** What the code reads of an IdP's metadata: its id, and for each descriptor
    its sign-on services (binding and location). *)
Record IdpMetadata := mkIdpMetadata { imEntityID : string; imSSO : list (list (string * string)) }.

(** What it reads of an assertion that the library accepted: the attributes of
    all statements, each with its values.  An assertion may lack its NameID. *)
Record Assertion := mkAssertion {
  asID : string; asNotOnOrAfter : Z; asNameID : option string; asAttributes : list (string * list string);
}.

Class SamlLib := {
  SP : Type;                                                   (* saml.ServiceProvider *)
  Key : Type;
  Cert : Type;
  parseURL : string -> option goerr;
  parseMetadata : string -> res IdpMetadata;                   (* xml.Unmarshal *)
  pemDecode : string -> option string;
  parseECPrivateKey : string -> res Key;
  parseCertificate : string -> res Cert;
  newSP : string -> Key -> Cert -> string -> SP;               (* base URL, key, certificate, metadata *)
  spMetadata : SP -> res string;
  parseResponse : Z -> SP -> list (string * string) -> res Assertion;   (* at an instant, of a form *)
}.

(** ** The table *)

Section store.
Context {S : Type} `{PgSession S}.
Variable pgUUID : uuidCast.
Variable ro : role.

(** [org_id::TEXT = current_setting('app.org_id', true)]. *)
Definition saml_visible (sess : S) (org : string) : bool :=
  match ro with RoleBypass => true | RoleSubject => org =s? current_setting sess app_org end.

Definition set_provider (now : Z) (p row : SAMLProvider) : SAMLProvider :=
  mkSAMLProvider (smID row) (smOrgID row) (smEntityID p) (smSSOURL p) (smSLOURL p) (smMetadataXML p) (smCertPEM p)
    (smKeyPEM p) (smNameIDFormat p) (smAttributeMap p) (smEnabled p) (smCreatedAt row) now.

Definition set_enabled (b : bool) (p : SAMLProvider) : SAMLProvider :=
  mkSAMLProvider (smID p) (smOrgID p) (smEntityID p) (smSSOURL p) (smSLOURL p) (smMetadataXML p) (smCertPEM p)
    (smKeyPEM p) (smNameIDFormat p) (smAttributeMap p) b (smCreatedAt p) (smUpdatedAt p).

(** [INSERT ... ON CONFLICT (org_id) DO UPDATE ... RETURNING]; [id] is the one
    drawn for a new row. *)
Definition upsert_provider (sess : S) (orgs : list string) (id : string) (now : Z) (orgID : string) (p : SAMLProvider)
  (rows : list SAMLProvider) : res (list SAMLProvider * SAMLProvider) :=
  org <-? uuid_arg pgUUID orgID;
  if negb (saml_visible sess org) then Err ErrRLS
  else match find (fun r => smOrgID r =s? org) rows with
  | Some row =>
      Ok (map (fun r => if smOrgID r =s? org then set_provider now p r else r) rows, set_provider now p row)
  | None =>
      if negb (existsb (String.eqb org) orgs) then Err ErrForeignKey
      else let row := set_provider now p (mkSAMLProvider id org "" "" "" "" "" "" "" JNull true now now) in
           Ok (rows ++ [row], row)
  end.

Definition UpsertSAMLProvider (c : dbc S) (orgs : list string) (id : string) (now : Z) (orgID : string) (p : SAMLProvider)
  (rows : list SAMLProvider) : list SAMLProvider * res SAMLProvider :=
  match execTable orgID c (fun sess => upsert_provider sess orgs id now orgID p) rows with
  | (rows, Err e) => (rows, Err (ErrWrap "upsert saml provider: " e ""))
  | (rows, Ok out) => (rows, Ok out)
  end.

Definition GetSAMLProvider (c : dbc S) (orgID : string) (rows : list SAMLProvider) : res SAMLProvider :=
  match (execTable orgID c (fun sess rows =>
           org <-? uuid_arg pgUUID orgID;
           row <-? one_row (List.filter (fun r => (smOrgID r =s? org) && saml_visible sess (smOrgID r)) rows);
           Ok (rows, row)) rows).2 with
  | Err e => Err (ErrWrap "get saml provider: " e "")
  | Ok p => Ok p
  end.

Definition newer_provider (a b : SAMLProvider) : bool := (smCreatedAt b <=? smCreatedAt a)%Z.

(** This loop consults [rows.Err()]. *)
Definition ListSAMLProviders (c : dbc S) (orgID : string) (rows : list SAMLProvider) : res (list SAMLProvider) :=
  (execTable orgID c (fun sess rows =>
     org <-? uuid_arg pgUUID orgID;
     let out := deliver (fRows (dFaults c)) (order_by newer_provider
                  (List.filter (fun r => (smOrgID r =s? org) && saml_visible sess (smOrgID r)) rows)) in
     match rows_err out with Some e => Err e | None => Ok (rows, rows_list out) end) rows).2.
End store.

(** ** Service and handlers *)

Section saml.
Context {S R B : Type} `{PgSession S} `{Redis R} `{Breaker B} `{Jwt} `{Aead} `{IamLib} `{SamlLib}.
Variable cfg : Config.
Variable timeDoc : Z -> json.
(** SAML_SP_BASE_URL, OPENGUARD_DASHBOARD_URL and NODE_ENV. *)
Variables baseURL dashboardURL nodeEnv : string.

#[local] Notation World := (@Iam R B).

(** [Service.UpsertSAMLProvider]. *)
Definition upsertSAML (c : dbc S) (orgs : list string) (id : string) (now : Z) (orgID : string) (p : SAMLProvider)
  (rows : list SAMLProvider) : list SAMLProvider * res SAMLProvider :=
  if orgID =s? "" then (rows, Err (ErrNew "org_id required"))
  else if (smEntityID p =s? "") || (smSSOURL p =s? "") || (smMetadataXML p =s? "")
  then (rows, Err (ErrNew "entity_id, sso_url, and metadata_xml are required"))
  else UpsertSAMLProvider libUUID (cfRole cfg) c orgs id now orgID (set_enabled true p) rows.

Record ProvisionEnv := mkProvisionEnv {
  pvExternal : dbc S; pvEmail : dbc S; pvWire : dbc S; pvCreate : dbc S; pvID : string; pvLink : dbc S; pvUser : dbc S;
}.

(** The context has no tenant; the address is looked up in every tenant. *)
Definition ProvisionOrGetSAMLUser (now : Z) (env : ProvisionEnv) (orgID nameID email displayName : string) (db : DB)
  : DB * res User :=
  match GetUserByExternalID libUUID libHeap (cfRole cfg) "" (pvExternal env) orgID nameID db with
  | Ok existing => (db, Ok existing)
  | Err _ =>
      match (if email =s? "" then Err ErrNotFound else GetUserByEmail libUUID libHeap (pvEmail env) email db) with
      | Ok byEmail =>
          ((UpdateUserSCIM libUUID libHeap (cfRole cfg) "" (pvWire env) now (uID byEmail) nameID "active" db).1, Ok byEmail)
      | Err _ =>
          let displayName := if displayName =s? "" then email else displayName in
          match CreateUser libUUID (cfRole cfg) (pvCreate env) (pvID env) now orgID email "" displayName "member" "active" db with
          | (db, Err e) => (db, Err (ErrWrap "saml jit provision: " e ""))
          | (db, Ok userID) =>
              match UpdateUserSCIM libUUID libHeap (cfRole cfg) "" (pvLink env) now userID nameID "active" db with
              | (db, Err e) => (db, Err (ErrWrap "saml link external id: " e ""))
              | (db, Ok _) => (db, GetUserByID libUUID (cfRole cfg) "" (pvUser env) userID db)
              end
          end
      end
  end.

Definition spBaseURL : string := if baseURL =s? "" then "http://localhost:8081" else baseURL.

Definition buildSAMLSP (p : SAMLProvider) : res SP :=
  match parseURL spBaseURL with
  | Some e => Err (ErrWrap "parse sp base url: " e "")
  | None =>
      match parseMetadata (smMetadataXML p) with
      | Err e => Err (ErrWrap "parse idp metadata: " e "")
      | Ok _ =>
          match pemDecode (smKeyPEM p) with
          | None => Err (ErrNew "invalid sp key pem")
          | Some keyDER =>
              match parseECPrivateKey keyDER with
              | Err e => Err (ErrWrap "parse sp key: " e "")
              | Ok key =>
                  match pemDecode (smCertPEM p) with
                  | None => Err (ErrNew "invalid sp cert pem")
                  | Some certDER =>
                      match parseCertificate certDER with
                      | Err e => Err (ErrWrap "parse sp cert: " e "")
                      | Ok cert => Ok (newSP spBaseURL key cert (smMetadataXML p))
                      end
                  end
              end
          end
      end
  end.

Definition SAMLMetadata (c : dbc S) (orgID : string) (rows : list SAMLProvider) : Response :=
  if orgID =s? "" then writeError StatusBadRequest "org_id required"
  else match GetSAMLProvider libUUID (cfRole cfg) c orgID rows with
  | Err _ => writeError StatusNotFound "SAML provider not configured"
  | Ok provider =>
      match buildSAMLSP provider with
      | Err _ => writeError StatusInternalServerError "internal error"
      | Ok sp =>
          match spMetadata sp with
          | Err _ => writeError StatusInternalServerError "failed to generate metadata"
          | Ok xml => mkResponse StatusOK [("Content-Type", "application/samlmetadata+xml")] (JStr xml)
          end
      end
  end.

(** *** The assertion consumer *)

Definition replayKey (id : string) : string := "saml:assertion:" +:+ id.

(** The client sends whole seconds with EX, anything else with PX in whole
    milliseconds, at least one. *)
Definition redisTTL (ttl : Z) : Z :=
  if (ttl mod Second =? 0)%Z then ttl else Z.max Millisecond (ttl / Millisecond * Millisecond)%Z.

(** [attrMap[k]] of the [map[string]string]. *)
Definition attr_map (doc : json) (k : string) : string :=
  match unmarshal_map (Some doc) with Ok m => get_string m k | Err _ => "" end.

(** One attribute: the address and the name so far. *)
Definition read_attr (doc : json) (cur : string * string) (attr : string * list string) : string * string :=
  match attr with
  | (name, values) =>
      if (name =s? "email") || (name =s? attr_map doc "email")
      then (match values with v :: _ => v | [] => cur.1 end, cur.2)
      else if (name =s? "displayName") || (name =s? "name") || (name =s? attr_map doc "displayName")
      then (cur.1, match values with v :: _ => v | [] => cur.2 end)
      else cur
  end.

Definition samlCookie (token : string) : string * string :=
  ("Set-Cookie", "og_session=" +:+ (token +:+ ("; Path=/; Max-Age=28800; HttpOnly" +:+
     ((if nodeEnv =s? "production" then "; Secure" else "") +:+ "; SameSite=Lax")))).

Definition dashboardBase : string := if dashboardURL =s? "" then "http://localhost:4200" else dashboardURL.

Definition samlSession (now : Z) (orgID userID : string) : res string :=
  SignToken cfg now orgID userID ("saml-" +:+ itoa now) (8 * Hour).

Definition StatusFound : Z := 302.

Definition signedInSAML (token : string) : Response :=
  mkResponse StatusFound [samlCookie token; ("Location", dashboardBase +:+ "/dashboard")] JNull.

(** The part behind the replay check; [None] is a panic. *)
Definition acceptAssertion (now : Z) (env : ProvisionEnv) (orgID : string) (provider : SAMLProvider) (a : Assertion) (w : World)
  : World * option Response :=
  match asNameID a with
  | None => (w, None)
  | Some nameID =>
      if nameID =s? "" then (w, Some (writeError StatusUnauthorized "SAML assertion missing NameID"))
      else
        let '(email, displayName) := fold_left (read_attr (smAttributeMap provider)) (asAttributes a) (nameID, "") in
        match ProvisionOrGetSAMLUser now env orgID nameID email displayName (iDB w) with
        | (db, Err _) => (with_db db w, Some (writeError StatusInternalServerError "user provisioning failed"))
        | (db, Ok user) =>
            match samlSession now orgID (uID user) with
            | Err _ => (with_db db w, Some (writeError StatusInternalServerError "token issuance failed"))
            | Ok token => (with_db db w, Some (signedInSAML token))
            end
        end
  end.

(** Every instant the handler asks for is [now]. *)
Definition SAMLAssertionConsumerService (now : Z) (c : dbc S) (env : ProvisionEnv) (rows : list SAMLProvider)
  (r : IamRequest) (w : World) : World * option Response :=
  match hrForm r with
  | Err _ => (w, Some (writeError StatusBadRequest "bad request"))
  | Ok form =>
      let orgID := form_get "RelayState" form in
      if orgID =s? "" then (w, Some (writeError StatusBadRequest "missing RelayState (org_id)"))
      else match GetSAMLProvider libUUID (cfRole cfg) c orgID rows with
      | Err _ => (w, Some (writeError StatusUnauthorized "SAML provider not configured or disabled"))
      | Ok provider =>
          if negb (smEnabled provider)
          then (w, Some (writeError StatusUnauthorized "SAML provider not configured or disabled"))
          else match buildSAMLSP provider with
          | Err _ => (w, Some (writeError StatusInternalServerError "internal error"))
          | Ok sp =>
              match parseResponse now sp form with
              | Err _ => (w, Some (writeError StatusUnauthorized "invalid SAML response"))
              | Ok a =>
                  let ttl := (asNotOnOrAfter a - now)%Z in
                  if (ttl <=? 0)%Z then (w, Some (writeError StatusUnauthorized "expired assertion"))
                  else match rsetnx now (iRedis w) (replayKey (asID a)) (RText "1") (redisTTL ttl) with
                  | (r', Ok true) => acceptAssertion now env orgID provider a (with_redis r' w)
                  | (r', _) => (with_redis r' w, Some (writeError StatusUnauthorized "assertion replay detected"))
                  end
              end
          end
      end
  end.

(** *** Administration of the providers *)

Record ProviderBody := mkProviderBody {
  pbEntityID : string; pbSSOURL : string; pbSLOURL : string; pbMetadataXML : string; pbAttributeMap : raw }.

Definition upd_provider (k : string) (b : ProviderBody) (j : json) : res ProviderBody :=
  if key_is "entity_id" k then
    v <-? dec_string (pbEntityID b) j; Ok (mkProviderBody v (pbSSOURL b) (pbSLOURL b) (pbMetadataXML b) (pbAttributeMap b))
  else if key_is "sso_url" k then
    v <-? dec_string (pbSSOURL b) j; Ok (mkProviderBody (pbEntityID b) v (pbSLOURL b) (pbMetadataXML b) (pbAttributeMap b))
  else if key_is "slo_url" k then
    v <-? dec_string (pbSLOURL b) j; Ok (mkProviderBody (pbEntityID b) (pbSSOURL b) v (pbMetadataXML b) (pbAttributeMap b))
  else if key_is "metadata_xml" k then
    v <-? dec_string (pbMetadataXML b) j; Ok (mkProviderBody (pbEntityID b) (pbSSOURL b) (pbSLOURL b) v (pbAttributeMap b))
  else if key_is "attribute_map" k then
    v <-? dec_raw (pbAttributeMap b) j; Ok (mkProviderBody (pbEntityID b) (pbSSOURL b) (pbSLOURL b) (pbMetadataXML b) v)
  else Ok b.

Definition bindingPOST : string := "urn:oasis:names:tc:SAML:2.0:bindings:HTTP-POST".

(** The location of the first POST service of the first descriptor. *)
Definition metadataSSO (m : IdpMetadata) : string :=
  match imSSO m with
  | services :: _ => match find (fun s => s.1 =s? bindingPOST) services with Some s => s.2 | None => "" end
  | [] => ""
  end.

Definition providerDoc (p : SAMLProvider) : json :=
  JObj ([("id", JStr (smID p)); ("org_id", JStr (smOrgID p)); ("entity_id", JStr (smEntityID p)); ("sso_url", JStr (smSSOURL p))] ++
        opt_str "slo_url" (smSLOURL p) ++
        [("metadata_xml", JStr (smMetadataXML p)); ("sp_cert_pem", JStr (smCertPEM p)); ("sp_key_pem", JStr "");
         ("name_id_format", JStr (smNameIDFormat p)); ("attribute_map", smAttributeMap p); ("enabled", JBool (smEnabled p));
         ("created_at", timeDoc (smCreatedAt p)); ("updated_at", timeDoc (smUpdatedAt p))]).

(** [keyPair] is what [generateSPKeyPair] draws: certificate and key. *)
Definition CreateSAMLProvider (c : dbc S) (orgs : list string) (id : string) (now : Z) (keyPair : res (string * string))
  (ctx : Context) (body : raw) (rows : list SAMLProvider) : list SAMLProvider * Response :=
  let orgID := GetOrgID ctx in
  if orgID =s? "" then (rows, writeError StatusUnauthorized "unauthorized")
  else match decode_body upd_provider (mkProviderBody "" "" "" "" None) body with
  | Err _ => (rows, writeError StatusBadRequest "invalid request body")
  | Ok b =>
      if pbMetadataXML b =s? "" then (rows, writeError StatusBadRequest "metadata_xml required")
      else match parseMetadata (pbMetadataXML b) with
      | Err e => (rows, writeError StatusBadRequest ("invalid metadata_xml: " +:+ error_text e))
      | Ok m =>
          let entityID := if pbEntityID b =s? "" then imEntityID m else pbEntityID b in
          let ssoURL := if pbSSOURL b =s? "" then metadataSSO m else pbSSOURL b in
          match keyPair with
          | Err _ => (rows, writeError StatusInternalServerError "failed to generate SP credentials")
          | Ok (certPEM, keyPEM) =>
              match upsertSAML c orgs id now orgID
                      (mkSAMLProvider "" orgID entityID ssoURL (pbSLOURL b) (pbMetadataXML b) certPEM keyPEM
                         "urn:oasis:names:tc:SAML:1.1:nameid-format:emailAddress" (default (JObj []) (pbAttributeMap b)) true 0 0) rows with
              | (rows, Err _) => (rows, writeError StatusInternalServerError "failed to save SAML provider")
              | (rows, Ok saved) => (rows, writeJSON [] StatusCreated (providerDoc saved))
              end
          end
      end
  end.

Definition HandleListSAMLProviders (c : dbc S) (ctx : Context) (rows : list SAMLProvider) : Response :=
  if GetOrgID ctx =s? "" then writeError StatusUnauthorized "unauthorized"
  else match ListSAMLProviders libUUID (cfRole cfg) c (GetOrgID ctx) rows with
  | Err _ => writeError StatusInternalServerError "failed to list SAML providers"
  | Ok l => writeJSON [] StatusOK (JArr (map providerDoc l))
  end.
End saml.

(** ** Properties *)

Section properties.
Context {S R B : Type} `{PgSession S} `{RedisLaws R} `{Breaker B} `{Jwt} `{Aead} `{IamLibLaws} `{SamlLib}.
Variable cfg : Config.
Variables baseURL dashboardURL nodeEnv : string.

#[local] Notation World := (@Iam R B).
#[local] Notation ACS := (SAMLAssertionConsumerService cfg baseURL dashboardURL nodeEnv).

(** *** A user is found, linked or made *)

(** The rows with an id take the external id, where the connection sees them. *)
Definition link_rows (now : Z) (id ext : string) (vis : string -> bool) (l : list User) : list User :=
  map (fun u => if (uID u =s? id) && vis (uOrgID u) then set_scim ext "active" now u else u) l.

Lemma UpdateUserSCIM_rows (c : dbc S) now id ext db db' r :
  UpdateUserSCIM libUUID libHeap (cfRole cfg) "" c now id ext "active" db = (db', r) ->
  (db' = db /\ exists e, r = Err e) \/
  exists id' vis, libUUID id = Some id' /\ db' = set_users (link_rows now id' ext vis (users db)) db.
Proof.
  intros [?|(u & Hs & _)]%execOrg_cases; [by left|]. right. destruct u. unfold uuid_arg in Hs.
  destruct (libUUID id) as [id'|]; [|done]. exists id'. cbn [res_bind] in Hs. apply res_bind_ok in Hs as ([d l] & Hs & Hd). injection Hd as <-.
  apply res_bind_ok in Hs as (vis & _ & Hs). exists vis. split; [done|]. cbv zeta in Hs.
  destruct (forallb _ _); [|done]. by injection Hs as <- _.
Qed.

Lemma GetUserByExternalID_row (c : dbc S) orgID ext db u :
  GetUserByExternalID libUUID libHeap (cfRole cfg) "" c orgID ext db = Ok u ->
  exists row, In row (users db) /\ libUUID orgID = Some (uOrgID row) /\ uSCIMExternalID row = Some ext /\ u = public_row row.
Proof.
  intros Hu%notFound_ok%readOrg_ok. unfold uuid_arg in Hu. destruct (libUUID orgID) as [org|]; [|done]. simpl in Hu.
  apply res_bind_ok in Hu as (vis & _ & Hu). apply res_bind_ok in Hu as (row & Hr & [= <-]).
  apply one_row_ok in Hr as (l & Hl). exists row.
  assert (Hi : In row (libHeap (List.filter (fun u => (uOrgID u =s? org) && vis (uOrgID u) &&
            match uSCIMExternalID u with Some x => x =s? ext | None => false end) (users db)))) by (rewrite Hl; by left).
  apply (Permutation_in _ (heap_perm _)), filter_In in Hi as [Hi Hc]. destruct (uSCIMExternalID row); [|by rewrite andb_false_r in Hc].
  bool_to_prop. by subst.
Qed.

(** Where the user of a sign-in comes from, and what happens to the table. *)
Inductive federated (now : Z) (orgID nameID email : string) (db db' : DB) (user : User) : Prop :=
| fed_known row :
    In row (users db) -> libUUID orgID = Some (uOrgID row) -> uSCIMExternalID row = Some nameID ->
    uID user = uID row -> db' = db -> federated now orgID nameID email db db' user
| fed_linked row :
    In row (users db) -> email <> "" -> uEmail row = email -> uID user = uID row ->
    (db' = db \/
     exists id vis, libUUID (uID row) = Some id /\ db' = set_users (link_rows now id nameID vis (users db)) db) ->
    federated now orgID nameID email db db' user
| fed_new id org name vis :
    libUUID orgID = Some org -> libUUID (uID user) = Some id ->
    db' = set_users (link_rows now id nameID vis
            (users db ++ [mkUser (uID user) org email "" name "member" "active" 0 None false "" None 1 now now])) db ->
    federated now orgID nameID email db db' user.

Lemma ProvisionOrGetSAMLUser_ok now (env : ProvisionEnv (S := S)) orgID nameID email name db db' user :
  ProvisionOrGetSAMLUser cfg now env orgID nameID email name db = (db', Ok user) ->
  federated now orgID nameID email db db' user.
Proof.
  unfold ProvisionOrGetSAMLUser. destruct (GetUserByExternalID _ _ _ _ _ _ _ _) as [u|e] eqn:Ex.
  { intros [= <- <-]. apply GetUserByExternalID_row in Ex as (row & Hi & Ho & Hx & ->). by eapply fed_known. }
  destruct (email =s? "") eqn:Ee; [|destruct (GetUserByEmail _ _ _ _ _) as [u|e'] eqn:Em].
  2: { intros [= <- <-]. apply GetUserByEmail_ok in Em as (row & Hi & He & ->).
       apply (fed_linked _ _ _ _ _ _ _ row); [done|by apply String.eqb_neq|done|done|].
       destruct (UpdateUserSCIM _ _ _ _ _ _ _ _ _ _) as [db1 x] eqn:Eu.
       apply UpdateUserSCIM_rows in Eu as [(-> & _)|Hl]; [by left|by right]. }
  all: set (name' := if name =s? "" then _ else _); destruct (CreateUser _ _ _ _ _ _ _ _ _ _ _ _) as [db1 [uid|err]] eqn:Ec; [|done].
  all: apply execOrg_ok in Ec; unfold insert_user, uuid_arg in Ec; destruct (libUUID orgID) as [org|] eqn:Ho; [|done];
    simpl in Ec; apply res_bind_ok in Ec as (vis & _ & Ec); repeat (case_match; [done|]); injection Ec as <- <-.
  all: destruct (UpdateUserSCIM _ _ _ _ _ _ _ _ _ _) as [db2 [u|err]] eqn:Eu; [|done]; intros [= <- Hg];
    apply notFound_ok, readOrg_ok in Hg; unfold uuid_arg in Hg;
    apply UpdateUserSCIM_rows in Eu as [(_ & err & [=])|(id & vis' & Hid & Hu)]; rewrite Hid in Hg; simpl in Hg;
    apply res_bind_ok in Hg as (v & _ & Hg); apply res_bind_ok in Hg as (u' & _ & [= <-]);
    apply (fed_new _ _ _ _ _ _ _ id org name' vis'); [exact Ho|exact Hid|exact Hu].
Qed.

(** *** A sign-in *)

Lemma ACS_found now c env rows r (w w' : World) resp :
  ACS now c env rows r w = (w', Some resp) -> status resp = StatusFound ->
  exists form p sp a r', hrForm r = Ok form /\ form_get "RelayState" form <> "" /\
    GetSAMLProvider libUUID (cfRole cfg) c (form_get "RelayState" form) rows = Ok p /\ smEnabled p = true /\
    buildSAMLSP baseURL p = Ok sp /\ parseResponse now sp form = Ok a /\ (now < asNotOnOrAfter a)%Z /\
    rsetnx now (iRedis w) (replayKey (asID a)) (RText "1") (redisTTL (asNotOnOrAfter a - now)) = (r', Ok true) /\
    acceptAssertion cfg dashboardURL nodeEnv now env (form_get "RelayState" form) p a (with_redis r' w) = (w', Some resp).
Proof.
  unfold SAMLAssertionConsumerService. intros Ha Hs. destruct (hrForm r) as [form|]; [|by injection Ha as <- <-].
  cbv zeta in Ha. destruct (form_get "RelayState" form =s? "") eqn:Eo; [by injection Ha as <- <-|].
  destruct (GetSAMLProvider _ _ _ _ _) as [p|] eqn:Eg; [|by injection Ha as <- <-].
  destruct (smEnabled p) eqn:Een; [|by injection Ha as <- <-]. simpl in Ha.
  destruct (buildSAMLSP _ _) as [sp|] eqn:Eb; [|by injection Ha as <- <-].
  destruct (parseResponse now sp form) as [a|] eqn:Ep; [|by injection Ha as <- <-].
  destruct (asNotOnOrAfter a - now <=? 0)%Z eqn:El; [by injection Ha as <- <-|].
  destruct (rsetnx _ _ _ _ _) as [r' [[]|]] eqn:En; [|by injection Ha as <- <-|by injection Ha as <- <-].
  exists form, p, sp, a, r'. split_and!; try done; [by apply String.eqb_neq|apply Z.leb_gt in El; lia].
Qed.

Lemma accept_found now env orgID p a (w w' : World) resp :
  acceptAssertion cfg dashboardURL nodeEnv now env orgID p a w = (w', Some resp) -> status resp = StatusFound ->
  exists nameID user token, asNameID a = Some nameID /\ nameID <> "" /\
    federated now orgID nameID (fold_left (read_attr (smAttributeMap p)) (asAttributes a) (nameID, "")).1 (iDB w) (iDB w') user /\
    samlSession cfg now orgID (uID user) = Ok token /\ resp = signedInSAML dashboardURL nodeEnv token /\ iRedis w' = iRedis w.
Proof.
  unfold acceptAssertion. intros Ha Hs. destruct (asNameID a) as [nameID|]; [|done].
  destruct (nameID =s? "") eqn:En; [by injection Ha as <- <-|].
  destruct (fold_left _ _ _) as [email name] eqn:Ef.
  destruct (ProvisionOrGetSAMLUser _ _ _ _ _ _ _ _) as [db [user|]] eqn:Ep; [|by injection Ha as <- <-].
  destruct (samlSession _ _ _ _) as [token|] eqn:Et; [|by injection Ha as <- <-]. injection Ha as <- <-.
  exists nameID, user, token. split; [done|]. split; [by apply String.eqb_neq|]. split; [|done].
  rewrite Ef. by eapply ProvisionOrGetSAMLUser_ok.
Qed.

Lemma GetSAMLProvider_row (c : dbc S) orgID rows p :
  GetSAMLProvider libUUID (cfRole cfg) c orgID rows = Ok p -> In p rows /\ libUUID orgID = Some (smOrgID p).
Proof.
  unfold GetSAMLProvider. destruct (execTable orgID c _ rows).2 as [p'|] eqn:E; [|done]. intros [= ->].
  unfold execTable in E. destruct (fAcquire _); [done|]. destruct (SetSessionVar _ _ _) as [sess [|]]; [done|].
  destruct (autocommit _ _ _) as [rows' x] eqn:Ea. simpl in E. subst x. apply autocommit_ok in Ea.
  unfold uuid_arg in Ea. destruct (libUUID orgID) as [org|]; [|done]. simpl in Ea.
  apply res_bind_ok in Ea as (row & Hr & [= _ <-]). apply one_row_ok in Hr as (l & Hl).
  assert (Hi : In row (List.filter (fun r => (smOrgID r =s? org) && saml_visible (cfRole cfg) sess (smOrgID r)) rows))
    by (rewrite Hl; by left).
  apply filter_In in Hi as [Hi Hc]. bool_to_prop. by subst.
Qed.

(** Signing in with SAML.  A browser is signed in, with a redirect to the
    dashboard, only if the RelayState of its form names a tenant with an
    enabled provider, the library accepts the form's response for the service
    provider built from that very row, the assertion has not expired and its id
    was not in Redis.  The token of the cookie is signed for that tenant and a
    user who is either one of the tenant with the NameID as external id, or
    one of any tenant with the address the assertion carries, or a new active
    member of the tenant; nothing but the table of users changes, so the token
    has no session. *)
Theorem saml_sign_in_sound now c env rows r (w w' : World) resp :
  ACS now c env rows r w = (w', Some resp) -> status resp = StatusFound ->
  exists form p sp a nameID user token, hrForm r = Ok form /\
    In p rows /\ libUUID (form_get "RelayState" form) = Some (smOrgID p) /\ smEnabled p = true /\
    buildSAMLSP baseURL p = Ok sp /\ parseResponse now sp form = Ok a /\ (now < asNotOnOrAfter a)%Z /\
    rview now (iRedis w) (replayKey (asID a)) = None /\ asNameID a = Some nameID /\ nameID <> "" /\
    federated now (form_get "RelayState" form) nameID
      (fold_left (read_attr (smAttributeMap p)) (asAttributes a) (nameID, "")).1 (iDB w) (iDB w') user /\
    Sign (NewStandardClaims now (form_get "RelayState" form) (uID user) ("saml-" +:+ itoa now) (8 * Hour)) (cfKeyring cfg) = Ok token /\
    resp = signedInSAML dashboardURL nodeEnv token.
Proof.
  intros Ha Hs. destruct (ACS_found _ _ _ _ _ _ _ _ Ha Hs) as (form & p & sp & a & r' & Hf & _ & Hp & He & Hb & Hr & Hn & Hx & Hacc).
  destruct (accept_found _ _ _ _ _ _ _ _ Hacc Hs) as (nameID & user & token & Hi & Hne & Hfed & Ht & -> & _).
  apply GetSAMLProvider_row in Hp as [Hin Ho]. apply rsetnx_ok in Hx as [Hx _]. symmetry in Hx. apply bool_decide_eq_true in Hx.
  exists form, p, sp, a, nameID, user, token. by split_and!.
Qed.

(** *** One assertion, one sign-in *)

(** The assertion a request presents, when the library accepts it for a
    provider of the table. *)
Definition presented (now : Z) (c : dbc S) (rows : list SAMLProvider) (r : IamRequest) : option Assertion :=
  match hrForm r with
  | Err _ => None
  | Ok form =>
      match GetSAMLProvider libUUID (cfRole cfg) c (form_get "RelayState" form) rows with
      | Err _ => None
      | Ok p => match buildSAMLSP baseURL p with
                | Err _ => None
                | Ok sp => match parseResponse now sp form with Ok a => Some a | Err _ => None end
                end
      end
  end.

(** Between two instants: requests to the assertion consumer, of any tenant
    and with whatever provider rows, and anything else that leaves the replay
    keys alone. *)
Inductive saml_run : Z -> World -> Z -> World -> Prop :=
| run_end t w : saml_run t w t w
| run_acs t w t1 c env rows r w1 resp t2 w2 :
    (t <= t1)%Z -> ACS t1 c env rows r w = (w1, resp) -> saml_run t1 w1 t2 w2 -> saml_run t w t2 w2
| run_other t w t1 w1 t2 w2 :
    (t <= t1)%Z ->
    (forall t' id, (t1 <= t')%Z -> rview t' (iRedis w1) (replayKey id) = rview t' (iRedis w) (replayKey id)) ->
    saml_run t1 w1 t2 w2 -> saml_run t w t2 w2.

Lemma redisTTL_bound ttl : (0 < ttl)%Z -> (ttl - Millisecond < redisTTL ttl)%Z.
Proof.
  intros Ht. unfold redisTTL. destruct (ttl mod Second =? 0)%Z; unfold Millisecond; [lia|].
  pose proof (Z.mod_pos_bound ttl 1000000). pose proof (Z.div_mod ttl 1000000). lia.
Qed.

Lemma acceptAssertion_redis now env orgID p a (w w' : World) resp :
  acceptAssertion cfg dashboardURL nodeEnv now env orgID p a w = (w', resp) -> iRedis w' = iRedis w.
Proof.
  unfold acceptAssertion. destruct (asNameID a); [|by intros [= <- _]]. destruct (_ =s? ""); [by intros [= <- _]|].
  destruct (fold_left _ _ _). destruct (ProvisionOrGetSAMLUser _ _ _ _ _ _ _ _) as [db [user|]]; [|by intros [= <- _]].
  destruct (samlSession _ _ _ _); by intros [= <- _].
Qed.

(** A request to the assertion consumer does nothing to Redis but one SETNX. *)
Lemma ACS_redis now c env rows r (w w' : World) resp :
  ACS now c env rows r w = (w', resp) ->
  iRedis w' = iRedis w \/
  exists id ttl x, rsetnx now (iRedis w) (replayKey id) (RText "1") ttl = (iRedis w', x).
Proof.
  unfold SAMLAssertionConsumerService. intros Ha. cbv zeta in Ha.
  repeat (case_match; try (by injection Ha as <- _; left)).
  all: right; do 3 eexists.
  all: try (apply acceptAssertion_redis in Ha; rewrite Ha; eassumption).
  all: injection Ha as <- _; eassumption.
Qed.

Lemma saml_run_keeps t w t2 w2 key id :
  saml_run t w t2 w2 -> key = replayKey id ->
  (t <= t2)%Z /\ forall t', (t2 <= t')%Z -> rview t' (iRedis w) key <> None -> rview t' (iRedis w2) key = rview t' (iRedis w) key.
Proof.
  intros Hr Hk. induction Hr as [t w|t w t1 c env rows r w1 resp t2 w2 Ht Ha _ [Ht2 IH]|t w t1 w1 t2 w2 Ht Hs _ [Ht2 IH]].
  - split; [lia|done].
  - split; [lia|]. intros t' Ht' Hv.
    assert (Hsame : rview t' (iRedis w1) key = rview t' (iRedis w) key).
    { apply ACS_redis in Ha as [->|(id' & ttl & x & Hx)]; [done|]. destruct (decide (key = replayKey id')) as [->|Hne].
      - eapply rsetnx_present; [exact Hx|lia|]. intros Hn. destruct (rview t' (iRedis w) (replayKey id')) eqn:E; [|done].
        eapply rview_mono in E; [|instantiate (1 := t1); lia]. congruence.
      - eapply rsetnx_frame; [exact Hx|lia|done]. }
    rewrite <- Hsame in Hv |- *. by apply IH.
  - split; [lia|]. intros t' Ht' Hv. assert (Hsame : rview t' (iRedis w1) key = rview t' (iRedis w) key) by (subst key; apply Hs; lia).
    rewrite <- Hsame in Hv |- *. by apply IH.
Qed.

(** C9: An assertion signs in once.  After a sign-in, whatever requests of
    whatever tenants come in between, and whatever fails in them, a request
    that presents an assertion of the same id is answered with an error and
    leaves the database as it is, up to the last millisecond before the
    first assertion expires: Redis counts in whole milliseconds. *)
Theorem saml_assertion_single_use t1 c1 env1 rows1 r1 a1 (w0 w1 w2 : World) resp1 t2 c2 env2 rows2 r2 a2 :
  ACS t1 c1 env1 rows1 r1 w0 = (w1, Some resp1) -> status resp1 = StatusFound ->
  presented t1 c1 rows1 r1 = Some a1 ->
  saml_run t1 w1 t2 w2 ->
  presented t2 c2 rows2 r2 = Some a2 -> asID a2 = asID a1 ->
  (t2 <= asNotOnOrAfter a1 - Millisecond)%Z ->
  exists w3 msg st, ACS t2 c2 env2 rows2 r2 w2 = (w3, Some (writeError st msg)) /\
    (st = StatusUnauthorized \/ st = StatusBadRequest) /\ iDB w3 = iDB w2.
Proof.
  intros Ha Hs Hp1 Hrun Hp2 Hid Ht.
  destruct (ACS_found _ _ _ _ _ _ _ _ Ha Hs) as (form & p & sp & a & r' & Hf & _ & Hg & _ & Hb & Hr & Hn & Hx & Hacc).
  unfold presented in Hp1. rewrite Hf, Hg, Hb, Hr in Hp1. injection Hp1 as ->.
  apply acceptAssertion_redis in Hacc. simpl in Hacc. apply rsetnx_ok in Hx as [_ Hx].
  destruct (saml_run_keeps _ _ _ _ _ (asID a1) Hrun eq_refl) as [Ht2 Hkeep].
  assert (Hkey : rview t2 (iRedis w2) (replayKey (asID a1)) <> None).
  { assert (Hv : rview t2 (iRedis w1) (replayKey (asID a1)) = Some (RStr (RText "1"))).
    { rewrite Hacc, Hx by lia. unfold view_set. rewrite decide_True by done. rewrite (proj2 (Z.ltb_lt _ _)); [done|].
      pose proof (redisTTL_bound (asNotOnOrAfter a1 - t1)). lia. }
    rewrite Hkeep, Hv; [done|lia|by rewrite Hv]. }
  unfold presented in Hp2. unfold SAMLAssertionConsumerService. destruct (hrForm r2) as [form2|]; [|done]. cbv zeta.
  destruct (form_get "RelayState" form2 =s? ""); [by do 3 eexists; split; [done|]; split; [right|]|].
  destruct (GetSAMLProvider _ _ _ _ rows2) as [p2|]; [|done]. destruct (buildSAMLSP _ p2) as [sp2|]; [|done].
  destruct (parseResponse t2 sp2 form2) as [a|]; [|done]. injection Hp2 as ->.
  destruct (negb (smEnabled p2)); [by do 3 eexists; split; [done|]; split; [left|]|].
  destruct (_ <=? 0)%Z; [by do 3 eexists; split; [done|]; split; [left|]|]. rewrite Hid.
  destruct (rsetnx t2 _ _ _ _) as [r3 [b|]] eqn:En; [|by do 3 eexists; split; [done|]; split; [left|]].
  apply rsetnx_ok in En as [-> _]. rewrite bool_decide_false by done. by do 3 eexists; split; [done|]; split; [left|].
Qed.
End properties.

(** ** Examples *)

Module SamlExamples.
Export MiniIam.

(** Tokens one can read: tenant and user.  Every text is a URL, metadata that
    are not empty, a key; an IdP vouches with its metadata and the name of one
    of three assertions. *)
#[local] Instance readable : Jwt :=
  {| jwtDecode s := Err (ErrNew "token is malformed");
     jwtCheck now s t secret := Some (ErrNew "signature is invalid");
     jwtSigned alg secret s := False;
     jwtSign t secret := Ok (clOrgID (tkClaims t) +:+ ("|" +:+ clUserID (tkClaims t))) |}.

Definition assertion (id : string) (nameID : option string) (email : string) : Assertion :=
  mkAssertion id (now + 300 * Second) nameID [("email", [email])].

#[local] Instance toy : SamlLib :=
  {| SP := string; Key := string; Cert := string;
     parseURL s := None;
     parseMetadata s := if s =s? "" then Err (ErrNew "EOF") else Ok (mkIdpMetadata "idp" []);
     pemDecode s := Some s;
     parseECPrivateKey s := Ok s;
     parseCertificate s := Ok s;
     newSP base key cert meta := meta;
     spMetadata sp := Ok "<EntityDescriptor/>";
     parseResponse t sp form :=
       let s := form_get "SAMLResponse" form in
       if s =s? (sp +:+ " alice") then Ok (assertion "a1" (Some "alice@idp") "a@x")
       else if s =s? (sp +:+ " carol") then Ok (assertion "a2" (Some "carol@idp") "c@x")
       else if s =s? (sp +:+ " nobody") then Ok (assertion "a3" None "n@x")
       else Err (ErrNew "Authentication failed") |}.

(** The provider of tenant "p", where alice of tenant "o" has no account. *)
Definition provider : SAMLProvider :=
  mkSAMLProvider "s1" "p" "idp" "https://idp" "" "M" "C" "K" "" (JObj []) true 0 0.
Definition dbS (u : User) : DB := mkDB ["o"; "p"] [u] [] [] [] [] [].
Definition wS (u : User) : @Iam MiniRedis MiniBreaker := mkIam (dbS u) emptyRedis closedBreaker.
Definition envS : ProvisionEnv := mkProvisionEnv call call call call "u2" call call.
Definition post (who : string) : IamRequest :=
  mkIamRequest None "" "" (Ok [("RelayState", "p"); ("SAMLResponse", "M " +:+ who)]) "".
Definition acs (c : Config) (who : string) (w : @Iam MiniRedis MiniBreaker) :=
  SAMLAssertionConsumerService c "" "" "production" now call envS [provider] (post who) w.

(** The IdP of one tenant signs in, for that tenant, a user of another, whose
    account gets its external id. *)
Lemma foreign_user_signs_in :
  (acs cfg "alice" (wS alice)).2 = Some (signedInSAML "" "production" "p|u") /\
  users (iDB (acs cfg "alice" (wS alice)).1) = [set_scim "alice@idp" "active" now alice] /\ uOrgID alice = "o".
Proof. split; [|split]; vm_compute; reflexivity. Qed.

(** An account that was taken away is active again. *)
Lemma deprovisioned_user_returns :
  let gone := set_status "deprovisioned" 0 alice in
  (acs cfg "alice" (wS gone)).2 = Some (signedInSAML "" "production" "p|u") /\
  map uStatus (users (iDB (acs cfg "alice" (wS gone)).1)) = ["active"].
Proof. split; vm_compute; reflexivity. Qed.

Lemma missing_name_panics : (acs cfg "nobody" (wS alice)).2 = None.
Proof. vm_compute. reflexivity. Qed.

Lemma saml_sign_in_sound_witness :
  exists user token,
    federated now "p" "carol@idp" "c@x" (dbS alice) (iDB (acs cfg "carol" (wS alice)).1) user /\
    Sign (NewStandardClaims now "p" (uID user) ("saml-" +:+ itoa now) (8 * Hour)) (cfKeyring cfg) = Ok token.
Proof.
  destruct (saml_sign_in_sound cfg "" "" "production" now call envS [provider] (post "carol") (wS alice)
              (acs cfg "carol" (wS alice)).1 (signedInSAML "" "production" "p|u2"))
    as (form & p & sp & a & nameID & user & token & Hf & [<-|[]] & _ & _ & Hb & Hr & _ & _ & Hn & _ & Hfed & Ht & _);
    [vm_compute; reflexivity|reflexivity|].
  exists user, token. injection Hf as <-. injection Hb as <-. injection Hr as <-. injection Hn as <-.
  split; [exact Hfed|exact Ht].
Defined.

(** A second use, after somebody else signed in. *)
Definition signed : @Iam MiniRedis MiniBreaker := (acs cfg "alice" (wS alice)).1.

Lemma saml_assertion_single_use_witness :
  exists w3 msg st, SAMLAssertionConsumerService cfg "" "" "production" (now + Second) call envS [provider] (post "alice")
      (acs cfg "carol" signed).1 = (w3, Some (writeError st msg)) /\
    (st = StatusUnauthorized \/ st = StatusBadRequest) /\ iDB w3 = iDB (acs cfg "carol" signed).1.
Proof.
  apply (saml_assertion_single_use cfg "" "" "production" now call envS [provider] (post "alice") (assertion "a1" (Some "alice@idp") "a@x")
           (wS alice) signed (acs cfg "carol" signed).1 (signedInSAML "" "production" "p|u") (now + Second) call envS [provider] (post "alice")
           (assertion "a1" (Some "alice@idp") "a@x")); try reflexivity.
  - eapply (run_acs cfg "" "" "production" now signed now call envS [provider] (post "carol")); [reflexivity|apply surjective_pairing|].
    eapply (run_other cfg "" "" "production" now (acs cfg "carol" signed).1 (now + Second) (acs cfg "carol" signed).1); [discriminate|done|].
    apply run_end.
  - discriminate.
Defined.
End SamlExamples.
