(* ===== verification/IamWebAuthn.v ===== *)
(** Passkeys: the WebAuthn ceremonies of services/iam/pkg/service/mfa.go, the
    table of pkg/repository/repository_webauthn.go and migration 010, and the
    handlers of pkg/handlers/handler.go.  The ceremonies' cryptography is the
    go-webauthn library's, an interface ([WebAuthnLib]); what the code adds is
    where the session of a ceremony lives and which credentials it hands to
    the library. *)

From S2P Require Import Prelude GoStrings Json Redis Pg Resilience Hex Crypto Http Outbox Middleware.
From S2P Require Import IamStore IamService IamTokens IamLogin IamHandlers IamAdmin.
From stdpp Require Import gmap.
From Stdlib Require Import Ascii.

(** ** Data *)

(** A row of webauthn_credentials: its owner and the [WebAuthnCredential]. *)
Record WebAuthnCredential := mkWebAuthnCredential {
  wcOrgID : string; wcUserID : string; wcCredentialID : string; wcPublicKey : string; wcAttestationType : string; wcSignCount : Z }.

(** The library's credential, as far as the code reads or fills it. *)
Record LibCredential := mkLibCredential { lcID : string; lcPublicKey : string; lcAttestationType : string; lcSignCount : Z }.

Record WebAuthnUser := mkWebAuthnUser { wuID : string; wuDisplayName : string; wuName : string; wuCredentials : list LibCredential }.

Class WebAuthnLib := {
  WSession : Type;                                  (* webauthn.SessionData *)
  WResponse : Type;                                 (* the authenticator's answer in a request *)
  sessionDoc : WSession -> json;
  sessionParse : raw -> WSession;                   (* json.Unmarshal, errors ignored *)
  libBeginRegistration : string -> WebAuthnUser -> res (json * WSession);        (* challenge drawn, user *)
  libFinishRegistration : Z -> WebAuthnUser -> WSession -> WResponse -> res LibCredential;
  libBeginLogin : string -> WebAuthnUser -> res (json * WSession);
  libFinishLogin : Z -> WebAuthnUser -> WSession -> WResponse -> res LibCredential;
}.

(** [int32] and [uint32] conversions. *)
Definition int32 (z : Z) : Z := ((z + 2 ^ 31) mod 2 ^ 32 - 2 ^ 31)%Z.
Definition uint32 (z : Z) : Z := (z mod 2 ^ 32)%Z.

(** The bytes [hex.DecodeString] returns, beside an error or without. *)
Fixpoint hexBytes (s : string) : string :=
  match s with
  | String a (String b s') =>
      match hexValue a, hexValue b with
      | Some h, Some l => String (ascii_of_nat (16 * h + l)) (hexBytes s')
      | _, _ => ""
      end
  | _ => ""
  end.

(** ** The table *)

Section store.
Context {S : Type} `{PgSession S}.
Variable pgUUID : uuidCast.
Variable ro : role.

(** [org_id = current_setting('app.org_id')::UUID]: without a tenant an error,
    not an empty table. *)
Definition cred_visible (sess : S) : res (string -> bool) :=
  match ro with
  | RoleBypass => Ok (fun _ => true)
  | RoleSubject =>
      match pgUUID (current_setting sess app_org) with
      | Some o => Ok (fun org => org =s? o)
      | None => Err ErrUUID
      end
  end.

Definition same_credential (user id : string) (c : WebAuthnCredential) : bool :=
  (wcUserID c =s? user) && (wcCredentialID c =s? id).

Definition set_sign_count (n : Z) (c : WebAuthnCredential) : WebAuthnCredential :=
  mkWebAuthnCredential (wcOrgID c) (wcUserID c) (wcCredentialID c) (wcPublicKey c) (wcAttestationType c) n.

(** [INSERT ... ON CONFLICT (user_id, credential_id) DO UPDATE]; the owner of
    [cred] is the tenant and the user given. *)
Definition SaveWebAuthnCredential (c : dbc S) (db : DB) (orgID userID : string) (cred : WebAuthnCredential)
  (rows : list WebAuthnCredential) : list WebAuthnCredential * res unit :=
  execTable orgID c (fun sess rows =>
    org <-? uuid_arg pgUUID orgID;
    user <-? uuid_arg pgUUID userID;
    vis <-? cred_visible sess;
    if negb (vis org) then Err ErrRLS
    else match find (same_credential user (wcCredentialID cred)) rows with
    | Some row =>
        if negb (vis (wcOrgID row)) then Err ErrRLS
        else Ok (map (fun r => if same_credential user (wcCredentialID cred) r then set_sign_count (wcSignCount cred) r else r) rows, tt)
    | None =>
        if negb (existsb (String.eqb org) (orgs db) && existsb (fun u => uID u =s? user) (users db)) then Err ErrForeignKey
        else Ok (rows ++ [mkWebAuthnCredential org user (wcCredentialID cred) (wcPublicKey cred) (wcAttestationType cred)
                            (wcSignCount cred)], tt)
    end) rows.

(** The loop does not consult [rows.Err()]. *)
Definition ListWebAuthnCredentials (ctxOrg : string) (c : dbc S) (userID : string) (rows : list WebAuthnCredential)
  : res (list WebAuthnCredential) :=
  (execTable ctxOrg c (fun sess rows =>
     user <-? uuid_arg pgUUID userID;
     Ok (rows, delivered c (vis <-? cred_visible sess;
           Ok (List.filter (fun r => (wcUserID r =s? user) && vis (wcOrgID r)) rows)))) rows).2.
End store.

(** ** The ceremonies *)

Section service.
Context {S R B : Type} `{PgSession S} `{Redis R} `{Breaker B} `{Jwt} `{Aead} `{IamLib} `{WebAuthnLib}.
Variable cfg : Config.
Variable timeDoc : Z -> json.
(** [s.webauthn != nil]. *)
Variable configured : bool.

#[local] Notation World := (@Iam R B).

Definition ErrNotConfigured : goerr := ErrNew "webauthn not configured".

Definition regKey (userID sessionID : string) : string := "webauthn:reg:" +:+ (userID +:+ (":" +:+ sessionID)).
Definition waLoginKey (userID sessionID : string) : string := "webauthn:login:" +:+ (userID +:+ (":" +:+ sessionID)).
Definition ceremonyTTL : Z := (5 * Minute)%Z.

Definition plainUser (userID : string) (user : User) : WebAuthnUser :=
  mkWebAuthnUser userID (uDisplayName user) (uEmail user) [].

(** [seed] and [sessionID] are drawn: the library's challenge and the uuid. *)
Definition BeginWebAuthnRegistration (ctxOrg : string) (now : Z) (c : dbc S) (seed sessionID userID : string) (w : World)
  : World * res (string * json) :=
  if negb configured then (w, Err ErrNotConfigured)
  else match GetUserByID libUUID (cfRole cfg) ctxOrg c userID (iDB w) with
  | Err e => (w, Err e)
  | Ok user =>
      match libBeginRegistration seed (plainUser userID user) with
      | Err e => (w, Err e)
      | Ok (options, session) =>
          match rset now (iRedis w) (regKey userID sessionID) (RDoc (sessionDoc session)) ceremonyTTL with
          | (r, Some e) => (with_redis r w, Err e)
          | (r, None) => (with_redis r w, Ok (sessionID, options))
          end
      end
  end.

Record RegistrationEnv := mkRegistrationEnv { rgUser : dbc S; rgSave : dbc S }.

Definition storedCredential (cred : LibCredential) : WebAuthnCredential :=
  mkWebAuthnCredential "" "" (hexEnc (lcID cred)) (hexEnc (lcPublicKey cred)) (lcAttestationType cred) (int32 (lcSignCount cred)).

(** The last command deletes a key that no one sets. *)
Definition FinishWebAuthnRegistration (ctxOrg : string) (now : Z) (env : RegistrationEnv) (orgID userID sessionID : string)
  (response : WResponse) (rows : list WebAuthnCredential) (w : World) : World * list WebAuthnCredential * option goerr :=
  if negb configured then (w, rows, Some ErrNotConfigured)
  else match redisGetDel now (regKey userID sessionID) (iRedis w) with
  | (r, Err _) => (with_redis r w, rows, Some (ErrNew "registration session expired or invalid"))
  | (r, Ok v) =>
      let w := with_redis r w in
      match GetUserByID libUUID (cfRole cfg) ctxOrg (rgUser env) userID (iDB w) with
      | Err e => (w, rows, Some e)
      | Ok user =>
          match libFinishRegistration now (plainUser userID user) (sessionParse (rval_raw v)) response with
          | Err e => (w, rows, Some e)
          | Ok credential =>
              match SaveWebAuthnCredential libUUID (cfRole cfg) (rgSave env) (iDB w) orgID userID
                      (storedCredential credential) rows with
              | (rows, Err e) => (w, rows, Some e)
              | (rows, Ok _) => (with_redis (rdel now (iRedis w) ["webauthn:reg:" +:+ userID]).1 w, rows, None)
              end
          end
      end
  end.

(** The credentials handed to the library; failing to list them is no error. *)
Definition loginCredential (c : WebAuthnCredential) : LibCredential :=
  mkLibCredential (hexBytes (wcCredentialID c)) (hexBytes (wcPublicKey c)) "" (uint32 (wcSignCount c)).

Definition loginUser (ctxOrg : string) (c : dbc S) (user : User) (rows : list WebAuthnCredential) : WebAuthnUser :=
  let credentials := match ListWebAuthnCredentials libUUID (cfRole cfg) ctxOrg c (uID user) rows with Ok l => l | Err _ => [] end in
  mkWebAuthnUser (uID user) (uDisplayName user) (uEmail user) (map loginCredential credentials).

Record PasskeyEnv := mkPasskeyEnv { pkUser : dbc S; pkList : dbc S; pkFamily : string; pkIssue : IssueEnv (S := S) }.

Definition BeginWebAuthnLogin (ctxOrg : string) (now : Z) (env : PasskeyEnv) (seed sessionID email : string)
  (rows : list WebAuthnCredential) (w : World) : World * res (string * json) :=
  if negb configured then (w, Err ErrNotConfigured)
  else match GetUserByEmail libUUID libHeap (pkUser env) email (iDB w) with
  | Err e => (w, Err e)
  | Ok user =>
      match libBeginLogin seed (loginUser ctxOrg (pkList env) user rows) with
      | Err e => (w, Err e)
      | Ok (options, session) =>
          match rset now (iRedis w) (waLoginKey (uID user) sessionID) (RDoc (sessionDoc session)) ceremonyTTL with
          | (r, Some e) => (with_redis r w, Err e)
          | (r, None) => (with_redis r w, Ok (sessionID, options))
          end
      end
  end.

(** Nothing of the credential the library returns is used. *)
Definition FinishWebAuthnLogin (ctxOrg : string) (now : Z) (env : PasskeyEnv) (email sessionID userAgent ip : string)
  (response : WResponse) (rows : list WebAuthnCredential) (w : World) : World * res (User * TokenResponse) :=
  if negb configured then (w, Err ErrNotConfigured)
  else match GetUserByEmail libUUID libHeap (pkUser env) email (iDB w) with
  | Err e => (w, Err e)
  | Ok user =>
      match redisGetDel now (waLoginKey (uID user) sessionID) (iRedis w) with
      | (r, Err _) => (with_redis r w, Err (ErrNew "login session expired or invalid"))
      | (r, Ok v) =>
          let w := with_redis r w in
          match libFinishLogin now (loginUser ctxOrg (pkList env) user rows) (sessionParse (rval_raw v)) response with
          | Err e => (w, Err e)
          | Ok _ =>
              let w := with_redis (rdel now (iRedis w) ["webauthn:login:" +:+ uID user]).1 w in
              match IssueTokens cfg now (pkIssue env)
                      (mkIssueTokensRequest (uOrgID user) (uID user) userAgent ip (pkFamily env)) (iDB w) with
              | (db, Err e) => (with_db db w, Err e)
              | (db, Ok t) => (with_db db w, Ok (user, t))
              end
          end
      end
  end.

(** *** Handlers *)

Definition beginDoc (x : string * json) : json := JObj [("session_id", JStr x.1); ("options", x.2)].

Definition WebAuthnBeginRegistration (now : Z) (ctx : Context) (c : dbc S) (seed sessionID : string) (w : World) : World * Response :=
  match BeginWebAuthnRegistration (rlsOrgID ctx) now c seed sessionID (GetUserID ctx) w with
  | (w, Err e) => (w, writeError StatusInternalServerError (error_text e))
  | (w, Ok x) => (w, writeJSON [] StatusOK (beginDoc x))
  end.

Definition WebAuthnFinishRegistration (now : Z) (ctx : Context) (env : RegistrationEnv) (query : list (string * string))
  (response : WResponse) (rows : list WebAuthnCredential) (w : World) : World * list WebAuthnCredential * Response :=
  let sessionID := form_get "session_id" query in
  if sessionID =s? "" then (w, rows, writeError StatusBadRequest "missing session_id")
  else match FinishWebAuthnRegistration (rlsOrgID ctx) now env (GetOrgID ctx) (GetUserID ctx) sessionID response rows w with
  | (w, rows, Some e) => (w, rows, writeError StatusBadRequest (error_text e))
  | (w, rows, None) => (w, rows, writeJSON [] StatusOK (JObj [("status", JStr "registered")]))
  end.

(** These two carry no tenant. *)
Definition WebAuthnBeginLogin (now : Z) (env : PasskeyEnv) (seed sessionID : string) (r : IamRequest)
  (rows : list WebAuthnCredential) (w : World) : World * Response :=
  match decodeStrings ["email"] (hrBody r) with
  | Err _ => (w, invalidBody)
  | Ok b =>
      match BeginWebAuthnLogin "" now env seed sessionID (field "email" b) rows w with
      | (w, Err e) => (w, writeError StatusInternalServerError (error_text e))
      | (w, Ok x) => (w, writeJSON [] StatusOK (beginDoc x))
      end
  end.

Definition WebAuthnFinishLogin (now : Z) (env : PasskeyEnv) (query : list (string * string)) (r : IamRequest)
  (response : WResponse) (rows : list WebAuthnCredential) (w : World) : World * Response :=
  let sessionID := form_get "session_id" query in
  if sessionID =s? "" then (w, writeError StatusBadRequest "missing session_id")
  else match FinishWebAuthnLogin "" now env (form_get "email" query) sessionID (hrUserAgent r) (hrRemoteAddr r) response rows w with
  | (w, Err e) => (w, writeError StatusUnauthorized (error_text e))
  | (w, Ok (u, t)) => (w, signedIn timeDoc true u t)
  end.
End service.

(** ** Properties *)

Section properties.
Context {S R B : Type} `{PgSessionLaws S} `{RedisLaws R} `{Breaker B} `{Jwt} `{Aead} `{IamLibLaws} `{WebAuthnLib}.
Variable cfg : Config.

#[local] Notation World := (@Iam R B).

Lemma redisGetDel_ok now key (r r' : R) v :
  redisGetDel now key r = (r', Ok v) ->
  rview now r key = Some (RStr v) /\ forall t, (now <= t)%Z -> rview t r' key = None.
Proof.
  unfold redisGetDel. destruct (rgetdel now r key) as [r1 [[v1|]|]] eqn:Eg; try done. intros [= -> ->].
  apply rgetdel_ok in Eg as [Hv Hdel]. split; [done|]. intros t Ht. rewrite Hdel by done. unfold view_del.
  by rewrite decide_True by set_solver.
Qed.

(** Deleting keys brings none back. *)
Lemma rdel_absent now ks (r : R) key :
  (forall t, (now <= t)%Z -> rview t r key = None) -> forall t, (now <= t)%Z -> rview t (rdel now r ks).1 key = None.
Proof.
  intros Hn t Ht. destruct (rdel now r ks) as [r' e] eqn:Ed. apply rdel_applied in Ed as [Hd|[_ Hd]]; unfold view_of in Hd;
    cbn [fst]; rewrite Hd by done; [|by apply Hn]. unfold view_del. destruct (decide _); [done|by apply Hn].
Qed.

Lemma list_rows ctxOrg (c : dbc S) userID rows l :
  ListWebAuthnCredentials libUUID (cfRole cfg) ctxOrg c userID rows = Ok l ->
  forall k, In k l -> In k rows /\ libUUID userID = Some (wcUserID k).
Proof.
  unfold ListWebAuthnCredentials, execTable. destruct (fAcquire _); [done|]. destruct (SetSessionVar _ _ _) as [sess [|]]; [done|].
  destruct (autocommit _ _ _) as [rows' x] eqn:Ea. simpl. intros ->. apply autocommit_ok in Ea. unfold uuid_arg in Ea.
  destruct (libUUID userID) as [user|]; [|done]. cbn [res_bind] in Ea. injection Ea as _ <-.
  intros k Hk. unfold delivered in Hk. destruct (cred_visible _ _) as [vis|]; [|done]. cbn [res_bind] in Hk.
  assert (Hi : In k (List.filter (fun r => (wcUserID r =s? user) && vis (wcOrgID r)) rows)).
  { revert Hk. destruct (fRows _) as [[n e]|]; simpl; [|done].
    rewrite <- (firstn_skipn n (List.filter _ rows)) at 2. intros Hk. apply in_or_app. by left. }
  apply filter_In in Hi as [Hi Hc]. bool_to_prop. split; [done|by subst].
Qed.

(** C22: Signing in with a passkey.  A login succeeds only for a user with the
    address, with a ceremony of that user and session id that is still in
    Redis, and an answer the library accepts for that ceremony and for
    credentials all registered for the user.  It gives an access token, a
    session and a refresh token of that user and tenant.  From then on the
    ceremony signs the user in no more, as long as nothing else writes its
    key. *)
Theorem passkey_login_sound configured ctxOrg now (env : PasskeyEnv (S := S)) email sid ua ip response rows (w w' : World) u t :
  FinishWebAuthnLogin cfg configured ctxOrg now env email sid ua ip response rows w = (w', Ok (u, t)) ->
  (exists row v c, In row (users (iDB w)) /\ uEmail row = email /\ u = login_row email row /\
     rview now (iRedis w) (waLoginKey (uID u) sid) = Some (RStr v) /\
     libFinishLogin now (loginUser cfg ctxOrg (pkList env) u rows) (sessionParse (rval_raw v)) response = Ok c /\
     (forall k, In k (wuCredentials (loginUser cfg ctxOrg (pkList env) u rows)) ->
        exists r, In r rows /\ libUUID (uID u) = Some (wcUserID r) /\ k = loginCredential r) /\
     issued cfg now (pkIssue env) (mkIssueTokensRequest (uOrgID u) (uID u) ua ip (pkFamily env)) t (iDB w) (iDB w')) /\
  forall t' (w2 w3 : World) conf2 ctxOrg2 (env2 : PasskeyEnv (S := S)) email2 ua2 ip2 response2 rows2 u2 t2, (now <= t')%Z ->
    rview t' (iRedis w2) (waLoginKey (uID u) sid) = rview t' (iRedis w') (waLoginKey (uID u) sid) ->
    FinishWebAuthnLogin cfg conf2 ctxOrg2 t' env2 email2 sid ua2 ip2 response2 rows2 w2 = (w3, Ok (u2, t2)) -> uID u2 <> uID u.
Proof.
  unfold FinishWebAuthnLogin at 1. destruct configured; [|done]. cbn [negb].
  destruct (GetUserByEmail _ _ _ _ _) as [user|] eqn:Eu; [|done].
  destruct (redisGetDel _ _ _) as [r [v|]] eqn:Eg; [|done]. apply redisGetDel_ok in Eg as [Hv Hgone].
  cbv zeta. destruct (libFinishLogin _ _ _ _) as [c|] eqn:El; [|done].
  destruct (IssueTokens _ _ _ _ _) as [db [tok|]] eqn:Ei; [|done]. intros [= <- <- <-].
  apply IssueTokens_ok in Ei. apply GetUserByEmail_ok in Eu as (row & Hi & He & Hu). split.
  - exists row, v, c. split; [done|]. split; [done|]. split; [done|]. split; [done|]. split; [done|]. split; [|done].
    unfold loginUser. cbn [wuCredentials]. intros k Hk. apply in_map_iff in Hk as (r0 & <- & Hr).
    destruct (ListWebAuthnCredentials _ _ _ _ _ _) as [l|] eqn:Es; [|done]. apply (list_rows _ _ _ _ _ Es) in Hr as [? ?]. eauto.
  - intros t' w2 w3 conf2 ctxOrg2 env2 email2 ua2 ip2 response2 rows2 u2 t2 Ht Hsame. cbn [iRedis with_db with_redis] in Hsame.
    rewrite (rdel_absent now _ r _ Hgone t' Ht) in Hsame. unfold FinishWebAuthnLogin. destruct (negb conf2); [done|].
    destruct (GetUserByEmail _ _ _ _ _) as [user2|]; [|done].
    destruct (redisGetDel _ _ _) as [r2 [v2|]] eqn:Eg2; [|done]. apply redisGetDel_ok in Eg2 as [Hv2 _].
    cbv zeta. destruct (libFinishLogin t' _ _ _); [|done]. destruct (IssueTokens _ _ _ _ _) as [db2 [tok2|]]; [|done].
    intros [= _ <- _] Heq. rewrite Heq in Hv2. congruence.
Qed.

Lemma hexDec_Bytes n : forall h s, String.length h <= n -> hexDec h = Some s -> hexBytes h = s.
Proof.
  induction n as [|n IH]; intros [|a [|b h]] s Hl Hd; simpl in *; try lia; try congruence.
  destruct (hexValue a), (hexValue b); try done. destruct (hexDec h) as [t|] eqn:E; [|done]. injection Hd as <-.
  f_equal. apply IH; [lia|done].
Qed.

Lemma hexBytes_Enc s : hexBytes (hexEnc s) = s.
Proof. eapply hexDec_Bytes; [done|apply hexDec_Enc]. Qed.

(** The counter of 32 bits survives the signed column. *)
Lemma uint32_int32 z : (0 <= z < 2 ^ 32)%Z -> uint32 (int32 z) = z.
Proof.
  intros Hz. unfold uint32, int32. rewrite Zminus_mod_idemp_l. replace (z + 2 ^ 31 - 2 ^ 31)%Z with z by lia.
  by apply Z.mod_small.
Qed.

Lemma int32_range z : (- 2 ^ 31 <= int32 z < 2 ^ 31)%Z.
Proof. unfold int32. pose proof (Z.mod_pos_bound (z + 2 ^ 31) (2 ^ 32)). lia. Qed.

(** What a save leaves in the table. *)
Lemma Save_row (c : dbc S) db orgID userID cred rows rows' :
  SaveWebAuthnCredential libUUID (cfRole cfg) c db orgID userID cred rows = (rows', Ok tt) ->
  exists user r, libUUID userID = Some user /\ In r rows' /\ wcUserID r = user /\ wcCredentialID r = wcCredentialID cred /\
    wcSignCount r = wcSignCount cred /\
    ((forall x, In x rows -> same_credential user (wcCredentialID cred) x = false) -> wcPublicKey r = wcPublicKey cred).
Proof.
  unfold SaveWebAuthnCredential, execTable. destruct (fAcquire _); [done|]. destruct (SetSessionVar _ _ _) as [sess [|]]; [done|].
  intros Ha%autocommit_ok. unfold uuid_arg in Ha. destruct (libUUID orgID) as [org|]; [|done].
  destruct (libUUID userID) as [user|]; [|done]. cbn [res_bind] in Ha. apply res_bind_ok in Ha as (vis & _ & Ha).
  destruct (negb (vis org)); [done|]. destruct (find _ rows) as [row|] eqn:Ef.
  - destruct (negb _); [done|]. injection Ha as <-. apply find_some in Ef as [Hin Hsame].
    exists user, (set_sign_count (wcSignCount cred) row). split; [done|]. split.
    { apply in_map_iff. exists row. by rewrite Hsame. }
    pose proof Hsame as Hs. unfold same_credential in Hs. bool_to_prop. split_and!; try done.
    intros Hn. by rewrite (Hn _ Hin) in Hsame.
  - destruct (negb _); [done|]. injection Ha as <-. eexists user, _. split; [done|]. split; [apply in_or_app; right; by left|]. done.
Qed.

Lemma list_bypass ctxOrg (c : dbc S) userID user rows :
  cfRole cfg = RoleBypass -> healthy c -> libUUID userID = Some user ->
  ListWebAuthnCredentials libUUID (cfRole cfg) ctxOrg c userID rows = Ok (List.filter (fun r => (wcUserID r =s? user) && true) rows).
Proof.
  intros Hro Hc Hu. unfold ListWebAuthnCredentials, execTable, SetSessionVar, autocommit, delivered. rewrite !Hc.
  unfold uuid_arg, cred_visible. by rewrite Hu, Hro.
Qed.

(** What is registered is what later logins offer.  After a registration
    that succeeded, every ceremony of the user, on the table it left and with
    healthy calls, hands the library the credential that the library had
    accepted: its id, its public key unless the user had registered the id
    before, and the whole range of its counter, through hexadecimal and the
    signed 32-bit column. *)
Theorem registered_passkey_offered configured ctxOrg now (env : RegistrationEnv (S := S)) orgID userID sid response rows (w w' : World) rows'
  ctxOrg2 (c2 : dbc S) user2 :
  FinishWebAuthnRegistration cfg configured ctxOrg now env orgID userID sid response rows w = (w', rows', None) ->
  cfRole cfg = RoleBypass -> healthy c2 -> libUUID (uID user2) = libUUID userID ->
  exists v user cred pk, rview now (iRedis w) (regKey userID sid) = Some (RStr v) /\
    libFinishRegistration now (plainUser userID user) (sessionParse (rval_raw v)) response = Ok cred /\
    ((0 <= lcSignCount cred < 2 ^ 32)%Z ->
     In (mkLibCredential (lcID cred) pk "" (lcSignCount cred)) (wuCredentials (loginUser cfg ctxOrg2 c2 user2 rows'))) /\
    ((forall r, In r rows -> libUUID userID = Some (wcUserID r) -> wcCredentialID r <> hexEnc (lcID cred)) -> pk = lcPublicKey cred).
Proof.
  intros Hf Hro Hc Hid. unfold FinishWebAuthnRegistration in Hf. destruct (negb configured); [done|].
  destruct (redisGetDel _ _ _) as [r [v|]] eqn:Eg; [|done]. apply redisGetDel_ok in Eg as [Hv _]. cbv zeta in Hf.
  destruct (GetUserByID _ _ _ _ _ _) as [user|]; [|done]. destruct (libFinishRegistration _ _ _ _) as [cred|] eqn:El; [|done].
  destruct (SaveWebAuthnCredential _ _ _ _ _ _ _ _) as [rows1 [[]|]] eqn:Es; [|done]. injection Hf as <- <-.
  apply Save_row in Es as (uid & row & Hu & Hin & Hru & Hrc & Hrs & Hrp). simpl in Hrc, Hrs, Hrp.
  exists v, user, cred, (hexBytes (wcPublicKey row)). split; [done|]. split; [done|]. split.
  - intros Hz. unfold loginUser. cbn [wuCredentials]. rewrite Hu in Hid. rewrite (list_bypass _ _ _ uid) by done.
    apply in_map_iff. exists row. split; [|apply filter_In; split; [done|by rewrite Hru, String.eqb_refl]].
    unfold loginCredential. by rewrite Hrc, Hrs, hexBytes_Enc, uint32_int32.
  - intros Hn. rewrite Hrp; [apply hexBytes_Enc|]. intros x Hx. unfold same_credential.
    destruct (String.eqb_spec (wcUserID x) uid) as [Hxu|]; [|done]. apply String.eqb_neq, Hn; [done|by rewrite Hu, Hxu].
Qed.

(** Under a role that row-level security applies to, the list of credentials
    fails while the query runs, which is ignored: no ceremony offers any. *)
Lemma rls_offers_nothing ctxOrg (c : dbc S) user rows :
  cfRole cfg = RoleSubject -> pooled (dConn c) -> wuCredentials (loginUser cfg ctxOrg c user rows) = [].
Proof.
  intros Hro Hp. unfold loginUser. cbn [wuCredentials].
  destruct (ListWebAuthnCredentials _ _ _ _ _ _) as [l|] eqn:El; [|done].
  unfold ListWebAuthnCredentials, execTable in El. destruct (fAcquire _); [done|].
  unfold SetSessionVar in El. destruct (fSet _); [done|]. destruct (autocommit _ _ _) as [rows' x] eqn:Ea. simpl in El. subst x.
  apply autocommit_ok in Ea. unfold uuid_arg, cred_visible in Ea. rewrite Hro in Ea. destruct (libUUID (uID user)); [|done].
  cbn [res_bind] in Ea. destruct (pooled_unset _ (pooled_set (dConn c) ctxOrg None Hp)) as [_ E]. simpl in E.
  rewrite E, uuid_empty in Ea. by injection Ea as _ <-.
Qed.
End properties.

(** ** Examples *)

Module WebAuthnExamples.
Export MiniIam.

(** Sessions are challenges; an authenticator answers with the challenge, its
    id, its key and its counter. *)
#[local] Instance toy : WebAuthnLib :=
  {| WSession := string;
     WResponse := string * LibCredential;
     sessionDoc s := JStr s;
     sessionParse d := match d with Some (JStr s) => s | _ => "" end;
     libBeginRegistration seed u := Ok (JStr seed, seed);
     libFinishRegistration t u s r := if r.1 =s? s then Ok r.2 else Err (ErrNew "Error validating challenge");
     libBeginLogin seed u := match wuCredentials u with [] => Err (ErrNew "Found no credentials for user") | _ => Ok (JStr seed, seed) end;
     libFinishLogin t u s r :=
       if (r.1 =s? s) && existsb (fun c => (lcID c =s? lcID r.2) && (lcPublicKey c =s? lcPublicKey r.2)) (wuCredentials u)
       then Ok r.2 else Err (ErrNew "Unable to find the credential for the returned credential ID") |}.

Definition key1 : LibCredential := mkLibCredential "K1" "PUB" "none" 4294967295.
Definition answer (challenge : string) (k : LibCredential) : WResponse := (challenge, k).
Definition wW (u : User) : @Iam MiniRedis MiniBreaker := mkIam (mkDB ["o"] [u] [] [] [] [] []) emptyRedis closedBreaker.
Definition regEnv : RegistrationEnv (S := MiniPg) := mkRegistrationEnv call call.
Definition keyEnv : PasskeyEnv (S := MiniPg) := mkPasskeyEnv call call "f" (issue "0123").

Definition begun (u : User) := (BeginWebAuthnRegistration cfg true "o" now call "ch1" "s1" "u" (wW u)).1.
Definition registered (u : User) := FinishWebAuthnRegistration cfg true "o" now regEnv "o" "u" "s1" (answer "ch1" key1) [] (begun u).
Definition ceremony (u : User) := (BeginWebAuthnLogin cfg true "" now keyEnv "ch2" "s2" "a@x" (registered u).1.2 (registered u).1.1).1.
Definition signs (u : User) :=
  FinishWebAuthnLogin cfg true "" now keyEnv "a@x" "s2" "ua" "203.0.113.7:1" (answer "ch2" key1) (registered u).1.2 (ceremony u).

Lemma registered_passkey_offered_witness :
  In (mkLibCredential "K1" "PUB" "" 4294967295) (wuCredentials (loginUser cfg "" call alice (registered alice).1.2)).
Proof.
  destruct (registered_passkey_offered cfg true "o" now regEnv "o" "u" "s1" (answer "ch1" key1) [] (begun alice) (registered alice).1.1
              (registered alice).1.2 "" call alice) as (v & user & cred & pk & _ & Hl & Hin & Hpk); [reflexivity..|].
  assert (cred = key1) as ->.
  { change ((if "ch1" =s? sessionParse (rval_raw v) then Ok key1 else Err (ErrNew "Error validating challenge")) = Ok cred) in Hl.
    destruct (_ =s? _); [by injection Hl|discriminate Hl]. }
  rewrite Hpk in Hin by (intros r []). apply Hin. split; [discriminate|reflexivity].
Defined.

Lemma passkey_login_sound_witness :
  exists row t, In row (users (iDB (ceremony alice))) /\ uEmail row = "a@x" /\
    issued cfg now (issue "0123") (mkIssueTokensRequest "o" "u" "ua" "203.0.113.7:1" "f") t (iDB (ceremony alice)) (iDB (signs alice).1).
Proof.
  destruct (signs alice) as [w' [[u t]|]] eqn:Es; [|vm_compute in Es; discriminate Es].
  destruct (passkey_login_sound cfg true "" now keyEnv "a@x" "s2" "ua" "203.0.113.7:1" (answer "ch2" key1) (registered alice).1.2
              (ceremony alice) w' u t Es) as [(row & v & c & Hi & He & Hu & _ & _ & _ & Hs) _].
  exists row, t. split; [exact Hi|]. split; [exact He|]. assert (Hr : row = alice) by (destruct Hi as [<-|[]]; reflexivity).
  subst row. rewrite Hu in Hs. exact Hs.
Defined.

(** The login looks neither at the lock nor at the status of the account. *)
Lemma locked_user_signs_in :
  is_ok (signs (mkUser "u" "o" "a@x" "" "Alice" "user" "initializing" 50 (Some (now + Hour)%Z) false "" None 1 0 0)).2 = true.
Proof. vm_compute. reflexivity. Qed.

End WebAuthnExamples.
