(* ===== verification/AuthPool.v ===== *)
(** The pool of goroutines that hash and compare passwords:
    services/iam/pkg/service/auth_pool.go, as a step relation over its
    workers, its callers, its two queues and its shut-down.  [IamService]
    models a call of the pool by its outcome alone; [pool_answers] justifies
    that for every interleaving. *)

From S2P Require Import Prelude IamStore IamService.
From stdpp Require Import gmap relations.

(** ** Jobs and callers *)

(** [bcryptCompareJob] and [bcryptGenerateJob]; the result channel is named
    after the call. *)
Inductive job :=
| jobCompare (password hash : string)
| jobGenerate (salt password : string).

Inductive outcome :=
| outCompare (r : option goerr)
| outGenerate (r : res string).

Inductive kind := Compares | Generates.

#[global] Instance kind_eq_dec : EqDecision kind.
Proof. solve_decision. Defined.

Definition kindOf (j : job) : kind := match j with jobCompare _ _ => Compares | jobGenerate _ _ => Generates end.

(** Where a call of [Compare] or [Generate] stands: at its first select, at
    its second, or out of the function. *)
Inductive caller :=
| Sending
| Waiting
| Returned (o : outcome)
| Panicked.

(** How a context ended, and its [ctx.Err()]. *)
Inductive ctxEnd := Canceled | DeadlineExceeded.

Definition ctxErr (e : ctxEnd) : goerr :=
  match e with Canceled => ErrNew "context canceled" | DeadlineExceeded => ErrNew "context deadline exceeded" end.

(** What a call returns when its own context has ended. *)
Definition cancelled (j : job) (e : ctxEnd) : outcome :=
  match j with jobCompare _ _ => outCompare (Some (ctxErr e)) | jobGenerate _ _ => outGenerate (Err (ctxErr e)) end.

(** ** The pool *)

Record Pool := mkPool {
  plCompare : list (nat * job);         (* compareJobs *)
  plGenerate : list (nat * job);        (* generateJobs *)
  plClosed : bool;                      (* Shutdown closed both *)
  plDone : bool;                        (* the context of the workers ended *)
  plIdle : nat;                         (* workers at their select *)
  plBusy : list (nat * job);            (* workers in bcrypt *)
  plResults : gmap nat outcome;         (* the buffers of the result channels *)
  plCallers : gmap nat (job * caller);
  plEnded : gmap nat ctxEnd;            (* the callers' contexts that ended *)
}.

Definition queueCap : nat := 100.

Definition NewAuthWorkerPool (workers : nat) : Pool := mkPool [] [] false false workers [] ∅ ∅ ∅.

Definition queue (k : kind) (p : Pool) : list (nat * job) :=
  match k with Compares => plCompare p | Generates => plGenerate p end.

Definition set_queue (k : kind) (q : list (nat * job)) (p : Pool) : Pool :=
  mkPool (if decide (k = Compares) then q else plCompare p) (if decide (k = Generates) then q else plGenerate p)
    (plClosed p) (plDone p) (plIdle p) (plBusy p) (plResults p) (plCallers p) (plEnded p).
Definition set_workers (idle : nat) (busy : list (nat * job)) (p : Pool) : Pool :=
  mkPool (plCompare p) (plGenerate p) (plClosed p) (plDone p) idle busy (plResults p) (plCallers p)
    (plEnded p).
Definition set_results (rs : gmap nat outcome) (p : Pool) : Pool :=
  mkPool (plCompare p) (plGenerate p) (plClosed p) (plDone p) (plIdle p) (plBusy p) rs (plCallers p)
    (plEnded p).
Definition set_caller (id : nat) (j : job) (c : caller) (p : Pool) : Pool :=
  mkPool (plCompare p) (plGenerate p) (plClosed p) (plDone p) (plIdle p) (plBusy p) (plResults p)
    (<[id := (j, c)]> (plCallers p)) (plEnded p).
Definition set_ends (closed done : bool) (p : Pool) : Pool :=
  mkPool (plCompare p) (plGenerate p) closed done (plIdle p) (plBusy p) (plResults p) (plCallers p)
    (plEnded p).
Definition set_ended (es : gmap nat ctxEnd) (p : Pool) : Pool :=
  mkPool (plCompare p) (plGenerate p) (plClosed p) (plDone p) (plIdle p) (plBusy p) (plResults p) (plCallers p) es.

Section steps.
Context `{IamLib}.

Definition runJob (j : job) : outcome :=
  match j with
  | jobCompare password hash => outCompare (bcryptCompare hash password)
  | jobGenerate salt password => outGenerate (bcryptGenerate salt password)
  end.

(** What [worker] does at its select while both its channels are open, and
    after: it takes a job, or sends a result, which blocks while the buffer is
    full. *)
Inductive work_step : Pool -> Pool -> Prop :=
| ws_take k x q p :
    0 < plIdle p -> queue k p = x :: q ->
    work_step p (set_queue k q (set_workers (plIdle p - 1) (x :: plBusy p) p))
| ws_finish id j b1 b2 p :
    plBusy p = b1 ++ (id, j) :: b2 -> plResults p !! id = None ->
    work_step p (set_results (<[id := runJob j]> (plResults p)) (set_workers (S (plIdle p)) (b1 ++ b2) p)).

Inductive pool_step : Pool -> Pool -> Prop :=
| ps_work p p' : work_step p p' -> pool_step p p'
| ps_exit_done p :                                (* <-ctx.Done() *)
    plDone p = true -> 0 < plIdle p -> pool_step p (set_workers (plIdle p - 1) (plBusy p) p)
| ps_exit_closed k p :                            (* a closed and empty channel: !ok *)
    plClosed p = true -> queue k p = [] -> 0 < plIdle p ->
    pool_step p (set_workers (plIdle p - 1) (plBusy p) p)
| ps_call id j p : plCallers p !! id = None -> pool_step p (set_caller id j Sending p)
| ps_send id j p :
    plCallers p !! id = Some (j, Sending) -> plClosed p = false -> length (queue (kindOf j) p) < queueCap ->
    pool_step p (set_caller id j Waiting (set_queue (kindOf j) (queue (kindOf j) p ++ [(id, j)]) p))
| ps_send_closed id j p :                         (* send on closed channel *)
    plCallers p !! id = Some (j, Sending) -> plClosed p = true -> pool_step p (set_caller id j Panicked p)
| ps_receive id j o p :
    plCallers p !! id = Some (j, Waiting) -> plResults p !! id = Some o ->
    pool_step p (set_caller id j (Returned o) (set_results (delete id (plResults p)) p))
| ps_ended id e p :                               (* the context of a caller ends *)
    plEnded p !! id = None -> pool_step p (set_ended (<[id := e]> (plEnded p)) p)
| ps_cancel id j c e p :                          (* <-ctx.Done() of the caller *)
    plCallers p !! id = Some (j, c) -> c = Sending \/ c = Waiting -> plEnded p !! id = Some e ->
    pool_step p (set_caller id j (Returned (cancelled j e)) p)
| ps_done p : pool_step p (set_ends (plClosed p) true p)
| ps_Shutdown p : plClosed p = false -> pool_step p (set_ends true (plDone p) p).

Definition reachable (workers : nat) (p : Pool) : Prop := rtc pool_step (NewAuthWorkerPool workers) p.
End steps.

(** ** Invariants *)

Section invariants.
Context `{IamLib}.

(** The jobs that wait for a worker or are with one. *)
Definition pending (p : Pool) : list (nat * job) := plCompare p ++ plGenerate p ++ plBusy p.

Record pool_ok (p : Pool) : Prop := {
  ok_pending : forall id j, In (id, j) (pending p) ->
    plResults p !! id = None /\ exists c, plCallers p !! id = Some (j, c) /\ c <> Sending;
  ok_nodup : NoDup (map fst (pending p));
  ok_results : forall id o, plResults p !! id = Some o ->
    exists j c, plCallers p !! id = Some (j, c) /\ c <> Sending /\ o = runJob j;
  ok_waiting : forall id j, plCallers p !! id = Some (j, Waiting) ->
    In (id, j) (pending p) \/ plResults p !! id = Some (runJob j);
  ok_returned : forall id j o, plCallers p !! id = Some (j, Returned o) ->
    o = runJob j \/ exists e, plEnded p !! id = Some e /\ o = cancelled j e;
}.

Record pool_sized (workers : nat) (p : Pool) : Prop := {
  sz_compare : length (plCompare p) <= queueCap;
  sz_generate : length (plGenerate p) <= queueCap;
  sz_busy : plIdle p + length (plBusy p) <= workers;
  sz_alive : plDone p = false -> plClosed p = false -> plIdle p + length (plBusy p) = workers;
}.

(** How the steps change what is pending, up to order. *)
Lemma pending_push k id j p : pending (set_queue k (queue k p ++ [(id, j)]) p) ≡ₚ (id, j) :: pending p.
Proof. destruct k; unfold pending; simpl; rewrite <- ?app_assoc; simpl; solve_Permutation. Qed.

Lemma pending_take k x q p :
  queue k p = x :: q -> pending (set_queue k q (set_workers (plIdle p - 1) (x :: plBusy p) p)) ≡ₚ pending p.
Proof. destruct k; unfold pending; simpl; intros ->; simpl; solve_Permutation. Qed.

Lemma pending_finish id j b1 b2 n rs p :
  plBusy p = b1 ++ (id, j) :: b2 -> pending p ≡ₚ (id, j) :: pending (set_results rs (set_workers n (b1 ++ b2) p)).
Proof. unfold pending; simpl; intros ->. solve_Permutation. Qed.

(** The invariant depends on the pending jobs up to order only. *)
Lemma pool_ok_perm p p' :
  pending p' ≡ₚ pending p -> plResults p' = plResults p -> plCallers p' = plCallers p -> plEnded p ⊆ plEnded p' ->
  pool_ok p -> pool_ok p'.
Proof.
  intros Hp Hr Hc He [H1 H2 H3 H4 H5].
  assert (Hin : forall x, In x (pending p') <-> In x (pending p)).
  { intros x. split; apply Permutation_in; [done|by symmetry]. }
  split; rewrite ?Hr, ?Hc; try done.
  - intros id j Hi. apply H1. by apply Hin.
  - by rewrite Hp.
  - intros id j Hw. destruct (H4 id j Hw); [left; by apply Hin|by right].
  - intros id j o Ho. destruct (H5 id j o Ho) as [->|(e & Hx & ->)]; [by left|right]. exists e. split; [|done].
    by eapply lookup_weaken.
Qed.

Lemma pool_ok_new workers : pool_ok (NewAuthWorkerPool workers).
Proof. split; try done. constructor. Qed.

(** A caller moves; a call once past its first select does not go back. *)
Lemma pool_ok_caller id j c p :
  (forall j0 c0, plCallers p !! id = Some (j0, c0) -> j0 = j /\ c <> Sending) ->
  (c = Waiting -> In (id, j) (pending p) \/ plResults p !! id = Some (runJob j)) ->
  (forall o, c = Returned o -> o = runJob j \/ exists e, plEnded p !! id = Some e /\ o = cancelled j e) ->
  pool_ok p -> pool_ok (set_caller id j c p).
Proof.
  intros Hj Hw Ho [H1 H2 H3 H4 H5]. split; try done; cbn [plCallers plResults set_caller].
  - intros id' j' Hi. destruct (H1 id' j' Hi) as (Hn & c' & Hc & Hs). split; [done|].
    destruct (decide (id = id')) as [<-|Hne]; [|rewrite lookup_insert_ne by done; eauto].
    destruct (Hj _ _ Hc) as [-> Hx]. rewrite lookup_insert_eq. eauto.
  - intros id' o Hr. destruct (H3 id' o Hr) as (j' & c' & Hc & Hs & Hx).
    destruct (decide (id = id')) as [<-|Hne]; [|rewrite lookup_insert_ne by done; eauto].
    destruct (Hj _ _ Hc) as [-> Hy]. rewrite lookup_insert_eq. eauto.
  - intros id' j'. destruct (decide (id = id')) as [<-|Hne]; [|rewrite lookup_insert_ne by done; apply H4].
    rewrite lookup_insert_eq. intros [= <- ->]. by apply Hw.
  - intros id' j' o. destruct (decide (id = id')) as [<-|Hne]; [|rewrite lookup_insert_ne by done; apply H5].
    rewrite lookup_insert_eq. intros [= <- ->]. by apply Ho.
Qed.

(** A call that has not sent its job is neither pending nor answered. *)
Lemma sending_absent id j p : pool_ok p -> plCallers p !! id = Some (j, Sending) ->
  ~ In id (map fst (pending p)) /\ plResults p !! id = None.
Proof.
  intros Hok Hc. split.
  - intros ([id' j'] & <- & Hi)%in_map_iff. apply (ok_pending p Hok) in Hi as (_ & c & Hx & Hs). simpl in Hc. congruence.
  - destruct (plResults p !! id) as [o|] eqn:Er; [|done]. apply (ok_results p Hok) in Er as (j' & c & Hx & Hs & _). congruence.
Qed.

Lemma pool_ok_send id j p :
  plCallers p !! id = Some (j, Sending) -> pool_ok p ->
  pool_ok (set_caller id j Waiting (set_queue (kindOf j) (queue (kindOf j) p ++ [(id, j)]) p)).
Proof.
  intros Hc Hok. destruct (sending_absent id j p Hok Hc) as [Hni Hnr]. destruct Hok as [H1 H2 H3 H4 H5].
  pose proof (pending_push (kindOf j) id j p) as Hp.
  assert (Hin : forall x, In x (pending (set_queue (kindOf j) (queue (kindOf j) p ++ [(id, j)]) p)) <->
    x = (id, j) \/ In x (pending p)).
  { intros x. rewrite <- !list_elem_of_In, Hp, elem_of_cons. done. }
  revert Hp Hin. generalize (queue (kindOf j) p ++ [(id, j)]) as q. intros q Hp Hin. split.
  - intros id' j' Hi. apply Hin in Hi as [[= -> ->]|Hi]; cbn [plCallers plResults set_caller set_queue].
    + split; [done|]. rewrite lookup_insert_eq. eauto.
    + destruct (H1 id' j' Hi) as (Hn & c & Hx & Hs). split; [done|]. rewrite lookup_insert_ne; [eauto|]. intros ->. congruence.
  - change (NoDup (map fst (pending (set_queue (kindOf j) q p)))). rewrite Hp. simpl. constructor; [|done].
    by rewrite list_elem_of_In.
  - intros id' o Hr. cbn [plCallers plResults set_caller set_queue] in *. destruct (H3 id' o Hr) as (j' & c & Hx & Hs & Ho).
    rewrite lookup_insert_ne; [eauto|]. intros ->. congruence.
  - intros id' j' Hw. cbn [plCallers plResults set_caller set_queue] in *. destruct (decide (id = id')) as [<-|Hne].
    + rewrite lookup_insert_eq in Hw. injection Hw as <-. left. apply Hin. by left.
    + rewrite lookup_insert_ne in Hw by done. destruct (H4 _ _ Hw); [left; apply Hin; by right|by right].
  - intros id' j' o. cbn [plCallers plResults set_caller set_queue]. destruct (decide (id = id')) as [<-|Hne].
    + by rewrite lookup_insert_eq.
    + rewrite lookup_insert_ne by done. apply H5.
Qed.

(** A finished job: its channel was empty, and now holds its result. *)
Lemma pool_ok_finish id j b1 b2 p :
  plBusy p = b1 ++ (id, j) :: b2 -> pool_ok p ->
  pool_ok (set_results (<[id := runJob j]> (plResults p)) (set_workers (S (plIdle p)) (b1 ++ b2) p)).
Proof.
  intros Hb [H1 H2 H3 H4 H5].
  pose proof (pending_finish id j b1 b2 (S (plIdle p)) (<[id := runJob j]> (plResults p)) p Hb) as Hp.
  set (p' := set_results _ _) in *.
  assert (Hin : forall x, In x (pending p) <-> x = (id, j) \/ In x (pending p')).
  { intros x. rewrite <- !list_elem_of_In, Hp, elem_of_cons. done. }
  rewrite Hp in H2. simpl in H2. apply NoDup_cons in H2 as [Hni Hnd]. rewrite list_elem_of_In in Hni.
  destruct (H1 id j) as (Hnr & c & Hc & Hs); [apply Hin; by left|]. split.
  - intros id' j' Hi. destruct (H1 id' j') as (Hn & c' & Hc' & Hs'); [apply Hin; by right|]. split; [|by eauto].
    unfold p'. simpl. rewrite lookup_insert_ne; [done|]. intros ->. apply Hni. by apply (in_map fst) in Hi.
  - done.
  - intros id' o Hr. unfold p' in Hr. simpl in Hr. apply lookup_insert_Some in Hr as [[<- <-]|[_ Hr]]; [by exists j, c|].
    by apply H3.
  - intros id' j' Hw. unfold p'. simpl. destruct (H4 id' j' Hw) as [Hi|Hr].
    + apply Hin in Hi as [[= -> ->]|Hi]; [right; by rewrite lookup_insert_eq|by left].
    + right. rewrite lookup_insert_ne; [done|]. intros ->. congruence.
  - exact H5.
Qed.

Lemma pool_ok_receive id j o p :
  plCallers p !! id = Some (j, Waiting) -> plResults p !! id = Some o -> pool_ok p ->
  pool_ok (set_caller id j (Returned o) (set_results (delete id (plResults p)) p)).
Proof.
  intros Hc Hr [H1 H2 H3 H4 H5].
  assert (Ho : o = runJob j). { destruct (H3 id o Hr) as (j' & c & Hc' & _ & ->). congruence. }
  assert (Hne : forall id' j', In (id', j') (pending p) -> id <> id').
  { intros id' j' Hi <-. destruct (H1 id j' Hi) as [Hn _]. congruence. }
  split; cbn [plCallers plResults set_caller set_results].
  - intros id' j' Hi. destruct (H1 id' j' Hi) as (Hn & Hx). specialize (Hne id' j' Hi).
    by rewrite lookup_delete_ne, lookup_insert_ne.
  - exact H2.
  - intros id' o' [Hd Hx]%lookup_delete_Some. rewrite lookup_insert_ne by done. by apply H3.
  - intros id' j' Hw. destruct (decide (id = id')) as [<-|Hd]; [by rewrite lookup_insert_eq in Hw|].
    rewrite lookup_insert_ne in Hw by done. rewrite lookup_delete_ne by done. by apply H4.
  - intros id' j' o'. destruct (decide (id = id')) as [<-|Hd]; [|rewrite lookup_insert_ne by done; apply H5].
    rewrite lookup_insert_eq. intros [= <- <-]. by left.
Qed.

Lemma work_step_ok p p' : work_step p p' -> pool_ok p -> pool_ok p'.
Proof.
  intros [k x q p0 _ Hq|id j b1 b2 p0 Hb _]; [|by apply pool_ok_finish].
  apply pool_ok_perm; [by apply pending_take|by destruct k..].
Qed.

Lemma pool_step_ok p p' : pool_step p p' -> pool_ok p -> pool_ok p'.
Proof.
  intros [p0 p1 Hw|p0 _ _|k p0 _ _ _|id j p0 Hn|id j p0 Hc _ _|id j p0 Hc _|id j o p0 Hc Hr|id e p0 Hn|id j c e p0 Hc Hs He|p0|p0 _];
    try (by apply pool_ok_perm).
  - by eapply work_step_ok.
  - apply pool_ok_caller; [intros *; by rewrite Hn|done|done].
  - by apply pool_ok_send.
  - apply pool_ok_caller; [|done|done]. intros * Hx. split; [congruence|done].
  - by apply pool_ok_receive.
  - apply pool_ok_perm; try done. by apply insert_subseteq.
  - apply pool_ok_caller; [|done|].
    + intros * Hx. split; [congruence|done].
    + intros o [= <-]. right. eauto.
Qed.

Lemma work_step_sized workers p p' : work_step p p' -> pool_sized workers p -> pool_sized workers p'.
Proof.
  intros Hs [H1 H2 H3 H4]. destruct Hs as [k x q p0 Hi Hq|id j b1 b2 p0 Hb _].
  - destruct k; simpl in Hq; split; simpl; rewrite ?Hq in *; simpl in *; try lia; intros Hd Hc; specialize (H4 Hd Hc); lia.
  - rewrite Hb in *. rewrite length_app in *. simpl in *. split; simpl; rewrite ?length_app; try lia.
    intros Hd Hc. specialize (H4 Hd Hc). lia.
Qed.

Lemma pool_step_sized workers p p' : pool_step p p' -> pool_sized workers p -> pool_sized workers p'.
Proof.
  intros [p0 p1 Hw|p0 Hd _|k p0 Hc _ _|id j p0 Hn|id j p0 Hc _ Hl|id j p0 Hc _|id j o p0 Hc Hr|id e p0 Hn|id j c e p0 Hc Hs He|p0|p0 _] Hz;
    [by eapply work_step_sized| | | | | | | | | |]; destruct Hz as [H1 H2 H3 H4]; split; simpl; try done; try lia;
    try (intros; simplify_eq; congruence).
  all: destruct j; simpl in *; rewrite ?length_app; simpl; lia.
Qed.

Lemma pool_reachable_inv workers p : reachable workers p -> pool_ok p /\ pool_sized workers p.
Proof.
  intros Hr. unfold reachable in Hr.
  assert (H0 : pool_ok (NewAuthWorkerPool workers) /\ pool_sized workers (NewAuthWorkerPool workers)).
  { split; [apply pool_ok_new|]. split; simpl; unfold queueCap; lia. }
  revert H0. generalize (NewAuthWorkerPool workers) Hr. clear Hr. intros p0 Hr. induction Hr as [|p0 p1 p2 Hs _ IH]; [done|].
  intros [Hok Hz]. apply IH. split; [by eapply pool_step_ok|by eapply pool_step_sized].
Qed.
End invariants.

(** ** What the pool promises *)

Section promises.
Context `{IamLib}.

(** The outcome by which [IamService] models a call. *)
Definition poolOutcome (ended : option goerr) (j : job) : outcome :=
  match j with
  | jobCompare password hash => outCompare (PoolCompare ended password hash)
  | jobGenerate salt password => outGenerate (PoolGenerate ended salt password)
  end.

(** C29: The pool computes what the model of its callers says.  However calls,
    workers, cancellations and the shut-down interleave, a call that returned
    has the outcome of its own job, or - only when its own context has ended -
    that context's error, which are the two answers of [PoolCompare] and
    [PoolGenerate]; so no result reaches another call, and a
    worker never waits for a caller that gave up: the buffer of a job that is
    being worked on is empty.  At most [workers] jobs are being worked on, and
    a hundred of each kind wait. *)
Theorem pool_answers workers p :
  reachable workers p ->
  (forall id j o, plCallers p !! id = Some (j, Returned o) ->
     o = poolOutcome None j \/ exists e, plEnded p !! id = Some e /\ o = poolOutcome (Some (ctxErr e)) j) /\
  (forall id j, In (id, j) (plBusy p) -> exists p', work_step p p' /\ plResults p' !! id = Some (runJob j)) /\
  length (plBusy p) <= workers /\ length (plCompare p) <= queueCap /\ length (plGenerate p) <= queueCap.
Proof.
  intros [Hok Hz]%pool_reachable_inv. split; [|split; [|destruct Hz; split_and!; lia]].
  - intros id j o Hc. destruct (ok_returned p Hok id j o Hc) as [->|(e & He & ->)]; [left; by destruct j|right]. exists e. by destruct j.
  - intros id j Hi. pose proof Hi as Hi0. apply in_split in Hi as (b1 & b2 & Hb).
    destruct (ok_pending p Hok id j) as [Hr _]; [unfold pending; rewrite !in_app_iff; auto|].
    eexists. split; [by apply (ws_finish id j b1 b2)|]. simpl. by rewrite lookup_insert_eq.
Qed.

(** The steps the workers have in hand. *)
Definition workLeft (p : Pool) : nat := 2 * (length (plCompare p) + length (plGenerate p)) + length (plBusy p).

Lemma work_step_left p p' : work_step p p' -> S (workLeft p') = workLeft p.
Proof.
  unfold workLeft. intros [k x q p0 _ Hq|id j b1 b2 p0 Hb _].
  - destruct k; simpl in *; rewrite Hq; simpl; lia.
  - simpl. rewrite Hb, !length_app. simpl. lia.
Qed.

Lemma work_step_frame p p' : work_step p p' ->
  plDone p' = plDone p /\ plClosed p' = plClosed p /\ plCallers p' = plCallers p /\
  plIdle p' + length (plBusy p') = plIdle p + length (plBusy p).
Proof.
  intros [k x q p0 Hi _|id j b1 b2 p0 Hb _]; split_and!; try done; simpl; [lia|]. rewrite Hb, !length_app. simpl. lia.
Qed.

(** While a job is pending and a worker lives, some worker can move. *)
Lemma work_progress p :
  pool_ok p -> 0 < plIdle p + length (plBusy p) -> pending p <> [] -> exists p', work_step p p'.
Proof.
  intros Hok Hw Hp. destruct (plBusy p) as [|[id j] b] eqn:Eb.
  - simpl in Hw. assert (Hq : exists k x q, queue k p = x :: q).
    { unfold pending in Hp. rewrite Eb, app_nil_r in Hp. destruct (plCompare p) as [|x q] eqn:Ec; [|by exists Compares, x, q].
      destruct (plGenerate p) as [|x q] eqn:Eg; [done|by exists Generates, x, q]. }
    destruct Hq as (k & x & q & Hq). eexists. apply (ws_take k x q p); [lia|done].
  - eexists. apply (ws_finish id j [] b); [done|]. apply (ok_pending p Hok id j). unfold pending. rewrite !in_app_iff, Eb.
    right. right. by left.
Qed.

(** Every call is answered.  While the pool is up and has a worker, its
    workers cannot go on for more than [workLeft] steps, and as long as a job
    is pending some worker can take a step; when none is left, the result of
    every call that waits is in its channel, and the call can return it. *)
Theorem pool_serves workers p k p' :
  reachable workers p -> 0 < workers -> plDone p = false -> plClosed p = false -> nsteps work_step k p p' ->
  k + workLeft p' = workLeft p /\
  (workLeft p' <> 0 -> exists p'', work_step p' p'') /\
  (workLeft p' = 0 -> forall id j, plCallers p' !! id = Some (j, Waiting) ->
     exists p'', pool_step p' p'' /\ plCallers p'' !! id = Some (j, Returned (runJob j))).
Proof.
  intros [Hok Hz]%pool_reachable_inv Hw Hd Hc Hk. pose proof (sz_alive _ _ Hz Hd Hc) as Hl. clear Hz Hd Hc.
  revert Hok Hl. induction Hk as [p|k p p1 p2 Hs _ IH]; intros Hok Hl.
  - split; [done|]. split.
    + intros Hne. apply work_progress; [done|lia|]. intros Hp. apply Hne. unfold workLeft.
      apply app_eq_nil in Hp as [-> [-> ->]%app_eq_nil]. done.
    + unfold workLeft. intros Hz id j Hwt. destruct (ok_waiting p Hok id j Hwt) as [Hi|Hr].
      * exfalso. unfold pending in Hi. destruct (plCompare p), (plGenerate p), (plBusy p); simpl in Hz; try lia. done.
      * eexists. split; [by apply (ps_receive id j (runJob j))|]. simpl. by rewrite lookup_insert_eq.
  - pose proof (work_step_left _ _ Hs) as Hm. destruct (work_step_frame _ _ Hs) as (_ & _ & _ & He).
    destruct IH as (Hx & Hy); [by eapply work_step_ok|lia|]. split; [lia|done].
Qed.

(** ** Shut-down *)

(** Without a worker a call that waits for its result waits for its own
    context. *)
Definition stranded (id : nat) (j : job) (p : Pool) : Prop :=
  plIdle p = 0 /\ plBusy p = [] /\ plResults p !! id = None /\
  (plCallers p !! id = Some (j, Waiting) \/
   exists e, plEnded p !! id = Some e /\ plCallers p !! id = Some (j, Returned (cancelled j e))).

Lemma stranded_step id j p p' : pool_step p p' -> stranded id j p -> stranded id j p'.
Proof.
  intros Hs (Hi & Hb & Hr & Hc).
  assert (Hother : forall id' j' c c0, plCallers p !! id' = c0 -> (c0 = None \/ c0 = Some (j', Sending)) ->
    <[id' := (j', c)]> (plCallers p) !! id = plCallers p !! id).
  { intros id' j' c c0 Hx Hn. apply lookup_insert_ne. intros ->. destruct Hc as [Hc|(e & _ & Hc)], Hn; congruence. }
  destruct Hs as [p0 p1 Hw|p0 _ Hx|k p0 _ _ Hx|id' j' p0 Hn|id' j' p0 Hn _ _|id' j' p0 Hn _|id' j' o p0 Hn Hx|id' e p0 Hn|id' j' c e p0 Hn Hx He|p0|p0 _];
    try (by split_and!).
  - exfalso. destruct Hw as [k x q p0 Hx _|id' j' b1 b2 p0 Hx _]; [lia|]. rewrite Hb in Hx. by destruct b1.
  - split_and!; try done; simpl; lia.
  - split_and!; try done; simpl; lia.
  - split_and!; try done; simpl. erewrite Hother by eauto. done.
  - split_and!; try done; simpl; try (by destruct j'). erewrite Hother by eauto. done.
  - split_and!; try done; simpl. erewrite Hother by eauto. done.
  - assert (id' <> id) as Hne by (intros ->; congruence). split_and!; try done; simpl; [by rewrite lookup_delete_ne|].
    by rewrite lookup_insert_ne.
  - split_and!; try done; simpl. destruct Hc as [Hc|(e' & He & Hc)]; [by left|right]. exists e'.
    rewrite lookup_insert_ne; [done|]. intros ->. congruence.
  - split_and!; try done; simpl. destruct (decide (id' = id)) as [->|Hne]; [|by rewrite lookup_insert_ne].
    destruct Hc as [Hc|(e' & _ & Hc)]; [|destruct Hx; congruence]. assert (j' = j) as -> by congruence.
    rewrite lookup_insert_eq. eauto.
Qed.

(** The last workers leave. *)
Lemma workers_leave p :
  plBusy p = [] -> plDone p = true \/ (plClosed p = true /\ exists k, queue k p = []) ->
  rtc pool_step p (set_workers 0 [] p).
Proof.
  destruct p as [c g cl d i b rs cs es]. cbn [plBusy plDone plClosed]. intros -> Hx.
  induction i as [|i IH]; [apply rtc_refl|]. eapply rtc_l; [|exact (IH Hx)].
  assert (Hs : set_workers (S i - 1) [] (mkPool c g cl d (S i) [] rs cs es) = mkPool c g cl d i [] rs cs es).
  { unfold set_workers. simpl. by rewrite Nat.sub_0_r. }
  rewrite <- Hs. destruct Hx as [Hd|[Hc [k Hk]]].
  - apply ps_exit_done; [done|simpl; lia].
  - apply (ps_exit_closed k); [done| |simpl; lia]. by destruct k.
Qed.

(** A shut-down can strand a call.  [main] hands the workers the context
    that its signal ends, before the servers wait for their requests; and
    [Shutdown] lets a worker leave on the first of the two channels that is
    empty.  Either way, with any number of workers, a state is reached in
    which a comparison waits and nothing but the end of its own context will
    ever answer it. *)
Theorem shutdown_strands workers (byShutdown : bool) j :
  exists p, reachable workers p /\ plClosed p = byShutdown /\ plDone p = negb byShutdown /\
    plCallers p !! 0 = Some (j, Waiting) /\
    forall p', rtc pool_step p p' ->
      plCallers p' !! 0 = Some (j, Waiting) \/
      exists e, plEnded p' !! 0 = Some e /\ plCallers p' !! 0 = Some (j, Returned (cancelled j e)).
Proof.
  set (p1 := set_caller 0 j Sending (NewAuthWorkerPool workers)).
  set (p2 := set_caller 0 j Waiting (set_queue (kindOf j) [(0, j)] p1)).
  set (p3 := set_ends byShutdown (negb byShutdown) p2).
  assert (Hr : reachable workers (set_workers 0 [] p3)).
  { eapply rtc_l; [by apply (ps_call 0 j)|]. fold p1. eapply rtc_l.
    { apply (ps_send 0 j p1); [by unfold p1|done|]. destruct j; simpl; unfold queueCap; lia. }
    replace (queue (kindOf j) p1 ++ [(0, j)]) with [(0, j)] by (by destruct j). fold p2.
    eapply rtc_l; [|apply workers_leave; [by destruct j|]].
    - destruct byShutdown; [by apply (ps_Shutdown p2)|by apply (ps_done p2)].
    - destruct byShutdown; [right|by left]. split; [done|]. exists (if decide (kindOf j = Compares) then Generates else Compares).
      by destruct j. }
  exists (set_workers 0 [] p3). split; [done|]. split; [done|]. split; [done|]. split; [done|]. intros p' Hp.
  assert (Hst : stranded 0 j (set_workers 0 [] p3)) by (split_and!; try done; by left).
  revert Hst. clear Hr. induction Hp as [p|p q r Hs _ IH]; [by intros (_ & _ & _ & Hc)|].
  intros Hst. apply IH. by eapply stranded_step.
Qed.
End promises.

(** ** Examples *)

Module AuthPoolExamples.
Import MiniIam.

(** Two workers; one is comparing while a second comparison waits. *)
Definition compare0 : job := jobCompare "guess" "hash0".
Definition compare1 : job := jobCompare "pw" "hash1".

Definition called0 : Pool := set_caller 0 compare0 Sending (NewAuthWorkerPool 2).
Definition sent0 : Pool := set_caller 0 compare0 Waiting (set_queue Compares [(0, compare0)] called0).
Definition taken0 : Pool := set_queue Compares [] (set_workers 1 [(0, compare0)] sent0).
Definition called1 : Pool := set_caller 1 compare1 Sending taken0.
Definition twoCalls : Pool := set_caller 1 compare1 Waiting (set_queue Compares [(1, compare1)] called1).

Lemma twoCalls_reachable : reachable 2 twoCalls.
Proof.
  assert (Hcap : 0 < queueCap) by (unfold queueCap; lia).
  eapply rtc_l; [by apply (ps_call 0 compare0)|]. eapply rtc_l; [by apply (ps_send 0 compare0 called0)|].
  eapply rtc_l; [apply ps_work, (ws_take Compares (0, compare0) [] sent0); [simpl; lia|done]|].
  eapply rtc_l; [by apply (ps_call 1 compare1 taken0)|]. eapply rtc_l; [by apply (ps_send 1 compare1 called1)|].
  apply rtc_refl.
Qed.

(** The first is finished and read, while the second has not been begun. *)
Definition finished0 : Pool :=
  set_results (<[0 := runJob compare0]> ∅) (set_workers 2 [] twoCalls).
Definition returned0 : Pool := set_caller 0 compare0 (Returned (runJob compare0)) (set_results (delete 0 (plResults finished0)) finished0).

Lemma pool_answers_witness :
  reachable 2 returned0 /\
  (outCompare (Some errMismatch) = poolOutcome None compare0 \/
   exists e, plEnded returned0 !! 0 = Some e /\ outCompare (Some errMismatch) = poolOutcome (Some (ctxErr e)) compare0).
Proof.
  assert (Hr : reachable 2 returned0).
  { eapply rtc_r; [eapply rtc_r; [exact twoCalls_reachable|]|].
    - apply ps_work, (ws_finish 0 compare0 [] [] twoCalls); reflexivity.
    - apply (ps_receive 0 compare0 (runJob compare0) finished0); reflexivity. }
  split; [exact Hr|]. apply (proj1 (pool_answers 2 returned0 Hr) 0 compare0). reflexivity.
Defined.

Definition taken1 : Pool := set_queue Compares [] (set_workers 1 [(1, compare1)] finished0).
Definition finished1 : Pool := set_results (<[1 := runJob compare1]> (plResults taken1)) (set_workers 2 [] taken1).

(** Three steps of the workers are all that is left. *)
Lemma pool_serves_witness :
  workLeft twoCalls = 3 /\
  exists p, pool_step finished1 p /\ plCallers p !! 1 = Some (compare1, Returned (runJob compare1)).
Proof.
  split; [reflexivity|]. apply (pool_serves 2 twoCalls 3 finished1 twoCalls_reachable); try reflexivity; [lia|].
  eapply nsteps_l; [apply (ws_finish 0 compare0 [] [] twoCalls); reflexivity|].
  eapply nsteps_l; [apply (ws_take Compares (1, compare1) [] finished0); [simpl; lia|reflexivity]|].
  eapply nsteps_l; [apply (ws_finish 1 compare1 [] [] taken1); reflexivity|]. apply nsteps_O.
Defined.
End AuthPoolExamples.
