(* ===== verification/Routes.v ===== *)
(** The routes of the services and of the gateway in front of them:
    services/*/pkg/router/router.go, the mux of services/audit/main.go, and
    services/control-plane/pkg/router and pkg/proxy.  A router is a tree as
    the code builds it, flattened to a table of routes with the middlewares in
    front of each handler.  How chi, gorilla and net/http match a path with a
    pattern is an interface ([Mux]); what the middlewares do is [Middleware]
    and [RateLimit]. *)

From S2P Require Import Prelude GoStrings Json Redis Resilience Crypto Http Middleware RateLimit.
From Stdlib Require Import Ascii.

(** ** Trees of routes *)

(** The middlewares, the last four of which decide; [RealIP] rewrites the
    remote address and the others touch the answer or the log only. *)
Inductive mw :=
| mwRequestID | mwCorrelation | mwMetrics | mwLogger | mwRecoverer | mwRequestSize | mwTimeout
| mwSecurityHeaders | mwDeprecation | mwCors | mwRealIP
| mwRateLimit | mwAuthJWT | mwIdempotency | mwSCIM.

#[global] Instance mw_eq_dec : EqDecision mw.
Proof. solve_decision. Defined.

Section trees.
Context {H : Type}.

(** [Endpoint]: [r.With(...).Get(pattern, handler)], "" being any method;
    [Sub]: [r.Route], [r.Group] and subrouters, with what they [Use]. *)
Inductive node :=
| Endpoint (extra : list mw) (method pattern : string) (handler : H)
| Sub (prefix : string) (use : list mw) (body : list node).

Definition Get (p : string) (h : H) : node := Endpoint [] "GET" p h.
Definition Post (p : string) (h : H) : node := Endpoint [] "POST" p h.
Definition Put (p : string) (h : H) : node := Endpoint [] "PUT" p h.
Definition Patch (p : string) (h : H) : node := Endpoint [] "PATCH" p h.
Definition Delete (p : string) (h : H) : node := Endpoint [] "DELETE" p h.
Definition Handle (p : string) (h : H) : node := Endpoint [] "" p h.

Definition With (ms : list mw) (n : node) : node :=
  match n with Endpoint e m p h => Endpoint (ms ++ e) m p h | Sub p u b => Sub p (ms ++ u) b end.
End trees.
Arguments node H : clear implicits.

(** A pattern by its segments. *)
Inductive seg := Lit (s : string) | Par.

#[global] Instance seg_eq_dec : EqDecision seg.
Proof. solve_decision. Defined.

Definition pathSegments (p : string) : list string := List.filter (fun s => negb (s =? "")%string) (Split "/"%char p).
Definition segments (p : string) : list seg := map (fun s => if HasPrefix s "{" then Par else Lit s) (pathSegments p).

Record Route (H : Type) := mkRoute { rtMethod : string; rtPattern : list seg; rtChain : list mw; rtHandler : H }.
Arguments mkRoute {H} _ _ _ _.
Arguments rtMethod {H} _.
Arguments rtPattern {H} _.
Arguments rtChain {H} _.
Arguments rtHandler {H} _.

Fixpoint flatten {H} (pre : list seg) (chain : list mw) (n : node H) : list (Route H) :=
  match n with
  | Endpoint extra m p h => [mkRoute m (pre ++ segments p) (chain ++ extra) h]
  | Sub p use body => flat_map (flatten (pre ++ segments p) (chain ++ use)) body
  end.

Definition table {H} (n : node H) : list (Route H) := flatten [] [] n.

(** ** The services *)

Definition idem : list mw := [mwIdempotency].

Definition iamRouter : node string :=
  Sub "" [mwRequestID; mwRealIP; mwCorrelation; mwMetrics; mwRecoverer; mwRequestSize; mwSecurityHeaders] [
    Handle "/metrics" "metrics";
    Get "/health" "Health";
    Sub "/mgmt" [mwAuthJWT] [
      Post "/orgs" "CreateOrg";
      With idem (Post "/users" "CreateUser");
      Get "/connectors" "ListConnectors";
      Post "/connectors" "CreateConnector";
      Put "/connectors/{id}" "UpdateConnector";
      Delete "/connectors/{id}" "DeleteConnector";
      Get "/users" "ListUsers";
      Post "/users/{id}/reprovision" "ReprovisionUser";
      Get "/users/mfa/totp/setup" "TOTPSetup";
      Post "/users/mfa/totp/enable" "TOTPEnable"];
    Sub "/auth" [] [
      Sub "" [mwRateLimit] [
        Post "/login" "Login";
        Post "/oauth/login" "OAuthLogin";
        Post "/refresh" "Refresh";
        Post "/mfa/verify" "VerifyMFA";
        Post "/mfa/backup-verify" "VerifyBackupCode"];
      Sub "" [mwAuthJWT] [
        Post "/logout" "Logout";
        Get "/me" "Me"];
      Get "/authorize" "Authorize";
      With idem (Post "/token" "Token");
      Get "/jwks" "JWKS";
      Get "/.well-known/openid-configuration" "OIDCDiscovery";
      Sub "/scim/v2" [mwSCIM; mwIdempotency] [
        Get "/Users" "ListScimUsers";
        Post "/Users" "PostScimUser";
        Get "/Users/{id}" "GetScimUser";
        Delete "/Users/{id}" "DeleteScimUser";
        Patch "/Users/{id}" "PatchScimUser"];
      Sub "/webauthn" [] [
        Post "/login/begin" "WebAuthnBeginLogin";
        Post "/login/finish" "WebAuthnFinishLogin";
        Sub "" [mwAuthJWT] [
          Post "/register/begin" "WebAuthnBeginRegistration";
          Post "/register/finish" "WebAuthnFinishRegistration"]];
      Sub "/saml" [] [
        Get "/metadata" "SAMLMetadata";
        Post "/acs" "SAMLAssertionConsumerService";
        Sub "" [mwAuthJWT] [
          Post "/providers" "CreateSAMLProvider";
          Get "/providers" "ListSAMLProviders"]]]].

Definition policyRouter : node string :=
  Sub "" [mwRequestID; mwRealIP; mwLogger; mwRecoverer; mwRequestSize; mwTimeout; mwSecurityHeaders] [
    Handle "/metrics" "metrics";
    Get "/health" "Health";
    Sub "/v1" [mwRateLimit; mwAuthJWT] [
      Sub "/policies" [] [
        Get "/" "ListPolicies";
        With idem (Post "/" "CreatePolicy");
        Get "/{id}" "GetPolicy";
        With idem (Put "/{id}" "UpdatePolicy");
        Delete "/{id}" "DeletePolicy"];
      Sub "/assignments" [] [
        Get "/" "ListAssignments";
        With idem (Post "/" "CreateAssignment");
        Delete "/{id}" "DeleteAssignment"];
      Post "/policy/evaluate" "Evaluate";
      Get "/policy/eval-logs" "ListEvalLogs"]].

Definition registryRouter : node string :=
  Sub "" [mwRequestID; mwRealIP; mwLogger; mwRecoverer; mwSecurityHeaders] [
    Handle "/metrics" "metrics";
    Get "/health" "Health";
    Sub "/v1/connectors" [mwRateLimit; mwAuthJWT] [
      With idem (Post "/" "Register");
      Post "/validate" "Validate"]].

(** With the /metrics that [main] adds to it. *)
Definition threatRouter : node string :=
  Sub "" [mwLogger; mwRecoverer; mwSecurityHeaders] [
    Sub "/v1/threats" [mwDeprecation; mwAuthJWT] [
      Get "/alerts" "ListAlerts";
      Get "/alerts/{id}" "GetAlert";
      Post "/alerts/{id}/acknowledge" "AcknowledgeAlert";
      Post "/alerts/{id}/resolve" "ResolveAlert";
      Get "/stats" "GetStats";
      Get "/detectors" "ListDetectors"];
    Get "/health" "Health";
    Handle "/metrics" "metrics"].

Definition alertingRouter : node string :=
  Sub "" [mwSecurityHeaders] [
    Get "/metrics" "metrics";
    Get "/health" "Health";
    Sub "/v1/threats" [mwDeprecation; mwAuthJWT] [
      Get "/alerts" "ListAlerts";
      Get "/alerts/{id}" "GetAlert";
      Post "/alerts/{id}/acknowledge" "AcknowledgeAlert";
      Post "/alerts/{id}/resolve" "ResolveAlert";
      Get "/stats" "GetStats";
      Get "/detectors" "GetDetectors"]].

Definition complianceRouter : node string :=
  Sub "" [mwSecurityHeaders] [
    Get "/metrics" "metrics";
    Get "/health" "Health";
    Sub "/v1/compliance" [mwDeprecation; mwAuthJWT] [
      Get "/posture" "GetPosture";
      Get "/stats" "GetStats";
      Get "/reports" "ListReports";
      Post "/reports" "CreateReport";
      Get "/reports/{id}" "GetReportStatus";
      Get "/reports/{id}/download" "DownloadReport"]].

Definition dlpRouter : node string :=
  Sub "" [mwSecurityHeaders] [
    Get "/metrics" "metrics";
    Get "/health" "Health";
    Sub "/v1/dlp" [mwDeprecation; mwAuthJWT] [
      Post "/scan" "Scan";
      Get "/policies" "ListPolicies";
      Post "/policies" "CreatePolicy";
      Get "/findings" "ListFindings"]].

Definition webhookRouter : node string :=
  Sub "" [mwSecurityHeaders] [
    Get "/metrics" "metrics";
    Get "/health" "Health";
    Sub "/v1" [mwDeprecation] [Get "/webhook/deliveries" "ListDeliveries"]].

(** The mux of net/http, whatever the method. *)
Definition auditRouter : node string :=
  Sub "" [] [
    Handle "/metrics" "metrics";
    Handle "/health" "Health";
    With [mwDeprecation; mwRateLimit; mwAuthJWT] (Handle "/v1/events/stream" "StreamEvents");
    With [mwDeprecation; mwRateLimit; mwAuthJWT] (Handle "/v1/events" "ListEvents");
    With [mwDeprecation; mwRateLimit; mwAuthJWT] (Handle "/v1/events/ingest" "Ingest")].

Definition services : list (string * node string) :=
  [("iam", iamRouter); ("policy", policyRouter); ("connector-registry", registryRouter); ("threat", threatRouter);
   ("alerting", alertingRouter); ("compliance", complianceRouter); ("dlp", dlpRouter);
   ("webhook-delivery", webhookRouter); ("audit", auditRouter)].

(** The breaker in front of the blocklist, the same in every service but for
    its name, and the limits: requests a second, and burst. *)
Definition blocklistBreaker (service : string) : Settings :=
  NewBreaker (mkBreakerConfig (service +:+ "-redis-blocklist") 5 (10 * Second) 3 (5 * Second)).

Definition rateLimits : list (string * (Z * Z)) :=
  [("iam", (1, 5)); ("policy", (1000, 2000)); ("connector-registry", (1000, 2000)); ("audit", (1000, 2000))]%Z.

(** ** The gateway *)

Definition cbPolicy : Settings := NewBreaker (mkBreakerConfig "cb-policy" 3 (10 * Second) 5 (30 * Second)).
Definition cbIAM : Settings := NewBreaker (mkBreakerConfig "cb-iam" 5 (10 * Second) 5 (30 * Second)).

Inductive upstream := upPolicy | upIAM | upAudit.

Inductive gwHandler :=
| GwLocal (name : string)
| Proxy (target : upstream) (breaker : bool).       (* behind its circuit breaker, or without *)

Definition policyProxy : gwHandler := Proxy upPolicy true.
Definition iamProxy : gwHandler := Proxy upIAM true.

Definition controlPlane : node gwHandler :=
  Sub "" [mwRequestID; mwRealIP; mwCorrelation; mwMetrics; mwRecoverer; mwSecurityHeaders; mwCors] [
    Handle "/metrics" (GwLocal "metrics");
    Get "/health" (GwLocal "health");
    Sub "/v1" [mwDeprecation] [
      Post "/policy/evaluate" policyProxy;
      Get "/policy/eval-logs" policyProxy;
      Sub "/policies" [] [
        Get "/" policyProxy;
        Post "/" policyProxy;
        Get "/{id}" policyProxy;
        Put "/{id}" policyProxy;
        Delete "/{id}" policyProxy];
      Post "/events/ingest" (Proxy upAudit false);
      Sub "/scim/v2/Users" [] [
        Get "/" iamProxy;
        Post "/" iamProxy;
        Get "/{id}" iamProxy;
        Patch "/{id}" iamProxy];
      Post "/logs" (GwLocal "logs")]].

Definition upstreamRouter (u : upstream) : node string :=
  match u with upPolicy => policyRouter | upIAM => iamRouter | upAudit => auditRouter end.

(** ** What stands before a handler *)

Class Mux := {
  muxMatch : list seg -> string -> bool;
  libRealIP : Request -> string;                    (* chi's RealIP: the remote address it sets *)
}.

(** A path that a pattern matches begins with the pattern's literals. *)
Class MuxLaws `{Mux} : Prop := {
  muxMatch_lit s p path : muxMatch (Lit s :: p) path = true -> exists rest, pathSegments path = s :: rest;
}.

(** The route has the method and the path of the request. *)
Definition serves {H} `{Mux} (method path : string) (r : Route H) : Prop :=
  (rtMethod r = "" \/ rtMethod r = method) /\ muxMatch (rtPattern r) path = true.

Section thread.
Context {R B T : Type} `{Redis R} `{Breaker B} `{TokenBucket T} `{Jwt} `{Mux}.

(** What the middlewares of a router hold. *)
Record Gates := mkGates {
  gtKeyring : list JWTKey;
  gtRedis : option R;
  gtBreaker : option B;
  gtSCIM : list (string * string);
  gtLimiter : RateLimiter R T;
}.

Definition set_gtBreaker (b : option B) (g : Gates) : Gates := mkGates (gtKeyring g) (gtRedis g) b (gtSCIM g) (gtLimiter g).
Definition set_gtLimiter (l : RateLimiter R T) (g : Gates) : Gates := mkGates (gtKeyring g) (gtRedis g) (gtBreaker g) (gtSCIM g) l.

Definition set_remote (addr : string) (r : Request) : Request := mkRequest (rqMethod r) (rqCookie r) (rqHeaders r) addr.

(** The context under which the handler may run; the idempotency middleware
    hands it on, when it does not answer from its store. *)
Fixpoint thread (now : Z) (g : Gates) (chain : list mw) (r : Request) (ctx : Context) : Gates * verdict :=
  match chain with
  | [] => (g, Pass ctx)
  | mwRealIP :: chain' => thread now g chain' (set_remote (libRealIP r) r) ctx
  | mwRateLimit :: chain' =>
      match Limit now r ctx (gtLimiter g) with
      | (l, Pass ctx) => thread now (set_gtLimiter l g) chain' r ctx
      | (l, v) => (set_gtLimiter l g, v)
      end
  | mwAuthJWT :: chain' =>
      match AuthJWTWithBlocklist now (gtKeyring g) (gtRedis g) (gtBreaker g) r ctx with
      | (b, Pass ctx) => thread now (set_gtBreaker b g) chain' r ctx
      | (b, v) => (set_gtBreaker b g, v)
      end
  | mwSCIM :: chain' =>
      match SCIMAuth (gtSCIM g) r ctx with
      | Pass ctx => thread now g chain' r ctx
      | v => (g, v)
      end
  | _ :: chain' => thread now g chain' r ctx
  end.
End thread.
Arguments Gates R B T : clear implicits.

(** ** The proxy *)

Section proxy.
Context {B : Type} `{Breaker B}.

Definition delHeaders (names : list string) (hs : list (string * string)) : list (string * string) :=
  List.filter (fun kv => negb (existsb (fun n => key_is n kv.1) names)) hs.

(** What the director of [NewProxy] takes out. *)
Definition strippedHeaders : list string := ["X-Org-ID"; "X-Internal-Key"; "X-OpenGuard-Org-ID"].

Definition hopHeaders : list string :=
  ["Connection"; "Proxy-Connection"; "Keep-Alive"; "Proxy-Authenticate"; "Proxy-Authorization"; "Te"; "Trailer";
   "Transfer-Encoding"; "Upgrade"].

(** The names the Connection headers list. *)
Definition connectionNames (hs : list (string * string)) : list string :=
  flat_map (fun kv => if key_is "Connection" kv.1 then map TrimSpace (Split ","%char kv.2) else []) hs.

Definition joinComma (l : list string) : string := String.concat ", " l.

(** [net/http/httputil]: the director, the hop-by-hop headers, and the client's
    address, when it has a port, behind those the request names. *)
Definition forwardHeaders (remote : string) (hs : list (string * string)) : list (string * string) :=
  let hs := delHeaders strippedHeaders hs in
  let hs := delHeaders (hopHeaders ++ connectionNames hs) hs in
  match SplitHost remote with
  | None => hs
  | Some client =>
      let prior := map snd (List.filter (fun kv => key_is "X-Forwarded-For" kv.1) hs) in
      delHeaders ["X-Forwarded-For"] hs ++ [("X-Forwarded-For", joinComma (prior ++ [client]))]
  end.

(** The request upstream; its remote address is the gateway's own. *)
Definition forward (gateway : string) (r : Request) : Request :=
  mkRequest (rqMethod r) (if existsb (key_is "Cookie") (connectionNames (delHeaders strippedHeaders (rqHeaders r))) then None else rqCookie r)
    (forwardHeaders (rqRemoteAddr r) (rqHeaders r)) gateway.

Context {W : Type}.

Definition badGateway : Response := mkResponse StatusBadGateway [] JNull.

(** [CircuitBreakerTransport.RoundTrip] where there is a breaker; an upstream
    that cannot be reached answers 502. *)
Definition RoundTrip (now : Z) (cb : option B) (rt : W -> W * res Response) (w : W) : option B * W * res Response :=
  match cb with
  | None => let '(w', x) := rt w in (None, w', x)
  | Some b => let '(b', w', x) := Execute now b rt w in (Some b', w', x)
  end.

Definition proxyServe (now : Z) (cb : option B) (rt : W -> W * res Response) (w : W) : option B * W * Response :=
  match RoundTrip now cb rt w with
  | (cb', w', Ok resp) => (cb', w', resp)
  | (cb', w', Err _) => (cb', w', badGateway)
  end.
End proxy.

(** *** Origins and logs *)

Definition knownOrigins : list string :=
  ["http://localhost:4200"; "https://openguard.lb.localstack.cloud"; "https://openguard-dev.instatunnel.io"].

(** The CORS middleware: what it adds to the answer, and whether it answers
    itself, with 200 and before any route is looked for. *)
Definition allowedOrigin (publicURL origin : string) : bool :=
  existsb (String.eqb origin) knownOrigins || (negb (publicURL =? "")%string && (origin =? publicURL)%string).

Definition cors (publicURL : string) (r : Request) : list (string * string) * bool :=
  let origin := header_get "Origin" (rqHeaders r) in
  ((if allowedOrigin publicURL origin
    then [("Access-Control-Allow-Origin", origin); ("Access-Control-Allow-Methods", "GET, POST, PUT, DELETE, PATCH, OPTIONS");
          ("Access-Control-Allow-Headers", "Content-Type, Authorization, X-Request-ID"); ("Access-Control-Allow-Credentials", "true")]
    else []), (rqMethod r =? "OPTIONS")%string).

Inductive level := LevelDebug | LevelInfo | LevelWarn | LevelError.

Record FrontendLog := mkFrontendLog { flLevel : string; flMessage : string; flContext : gomap }.

Definition upd_log (k : string) (l : FrontendLog) (j : json) : res FrontendLog :=
  if key_is "level" k then v <-? dec_string (flLevel l) j; Ok (mkFrontendLog v (flMessage l) (flContext l))
  else if key_is "message" k then v <-? dec_string (flMessage l) j; Ok (mkFrontendLog (flLevel l) v (flContext l))
  else if key_is "context" k then v <-? dec_map (flContext l) j; Ok (mkFrontendLog (flLevel l) (flMessage l) v)
  else Ok l.

(** [status < 400]; [below] decides it for numbers that are not integers. *)
Definition logLevel (below : string -> bool) (l : FrontendLog) : level :=
  if (flLevel l =? "error")%string then
    match map_get (flContext l) "status" with
    | Some (JNum z) => if (z <? 400)%Z then LevelInfo else LevelError
    | Some (JFloat s) => if below s then LevelInfo else LevelError
    | _ => LevelError
    end
  else if (flLevel l =? "warn")%string then LevelWarn
  else if (flLevel l =? "debug")%string then LevelDebug
  else LevelInfo.

(** What is logged, and the answer. *)
Definition frontendLog (below : string -> bool) (b : raw) : option (level * string * gomap) * Response :=
  match decode_body upd_log (mkFrontendLog "" "" None) b with
  | Err _ => (None, mkResponse StatusBadRequest [] (JStr "invalid request"))
  | Ok l => (Some (logLevel below l, flMessage l, flContext l), mkResponse StatusAccepted [] JNull)
  end.

(** ** Properties *)

(** The routes that ask for no credentials, by service. *)
Definition publicHandlers (service : string) : list string :=
  ["metrics"; "Health"] ++
  (if (service =? "iam")%string then
     ["Login"; "OAuthLogin"; "Refresh"; "VerifyMFA"; "VerifyBackupCode"; "Authorize"; "Token"; "JWKS"; "OIDCDiscovery";
      "WebAuthnBeginLogin"; "WebAuthnFinishLogin"; "SAMLMetadata"; "SAMLAssertionConsumerService"]
   else if (service =? "webhook-delivery")%string then ["ListDeliveries"] else []).

Definition scimHandlers : list string := ["ListScimUsers"; "PostScimUser"; "GetScimUser"; "DeleteScimUser"; "PatchScimUser"].

Section properties.
Context {R B T : Type} `{Redis R} `{Breaker B} `{TokenBucket T} `{JwtLaws} `{Mux}.

#[local] Notation Gates := (Gates R B T).

(** The context is the one of a token that a key of the ring signs, that has
    not expired, and that the blocklist, if it answers, does not hold. *)
Definition authenticated (now : Z) (g : Gates) (token : string) (ctx : Context) : Prop :=
  exists t e k, Verify now token (gtKeyring g) = Ok t /\ In k (gtKeyring g) /\ jwtSigned (jkAlgorithm k) (jkSecret k) token /\
    clExpiresAt (tkClaims t) = Some e /\ (now < e)%Z /\
    (revokedCheck now (gtRedis g) (gtBreaker g) (clID (tkClaims t))).2 = false /\
    GetUserID ctx = clUserID (tkClaims t) /\ GetOrgID ctx = clOrgID (tkClaims t) /\ rlsOrgID ctx = clOrgID (tkClaims t).

Lemma AuthJWT_pass now ring rdb (b b' : option B) r ctx ctx' :
  AuthJWTWithBlocklist now ring rdb b r ctx = (b', Pass ctx') ->
  exists t e, Verify now (extractToken r) ring = Ok t /\ clExpiresAt (tkClaims t) = Some e /\
    (revokedCheck now rdb b (clID (tkClaims t))).2 = false /\ ctx' = withClaims (tkClaims t) e ctx.
Proof.
  unfold AuthJWTWithBlocklist. destruct (_ =? "")%string; [done|]. destruct (Verify _ _ _) as [t|]; [|done].
  destruct (revokedCheck now rdb b _) as [b1 rv] eqn:Er. destruct rv; [done|].
  destruct (clExpiresAt _) as [e|] eqn:Ee; [|done]. intros [= _ <-]. exists t, e. by rewrite Er.
Qed.

Lemma SCIM_pass tokens r ctx ctx' :
  SCIMAuth tokens r ctx = Pass ctx' ->
  exists org, ctx' = withSCIM org ctx /\ org <> "" /\ exists tok, In (tok, org) tokens.
Proof.
  unfold SCIMAuth, ValidateSCIMToken. destruct (negb _); [done|]. destruct (_ =? "")%string; [done|].
  destruct (find _ tokens) as [[tok org]|] eqn:Ef; [|done]. apply find_some in Ef as [Hin _]. simpl.
  destruct (org =? "")%string eqn:Eo; [done|]. intros [= <-]. exists org. split; [done|].
  split; [by apply String.eqb_neq|eauto].
Qed.

Lemma Limit_pass now r ctx ctx' (l l' : RateLimiter R T) : Limit now r ctx l = (l', Pass ctx') -> ctx' = ctx.
Proof. unfold Limit. destruct (isAllowed _ _ _) as [l1 []]; by intros [= _ <-]. Qed.

(** What one middleware does when it lets a request through: the context it
    hands on, with the rest of the chain behind it. *)
Definition mw_ctx (now : Z) (g : Gates) (m : mw) (r : Request) (ctx ctx1 : Context) : Prop :=
  match m with
  | mwAuthJWT => exists t e, Verify now (extractToken r) (gtKeyring g) = Ok t /\ clExpiresAt (tkClaims t) = Some e /\
      (revokedCheck now (gtRedis g) (gtBreaker g) (clID (tkClaims t))).2 = false /\ ctx1 = withClaims (tkClaims t) e ctx
  | mwSCIM => exists org, ctx1 = withSCIM org ctx /\ org <> "" /\ exists tok, In (tok, org) (gtSCIM g)
  | _ => ctx1 = ctx
  end.

Lemma thread_cons now (g : Gates) m chain r ctx g' ctx' :
  thread now g (m :: chain) r ctx = (g', Pass ctx') ->
  exists g1 r1 ctx1, mw_ctx now g m r ctx ctx1 /\ thread now g1 chain r1 ctx1 = (g', Pass ctx') /\
    extractToken r1 = extractToken r /\ gtKeyring g1 = gtKeyring g /\ gtRedis g1 = gtRedis g /\ gtSCIM g1 = gtSCIM g /\
    (m <> mwAuthJWT -> gtBreaker g1 = gtBreaker g).
Proof.
  destruct m; simpl; intros Ha; try (by exists g, r, ctx).
  - by exists g, (set_remote (libRealIP r) r), ctx.
  - destruct (Limit _ _ _ _) as [l []] eqn:El; try done. apply Limit_pass in El as ->. by exists (set_gtLimiter l g), r, ctx.
  - destruct (AuthJWTWithBlocklist _ _ _ _ _ _) as [b []] eqn:Ea; try done. apply AuthJWT_pass in Ea.
    by exists (set_gtBreaker b g), r, ctx0.
  - destruct (SCIMAuth _ _ _) eqn:Es; try done. apply SCIM_pass in Es. by exists g, r, ctx0.
Qed.

(** Once authenticated, a request stays it. *)
Lemma thread_keeps now (g0 : Gates) chain : forall g r ctx g' ctx',
  authenticated now g0 (extractToken r) ctx -> gtKeyring g = gtKeyring g0 ->
  thread now g chain r ctx = (g', Pass ctx') -> authenticated now g0 (extractToken r) ctx'.
Proof.
  induction chain as [|m chain IH]; intros g r ctx g' ctx' Hau Hk Ha; [by injection Ha as _ <-|].
  apply thread_cons in Ha as (g1 & r1 & ctx1 & Hm & Ha & Ht & Hk1 & _). rewrite <- Ht in *.
  apply (IH g1 r1 ctx1 g' ctx'); [|by rewrite Hk1|done]. destruct m; simpl in Hm; try (by subst ctx1).
  - destruct Hm as (t & e & Hv & He & _ & ->). destruct Hau as (t0 & e0 & k & Hv0 & Hi & Hs & He0 & Hlt & Hr & _).
    assert (t = t0) as -> by (rewrite Hk, <- Ht in Hv; congruence). by exists t0, e0, k.
  - destruct Hm as (org & -> & _). exact Hau.
Qed.

Lemma thread_authenticated now chain : forall (g : Gates) r ctx g' ctx',
  In mwAuthJWT chain -> thread now g chain r ctx = (g', Pass ctx') -> authenticated now g (extractToken r) ctx'.
Proof.
  induction chain as [|m chain IH]; intros g r ctx g' ctx' Hin Ha; [done|].
  apply thread_cons in Ha as (g1 & r1 & ctx1 & Hm & Ha & Ht & Hk & Hr & _ & Hb).
  destruct (decide (m = mwAuthJWT)) as [->|Hne].
  - rewrite <- Ht. eapply thread_keeps; [|exact Hk|exact Ha]. destruct Hm as (t & e & Hv & He & Hrv & ->). rewrite <- Ht in Hv.
    destruct (Verify_sound _ _ _ _ Hv) as (k & Hi & _ & _ & _ & Hs & Hc & _). exists t, e, k.
    split_and!; try done. by apply Hc.
  - destruct Hin as [->|Hin]; [done|]. specialize (IH g1 r1 ctx1 g' ctx' Hin Ha). unfold authenticated in *.
    by rewrite Ht, Hk, Hr, Hb in IH.
Qed.

Lemma thread_scim now chain : forall (g : Gates) r ctx g' ctx',
  In mwSCIM chain -> ~ In mwAuthJWT chain -> thread now g chain r ctx = (g', Pass ctx') ->
  GetOrgID ctx' = GetOrgID ctx /\ GetSCIMOrgID ctx' <> "" /\ exists tok, In (tok, GetSCIMOrgID ctx') (gtSCIM g).
Proof.
  assert (Hkeep : forall chain (g : Gates) r ctx g' ctx', ~ In mwAuthJWT chain -> thread now g chain r ctx = (g', Pass ctx') ->
    GetOrgID ctx' = GetOrgID ctx /\ (GetSCIMOrgID ctx' = GetSCIMOrgID ctx \/
      GetSCIMOrgID ctx' <> "" /\ exists tok, In (tok, GetSCIMOrgID ctx') (gtSCIM g))).
  { clear chain. induction chain as [|m chain IH]; intros g r ctx g' ctx' Hn Ha; [injection Ha as _ <-; by split; [|left]|].
    apply thread_cons in Ha as (g1 & r1 & ctx1 & Hm & Ha & _ & _ & _ & Hsc & _).
    apply IH in Ha as [Ho Hs]; [|intros Hi; apply Hn; by right]. rewrite Hsc in Hs.
    destruct m; simpl in Hm; try (by subst ctx1); [exfalso; apply Hn; by left|].
    destruct Hm as (org & -> & Hne & tok & Hi). split; [done|]. right. destruct Hs as [-> |Hs]; [|done]. simpl. eauto. }
  induction chain as [|m chain IH]; intros g r ctx g' ctx' Hin Hn Ha; [done|]. pose proof Ha as Ha0.
  apply thread_cons in Ha as (g1 & r1 & ctx1 & Hm & Ha & _ & _ & _ & Hsc & _). rewrite <- Hsc.
  destruct (decide (m = mwSCIM)) as [->|Hne].
  - destruct Hm as (org & -> & Horg & tok & Hi). apply Hkeep in Ha as [Ho Hs]; [|intros Hx; apply Hn; by right].
    split; [done|]. destruct Hs as [->|Hs]; [|done]. simpl. rewrite Hsc. eauto.
  - destruct Hin as [->|Hin]; [done|]. apply IH in Ha as (Ho & Hs); [|done|intros Hx; apply Hn; by right].
    split; [|done]. rewrite Ho. destruct m; simpl in Hm; try (by subst ctx1); [exfalso; apply Hn; by left|done].
Qed.

(** What the tables are checked for. *)
Definition guarded (service : string) (r : Route string) : bool :=
  if existsb (String.eqb (rtHandler r)) (publicHandlers service)
  then negb (bool_decide (mwAuthJWT ∈ rtChain r)) && negb (bool_decide (mwSCIM ∈ rtChain r))
  else if existsb (String.eqb (rtHandler r)) scimHandlers
       then bool_decide (mwSCIM ∈ rtChain r) && negb (bool_decide (mwAuthJWT ∈ rtChain r))
       else bool_decide (mwAuthJWT ∈ rtChain r).

Lemma services_guarded : forallb (fun s : string * node string => forallb (guarded s.1) (table s.2)) services = true.
Proof. vm_compute. reflexivity. Qed.

Lemma route_guarded service n r : In (service, n) services -> In r (table n) -> guarded service r = true.
Proof.
  intros Hs Hr. pose proof services_guarded as Hg. rewrite forallb_forall in Hg. specialize (Hg _ Hs). cbv beta in Hg.
  rewrite forallb_forall in Hg. by apply Hg.
Qed.

(** C14: Every route asks for credentials.  In each of the nine services a
    handler that is none of the public ones runs only under the context of a
    verified, unexpired token that the blocklist did not refuse, or, for the
    five SCIM handlers, under the tenant of a known SCIM token.  The public
    ones, named by [publicHandlers], are the only routes without either. *)
Theorem every_route_guarded service n rt now (g : Gates) r g' ctx' :
  In (service, n) services -> In rt (table n) ->
  thread now g (rtChain rt) r background = (g', Pass ctx') ->
  if existsb (String.eqb (rtHandler rt)) (publicHandlers service)
  then ~ In mwAuthJWT (rtChain rt) /\ ~ In mwSCIM (rtChain rt)
  else if existsb (String.eqb (rtHandler rt)) scimHandlers
  then GetOrgID ctx' = "" /\ GetSCIMOrgID ctx' <> "" /\ exists tok, In (tok, GetSCIMOrgID ctx') (gtSCIM g)
  else authenticated now g (extractToken r) ctx'.
Proof.
  intros Hs Hr Ha. pose proof (route_guarded _ _ _ Hs Hr) as Hg. unfold guarded in Hg.
  destruct (existsb _ (publicHandlers service)); [|destruct (existsb _ scimHandlers)];
    rewrite ?andb_true_iff, ?negb_true_iff, ?bool_decide_eq_true, ?bool_decide_eq_false, ?list_elem_of_In in Hg.
  - done.
  - destruct Hg as [Hg1 Hg2]. exact (thread_scim _ _ _ _ _ _ _ Hg1 Hg2 Ha).
  - by eapply thread_authenticated.
Qed.
End properties.

(** *** Through the gateway *)

Section gateway.
Context `{MuxLaws}.

(** A route upstream that takes what the gateway forwards. *)
Definition upstreamOf (r : Route gwHandler) (r' : Route string) : bool :=
  ((rtMethod r' =? "") || (rtMethod r' =? rtMethod r))%string && bool_decide (rtPattern r' = rtPattern r) &&
  bool_decide (mwAuthJWT ∈ rtChain r').

Definition underV1 (p : list seg) : bool := match p with Lit s :: _ => (s =? "v1")%string | _ => false end.
Definition beginsOther (p : list seg) : bool := match p with Lit s :: _ => negb (s =? "v1")%string | _ => false end.

(** What the table of the gateway is checked for. *)
Definition forwarded (r : Route gwHandler) : bool :=
  negb (bool_decide (mwAuthJWT ∈ rtChain r)) &&
  match rtHandler r with
  | GwLocal _ => true
  | Proxy upIAM _ => underV1 (rtPattern r)
  | Proxy u _ => negb (rtMethod r =? "")%string && existsb (upstreamOf r) (table (upstreamRouter u))
  end.

Lemma gateway_forwarded r : In r (table controlPlane) -> forwarded r = true.
Proof.
  assert (Hf : forallb forwarded (table controlPlane) = true) by (vm_compute; reflexivity).
  rewrite forallb_forall in Hf. apply Hf.
Qed.

Lemma iam_elsewhere r : In r (table iamRouter) -> beginsOther (rtPattern r) = true.
Proof.
  assert (Hf : forallb (fun r => beginsOther (rtPattern r)) (table iamRouter) = true) by (vm_compute; reflexivity).
  rewrite forallb_forall in Hf. apply Hf.
Qed.

(** What the gateway forwards.  It asks for no credentials itself.  A
    request it forwards to the policy or the audit service has a route there
    for its method and path, behind the verification of tokens; a request it
    forwards to the identity service, which are those of SCIM, has none: the
    path goes through unchanged, and no route there begins with /v1. *)
Theorem gateway_reaches method path r :
  In r (table controlPlane) -> serves method path r ->
  ~ In mwAuthJWT (rtChain r) /\
  match rtHandler r with
  | GwLocal _ => True
  | Proxy upIAM _ => forall m' r', In r' (table iamRouter) -> ~ serves m' path r'
  | Proxy u _ => exists r', In r' (table (upstreamRouter u)) /\ serves method path r' /\ In mwAuthJWT (rtChain r')
  end.
Proof.
  intros Hr [Hm Hp]. apply gateway_forwarded, andb_true_iff in Hr as [Ha Hf].
  rewrite negb_true_iff, bool_decide_eq_false, list_elem_of_In in Ha. split; [done|].
  assert (Hup : forall u, negb (rtMethod r =? "")%string && existsb (upstreamOf r) (table (upstreamRouter u)) = true ->
    exists r', In r' (table (upstreamRouter u)) /\ serves method path r' /\ In mwAuthJWT (rtChain r')).
  { intros u [Hne Hx]%andb_true_iff. apply existsb_exists in Hx as (r' & Hi & Hx). exists r'. split; [done|].
    unfold upstreamOf in Hx. rewrite !andb_true_iff, orb_true_iff, !bool_decide_eq_true, list_elem_of_In in Hx.
    destruct Hx as [[Hmm Hpp] Hj]. split; [|done]. split; [|by rewrite Hpp].
    destruct Hm as [Hm|Hm]; [by rewrite Hm in Hne|]. rewrite !String.eqb_eq, Hm in Hmm. exact Hmm. }
  destruct (rtHandler r) as [name|[] cb]; [done|by apply Hup| |by apply Hup].
  intros m' r' Hi [_ Hp']. apply iam_elsewhere in Hi. unfold underV1 in Hf. unfold beginsOther in Hi.
  destruct (rtPattern r) as [|[s|] p]; try done. destruct (rtPattern r') as [|[s'|] p']; try done.
  apply muxMatch_lit in Hp as [rest Hp]. apply muxMatch_lit in Hp' as [rest' Hp']. rewrite Hp in Hp'.
  injection Hp' as <- _. rewrite Hf in Hi. done.
Qed.

(** Headers. *)
Lemma header_get_del names hs n :
  header_get n (delHeaders names hs) = if existsb (key_is n) names then "" else header_get n hs.
Proof.
  assert (Hsw : forall a b, key_is a b = key_is b a) by (intros a b; unfold key_is; by rewrite String.eqb_sym).
  assert (Htr : forall a b c, key_is a b = true -> key_is a c = key_is b c).
  { intros a b c Hab. unfold key_is in *. apply String.eqb_eq in Hab. by rewrite Hab. }
  unfold header_get, delHeaders. induction hs as [|[k v] hs IH]; simpl; [by destruct (existsb _ _)|].
  destruct (existsb (fun n0 => key_is n0 k) names) eqn:Ed; simpl.
  - rewrite IH. destruct (existsb (key_is n) names) eqn:En; [done|]. destruct (key_is n k) eqn:Ek; [|done].
    exfalso. apply existsb_exists in Ed as (m & Hm & Hmk). assert (Hn : existsb (key_is n) names = true); [|congruence].
    apply existsb_exists. exists m. split; [done|]. by rewrite (Htr n k m Ek), Hsw.
  - destruct (key_is n k) eqn:Ek; [|exact IH]. destruct (existsb (key_is n) names) eqn:En; [|done].
    exfalso. apply existsb_exists in En as (m & Hm & Hnm). assert (Hx : existsb (fun n0 => key_is n0 k) names = true); [|congruence].
    apply existsb_exists. exists m. split; [done|]. by rewrite <- (Htr n m k Hnm).
Qed.

Lemma find_app {A} (p : A -> bool) (l l' : list A) :
  find p (l ++ l') = match find p l with Some x => Some x | None => find p l' end.
Proof. induction l as [|x l IH]; simpl; [done|]. by destruct (p x). Qed.

(** A header other than X-Forwarded-For. *)
Lemma forward_header remote hs n :
  key_is n "X-Forwarded-For" = false ->
  header_get n (forwardHeaders remote hs) =
    if existsb (key_is n) (strippedHeaders ++ hopHeaders ++ connectionNames (delHeaders strippedHeaders hs)) then ""
    else header_get n hs.
Proof.
  intros Hn. unfold forwardHeaders.
  assert (Hb : header_get n (delHeaders (hopHeaders ++ connectionNames (delHeaders strippedHeaders hs)) (delHeaders strippedHeaders hs)) =
    if existsb (key_is n) (strippedHeaders ++ hopHeaders ++ connectionNames (delHeaders strippedHeaders hs)) then ""
    else header_get n hs).
  { rewrite !header_get_del, (existsb_app _ strippedHeaders). destruct (existsb (key_is n) (hopHeaders ++ _)); [by rewrite orb_true_r|].
    by rewrite orb_false_r. }
  rewrite <- Hb. clear Hb. generalize (delHeaders (hopHeaders ++ connectionNames (delHeaders strippedHeaders hs)) (delHeaders strippedHeaders hs)) as l.
  intros l. destruct (SplitHost remote) as [c|]; [|done]. pose proof (header_get_del ["X-Forwarded-For"] l n) as Hd.
  simpl in Hd. rewrite Hn in Hd. simpl in Hd. rewrite <- Hd. unfold header_get. rewrite find_app.
  destruct (find _ (delHeaders ["X-Forwarded-For"] _)); [done|]. simpl. by rewrite Hn.
Qed.

(** What the gateway lets through.  No service behind it sees a key of
    internal calls or a tenant that the client named in a header, so a
    service's check of that key always refuses; and unless the request lists
    the header as hop-by-hop, its token is the one the client sent. *)
Theorem gateway_headers gw key r ctx :
  APIKeyAuth key (forward gw r) ctx = Reject StatusUnauthorized "Unauthorized" /\
  (forall n, In n strippedHeaders -> header_get n (rqHeaders (forward gw r)) = "") /\
  (existsb (key_is "Authorization") (connectionNames (delHeaders strippedHeaders (rqHeaders r))) = false ->
   existsb (key_is "Cookie") (connectionNames (delHeaders strippedHeaders (rqHeaders r))) = false ->
   extractToken (forward gw r) = extractToken r).
Proof.
  assert (Hs : forall n, In n strippedHeaders -> header_get n (rqHeaders (forward gw r)) = "").
  { intros n Hn. simpl. rewrite forward_header by (by destruct Hn as [<-|[<-|[<-|[]]]]).
    rewrite existsb_app. by destruct Hn as [<-|[<-|[<-|[]]]]. }
  split; [|split; [done|]].
  - unfold APIKeyAuth. by rewrite Hs by (right; by left).
  - intros Ha Hc. unfold extractToken, forward. cbn [rqCookie rqHeaders]. rewrite Hc. destruct (rqCookie r); [done|].
    rewrite forward_header by done. rewrite !existsb_app, Ha. done.
Qed.

(** The address that the services limit by is the one the client names. *)
Lemma gateway_keeps_real_ip gw r :
  header_get "X-Real-IP" (rqHeaders r) <> "" -> connectionNames (delHeaders strippedHeaders (rqHeaders r)) = [] ->
  extractIP (forward gw r) = header_get "X-Real-IP" (rqHeaders r).
Proof.
  intros Hne Hc. unfold extractIP, forward. cbn [rqHeaders]. rewrite !forward_header by done. rewrite Hc. simpl.
  by rewrite (proj2 (String.eqb_neq _ _) Hne).
Qed.
End gateway.

(** Credentials are shared with known origins and the configured one only. *)
Lemma cors_credentials publicURL r h :
  In ("Access-Control-Allow-Origin", h) (cors publicURL r).1 ->
  h = header_get "Origin" (rqHeaders r) /\ h <> "" /\ (In h knownOrigins \/ h = publicURL).
Proof.
  unfold cors. cbn [fst]. destruct (allowedOrigin _ _) eqn:Eo; [|done]. intros [Hh|Hx].
  - injection Hh as Hh. split; [done|]. rewrite Hh in Eo. clear Hh. unfold allowedOrigin in Eo. rewrite orb_true_iff, andb_true_iff, negb_true_iff in Eo.
    destruct Eo as [Eo|[He Eo]].
    + apply existsb_exists in Eo as (o & Ho & Eq). apply String.eqb_eq in Eq. rewrite <- Eq in Ho. split; [|left; exact Ho].
      intros ->. destruct Ho as [Ho|[Ho|[Ho|[]]]]; discriminate Ho.
    + apply String.eqb_neq in He. apply String.eqb_eq in Eo. split; [congruence|by right].
  - exfalso. destruct Hx as [Hx|[Hx|[Hx|[]]]]; discriminate Hx.
Qed.

(** An open breaker answers 502 without a call; an upstream that answers,
    whatever the status, counts as a success. *)
Lemma proxy_breaker {B W} `{Breaker B} now (b : B) (rt : W -> W * res Response) w :
  match beforeRequest now b with
  | (b1, Some _) => proxyServe now (Some b) rt w = (Some b1, w, badGateway)
  | (b1, None) =>
      forall w' x, rt w = (w', x) ->
      proxyServe now (Some b) rt w =
        (Some (afterRequest now b1 (is_ok x)), w', match x with Ok resp => resp | Err _ => badGateway end)
  end.
Proof.
  unfold proxyServe, RoundTrip, Execute. destruct (beforeRequest now b) as [b1 [e|]]; [done|].
  intros w' x ->. by destruct x.
Qed.

(** A failure that names a status below 400 is logged as information. *)
Lemma log_downgraded below l z :
  flLevel l = "error" -> map_get (flContext l) "status" = Some (JNum z) -> (z < 400)%Z -> logLevel below l = LevelInfo.
Proof. intros Hl Hs Hz. unfold logLevel. rewrite Hl, Hs. simpl. by rewrite (proj2 (Z.ltb_lt _ _) Hz). Qed.

(** ** Examples *)

Module RouteExamples.
Import MiniCrypto.

Fixpoint matchSegs (p : list seg) (path : list string) : bool :=
  match p, path with
  | [], [] => true
  | Lit s :: p', s' :: path' => (s =? s')%string && matchSegs p' path'
  | Par :: p', _ :: path' => matchSegs p' path'
  | _, _ => false
  end.

#[local] Instance mux : Mux :=
  {| muxMatch p path := matchSegs p (pathSegments path);
     libRealIP r := let ip := header_get "X-Real-IP" (rqHeaders r) in if (ip =? "")%string then rqRemoteAddr r else ip |}.

#[local] Instance mux_laws : MuxLaws.
Proof.
  split. intros s p path. unfold muxMatch, mux. simpl. destruct (pathSegments path) as [|s' rest]; [done|].
  intros [Hs _]%andb_true_iff. apply String.eqb_eq in Hs as ->. eauto.
Qed.

Definition gates : Gates MiniRedis MiniBreaker MiniBucket :=
  mkGates oldRing (Some emptyRedis) (Some closedBreaker) [("scim-token", "o")] (mkRateLimiter ∅ None 1 5).
Definition create : Route string :=
  mkRoute "POST" [Lit "mgmt"; Lit "users"]
    [mwRequestID; mwRealIP; mwCorrelation; mwMetrics; mwRecoverer; mwRequestSize; mwSecurityHeaders; mwAuthJWT; mwIdempotency]
    "CreateUser".

Lemma every_route_guarded_witness :
  In create (table iamRouter) /\ authenticated (2000 * Second) gates "tok" authedCtx.
Proof.
  split; [do 3 right; left; reflexivity|].
  apply (every_route_guarded "iam" iamRouter create (2000 * Second) gates (bearer "tok")
           (thread (2000 * Second) gates (rtChain create) (bearer "tok") background).1 authedCtx).
  - left. reflexivity.
  - do 3 right. left. reflexivity.
  - vm_compute. reflexivity.
Defined.

Definition scimRoute : Route gwHandler :=
  mkRoute "GET" [Lit "v1"; Lit "scim"; Lit "v2"; Lit "Users"; Par]
    [mwRequestID; mwRealIP; mwCorrelation; mwMetrics; mwRecoverer; mwSecurityHeaders; mwCors; mwDeprecation] iamProxy.

Lemma gateway_reaches_witness :
  serves "GET" "/v1/scim/v2/Users/u1" scimRoute /\
  forall m r, In r (table iamRouter) -> ~ serves m "/v1/scim/v2/Users/u1" r.
Proof.
  assert (Hs : serves "GET" "/v1/scim/v2/Users/u1" scimRoute) by (split; [by right|reflexivity]).
  split; [exact Hs|]. apply (gateway_reaches "GET" "/v1/scim/v2/Users/u1" scimRoute).
  - vm_compute. do 12 right. left. reflexivity.
  - exact Hs.
Defined.
End RouteExamples.
