(* ===== verification/SdkIngest.v ===== *)
(** The rest of the client library, sdk/events.go and the options of
    sdk/client.go, and its requests on their way through the gateway
    ([Routes]) to the services that authenticate them ([Middleware]).  The
    network, the clock, fresh ids and the files of certificates are inputs. *)

From S2P Require Import Prelude GoStrings Json Redis Resilience Crypto Http Middleware RateLimit PolicyEngine PolicyService PolicyHandlers Sdk Routes.
From stdpp Require Import gmap.

(** ** Configuration *)

(** [gobreaker.Counts], as far as [ReadyToTrip] reads it. *)
Record Counts := mkCounts { cnRequests : Z; cnTotalFailures : Z; cnConsecutiveFailures : Z }.

Record SdkBreaker := mkSdkBreaker { sbMaxRequests : Z; sbTimeout : Z; sbReadyToTrip : Counts -> bool }.

Definition u32 (z : Z) : Z := (z mod 2 ^ 32)%Z.

(** The settings of [WithCircuitBreaker].  A quotient of two 32-bit numbers
    exceeds one half as a float64 exactly when it does. *)
Definition sdkBreaker (threshold timeout : Z) : SdkBreaker :=
  mkSdkBreaker (u32 threshold) timeout
    (fun c => (u32 threshold <=? cnConsecutiveFailures c)%Z ||
              ((10 <=? cnRequests c)%Z && (cnRequests c <? 2 * cnTotalFailures c)%Z)).

(** The TLS settings of the transport: the authorities and the certificate by
    the files they come from. *)
Record TLSConfig := mkTLS { tlsRoots : option string; tlsCertificate : option (string * string); tlsInsecure : bool }.

Record SdkClient := mkSdkClient {
  scBaseURL : string;
  scAPIKey : string;
  scClient : Client;                    (* orgID, failOpen, retryMax *)
  scRetryDelay : Z;
  scExponential : bool;
  scCache : localCache;
  scBreaker : option SdkBreaker;
  scTLS : option TLSConfig;
}.

Definition set_scClient (c : Client) (s : SdkClient) : SdkClient :=
  mkSdkClient (scBaseURL s) (scAPIKey s) c (scRetryDelay s) (scExponential s) (scCache s) (scBreaker s) (scTLS s).
Definition set_scTLS (t : option TLSConfig) (s : SdkClient) : SdkClient :=
  mkSdkClient (scBaseURL s) (scAPIKey s) (scClient s) (scRetryDelay s) (scExponential s) (scCache s) (scBreaker s) t.

Definition ClientOption : Type := SdkClient -> SdkClient.

Definition WithOrgID (orgID : string) : ClientOption := fun s =>
  set_scClient (mkClient orgID (clFailOpen (scClient s)) (clRetryMax (scClient s))) s.
Definition WithFailOpen (enabled : bool) : ClientOption := fun s =>
  set_scClient (mkClient (clOrg (scClient s)) enabled (clRetryMax (scClient s))) s.
Definition WithRetry (attempts delay : Z) (exponential : bool) : ClientOption := fun s =>
  mkSdkClient (scBaseURL s) (scAPIKey s) (mkClient (clOrg (scClient s)) (clFailOpen (scClient s)) attempts) delay exponential
    (scCache s) (scBreaker s) (scTLS s).
Definition WithCircuitBreaker (threshold timeout : Z) : ClientOption := fun s =>
  mkSdkClient (scBaseURL s) (scAPIKey s) (scClient s) (scRetryDelay s) (scExponential s) (scCache s)
    (Some (sdkBreaker threshold timeout)) (scTLS s).
(** The cache is replaced by an empty one. *)
Definition WithCacheTTL (ttl : Z) : ClientOption := fun s =>
  mkSdkClient (scBaseURL s) (scAPIKey s) (scClient s) (scRetryDelay s) (scExponential s) (newLocalCache ttl) (scBreaker s) (scTLS s).
Definition WithInsecureSkipVerify : ClientOption := fun s =>
  let t := default (mkTLS None None false) (scTLS s) in
  set_scTLS (Some (mkTLS (tlsRoots t) (tlsCertificate t) true)) s.

(** [readable] tells whether the file of authorities can be read, [keyPair]
    whether the two files are a certificate and its key. *)
Definition WithMTLS (readable : string -> bool) (keyPair : string -> string -> bool) (ca cert key : string) : ClientOption :=
  fun s =>
    if negb (readable ca) then s
    else set_scTLS (Some (mkTLS (Some ca)
           (if negb (cert =s? "") && negb (key =s? "") && keyPair cert key then Some (cert, key) else None) false)) s.

Definition NewClient (baseURL apiKey : string) (opts : list ClientOption) : SdkClient :=
  fold_left (fun s o => o s) opts
    (mkSdkClient baseURL apiKey (mkClient "" false 0) 0 false (newLocalCache (60 * Second)) None None).

(** The wait before attempt [i + 1]; [jitter], in nanoseconds, is random and
    at most a tenth. *)
Definition retryWait (s : SdkClient) (i : nat) (jitter : Z) : Z :=
  if scExponential s then (scRetryDelay s * 2 ^ Z.of_nat i + jitter)%Z else scRetryDelay s.

(** ** Requests *)

(** The headers [do] sets; the client has no cookies. *)
Definition sdkRequest (method remote : string) (s : SdkClient) : Request :=
  mkRequest method None
    [("X-API-Key", scAPIKey s); ("Content-Type", "application/json"); ("User-Agent", "openguard-go-sdk/v1.0")] remote.

(** [EvaluationRequest], the body of [Sdk.Allow]'s requests. *)
Definition evaluationRequest (subjectID action resource : string) : json :=
  JObj [("subject_id", JStr subjectID); ("action", JStr action); ("resource", JStr resource)].

Record AuditEvent := mkAuditEvent {
  aeEventID : string;
  aeEventType : string;
  aeUserID : string;
  aeOrgID : string;
  aeResourceID : string;
  aeMetadata : gomap;
  aeTimestamp : option Z;               (* [None]: the zero time *)
}.

Section ingest.
Context {B : Type} `{Breaker B}.
Variable timeDoc : Z -> json.
(** [json.Marshal] of a map. *)
Variable mapDoc : gmap string json -> json.

(** Empty members are left out where the tags say so. *)
Definition eventDoc (e : AuditEvent) : json :=
  JObj ([("event_id", JStr (aeEventID e)); ("event_type", JStr (aeEventType e)); ("user_id", JStr (aeUserID e));
         ("org_id", JStr (aeOrgID e))] ++
        (if aeResourceID e =s? "" then [] else [("resource_id", JStr (aeResourceID e))]) ++
        match aeMetadata e with
        | Some m => if decide (m = ∅) then [] else [("metadata", mapDoc m)]
        | None => []
        end ++
        match aeTimestamp e with Some t => [("timestamp", timeDoc t)] | None => [] end).

(** The id and the instant, where the caller gave none. *)
Definition completeEvent (uuid : string) (now : Z) (e : AuditEvent) : AuditEvent :=
  mkAuditEvent (if aeEventID e =s? "" then uuid else aeEventID e) (aeEventType e) (aeUserID e) (aeOrgID e) (aeResourceID e)
    (aeMetadata e) (Some (default now (aeTimestamp e))).

(** [IngestEvent]: the body sent, the breaker, the number of requests and the
    error; the body of the answer is not read. *)
Definition IngestEvent (uuid : string) (now : Z) (at_ : nat -> Z) (reply : nat -> httpReply) (cancel : nat -> option goerr)
  (c : Client) (event : AuditEvent) (b : option B) : json * option B * nat * res unit :=
  let '(b', n, r) := do_ (fun u _ => Ok u) tt at_ reply cancel (clRetryMax c) b in
  (eventDoc (completeEvent uuid now event), b', n, r).
End ingest.

(** ** Properties of the options *)

(** Fail closed, one attempt and a minute of cache, unless an option says
    otherwise. *)
Lemma NewClient_defaults baseURL apiKey :
  let s := NewClient baseURL apiKey [] in
  clFailOpen (scClient s) = false /\ clRetryMax (scClient s) = 0%Z /\ lcTTL (scCache s) = Minute /\ scBreaker s = None.
Proof. done. Qed.

(** Options are applied in order: verification that was switched off is
    switched on again by a later [WithMTLS], and only by that. *)
Lemma mtls_last readable keyPair ca cert key opts baseURL apiKey :
  readable ca = true ->
  tlsInsecure <$> scTLS (NewClient baseURL apiKey (opts ++ [WithMTLS readable keyPair ca cert key])) = Some false.
Proof. intros Hr. unfold NewClient. rewrite fold_left_app. simpl. unfold WithMTLS. by rewrite Hr. Qed.

Lemma insecure_last opts baseURL apiKey :
  tlsInsecure <$> scTLS (NewClient baseURL apiKey (opts ++ [WithInsecureSkipVerify])) = Some true.
Proof. unfold NewClient. by rewrite fold_left_app. Qed.

(** The breaker trips on a run of failures, or on a majority of failures in
    ten requests. *)
Lemma sdkBreaker_trips threshold timeout c :
  (0 <= threshold < 2 ^ 32)%Z ->
  sbReadyToTrip (sdkBreaker threshold timeout) c = true <->
  (threshold <= cnConsecutiveFailures c)%Z \/ (10 <= cnRequests c < 2 * cnTotalFailures c)%Z.
Proof.
  intros Ht. unfold sdkBreaker, u32. cbn [sbReadyToTrip]. rewrite Z.mod_small by done.
  rewrite orb_true_iff, andb_true_iff, !Z.leb_le, Z.ltb_lt. lia.
Qed.

(** A threshold of zero, or of 2^32, trips at once. *)
Lemma sdkBreaker_wraps timeout c : (0 <= cnConsecutiveFailures c)%Z -> sbReadyToTrip (sdkBreaker (2 ^ 32) timeout) c = true.
Proof. intros Hc. unfold sdkBreaker. cbn [sbReadyToTrip]. by rewrite (proj2 (Z.leb_le _ _)) by exact Hc. Qed.

(** All the waits of [n] exponential retries, with a tenth of jitter at most. *)
Fixpoint totalWait (s : SdkClient) (jitter : nat -> Z) (n : nat) : Z :=
  match n with 0 => 0%Z | S n' => (totalWait s jitter n' + retryWait s n' (jitter n'))%Z end.

Lemma totalWait_bounds s jitter n :
  scExponential s = true -> (0 <= scRetryDelay s)%Z ->
  (forall i, 0 <= 10 * jitter i <= scRetryDelay s * 2 ^ Z.of_nat i)%Z ->
  (scRetryDelay s * (2 ^ Z.of_nat n - 1) <= totalWait s jitter n)%Z /\
  (10 * totalWait s jitter n <= 11 * (scRetryDelay s * (2 ^ Z.of_nat n - 1)))%Z.
Proof.
  intros He Hd Hj. induction n as [|n [IH1 IH2]]; [simpl; lia|]. cbn [totalWait]. unfold retryWait. rewrite He.
  specialize (Hj n). replace (2 ^ Z.of_nat (S n))%Z with (2 * 2 ^ Z.of_nat n)%Z by (rewrite Nat2Z.inj_succ, Z.pow_succ_r; lia).
  lia.
Qed.

(** The policy service understands the question, for the tenant of the token;
    the groups of the user are not part of it. *)
Lemma request_understood {W} `{PolicySvc W} org subject action resource (w : W) :
  org <> "" -> subject <> "" -> action <> "" -> resource <> "" ->
  forall w' x, svcEvaluate (mkEvaluateRequest org subject [] action resource) w = (w', Ok x) ->
  body (HandleEvaluate org (Some (evaluationRequest subject action resource)) w).2 = responseDoc x.
Proof.
  intros Ho Hs Ha Hr w' x He. unfold HandleEvaluate.
  change (decode_body upd_EvaluateRequest zeroRequest (Some (evaluationRequest subject action resource)))
    with (Ok (mkEvaluateRequest "" subject [] action resource)).
  cbn [SubjectID Action Resource UserGroups OrgID]. apply String.eqb_neq in Ho, Hs, Ha, Hr. rewrite Ho, Hs, Ha, Hr, He. done.
Qed.

(** A negative number of retries sends nothing, and reports success. *)
Lemma negative_retries_lose {B} `{Breaker B} timeDoc mapDoc uuid now at_ reply cancel c event (b : option B) :
  (clRetryMax c < 0)%Z ->
  exists doc, IngestEvent timeDoc mapDoc uuid now at_ reply cancel c event b = (doc, b, 0, Ok tt).
Proof. intros Hr. unfold IngestEvent, do_. rewrite (proj2 (Z.ltb_lt _ _) Hr). eauto. Qed.

(** ** Through the gateway *)

Section refused.
Context {R B T : Type} `{Redis R} `{Breaker B} `{TokenBucket T} `{Jwt} `{Mux}.

#[local] Notation Gates := (Gates R B T).

(** A request without a token does not get past the verification of tokens. *)
Lemma thread_no_token now chain : forall (g : Gates) r ctx,
  In mwAuthJWT chain -> extractToken r = "" ->
  exists st msg, (thread now g chain r ctx).2 = Reject st msg /\ (400 <= st < 500)%Z.
Proof.
  assert (Hrej : forall (g : Gates) st msg, (400 <= st < 500)%Z ->
    exists st0 msg0, (g, Reject st msg).2 = Reject st0 msg0 /\ (400 <= st0 < 500)%Z) by (intros; simpl; eauto).
  assert (H401 : (400 <= StatusUnauthorized < 500)%Z) by done.
  assert (H429 : (400 <= StatusTooManyRequests < 500)%Z) by done.
  induction chain as [|m chain IH]; intros g r ctx Hin Ht; [done|].
  destruct (decide (m = mwAuthJWT)) as [->|Hne].
  - cbn [thread]. unfold AuthJWTWithBlocklist. rewrite Ht. cbn [String.eqb]. by apply Hrej.
  - destruct Hin as [->|Hin]; [done|]. destruct m; try (by apply (IH g r ctx)); cbn [thread]; [| |done|].
    + by apply (IH g (set_remote (libRealIP r) r) ctx).
    + unfold Limit. destruct (isAllowed _ _ _) as [l []]; [by apply IH|by apply Hrej].
    + unfold SCIMAuth. destruct (negb _); [by apply Hrej|]. destruct (_ =s? _); [by apply Hrej|].
      destruct (ValidateSCIMToken _ _); [|by apply Hrej]. destruct (_ =s? _); [by apply Hrej|]. by apply IH.
Qed.

(** What a client gets to see of a request: no answer, the answer of a gateway
    that could not reach the service, or that of the service.  A handler that
    runs answers as it likes. *)
Inductive answers (method : string) (s : SdkClient) : httpReply -> Prop :=
| an_network e : answers method s (NetError e)
| an_gateway : answers method s (Reply (status badGateway) None)
| an_service now (g : Gates) router rt viaGateway remote gw handler :
    In router [policyRouter; auditRouter] -> In rt (table router) -> In mwAuthJWT (rtChain rt) ->
    let r := sdkRequest method remote s in
    answers method s
      match (thread now g (rtChain rt) (if viaGateway : bool then forward gw r else r) background).2 with
      | Reject st _ => Reply st None
      | Pass ctx => handler ctx
      | Panic => Reply StatusInternalServerError None
      end.

Lemma sdk_no_token method remote s gw : extractToken (forward gw (sdkRequest method remote s)) = "".
Proof.
  destruct (gateway_headers gw "" (sdkRequest method remote s) background) as (_ & _ & Hx).
  rewrite Hx by done. done.
Qed.

Lemma answers_fail method s reply {A} (decode : A -> raw -> res A) zero :
  answers method s reply -> exists e, operation decode zero reply = Err e.
Proof.
  intros [e| |now g router rt via remote gw handler _ _ Ha r]; [eauto|simpl; eauto|].
  assert (Ht : extractToken (if via then forward gw r else r) = "") by (destruct via; [apply sdk_no_token|done]).
  destruct (thread_no_token now (rtChain rt) g _ background Ha Ht) as (st & msg & -> & Hst). cbn [operation].
  destruct (_ || _); [eauto|]. destruct (_ || _); [eauto|]. rewrite (proj2 (Z.leb_le _ _)) by lia. eauto.
Qed.
End refused.

(** The middleware that knows API keys reads another header. *)
Lemma sdk_key_unread `{Kdf} sha256hex get find_ method remote s ctx :
  APIKeyAuthComplex sha256hex get find_ (sdkRequest method remote s) ctx =
    (Reject StatusUnauthorized "Unauthorized: missing API key", None).
Proof. done. Qed.

Section client.
Context {R B T : Type} `{Redis R} `{Breaker B} `{TokenBucket T} `{Jwt} `{Mux}.

(** No service takes the client library for anyone.  Its requests carry an
    API key in X-API-Key and no token, and every route of the policy and the
    audit service that stands behind the verification of tokens refuses them,
    sent directly or through the gateway.  So however the network, the
    gateway, the limits and the tokens of the services are, an event handed
    to [IngestEvent] is reported as failed, and a decision that is not cached
    is the configured failure mode: every decision is a denial, or with
    [WithFailOpen] every decision is a permission. *)
Theorem sdk_requests_refused s (reply : nat -> httpReply) :
  (forall i, answers (R := R) (B := B) (T := T) "POST" s (reply i)) -> (0 <= clRetryMax (scClient s))%Z ->
  (forall timeDoc mapDoc uuid now at_ cancel event b,
     exists e, (IngestEvent (B := B) timeDoc mapDoc uuid now at_ reply cancel (scClient s) event b).2 = Err e) /\
  (forall now tSet at_ cancel subject action resource cache b,
     GetOrStale now (decisionKey (clOrg (scClient s)) subject action resource) cache = None ->
     exists b' n, Sdk.Allow (B := B) now tSet at_ reply cancel (scClient s) subject action resource cache b =
       (cache, b', n, clFailOpen (scClient s))).
Proof.
  intros Ha Hr.
  assert (Hdo : forall A (decode : A -> raw -> res A) zero at_ cancel b,
    exists b' n e, do_ (B := B) decode zero at_ reply cancel (clRetryMax (scClient s)) b = (b', n, Err e)).
  { intros A decode zero at_ cancel b. destruct (do_ _ _ _ _ _ _ _) as [[b' n] [a|e]] eqn:Ed; [|eauto].
    apply do_spec in Ed as [_ Hd]. destruct (Hd a eq_refl) as [[k Hk]|[Hn _]]; [|lia].
    destruct (answers_fail "POST" s (reply k) decode zero (Ha k)) as [e He]. congruence. }
  split.
  - intros timeDoc mapDoc uuid now at_ cancel event b. unfold IngestEvent.
    destruct (Hdo unit (fun u _ => Ok u) tt at_ cancel b) as (b' & n & e & ->). eauto.
  - intros now tSet at_ cancel subject action resource cache b Hg. unfold Sdk.Allow. rewrite Hg.
    destruct (Hdo _ (unmarshal_struct upd_EvaluationResponse) noResponse at_ cancel b) as (b' & n & e & ->). eauto.
Qed.
End client.

(** ** Examples *)

Module SdkExamples.
Import MiniCrypto RouteExamples.
#[local] Existing Instance mux.

Definition client : SdkClient := NewClient "https://gateway" "ogk_key" [WithOrgID "org1"; WithRetry 2 (100 * Millisecond) true].

Definition evaluateRoute : Route string :=
  mkRoute "POST" [Lit "v1"; Lit "policy"; Lit "evaluate"]
    [mwRequestID; mwRealIP; mwLogger; mwRecoverer; mwRequestSize; mwTimeout; mwSecurityHeaders; mwRateLimit; mwAuthJWT] "Evaluate".

(** A policy service that would allow whatever reaches its handler. *)
Definition refusal : httpReply :=
  match (thread (2000 * Second) gates (rtChain evaluateRoute) (forward "10.0.0.1" (sdkRequest "POST" "203.0.113.7:5000" client)) background).2 with
  | Reject st _ => Reply st None
  | Pass ctx => allowReply
  | Panic => Reply StatusInternalServerError None
  end.

Lemma sdk_requests_refused_witness :
  refusal = Reply StatusUnauthorized None /\
  exists b n, Sdk.Allow (B := MiniBreaker) 0 0 (fun _ => 0%Z) (fun _ => refusal) never (scClient client) "u" "read" "doc"
    (scCache client) None = (scCache client, b, n, false).
Proof.
  split; [vm_compute; reflexivity|].
  apply (sdk_requests_refused (R := MiniRedis) (B := MiniBreaker) (T := MiniBucket) client (fun _ => refusal)).
  - intros _. apply (an_service "POST" client (2000 * Second) gates policyRouter evaluateRoute true "203.0.113.7:5000" "10.0.0.1" (fun _ => allowReply)).
    + by left.
    + vm_compute. do 10 right. by left.
    + simpl. do 8 right. by left.
  - vm_compute. discriminate.
  - reflexivity.
Defined.
End SdkExamples.
