(* ===== verification/IamMiddleware.v ===== *)
(** The identity service's own middlewares, services/iam/pkg/middleware/auth.go
    and middleware.go, and how its check of tokens, which no router uses,
    compares with the shared one that they use ([Middleware]). *)

From S2P Require Import Prelude GoStrings Json Redis Resilience Crypto Http Middleware.

(** The values of this package's context keys. *)
Record IamContext := mkIamContext {
  icUserID : option string;
  icOrgID : option string;
  icJTI : option string;
  icExpiresAt : option Z;
  icCorrelation : option string;          (* of the scoped logger *)
}.

Definition iamBackground : IamContext := mkIamContext None None None None None.

Definition GetUserID (ctx : IamContext) : string := default "" (icUserID ctx).
Definition GetOrgID (ctx : IamContext) : string := default "" (icOrgID ctx).
Definition GetJTI (ctx : IamContext) : string := default "" (icJTI ctx).
(** [None]: the zero time. *)
Definition GetExpiresAt (ctx : IamContext) : option Z := icExpiresAt ctx.

Inductive iamVerdict :=
| IamReject (st : Z) (msg : string)
| IamPass (ctx : IamContext)
| IamPanic.

(** [Correlation]: the id of the request, or a fresh one. *)
Definition Correlation (uuid : string) (r : Request) (ctx : IamContext) : IamContext :=
  let id := header_get "X-Correlation-ID" (rqHeaders r) in
  mkIamContext (icUserID ctx) (icOrgID ctx) (icJTI ctx) (icExpiresAt ctx) (Some (if id =s? "" then uuid else id)).

Section auth.
Context {R : Type} `{Redis R} `{Jwt}.

(** The cookie, and the header when there is no cookie or an empty one. *)
Definition authToken (r : Request) : string :=
  let cookie := default "" (rqCookie r) in
  if cookie =s? "" then
    let authHeader := header_get "Authorization" (rqHeaders r) in
    if HasPrefix authHeader "Bearer " then TrimPrefix authHeader "Bearer " else ""
  else cookie.

Definition iamClaims (c : StandardClaims) (exp : Z) (ctx : IamContext) : IamContext :=
  mkIamContext (Some (clUserID c)) (Some (clOrgID c)) (Some (clID c)) (Some exp) (icCorrelation ctx).

Definition Auth (now : Z) (keyring : list JWTKey) (rdb : option R) (r : Request) (ctx : IamContext) : iamVerdict :=
  let tokenStr := authToken r in
  if tokenStr =s? "" then IamReject StatusUnauthorized "Unauthorized: missing token"
  else match Verify now tokenStr keyring with
  | Err _ => IamReject StatusUnauthorized "Unauthorized: invalid token"
  | Ok t =>
      let next := match clExpiresAt (tkClaims t) with
                  | Some e => IamPass (iamClaims (tkClaims t) e ctx)
                  | None => IamPanic                                      (* a nil date *)
                  end in
      match rdb with
      | None => next
      | Some s =>
          match rexists now s (blocklistKey (clID (tkClaims t))) with
          | Err _ => IamReject StatusUnauthorized "Unauthorized: auth service unavailable"
          | Ok true => IamReject StatusUnauthorized "Unauthorized: token revoked"
          | Ok false => next
          end
      end
  end.

(** ** Properties *)

Lemma authToken_shared r : rqCookie r <> Some "" -> authToken r = extractToken r.
Proof.
  intros Hc. unfold authToken, extractToken. destruct (rqCookie r) as [c|]; [|done]. simpl.
  destruct (c =s? "") eqn:E; [|done]. bool_to_prop. by subst c.
Qed.

(** The two verdicts say the same. *)
Definition same_verdict (v : iamVerdict) (v' : verdict) : Prop :=
  match v, v' with
  | IamReject st msg, Reject st' msg' => st = st' /\ msg = msg'
  | IamPass c, Pass c' =>
      GetUserID c = Middleware.GetUserID c' /\ GetOrgID c = Middleware.GetOrgID c' /\ GetJTI c = Middleware.GetJTI c' /\
      GetExpiresAt c = Middleware.GetExpiresAt c'
  | IamPanic, Panic => True
  | _, _ => False
  end.

Context {B : Type} `{Breaker B}.

(** C13: Two checks of tokens, and where they differ.  The check of the identity
    service and the shared one behind every router are compared on every
    request, with the same keys and the same Redis or none.  With an empty
    session cookie the shared one refuses the request, the other reads the
    header as if there were no cookie.  Otherwise they decide alike, with the
    same user, tenant and token, but for a token that verifies in two cases:
    when Redis does not answer, the first refuses the token, as its comment
    says, and the second lets it through; and when the breaker, which only
    the second has, refuses to ask, the second lets through a token that the
    first finds revoked. *)
Theorem Auth_against_shared now keyring (rdb : option R) (b : B) r ictx ctx :
  let v := Auth now keyring rdb r ictx in
  let v' := (AuthJWTWithBlocklist now keyring rdb (Some b) r ctx).2 in
  (rqCookie r = Some "" ->
     v' = Reject StatusUnauthorized "Unauthorized: missing token" /\
     v = Auth now keyring rdb (mkRequest (rqMethod r) None (rqHeaders r) (rqRemoteAddr r)) ictx) /\
  (rqCookie r <> Some "" ->
   match rdb, Verify now (extractToken r) keyring with
   | Some s, Ok t =>
       let through := match clExpiresAt (tkClaims t) with Some e => Pass (withClaims (tkClaims t) e ctx) | None => Panic end in
       match rexists now s (blocklistKey (clID (tkClaims t))), (beforeRequest now b).2 with
       | Ok true, Some _ => extractToken r <> "" ->
           v = IamReject StatusUnauthorized "Unauthorized: token revoked" /\ v' = through
       | Err _, _ => extractToken r <> "" ->
           v = IamReject StatusUnauthorized "Unauthorized: auth service unavailable" /\ v' = through
       | _, _ => same_verdict v v'
       end
   | _, _ => same_verdict v v'
   end).
Proof.
  cbv zeta. split.
  - intros Hc. unfold Auth, AuthJWTWithBlocklist, authToken, extractToken. rewrite Hc. done.
  - intros Hc. unfold Auth, AuthJWTWithBlocklist. rewrite authToken_shared by done. cbv zeta.
    destruct (extractToken r =s? "") eqn:Et.
    { repeat case_match; try done; intros Hne; bool_to_prop; done. }
    destruct (Verify _ _ _) as [t|]; [|by destruct rdb]. unfold revokedCheck, Call, Execute.
    destruct rdb as [s|]; [|by destruct (clExpiresAt (tkClaims t))].
    destruct (beforeRequest now b) as [b1 [e|]];
      destruct (rexists now s (blocklistKey (clID (tkClaims t)))) as [[]|e']; simpl;
      repeat match goal with |- context [errors_is ?a ?b] => destruct (errors_is a b) end; simpl;
      by destruct (clExpiresAt (tkClaims t)).
Qed.
End auth.

(** ** Examples *)

Module IamMiddlewareExamples.
Import MiniCrypto.

Definition down : MiniRedis := mkMiniRedis ∅ true.

Lemma Auth_against_shared_witness :
  Auth (2000 * Second) oldRing (Some down) (bearer "tok") iamBackground =
    IamReject StatusUnauthorized "Unauthorized: auth service unavailable" /\
  (AuthJWTWithBlocklist (2000 * Second) oldRing (Some down) (Some closedBreaker) (bearer "tok") background).2 = Pass authedCtx.
Proof.
  assert (Hv : Verify (2000 * Second) (extractToken (bearer "tok")) oldRing = Ok token) by (vm_compute; reflexivity).
  assert (Hc : rqCookie (bearer "tok") <> Some "") by discriminate.
  destruct (Auth_against_shared (2000 * Second) oldRing (Some down) closedBreaker (bearer "tok") iamBackground background) as [_ Hx].
  specialize (Hx Hc). rewrite Hv in Hx. apply Hx. discriminate.
Defined.

(** An empty cookie hides the header from the shared check only. *)
Example empty_cookie :
  let r := mkRequest "POST" (Some "") [("Authorization", "Bearer tok")] "" in authToken r = "tok" /\ extractToken r = "".
Proof. split; reflexivity. Qed.
End IamMiddlewareExamples.
