(* ===== verification/Detectors.v ===== *)
(** The threat service as it runs: the seven reading loops of its six
    detectors ([Run], [consumeAuth] and [consumePolicy] of
    services/threat/pkg/detector) over one Redis and one collection of alerts,
    interleaved with each other, with restarts and with other clients.  What
    a message does is [Threat]. *)

From S2P Require Import Prelude GoStrings Json Redis AlertStore Threat ThreatSpec.
From stdpp Require Import relations.

(** ** Settings *)

(** [NewOffHoursDetector]: an hour from the environment. *)
Definition hourSetting (dflt : Z) (env : string) : Z :=
  if env =s? "" then dflt else match Atoi env with Some n => n | None => dflt end.
Definition offStartOf : string -> Z := hourSetting 22.
Definition offEndOf : string -> Z := hourSetting 6.

(** ** The loops *)

Inductive loop :=
| BruteForce | ImpossibleTravel | OffHours | AccountTakeover | PrivilegeAuth | PrivilegePolicy | DataExfiltration.

#[global] Instance loop_eq_dec : EqDecision loop.
Proof. solve_decision. Defined.

(** The name on the alerts of a loop's detector. *)
Definition detectorOf (l : loop) : string :=
  match l with
  | BruteForce => "brute_force"
  | ImpossibleTravel => "impossible_travel"
  | OffHours => "off_hours_access"
  | AccountTakeover => "account_takeover"
  | PrivilegeAuth | PrivilegePolicy => "privilege_escalation"
  | DataExfiltration => "data_exfiltration"
  end.

(** What a message meets: the clock, the fresh members of sorted sets, and the
    failures of the collaborators. *)
Record DetEnv := mkDetEnv {
  deNow : Z;
  deMember : string;
  deMember2 : string;
  deEmit : emitFaults;
  deGetSet : option (goerr * bool);
}.

Section service.
Context {R : Type} `{Redis R} `{ObjectIDs}.
Variable alertDoc : Alert -> json.
Variable maxAttempts offStart offEnd : Z.
Variable dateOf : Z -> string.
Variable sha256hex : string -> string.
Variable meanIsZero : option rval -> bool.
Variable exceeds3Sigma : Z -> option rval -> option rval -> bool.
Variable baselineDoc : option rval -> json.
Context {F : Type}.
Variable haversine : F -> F -> F -> F -> F.
Variable above : F -> F -> bool.
Variable geolocate : string -> option (F * F).
Variable loginDoc : LastLogin F -> json.
Variable loginOf : raw -> res (LastLogin F).
Variable floatDoc : F -> json.
Variable secondsDoc : Z -> json.
Variable threshold : F.

Definition processBy (l : loop) (env : DetEnv) (value : raw) (st : ThreatState R) : ThreatState R * option goerr :=
  match l with
  | BruteForce =>
      processBruteForce alertDoc maxAttempts (deNow env) (deMember env) (deMember2 env) (deEmit env) value st
  | ImpossibleTravel =>
      processTravel alertDoc F haversine above geolocate loginDoc loginOf floatDoc secondsDoc threshold (deNow env)
        (deEmit env) (deGetSet env) value st
  | OffHours => processOffHours alertDoc dateOf offStart offEnd (deNow env) (deEmit env) value st
  | AccountTakeover => processTakeover alertDoc sha256hex (deNow env) (deEmit env) value st
  | PrivilegeAuth => processAuthEvent (deNow env) value st
  | PrivilegePolicy => processPolicyEvent alertDoc (deNow env) (deEmit env) value st
  | DataExfiltration =>
      processExfiltration alertDoc meanIsZero exceeds3Sigma baselineDoc (deNow env) (deMember env) (deEmit env) value st
  end.

(** A reader of a group: the message it fetches next, and the offset a restart
    begins with. *)
Record Cursor := mkCursor { cuNext : nat; cuCommitted : nat }.

Record Service := mkService {
  svState : ThreatState R;
  svCursors : loop -> Cursor;
  svLog : list (loop * nat * option goerr);     (* the messages handled, with the error of each *)
}.

Definition startService (st : ThreatState R) : Service := mkService st (fun _ => mkCursor 0 0) [].

Definition set_cursor (l : loop) (c : Cursor) (cs : loop -> Cursor) : loop -> Cursor :=
  fun l' => if decide (l' = l) then c else cs l'.

(** One turn of a loop: [FetchMessage], [processEvent] and, only when that
    succeeded, [CommitMessages], whose error is only logged; [stored] tells
    whether the commit took effect. *)
Definition runLoop (topic : loop -> nat -> raw) (l : loop) (env : DetEnv) (stored : bool) (s : Service) : Service :=
  let c := svCursors s l in
  let n := cuNext c in
  match processBy l env (topic l n) (svState s) with
  | (st, Some e) => mkService st (set_cursor l (mkCursor (S n) (cuCommitted c)) (svCursors s)) (svLog s ++ [(l, n, Some e)])
  | (st, None) =>
      mkService st (set_cursor l (mkCursor (S n) (if stored then S n else cuCommitted c)) (svCursors s))
        (svLog s ++ [(l, n, None)])
  end.

(** The seven loops: [Run] of five detectors, and the two goroutines of the
    sixth. *)
Definition RunBruteForce topic := runLoop topic BruteForce.
Definition RunImpossibleTravel topic := runLoop topic ImpossibleTravel.
Definition RunOffHours topic := runLoop topic OffHours.
Definition RunAccountTakeover topic := runLoop topic AccountTakeover.
Definition RunDataExfiltration topic := runLoop topic DataExfiltration.
Definition consumeAuth topic := runLoop topic PrivilegeAuth.
Definition consumePolicy topic := runLoop topic PrivilegePolicy.

Inductive service_step (topic : loop -> nat -> raw) : Service -> Service -> Prop :=
| sv_brute env stored s : service_step topic s (RunBruteForce topic env stored s)
| sv_travel env stored s : service_step topic s (RunImpossibleTravel topic env stored s)
| sv_hours env stored s : service_step topic s (RunOffHours topic env stored s)
| sv_takeover env stored s : service_step topic s (RunAccountTakeover topic env stored s)
| sv_exfiltration env stored s : service_step topic s (RunDataExfiltration topic env stored s)
| sv_auth env stored s : service_step topic s (consumeAuth topic env stored s)
| sv_policy env stored s : service_step topic s (consumePolicy topic env stored s)
| sv_restart s :                                (* the state is not the process's *)
    service_step topic s
      (mkService (svState s) (fun l => mkCursor (cuCommitted (svCursors s l)) (cuCommitted (svCursors s l))) (svLog s))
| sv_client r alerts s :                        (* other clients of Redis, the handlers of alerts *)
    service_step topic s (mkService (mkThreatState r alerts (tsPublished (svState s))) (svCursors s) (svLog s)).

(** ** What a message may publish *)

Definition publishes (d : string) (st st' : ThreatState R) : Prop :=
  exists new, tsPublished st' = tsPublished st ++ new /\ Forall (fun x => alDetector x.2 = d) new.

Lemma publishes_same d (st st' : ThreatState R) : tsPublished st' = tsPublished st -> publishes d st st'.
Proof. intros He. exists []. by rewrite He, app_nil_r. Qed.

Lemma publishes_trans d (st1 st2 st3 : ThreatState R) : publishes d st1 st2 -> publishes d st2 st3 -> publishes d st1 st3.
Proof.
  intros (n1 & H1 & F1) (n2 & H2 & F2). exists (n1 ++ n2). rewrite H2, H1, app_assoc. split; [done|]. by apply Forall_app.
Qed.

Lemma emit_publishes now f k a (st st0 : ThreatState R) :
  tsPublished st0 = tsPublished st -> publishes (alDetector a) st0 (emit alertDoc now f k a st).
Proof.
  intros He. unfold emit, CreateAlert. unfold publishes. destruct (efStore f); simpl; rewrite He.
  all: destruct (efPublish f); [exists []; by rewrite app_nil_r|]; eexists; split; [done|]; by repeat constructor.
Qed.

Lemma track_publishes now m f key st : publishes "brute_force" st (trackFailedAttempt alertDoc maxAttempts now m f key st).1.
Proof.
  unfold trackFailedAttempt. destruct (slidingWindow _ _ _ _ _ _) as [r [c|e]]; [|by apply publishes_same].
  destruct (_ <=? _)%Z; [|by apply publishes_same]. destruct (rsetnx _ _ _ _ _) as [r' [[]|]]; try (by apply publishes_same).
  cbn [fst]. unfold publishBruteForce. by apply (emit_publishes _ _ _ (newAlert _ _ _ _ _ _)).
Qed.

Lemma processBy_publishes l env v st : publishes (detectorOf l) st (processBy l env v st).1.
Proof.
  destruct l; cbn [processBy detectorOf].
  - unfold processBruteForce. destruct (unmarshal_map v) as [ev|]; [|by apply publishes_same].
    destruct (_ && _); [by apply publishes_same|].
    set (x := if get_string ev "ip" =s? "" then _ else _).
    assert (Hx : publishes "brute_force" st x.1)
      by (unfold x; destruct (_ =s? _); [by apply publishes_same|apply track_publishes]).
    destruct x as [st1 [e|]]; [done|]. destruct (_ =s? _); [done|].
    eapply publishes_trans; [exact Hx|apply track_publishes].
  - unfold processTravel. destruct (unmarshal_map v) as [ev|]; [|by apply publishes_same].
    destruct (negb _); [by apply publishes_same|].
    destruct (_ || _); [by apply publishes_same|]. destruct (geolocate _) as [[lat lon]|]; [|by apply publishes_same].
    destruct (getSet _ _ _ _ _ _) as [r [[old|]|]]; try (by apply publishes_same).
    destruct (loginOf _); [|by apply publishes_same]. destruct (isImpossible _ _ _ _ _ _); [|by apply publishes_same].
    by apply (emit_publishes _ _ _ (newAlert _ _ _ _ _ _)).
  - unfold processOffHours, publishOffHours. repeat (case_match; simplify_eq/=; try (by apply publishes_same)).
    by apply (emit_publishes _ _ _ (newAlert _ _ _ _ _ _)).
  - unfold processTakeover. destruct (unmarshal_map v) as [ev|]; [|by apply publishes_same].
    destruct (_ =s? _); [by apply publishes_same|]. destruct (_ =s? _); [case_match; by apply publishes_same|].
    destruct (_ =s? _); [|by apply publishes_same].
    destruct (rexists _ _ _); [|by apply publishes_same]. destruct (rsismember _ _ _ _); [|by apply publishes_same].
    destruct (pipe_then _ _ _) as [r e]. cbn [fst]. eapply publishes_trans; [|by apply publishes_same].
    destruct (_ && _); [by apply (emit_publishes _ _ _ (newAlert _ _ _ _ _ _))|by apply publishes_same].
  - unfold processAuthEvent. repeat (case_match; simplify_eq/=); by apply publishes_same.
  - unfold processPolicyEvent, publishEscalation. repeat (case_match; simplify_eq/=; try (by apply publishes_same)).
    by apply (emit_publishes _ _ _ (newAlert _ _ _ _ _ _)).
  - unfold processExfiltration, alertExfiltration. destruct (unmarshal_map v) as [ev|]; [|by apply publishes_same].
    destruct (_ || _); [by apply publishes_same|].
    destruct (slidingWindow _ _ _ _ _ _) as [r [c|e]]; [|by apply publishes_same].
    destruct (meanIsZero _); [destruct (_ <? _)%Z|destruct (exceeds3Sigma _ _ _)]; try (by apply publishes_same);
      by apply (emit_publishes _ _ _ (newAlert _ _ _ _ _ _)).
Qed.

(** ** Offsets *)

#[local] Notation step topic := (service_step topic).

(** The steps, the loops taken together. *)
Inductive any_step (topic : loop -> nat -> raw) (s : Service) : Service -> Prop :=
| any_message l env stored : any_step topic s (runLoop topic l env stored s)
| any_restart :
    any_step topic s
      (mkService (svState s) (fun l => mkCursor (cuCommitted (svCursors s l)) (cuCommitted (svCursors s l))) (svLog s))
| any_client r alerts :
    any_step topic s (mkService (mkThreatState r alerts (tsPublished (svState s))) (svCursors s) (svLog s)).

Lemma step_any topic s s' : step topic s s' -> any_step topic s s'.
Proof. intros []; constructor. Qed.

Definition cursors_ok (s : Service) : Prop := forall l, cuCommitted (svCursors s l) <= cuNext (svCursors s l).

(** What is fetched was handled, and what a restart begins after succeeded. *)
Definition log_ok (s : Service) : Prop :=
  forall l o,
    (o < cuNext (svCursors s l) -> exists x, In (l, o, x) (svLog s)) /\
    (cuCommitted (svCursors s l) = S o -> In (l, o, None) (svLog s)).

Definition alerts_ok (s : Service) : Prop :=
  forall id a, In (id, a) (tsPublished (svState s)) ->
    exists l o x, In (l, o, x) (svLog s) /\ alDetector a = detectorOf l.

Definition service_ok (s : Service) : Prop := cursors_ok s /\ log_ok s /\ alerts_ok s.

(** A turn of a loop, whatever its outcome. *)
Lemma runLoop_cases topic l env stored s :
  exists x c', svLog (runLoop topic l env stored s) = svLog s ++ [(l, cuNext (svCursors s l), x)] /\
    svCursors (runLoop topic l env stored s) = set_cursor l (mkCursor (S (cuNext (svCursors s l))) c') (svCursors s) /\
    (c' = cuCommitted (svCursors s l) \/ (c' = S (cuNext (svCursors s l)) /\ x = None)) /\
    publishes (detectorOf l) (svState s) (svState (runLoop topic l env stored s)).
Proof.
  unfold runLoop. pose proof (processBy_publishes l env (topic l (cuNext (svCursors s l))) (svState s)) as Hp.
  destruct (processBy _ _ _ _) as [st [e|]]; [by eexists _, _; split_and!; [| |left|]|].
  eexists _, _. split; [done|]. split; [done|]. split; [|done]. destruct stored; [by right|by left].
Qed.

Lemma step_cursors topic s s' : step topic s s' -> cursors_ok s -> cursors_ok s'.
Proof.
  intros [l env stored| |r alerts]%step_any Hc l'; [|simpl; lia|apply Hc].
  destruct (runLoop_cases topic l env stored s) as (x & c' & _ & -> & Hc' & _). unfold set_cursor.
  specialize (Hc l'). destruct (decide (l' = l)) as [->|]; [|done]. simpl. destruct Hc' as [->|[-> _]]; lia.
Qed.

Lemma step_ok topic s s' : step topic s s' -> service_ok s -> service_ok s'.
Proof.
  intros Hs (Hc & Hl & Ha). split; [by eapply step_cursors|]. apply step_any in Hs as [l env stored| |r alerts]; [|split..].
  - destruct (runLoop_cases topic l env stored s) as (x & c' & Hlog & Hcur & Hc' & (new & Hpub & Hnew)).
    unfold log_ok, alerts_ok. rewrite Hlog, Hcur, Hpub. split.
    + intros l' o. unfold set_cursor. destruct (Hl l' o) as [Hn Hk]. destruct (decide (l' = l)) as [->|Hne]; simpl; split.
      * intros Ho. destruct (decide (o = cuNext (svCursors s l))) as [->|Hno]; [exists x; apply in_or_app; right; by left|].
        destruct Hn as [y Hy]; [lia|]. exists y. apply in_or_app. by left.
      * intros Hco. apply in_or_app. destruct Hc' as [->|[-> ->]]; [left; by apply Hk|right; injection Hco as ->; by left].
      * intros Ho. destruct (Hn Ho) as [y Hy]. exists y. apply in_or_app. by left.
      * intros Hco. apply in_or_app. left. by apply Hk.
    + intros id a [Hi|Hi]%in_app_or.
      * destruct (Ha id a Hi) as (l' & o & y & Hy & Hd). exists l', o, y. split; [apply in_or_app; by left|done].
      * rewrite Forall_forall in Hnew. exists l, (cuNext (svCursors s l)), x. split; [apply in_or_app; right; by left|].
        exact (Hnew (id, a) (proj2 (list_elem_of_In _ _) Hi)).
  - intros l o. destruct (Hl l o) as [Hn Hk]. simpl. split; [|done]. intros Ho. apply Hn. specialize (Hc l). lia.
  - exact Ha.
  - exact Hl.
  - exact Ha.
Qed.

(** Below the committed offset nothing is handled any more. *)
Lemma handled_step topic s s' l o : step topic s s' -> cursors_ok s -> o < cuCommitted (svCursors s l) ->
  o < cuCommitted (svCursors s' l) /\ forall x, In (l, o, x) (svLog s') <-> In (l, o, x) (svLog s).
Proof.
  intros Hs Hc Ho. apply step_any in Hs as [l' env stored| |r alerts]; [|done|done].
  destruct (runLoop_cases topic l' env stored s) as (x & c' & -> & -> & Hc' & _). specialize (Hc l). unfold set_cursor.
  split.
  - destruct (decide (l = l')) as [<-|]; [|done]. simpl. destruct Hc' as [->|[-> _]]; lia.
  - intros y. rewrite in_app_iff. split; [|by left]. intros [Hy|[Hy|[]]]; [done|]. injection Hy as -> <- _. lia.
Qed.

(** What the offsets of the detectors mean.  However the seven loops, their
    restarts and the other clients interleave: a message below the offset a
    loop begins again with was handled, the last of them with success, and
    will never be handled again, so that one whose handling failed is lost as
    soon as a later one of its loop succeeds; and every alert on
    "threat.alerts" carries the name of the detector of a loop that handled a
    message. *)
Theorem detector_offsets topic st0 s :
  tsPublished st0 = [] -> rtc (step topic) (startService st0) s ->
  (forall l o, o < cuCommitted (svCursors s l) ->
     (exists x, In (l, o, x) (svLog s)) /\
     forall s', rtc (step topic) s s' -> forall x, In (l, o, x) (svLog s') <-> In (l, o, x) (svLog s)) /\
  (forall l o, cuCommitted (svCursors s l) = S o -> In (l, o, None) (svLog s)) /\
  (forall id a, In (id, a) (tsPublished (svState s)) ->
     exists l o x, In (l, o, x) (svLog s) /\ alDetector a = detectorOf l).
Proof.
  intros He Hr.
  assert (Hok : service_ok s).
  { assert (Hs0 : service_ok (startService st0)).
    { split; [intros l; simpl; lia|]. split; [intros l o; simpl; split; [lia|done]|].
      intros id a Hi. simpl in Hi. rewrite He in Hi. by destruct Hi. }
    revert Hs0. induction Hr as [|s1 s2 s3 Hs _ IH]; [done|]. intros Hs1. apply IH. by eapply step_ok. }
  destruct Hok as (Hc & Hl & Ha). split; [|split; [intros l o; apply Hl|exact Ha]]. intros l o Ho. split.
  - apply (Hl l o). specialize (Hc l). lia.
  - clear Hr Hl Ha He. intros s' Hr. induction Hr as [|s1 s2 s3 Hs _ IH]; [done|]. intros x.
    destruct (handled_step topic s1 s2 l o Hs Hc Ho) as [Ho2 Hx]. rewrite <- Hx.
    apply IH; [by eapply step_cursors|done].
Qed.
End service.
Arguments Service R : clear implicits.

(** ** Examples *)

Module DetectorExamples.

Definition step := (service_step BruteForceExample.doc 2 22 6 itoa TakeoverExample.sha (fun _ => true) (fun _ _ _ => false)
  (fun _ => JNull) TravelExample.dist Z.gtb TravelExample.geo TravelExample.loginDoc TravelExample.loginOf JNum JNum 500%Z).
Definition turn := (runLoop BruteForceExample.doc 2 22 6 itoa TakeoverExample.sha (fun _ => true) (fun _ _ _ => false)
  (fun _ => JNull) TravelExample.dist Z.gtb TravelExample.geo TravelExample.loginDoc TravelExample.loginOf JNum JNum 500%Z).

(** Two sign-ins of one user, far apart. *)
Definition topic (l : loop) (o : nat) : raw := TravelExample.login (if o =? 0 then "1.1.1.1" else "2.2.2.2").

(** Redis fails at the first of them. *)
Definition env (now : Z) (fault : option (goerr * bool)) : DetEnv :=
  mkDetEnv now "m1" "m2" (mkEmitFaults (Ok 7%Z) None) fault.
Definition outage : option (goerr * bool) := Some (ErrNew "redis: connection refused", false).

Definition sv0 : Service MiniRedis := startService TravelExample.st0.
Definition sv1 : Service MiniRedis := turn topic ImpossibleTravel (env 0 outage) true sv0.
Definition sv2 : Service MiniRedis := turn topic ImpossibleTravel (env Minute None) true sv1.

(** The first sign-in is lost to the detector, and no alert is raised. *)
Lemma detector_offsets_witness :
  svLog sv2 = [(ImpossibleTravel, 0, Some (ErrNew "redis: connection refused")); (ImpossibleTravel, 1, None)] /\
  tsPublished (svState sv2) = [] /\
  forall s', rtc (step topic) sv2 s' -> forall x, In (ImpossibleTravel, 0, x) (svLog s') <-> In (ImpossibleTravel, 0, x) (svLog sv2).
Proof.
  split; [vm_compute; reflexivity|]. split; [vm_compute; reflexivity|].
  assert (Hr : rtc (step topic) sv0 sv2) by (eapply rtc_l; [apply sv_travel with (env := env 0 outage) (stored := true)|]; eapply rtc_l; [apply sv_travel|apply rtc_refl]).
  destruct (detector_offsets BruteForceExample.doc 2 22 6 itoa TakeoverExample.sha (fun _ => true) (fun _ _ _ => false)
    (fun _ => JNull) TravelExample.dist Z.gtb TravelExample.geo TravelExample.loginDoc TravelExample.loginOf JNum JNum 500%Z
    topic TravelExample.st0 sv2 eq_refl Hr) as [Ho _].
  apply (Ho ImpossibleTravel 0). vm_compute. lia.
Defined.
End DetectorExamples.
