(* ===== verification/Startup.v ===== *)
(** The keys a service starts with: shared/secrets/manager.go, the loaders of
    shared/crypto and shared/middleware/scim.go, and the part of each
    services/*/main.go that calls them.  The environment, the secrets manager
    of AWS and the parsing of JSON text are inputs. *)

From S2P Require Import Prelude GoStrings Json Redis Resilience Crypto Http Middleware.
From Stdlib Require Import Ascii.

(** ** Secrets *)

Inductive Provider := EnvProvider | AWSProvider (endpoint region accessKey secretKey : string).

Section secrets.
(** [os.Getenv]. *)
Variable getenv : string -> string.
(** [NewAWSProvider], as far as it can fail, and [GetSecretValue]: the string
    of a secret, if it has one. *)
Variable awsConfig : string -> option goerr.
Variable awsSecret : string -> res (option string).

Definition GetProvider : res Provider :=
  if getenv "USE_AWS_SECRETS_MANAGER" =s? "true" then
    let region := if getenv "AWS_REGION" =s? "" then "us-east-1" else getenv "AWS_REGION" in
    match awsConfig region with
    | Some e => Err e
    | None =>
        Ok (AWSProvider (getenv "AWS_SECRETSMANAGER_ENDPOINT") region (getenv "AWS_ACCESS_KEY_ID")
              (getenv "AWS_SECRET_ACCESS_KEY"))
    end
  else Ok EnvProvider.

Definition GetSecret (p : Provider) (secretID : string) : res string :=
  match p with
  | EnvProvider =>
      let val := getenv secretID in
      if val =s? "" then Err (ErrNew ("environment variable " +:+ (secretID +:+ " not set"))) else Ok val
  | AWSProvider _ _ _ _ =>
      match awsSecret secretID with
      | Err e => Err (ErrWrap ("failed to get secret " +:+ (secretID +:+ " from AWS: ")) e "")
      | Ok (Some s) => Ok s
      | Ok None => Err (ErrNew ("secret " +:+ (secretID +:+ " has no string value")))
      end
  end.

(** ** Loaders *)

(** The JSON a text parses to. *)
Variable parse : string -> raw.

Definition upd_JWTKey (k : string) (v : JWTKey) (j : json) : res JWTKey :=
  let '(mkJWTKey kid secret alg st) := v in
  if key_is "kid" k then x <-? dec_string kid j; Ok (mkJWTKey x secret alg st)
  else if key_is "secret" k then x <-? dec_string secret j; Ok (mkJWTKey kid x alg st)
  else if key_is "algorithm" k then x <-? dec_string alg j; Ok (mkJWTKey kid secret x st)
  else if key_is "status" k then x <-? dec_string st j; Ok (mkJWTKey kid secret alg x)
  else Ok v.

Definition upd_EncryptionKey (k : string) (v : EncryptionKey) (j : json) : res EncryptionKey :=
  let '(mkEncryptionKey kid key st) := v in
  if key_is "kid" k then x <-? dec_string kid j; Ok (mkEncryptionKey x key st)
  else if key_is "key" k then x <-? dec_string key j; Ok (mkEncryptionKey kid x st)
  else if key_is "status" k then x <-? dec_string st j; Ok (mkEncryptionKey kid key x)
  else Ok v.

Definition upd_SCIMToken (k : string) (v : string * string) (j : json) : res (string * string) :=
  if key_is "token" k then x <-? dec_string v.1 j; Ok (x, v.2)
  else if key_is "org_id" k then x <-? dec_string v.2 j; Ok (v.1, x)
  else Ok v.

(** [json.Unmarshal] into a slice of structs. *)
Definition unmarshal_slice {A} (upd : string -> A -> json -> res A) (zero : A) (data : raw) : res (list A) :=
  match data with
  | None => Err ErrSyntax
  | Some j => dec_slice (fun e => unmarshal_struct upd zero (Some e)) j
  end.

Definition zeroKey : JWTKey := mkJWTKey "" "" "" "".

Definition LoadKeyring (jsonStr : string) : res (list JWTKey) :=
  match unmarshal_slice upd_JWTKey zeroKey (parse jsonStr) with
  | Err e => Err (ErrWrap "invalid keyring JSON: " e "")
  | Ok ring => Ok ring
  end.

Definition LoadAESKeyring (jsonStr : string) : res (list EncryptionKey) :=
  match unmarshal_slice upd_EncryptionKey (mkEncryptionKey "" "" "") (parse jsonStr) with
  | Err e => Err (ErrWrap "invalid AES keyring JSON: " e "")
  | Ok ring => Ok ring
  end.

(** [os.Exit(1)], with what is logged. *)
Inductive started (A : Type) := Started (a : A) | Exited (why : goerr).
Arguments Started {A} _.
Arguments Exited {A} _.

Definition orExit {A} (r : res A) : started A := match r with Ok a => Started a | Err e => Exited e end.

Definition LoadSCIMTokensFromEnv : started (list (string * string)) :=
  let raw_ := getenv "SCIM_TOKENS" in
  if raw_ =s? "" then Started []
  else orExit (unmarshal_slice upd_SCIMToken ("", "") (parse raw_)).

(** ** The main functions *)

Inductive service := Iam | Policy | Audit | ConnectorRegistry | Threat | AlertingSvc | ComplianceSvc | Dlp.

(** The text in the source, spelled with its quotes as byte 34. *)
Definition quoted (s : string) : string := String "034"%char (s +:+ String "034"%char "").
Definition devKeysJSON : string :=
  "[{" +:+ (quoted "kid" +:+ (":" +:+ (quoted "dev-key" +:+ ("," +:+
  (quoted "secret" +:+ (":" +:+ (quoted "dev-secret-at-least-32-chars-long-!!" +:+ ("," +:+
  (quoted "algorithm" +:+ (":" +:+ (quoted "HS256" +:+ ("," +:+
  (quoted "status" +:+ (":" +:+ (quoted "active" +:+ "}]"))))))))))))))).
Definition defaultRing : list JWTKey := [mkJWTKey "dev" "default-secret" "HS256" "active"].

(** The key ring each service verifies tokens with. *)
Definition startKeyring (s : service) : started (list JWTKey) :=
  match s with
  | Iam | Policy | Audit | ConnectorRegistry | Threat =>
      match GetProvider with
      | Err e => Exited e
      | Ok p =>
          let keyringJSON := match GetSecret p "IAM_JWT_KEYS" with Ok v => v | Err _ => devKeysJSON end in
          orExit (LoadKeyring keyringJSON)
      end
  | AlertingSvc =>
      match GetProvider with
      | Err e => Exited e
      | Ok p =>
          match GetSecret p "IAM_JWT_KEYS" with
          | Ok v => orExit (unmarshal_slice upd_JWTKey zeroKey (parse v))
          | Err _ => Started defaultRing
          end
      end
  | ComplianceSvc | Dlp =>
      if getenv "JWT_KEYS" =s? "" then Started defaultRing
      else orExit (unmarshal_slice upd_JWTKey zeroKey (parse (getenv "JWT_KEYS")))
  end.
End secrets.
Arguments Started {A} _.
Arguments Exited {A} _.

(** ** Properties *)

(** The document of the text in the source. *)
Definition devKeysDoc : json :=
  JArr [JObj [("kid", JStr "dev-key"); ("secret", JStr "dev-secret-at-least-32-chars-long-!!");
              ("algorithm", JStr "HS256"); ("status", JStr "active")]].
Definition devKey : JWTKey := mkJWTKey "dev-key" "dev-secret-at-least-32-chars-long-!!" "HS256" "active".
Definition defaultKey : JWTKey := mkJWTKey "dev" "default-secret" "HS256" "active".

(** The setting each service reads. *)
Definition settingOf (s : service) : string := match s with ComplianceSvc | Dlp => "JWT_KEYS" | _ => "IAM_JWT_KEYS" end.
Definition fallbackOf (s : service) : JWTKey := match s with AlertingSvc | ComplianceSvc | Dlp => defaultKey | _ => devKey end.

Section properties.
Variable getenv : string -> string.
Variable awsConfig : string -> option goerr.
Variable awsSecret : string -> res (option string).
Variable parse : string -> raw.
Hypothesis parse_dev : parse devKeysJSON = Some devKeysDoc.

#[local] Notation ringOf := (startKeyring getenv awsConfig awsSecret parse).

(** Whether the service finds its setting. *)
Definition configured (s : service) : option string :=
  match s with
  | ComplianceSvc | Dlp => if getenv "JWT_KEYS" =s? "" then None else Some (getenv "JWT_KEYS")
  | _ =>
      match GetProvider getenv awsConfig with
      | Err _ => None
      | Ok p => match GetSecret getenv awsSecret p "IAM_JWT_KEYS" with Ok v => Some v | Err _ => None end
      end
  end.

(** A service starts with the keys of its setting, or, when it does not find
    it, with one key that is in the source; text that is no key ring stops
    it. *)
Lemma keyring_source s ring : ringOf s = Started ring ->
  match configured s with
  | Some text => unmarshal_slice upd_JWTKey zeroKey (parse text) = Ok ring
  | None => ring = [fallbackOf s]
  end.
Proof.
  assert (Hl : forall text, orExit (LoadKeyring parse text) = Started ring ->
    unmarshal_slice upd_JWTKey zeroKey (parse text) = Ok ring).
  { intros text. unfold LoadKeyring. destruct (unmarshal_slice _ _ _); [|done]. by intros [= ->]. }
  assert (Hd : orExit (LoadKeyring parse devKeysJSON) = Started ring -> ring = [devKey]).
  { intros Hr%Hl. rewrite parse_dev in Hr. by injection Hr as <-. }
  unfold startKeyring, configured.
  destruct s; cbn [fallbackOf].
  1-5: destruct (GetProvider _ _); [|done]; destruct (GetSecret _ _ _ _); [apply Hl|apply Hd].
  - destruct (GetProvider _ _); [|done]. destruct (GetSecret _ _ _ _); [|by intros [= <-]].
    destruct (unmarshal_slice _ _ _); [|done]. by intros [= ->].
  - destruct (_ =s? _); [by intros [= <-]|]. destruct (unmarshal_slice _ _ _); [|done]. by intros [= ->].
  - destruct (_ =s? _); [by intros [= <-]|]. destruct (unmarshal_slice _ _ _); [|done]. by intros [= ->].
Qed.

Context {R B : Type} `{Redis R} `{Breaker B} `{JwtLaws}.

(** A service that does not find its keys trusts a published one.  Where
    the setting of a service is missing, or the secrets manager cannot be
    read, the service starts with a key from the source: a token that anyone
    signs with it, for any user of any tenant, is accepted during its period
    of validity unless the blocklist is found to hold its id.  The chart and
    the example of an environment set "JWT_KEYS" only, which six of the eight
    services do not read. *)
Theorem missing_keys_forgeable s ring now claims e token rdb (breaker : option B) remote :
  configured s = None -> ringOf s = Started ring ->
  jwtSign (mkJwtToken (Some (jkKid (fallbackOf s))) "HS256" claims) (jkSecret (fallbackOf s)) = Ok token -> token <> "" ->
  claimsValid now claims -> clExpiresAt claims = Some e ->
  (revokedCheck now rdb breaker (clID claims)).2 = false ->
  let r := mkRequest "POST" None [("Authorization", "Bearer " +:+ token)] remote in
  exists ctx, (AuthJWTWithBlocklist (R := R) now ring rdb breaker r background).2 = Pass ctx /\
    GetUserID ctx = clUserID claims /\ GetOrgID ctx = clOrgID claims /\ rlsOrgID ctx = clOrgID claims.
Proof.
  intros Hc Hr Hs Hne Hv He Hrev r. apply keyring_source in Hr. rewrite Hc in Hr. subst ring.
  assert (Ht : extractToken r = token).
  { unfold extractToken, r. cbn [rqCookie rqHeaders]. change (header_get _ _) with ("Bearer " +:+ token).
    by rewrite HasPrefix_append, TrimPrefix_append. }
  apply jwtSign_ok in Hs as [Hd Hk]. specialize (Hk now Hv).
  unfold AuthJWTWithBlocklist. rewrite Ht. rewrite (proj2 (String.eqb_neq _ _) Hne).
  assert (Hver : Verify now token [fallbackOf s] = Ok (mkJwtToken (Some (jkKid (fallbackOf s))) "HS256" claims)).
  { unfold Verify, ParseWithClaims. rewrite Hd. cbn [res_bind]. unfold keyFunc. cbn [tkKid find tkAlg].
    rewrite String.eqb_refl. destruct s; cbn in Hk |- *; by rewrite Hk. }
  rewrite Hver. cbn [tkClaims]. destruct (revokedCheck _ _ _ _) as [b rv]. simpl in Hrev. subst rv. rewrite He.
  eexists. split; [done|]. done.
Qed.
End properties.

(** With "JWT_KEYS" only, as the chart sets it, the two services that read it
    have their keys and the others do not. *)
Lemma chart_misses getenv awsConfig awsSecret s :
  getenv "USE_AWS_SECRETS_MANAGER" = "" -> getenv "IAM_JWT_KEYS" = "" -> getenv "JWT_KEYS" <> "" ->
  configured getenv awsConfig awsSecret s =
    match s with ComplianceSvc | Dlp => Some (getenv "JWT_KEYS") | _ => None end.
Proof.
  intros Ha Hi Hj. apply String.eqb_neq in Hj. unfold configured, GetProvider, GetSecret. rewrite Ha, Hi, Hj. by destruct s.
Qed.

(** The two fallbacks do not know each other: what the identity service signs
    without settings, alerting, compliance and DLP refuse. *)
Lemma fallbacks_disagree `{JwtLaws} now token t :
  Verify now token [devKey] = Ok t -> is_ok (Verify now token [defaultKey]) = false.
Proof.
  intros Hv. apply Verify_sound in Hv as (k & [<-|[]] & Hk & _ & Hd & _).
  unfold Verify, ParseWithClaims. rewrite Hd. cbn [res_bind]. unfold keyFunc. rewrite Hk. cbn. done.
Qed.

(** Without SCIM tokens every SCIM request is refused. *)
Lemma no_scim_tokens getenv parse token :
  getenv "SCIM_TOKENS" = "" ->
  exists tokens, LoadSCIMTokensFromEnv getenv parse = Started tokens /\ ValidateSCIMToken tokens token = Err errInvalidSCIMToken.
Proof. intros He. unfold LoadSCIMTokensFromEnv. rewrite He. by exists []. Qed.

(** ** Examples *)

Module StartupExamples.

(** The chart's environment. *)
Definition getenv (k : string) : string := if k =s? "JWT_KEYS" then "[...]" else "".
Definition parse (s : string) : raw := if s =s? devKeysJSON then Some devKeysDoc else None.
Definition aws (k : string) : res (option string) := Err (ErrNew "no secrets manager").

(** A token that a stranger signs for the administrator of some tenant. *)
Definition claims : StandardClaims := NewStandardClaims (1000 * Second) "victim" "admin" "j" Hour.
Definition forged : JwtToken := mkJwtToken (Some "dev-key") "HS256" claims.
Definition secret : string := jkSecret devKey.

#[local] Instance jwt : Jwt :=
  {| jwtDecode s := if s =s? "tok" then Ok forged else Err (ErrNew "token is malformed");
     jwtCheck now s t key :=
       if (key =s? secret) && (s =s? "tok") && bool_decide (t = forged) && MiniCrypto.valid_at now (tkClaims t)
       then None else Some (ErrNew "signature is invalid");
     jwtSigned alg key s := alg = "HS256" /\ key = secret /\ s = "tok";
     jwtSign t key := if bool_decide (t = forged) && (key =s? secret) then Ok "tok" else Err (ErrNew "unsupported") |}.

#[local] Instance jwt_laws : JwtLaws.
Proof.
  split; simpl.
  - intros now s t key. destruct (_ && _) eqn:E; [|done]. bool_to_prop. subst. intros _. split; [done|].
    by apply MiniCrypto.valid_at_spec.
  - intros t key s. destruct (_ && _) eqn:E; [|done]. bool_to_prop. subst. intros [= <-]. split; [done|].
    intros now Hv%MiniCrypto.valid_at_spec. by rewrite Hv, String.eqb_refl, bool_decide_true.
Qed.

Lemma missing_keys_forgeable_witness :
  startKeyring getenv (fun _ => None) aws parse Policy = Started [devKey] /\
  exists ctx, (AuthJWTWithBlocklist (2000 * Second) [devKey] (Some emptyRedis) (Some closedBreaker)
                 (mkRequest "POST" None [("Authorization", "Bearer " +:+ "tok")] "203.0.113.7:5000") background).2 = Pass ctx /\
    GetUserID ctx = clUserID claims /\ GetOrgID ctx = clOrgID claims /\ rlsOrgID ctx = clOrgID claims.
Proof.
  split; [vm_compute; reflexivity|].
  assert (Hp : parse devKeysJSON = Some devKeysDoc) by (vm_compute; reflexivity).
  apply (missing_keys_forgeable getenv (fun _ => None) aws parse Hp Policy [devKey] (2000 * Second) claims (4600 * Second) "tok"
           (Some emptyRedis) (Some closedBreaker) "203.0.113.7:5000").
  - vm_compute. reflexivity.
  - vm_compute. reflexivity.
  - vm_compute. reflexivity.
  - discriminate.
  - apply MiniCrypto.valid_at_spec. vm_compute. reflexivity.
  - reflexivity.
  - vm_compute. reflexivity.
Defined.
End StartupExamples.
