(* ===== verification/TaskApp.v ===== *)
(** The example application, examples/task-management-app/backend/main.go: a
    web service that checks tokens itself, asks the policy service through the
    client library ([Sdk], [SdkIngest]) and keeps tasks in PostgreSQL.  The
    matching of paths is chi's; the goroutines that ingest events are kept as
    the events they are given. *)

From S2P Require Import Prelude GoStrings Json Redis Pg Resilience Crypto Http Middleware RateLimit PolicyService Sdk Routes SdkIngest Startup Boot.
From stdpp Require Import gmap.

(** ** Data *)

(** A row of [tasks]; the columns of instants are never read. *)
Record Task := mkTask { taskID : string; taskTitle : string; taskStatus : string; taskOwnerID : string }.

Record App (B : Type) := mkApp { apTasks : list Task; apCache : localCache; apBreaker : option B }.
Arguments mkApp {B} _ _ _.
Arguments apTasks {B} _.
Arguments apCache {B} _.
Arguments apBreaker {B} _.

(** The handler a request is routed to, with its path parameter and body. *)
Inductive TaskReq :=
| ListTasks
| CreateTask (b : raw)
| UpdateTask (id : string) (b : raw)
| DeleteTask (id : string).

(** What a request meets: the clock, the policy service, the database and the
    id of a new row.  [anLate] tells that an error of a query arrives with its
    rows, where the code does not look. *)
Record AppEnv := mkAppEnv {
  anNow : Z; anSet : Z; anAt : nat -> Z; anReply : nat -> httpReply; anCancel : nat -> option goerr;
  anDB : Faults; anLate : bool; anID : string;
}.

Definition httpError (msg : string) (code : Z) : Response := mkResponse code [] (JStr msg).

(** [json.Decode] into a struct whose error is ignored: the members that do
    decode are set. *)
Definition decode_ignored {T} (upd : string -> T -> json -> res T) (zero : T) (b : raw) : T :=
  match b with
  | Some (JObj l) => fold_left (fun cur kv => match upd kv.1 cur kv.2 with Ok c => c | Err _ => cur end) l zero
  | _ => zero
  end.

Definition upd_member (name : string) (k : string) (cur : string) (j : json) : res string :=
  if key_is name k then dec_string cur j else Ok cur.

Section app.
Context {B : Type} `{Breaker B} `{Jwt}.
Variable pgUUID : uuidCast.
(** The order in which a query without ORDER BY meets the rows. *)
Variable heap : list Task -> list Task.
Variable keyring : list JWTKey.
Variable og : Client.

#[local] Notation App := (App B).

(** ** The database *)

(** [pool.Exec] and [pool.QueryRow(...).Scan]. *)
Definition pgExec {A} (f : Faults) (stmt : list Task -> res (list Task * A)) (tasks : list Task) : list Task * res A :=
  match fAcquire f with
  | Some e => (tasks, Err e)
  | None => autocommit f stmt tasks
  end.

(** SELECT ... WHERE owner_id = $1, with the rows that [rows.Next] yields. *)
Definition selectTasks (env : AppEnv) (userID : string) (tasks : list Task) : res (list Task) :=
  match fAcquire (anDB env) with
  | Some e => Err e
  | None =>
      match (match fQuery (anDB env) with Some e => Err e | None => uuid_arg pgUUID userID end) with
      | Err e => if anLate env then Ok [] else Err e
      | Ok owner => Ok (rows_list (deliver (fRows (anDB env)) (heap (List.filter (fun t => taskOwnerID t =s? owner) tasks))))
      end
  end.

Definition insertTask (id title userID : string) (tasks : list Task) : res (list Task * string) :=
  owner <-? uuid_arg pgUUID userID;
  Ok (tasks ++ [mkTask id title "pending" owner], id).

Definition updateTaskStatus (status id userID : string) (tasks : list Task) : res (list Task * unit) :=
  i <-? uuid_arg pgUUID id;
  owner <-? uuid_arg pgUUID userID;
  Ok (map (fun t => if (taskID t =s? i) && (taskOwnerID t =s? owner) then mkTask (taskID t) (taskTitle t) status owner else t) tasks, tt).

Definition deleteTask (id userID : string) (tasks : list Task) : res (list Task * unit) :=
  i <-? uuid_arg pgUUID id;
  owner <-? uuid_arg pgUUID userID;
  Ok (List.filter (fun t => negb ((taskID t =s? i) && (taskOwnerID t =s? owner))) tasks, tt).

(** ** Events *)

(** [ingestEvent]: the event, as it is handed to the client library. *)
Definition ingestEvent (now : Z) (eventType userID orgID resourceID : string) (metadata : gomap) : AuditEvent :=
  mkAuditEvent "" eventType userID orgID resourceID metadata (Some now).

(** ** Middlewares *)

(** [authMiddleware]: the user and the tenant, or the answer; and the event. *)
Definition authMiddleware (env : AppEnv) (r : Request) : list AuditEvent * (Response + (string * string)) :=
  let authHeader := header_get "Authorization" (rqHeaders r) in
  if authHeader =s? "" then ([], inl (httpError "Unauthorized" StatusUnauthorized))
  else
    let token := TrimPrefix authHeader "Bearer " in
    match Verify (anNow env) token keyring with
    | Err e =>
        ([ingestEvent (anNow env) "auth.login.failure" "" "" ""
            (Some (<["ip" := JStr (rqRemoteAddr r)]> (<["error" := JStr (error_text e)]> ∅)))],
         inl (httpError ("Invalid token: " +:+ error_text e) StatusUnauthorized))
    | Ok t =>
        let claims := tkClaims t in
        ([ingestEvent (anNow env) "auth.login.success" (clUserID claims) (clOrgID claims) ""
            (Some (<["ip" := JStr (rqRemoteAddr r)]> (<["user_agent" := JStr (header_get "User-Agent" (rqHeaders r))]> ∅)))],
         inr (clUserID claims, clOrgID claims))
    end.

(** [policyMiddleware(action)]: the error of [Allow] is always nil. *)
Definition policyMiddleware (action : string) (env : AppEnv) (userID orgID taskID_ : string)
  (next : App -> App * list AuditEvent * Response) (w : App) : App * list AuditEvent * Response :=
  let '(cache, b, _, allowed) :=
    Sdk.Allow (anNow env) (anSet env) (anAt env) (anReply env) (anCancel env) og userID action "task:*" (apCache w) (apBreaker w) in
  let w := mkApp (apTasks w) cache b in
  if negb allowed
  then (w, [ingestEvent (anNow env) "access.denied" userID orgID taskID_ (Some (<["action" := JStr action]> ∅))],
        httpError "Access Denied by OpenGuard Policy" StatusForbidden)
  else next w.

(** ** Handlers *)

Definition set_apTasks (l : list Task) (w : App) : App := mkApp l (apCache w) (apBreaker w).

Definition taskDoc (t : Task) : json := JObj [("id", JStr (taskID t)); ("status", JStr (taskStatus t)); ("title", JStr (taskTitle t))].

Definition handleList (env : AppEnv) (userID orgID : string) (w : App) : App * list AuditEvent * Response :=
  match selectTasks env userID (apTasks w) with
  | Err e => (w, [], httpError (error_text e) StatusInternalServerError)
  | Ok tasks =>
      (w, (if (50 <? length tasks)%nat
           then [ingestEvent (anNow env) "data.bulk.read" userID orgID "tasks"
                   (Some (<["count" := JNum (Z.of_nat (length tasks))]> (<["threshold_exceeded" := JBool true]> ∅)))]
           else []),
       mkResponse StatusOK [] (match tasks with [] => JNull | _ => JArr (map taskDoc tasks) end))
  end.

Definition handleCreate (env : AppEnv) (userID : string) (b : raw) (w : App) : App * list AuditEvent * Response :=
  let title := decode_ignored (upd_member "title") "" b in
  match pgExec (anDB env) (insertTask (anID env) title userID) (apTasks w) with
  | (l, Err e) => (set_apTasks l w, [], httpError (error_text e) StatusInternalServerError)
  | (l, Ok id) => (set_apTasks l w, [], mkResponse StatusCreated [] (JObj [("id", JStr id)]))
  end.

Definition handleUpdate (env : AppEnv) (userID id : string) (b : raw) (w : App) : App * list AuditEvent * Response :=
  let st := decode_ignored (upd_member "status") "" b in
  match pgExec (anDB env) (updateTaskStatus st id userID) (apTasks w) with
  | (l, Err e) => (set_apTasks l w, [], httpError (error_text e) StatusInternalServerError)
  | (l, Ok _) => (set_apTasks l w, [], mkResponse StatusOK [] JNull)
  end.

Definition handleDelete (env : AppEnv) (userID orgID id : string) (w : App) : App * list AuditEvent * Response :=
  match pgExec (anDB env) (deleteTask id userID) (apTasks w) with
  | (l, Err e) => (set_apTasks l w, [], httpError (error_text e) StatusInternalServerError)
  | (l, Ok _) => (set_apTasks l w, [ingestEvent (anNow env) "resource.delete" userID orgID id None], mkResponse StatusOK [] JNull)
  end.

Definition actionOf (req : TaskReq) : string :=
  match req with
  | ListTasks => "task:list" | CreateTask _ => "task:create" | UpdateTask _ _ => "task:update" | DeleteTask _ => "task:delete"
  end.

Definition paramOf (req : TaskReq) : string := match req with UpdateTask id _ | DeleteTask id => id | _ => "" end.

(** The routes under /api/tasks. *)
Definition serve (env : AppEnv) (r : Request) (req : TaskReq) (w : App) : App * list AuditEvent * Response :=
  match authMiddleware env r with
  | (evs, inl resp) => (w, evs, resp)
  | (evs, inr (userID, orgID)) =>
      let '(w, evs', resp) :=
        policyMiddleware (actionOf req) env userID orgID (paramOf req)
          (match req with
           | ListTasks => handleList env userID orgID
           | CreateTask b => handleCreate env userID b
           | UpdateTask id b => handleUpdate env userID id b
           | DeleteTask id => handleDelete env userID orgID id
           end) w in
      (w, evs ++ evs', resp)
  end.

(** The requests of a run, each in its own surroundings. *)
Fixpoint serveAll (l : list (AppEnv * Request * TaskReq)) (w : App) : App * list AuditEvent * list Response :=
  match l with
  | [] => (w, [], [])
  | (env, r, req) :: l' =>
      let '(w, evs, resp) := serve env r req w in
      let '(w, evs', resps) := serveAll l' w in
      (w, evs ++ evs', resp :: resps)
  end.
End app.

(** ** The process *)

(** The text in the source. *)
Definition defaultPolicyURL : string := "http://localhost:8083".
Definition defaultAPIKey : string := "ogk_dev_key_12345678".

(** [main]: the ring, whose errors are ignored, and the client, without any
    option. *)
Definition taskMain : boot (list JWTKey * SdkClient) :=
  _ <-! defer StopSignals;
  dbURL <-! envOr "DATABASE_URL" pgDefault;
  _ <-! must (PgOpen dbURL None);
  _ <-! defer ClosePg;
  _ <-! must InitSchema;
  policyURL <-! envOr "OPENGUARD_POLICY_URL" defaultPolicyURL;
  apiKey <-! envOr "OPENGUARD_API_KEY" defaultAPIKey;
  keyringJSON <-! envOr "OPENGUARD_JWT_KEYS" devKeysJSON;
  keyring <-! ask (fun h => match LoadKeyring (hParse h) keyringJSON with Ok ring => ring | Err _ => [] end);
  port <-! envOr "PORT" "3005";
  _ <-! tell (Serve (mkServer (":" +:+ port) None None (Some keyring) None noTimeouts false));
  retB (keyring, NewClient policyURL apiKey []).

(** ** Properties *)

Section properties.
Context {B : Type} `{Breaker B} `{Jwt}.
Variable pgUUID : uuidCast.
Variable heap : list Task -> list Task.
Hypothesis heap_perm : forall l, Permutation (heap l) l.
Variable keyring : list JWTKey.
Variable og : Client.

#[local] Notation serve := (serve (B := B) pgUUID heap keyring og).
#[local] Notation App := (App B).

(** What the database reports when a statement of this request fails: that it
    is out of reach, the statement's own error, the loss of the answer, or a
    text that is no id. *)
Definition dbError (env : AppEnv) (e : goerr) : Prop :=
  fAcquire (anDB env) = Some e \/ fQuery (anDB env) = Some e \/ fAck (anDB env) = Some e \/ e = ErrUUID.

Lemma uuid_arg_err s e : uuid_arg pgUUID s = Err e -> e = ErrUUID.
Proof. unfold uuid_arg. by destruct (pgUUID s); intros [= <-]. Qed.

(** A statement fails with an error of the database - before it did anything,
    or after it did its work - or succeeds. *)
Lemma pgExec_cases {A} env (stmt : list Task -> res (list Task * A)) l l' r :
  (forall e, stmt l = Err e -> e = ErrUUID) -> pgExec (anDB env) stmt l = (l', r) ->
  match r with
  | Err e => dbError env e /\ (l' = l \/ exists a, stmt l = Ok (l', a))
  | Ok a => stmt l = Ok (l', a)
  end.
Proof.
  intros Herr. unfold pgExec, autocommit, dbError. destruct (fAcquire _); [intros [= <- <-]; auto|].
  destruct (fQuery _); [intros [= <- <-]; auto|].
  destruct (stmt l) as [[l1 a]|e] eqn:Es; [destruct (fAck _)|]; intros [= <- <-]; [eauto 8|done|].
  rewrite (Herr e) by done. auto 8.
Qed.

(** The tasks of others: what a statement of the user with this id may not
    touch. *)
Definition others (owner : string) (l : list Task) : list Task := List.filter (fun t => negb (taskOwnerID t =s? owner)) l.

Definition keeps_others (userID : string) (l l' : list Task) : Prop :=
  l' = l \/ exists owner, pgUUID userID = Some owner /\ others owner l' = others owner l.

Lemma uuid_arg_ok s o : uuid_arg pgUUID s = Ok o -> pgUUID s = Some o.
Proof. unfold uuid_arg. destruct (pgUUID s); [by intros [= ->]|done]. Qed.

(** The tasks of one owner. *)
Definition mine (owner : string) (l : list Task) : list Task := List.filter (fun t => taskOwnerID t =s? owner) l.

(** What a request may do to the tasks, as the user with this id. *)
Inductive changed (env : AppEnv) (u : string) (l : list Task) : TaskReq -> list Task -> Prop :=
| ch_create b owner :
    pgUUID u = Some owner ->
    changed env u l (CreateTask b)
      (l ++ [mkTask (anID env) (decode_ignored (upd_member "title") "" b) "pending" owner])
| ch_update id b i owner :
    pgUUID id = Some i -> pgUUID u = Some owner ->
    changed env u l (UpdateTask id b)
      (map (fun t => if (taskID t =s? i) && (taskOwnerID t =s? owner)
                     then mkTask (taskID t) (taskTitle t) (decode_ignored (upd_member "status") "" b) (taskOwnerID t)
                     else t) l)
| ch_delete id i owner :
    pgUUID id = Some i -> pgUUID u = Some owner ->
    changed env u l (DeleteTask id) (List.filter (fun t => negb ((taskID t =s? i) && (taskOwnerID t =s? owner))) l).

(** The tasks after a request that was let in, and its whole answer. *)
Inductive served (env : AppEnv) (u : string) (l : list Task) : TaskReq -> list Task -> Response -> Prop :=
| sv_list owner rows :
    pgUUID u = Some owner -> rows ⊆+ mine owner l -> (fRows (anDB env) = None -> rows ≡ₚ mine owner l) ->
    served env u l ListTasks l (mkResponse 200 [] (match rows with [] => JNull | _ => JArr (map taskDoc rows) end))
| sv_late e :                                      (* the failure is not looked for *)
    anLate env = true -> dbError env e -> served env u l ListTasks l (mkResponse 200 [] JNull)
| sv_created b l' :
    changed env u l (CreateTask b) l' ->
    served env u l (CreateTask b) l' (mkResponse 201 [] (JObj [("id", JStr (anID env))]))
| sv_updated id b l' : changed env u l (UpdateTask id b) l' -> served env u l (UpdateTask id b) l' (mkResponse 200 [] JNull)
| sv_deleted id l' : changed env u l (DeleteTask id) l' -> served env u l (DeleteTask id) l' (mkResponse 200 [] JNull)
| sv_error req e l' :
    dbError env e -> l' = l \/ changed env u l req l' -> served env u l req l' (mkResponse 500 [] (JStr (error_text e))).

Lemma insertTask_changed env b u l l' a :
  insertTask pgUUID (anID env) (decode_ignored (upd_member "title") "" b) u l = Ok (l', a) ->
  a = anID env /\ changed env u l (CreateTask b) l'.
Proof. intros (owner & Ho%uuid_arg_ok & [= <- <-])%res_bind_ok. split; [done|]. by apply ch_create. Qed.

Lemma update_changed env id b u l l' a :
  updateTaskStatus pgUUID (decode_ignored (upd_member "status") "" b) id u l = Ok (l', a) ->
  changed env u l (UpdateTask id b) l'.
Proof.
  intros (i & Hi%uuid_arg_ok & (owner & Ho%uuid_arg_ok & [= <- <-])%res_bind_ok)%res_bind_ok.
  erewrite map_ext; [by apply (ch_update env u l id b i owner)|]. intros t. cbv beta.
  destruct (taskID t =s? i); [|done]. by destruct (String.eqb_spec (taskOwnerID t) owner) as [->|].
Qed.

Lemma delete_changed env id u l l' a :
  deleteTask pgUUID id u l = Ok (l', a) -> changed env u l (DeleteTask id) l'.
Proof.
  intros (i & Hi%uuid_arg_ok & (owner & Ho%uuid_arg_ok & [= <- <-])%res_bind_ok)%res_bind_ok. by apply ch_delete.
Qed.

(** No statement touches the tasks of others. *)
Lemma changed_others env u l req l' : changed env u l req l' -> keeps_others u l l'.
Proof.
  intros [b owner Ho|id b i owner _ Ho|id i owner _ Ho]; right; exists owner; (split; [done|]); unfold others.
  - rewrite List.filter_app. simpl. by rewrite String.eqb_refl, app_nil_r.
  - induction l as [|t l IH]; simpl; [done|].
    destruct (taskOwnerID t =s? owner) eqn:E; [|rewrite andb_false_r; simpl; by rewrite E; simpl; rewrite IH].
    rewrite andb_true_r. by destruct (taskID t =s? i); simpl; rewrite ?E.
  - rewrite filter_filter_bool. apply List.filter_ext. intros t.
    by destruct (taskOwnerID t =s? owner), (taskID t =s? i).
Qed.

Lemma served_others env u l req l' resp : served env u l req l' resp -> keeps_others u l l'.
Proof. destruct 1 as [| | | | |? ? ? ? [->|?]]; try (by left); by eapply changed_others. Qed.

(** The handlers, for one user. *)
Definition handler (env : AppEnv) (userID orgID : string) (req : TaskReq) : App -> App * list AuditEvent * Response :=
  match req with
  | ListTasks => handleList pgUUID heap env userID orgID
  | CreateTask b => handleCreate pgUUID env userID b
  | UpdateTask id b => handleUpdate pgUUID env userID id b
  | DeleteTask id => handleDelete pgUUID env userID orgID id
  end.

Lemma selectTasks_spec env u l : match selectTasks pgUUID heap env u l with
  | Err e => dbError env e
  | Ok rows => (exists owner, pgUUID u = Some owner /\ rows ⊆+ mine owner l /\ (fRows (anDB env) = None -> rows ≡ₚ mine owner l)) \/
      (rows = [] /\ anLate env = true /\ exists e, dbError env e)
  end.
Proof.
  unfold selectTasks, dbError. destruct (fAcquire _); [by auto|].
  destruct (fQuery _) as [e|]; [destruct (anLate env); eauto 8|].
  destruct (uuid_arg pgUUID u) as [owner|e] eqn:Eu; [|apply uuid_arg_err in Eu; destruct (anLate env); eauto 9].
  left. exists owner. split; [by apply uuid_arg_ok|]. fold (mine owner l).
  pose proof (heap_perm (mine owner l)) as Hp. revert Hp. generalize (heap (mine owner l)) as h. intros h <-.
  destruct (fRows _) as [[n e]|]; simpl; [|done]. split; [|done].
  rewrite <- (take_drop n h) at 2. by apply submseteq_inserts_r.
Qed.

Lemma handler_spec env u o req (w w' : App) evs resp :
  handler env u o req w = (w', evs, resp) -> served env u (apTasks w) req (apTasks w') resp.
Proof.
  destruct req as [|b|id b|id]; simpl.
  - unfold handleList. pose proof (selectTasks_spec env u (apTasks w)) as Hs.
    destruct (selectTasks _ _ _ _ _) as [rows|e]; intros [= <- _ <-]; [|apply sv_error; auto].
    destruct Hs as [(owner & Ho & Hr & Hp)|(-> & Hl & e & He)]; [by eapply sv_list|by eapply sv_late].
  - unfold handleCreate. destruct (pgExec _ _ _) as [l r] eqn:Ep. apply pgExec_cases in Ep.
    2: { intros e. unfold insertTask. destruct (uuid_arg _ _) eqn:Eu; simpl; [done|intros [= <-]; by eapply uuid_arg_err]. }
    destruct r as [a|e]; intros [= <- _ <-]; [apply insertTask_changed in Ep as [-> Hc]; by apply sv_created|].
    destruct Ep as [He Hc]. apply sv_error; [done|]. destruct Hc as [->|[a [_ Hc]%insertTask_changed]]; auto.
  - unfold handleUpdate. destruct (pgExec _ _ _) as [l r] eqn:Ep. apply pgExec_cases in Ep.
    2: { intros e. unfold updateTaskStatus. destruct (uuid_arg _ id) eqn:Ei; simpl; [|intros [= <-]; by eapply uuid_arg_err].
         destruct (uuid_arg _ u) eqn:Eu; simpl; [done|intros [= <-]; by eapply uuid_arg_err]. }
    destruct r as [a|e]; intros [= <- _ <-]; [apply sv_updated; by eapply update_changed|].
    destruct Ep as [He Hc]. apply sv_error; [done|]. destruct Hc as [->|[a Hc%(update_changed env)]]; auto.
  - unfold handleDelete. destruct (pgExec _ _ _) as [l r] eqn:Ep. apply pgExec_cases in Ep.
    2: { intros e. unfold deleteTask. destruct (uuid_arg _ id) eqn:Ei; simpl; [|intros [= <-]; by eapply uuid_arg_err].
         destruct (uuid_arg _ u) eqn:Eu; simpl; [done|intros [= <-]; by eapply uuid_arg_err]. }
    destruct r as [a|e]; intros [= <- _ <-]; [apply sv_deleted; by eapply delete_changed|].
    destruct Ep as [He Hc]. apply sv_error; [done|]. destruct Hc as [->|[a Hc%(delete_changed env)]]; auto.
Qed.

(** The answer to a request that is not let in: it says why, and nothing
    else. *)
Inductive refused (env : AppEnv) (r : Request) (req : TaskReq) (w : App) : Response -> Prop :=
| rf_header :
    header_get "Authorization" (rqHeaders r) = "" -> refused env r req w (mkResponse 401 [] (JStr "Unauthorized"))
| rf_token e :
    Verify (anNow env) (TrimPrefix (header_get "Authorization" (rqHeaders r)) "Bearer ") keyring = Err e ->
    refused env r req w (mkResponse 401 [] (JStr ("Invalid token: " +:+ error_text e)))
| rf_policy t cache b n :
    Verify (anNow env) (TrimPrefix (header_get "Authorization" (rqHeaders r)) "Bearer ") keyring = Ok t ->
    Sdk.Allow (anNow env) (anSet env) (anAt env) (anReply env) (anCancel env) og (clUserID (tkClaims t)) (actionOf req)
      "task:*" (apCache w) (apBreaker w) = (cache, b, n, false) ->
    refused env r req w (mkResponse 403 [] (JStr "Access Denied by OpenGuard Policy")).

(** A request whose token does not verify, or whose user may not do this, is
    refused and changes no task; the others are served as their user. *)
Lemma serve_cases env r req (w w' : App) evs resp : serve env r req w = (w', evs, resp) ->
  (apTasks w' = apTasks w /\ refused env r req w resp) \/
  exists t cache b n evs',
    Verify (anNow env) (TrimPrefix (header_get "Authorization" (rqHeaders r)) "Bearer ") keyring = Ok t /\
    Sdk.Allow (anNow env) (anSet env) (anAt env) (anReply env) (anCancel env) og (clUserID (tkClaims t)) (actionOf req)
      "task:*" (apCache w) (apBreaker w) = (cache, b, n, true) /\
    handler env (clUserID (tkClaims t)) (clOrgID (tkClaims t)) req (mkApp (apTasks w) cache b) = (w', evs', resp).
Proof.
  unfold TaskApp.serve, authMiddleware. cbv zeta. destruct (_ =s? "") eqn:Eh.
  { apply String.eqb_eq in Eh. intros [= <- _ <-]. left. split; [done|]. by apply rf_header. }
  destruct (Verify _ _ _) as [t|e] eqn:Ev; [|intros [= <- _ <-]; left; split; [done|]; by apply rf_token].
  unfold policyMiddleware. destruct (Sdk.Allow _ _ _ _ _ _ _ _ _ _ _) as [[[cache b] n] allowed] eqn:Ea.
  destruct allowed; simpl; [|intros [= <- _ <-]; left; split; [done|]; by eapply rf_policy].
  change (match req with
          | ListTasks => _ | CreateTask b0 => _ | UpdateTask id b0 => _ | DeleteTask id => _ end)
    with (handler env (clUserID (tkClaims t)) (clOrgID (tkClaims t)) req).
  destruct (handler _ _ _ _ _) as [[w1 evs1] resp1] eqn:Eq. intros [= <- _ <-]. right. eauto 12.
Qed.

(** C36: Tasks are isolated by their owner.  A request without a token that
    verifies under the key ring of the process, or whose user the client
    library does not allow this kind of thing, changes no task and is answered
    with the reason alone.  Any other is served as the user of its token: a
    list shows stored tasks of that user only, and all of them when the rows
    arrive; a creation, an update or a deletion does just that to tasks of
    that user, and its answer shows no task but the new one's id; an error's
    answer is the text of the database's error; and the tasks of everyone else
    are as they were. *)
Theorem tasks_isolated env r req (w w' : App) evs resp :
  serve env r req w = (w', evs, resp) ->
  (apTasks w' = apTasks w /\ refused env r req w resp) \/
  exists t, Verify (anNow env) (TrimPrefix (header_get "Authorization" (rqHeaders r)) "Bearer ") keyring = Ok t /\
    (exists cache b n, Sdk.Allow (anNow env) (anSet env) (anAt env) (anReply env) (anCancel env) og (clUserID (tkClaims t))
       (actionOf req) "task:*" (apCache w) (apBreaker w) = (cache, b, n, true)) /\
    served env (clUserID (tkClaims t)) (apTasks w) req (apTasks w') resp /\
    keeps_others (clUserID (tkClaims t)) (apTasks w) (apTasks w').
Proof.
  intros [Hr|(t & cache & b & n & evs' & Hv & Ha & Hh%handler_spec)]%serve_cases; [by left|right].
  exists t. split; [done|]. split; [eauto|]. split; [done|]. by eapply served_others.
Qed.
End properties.

(** ** The application and the policy service *)

Section refused.
Context {R B T : Type} `{Redis R} `{Breaker B} `{TokenBucket T} `{Jwt} `{Mux}.
Variable pgUUID : uuidCast.
Variable heap : list Task -> list Task.

#[local] Notation answers := (answers (R := R) (B := B) (T := T)).

(** The example does not work: it denies every request.  Its client sends
    the API key that no route of the policy service reads, and has no failure
    mode but denial, so however the network, the gateway and the policies are,
    over any run from its start each request is answered with 401 or 403, no
    task is ever stored, changed or shown, no decision is cached, and each of
    its security events is refused as well. *)
Theorem example_denies_everyone keyring policyURL apiKey l tasks w evs resps :
  let client := NewClient policyURL apiKey [] in
  (forall env r req i, In (env, r, req) l -> answers "POST" client (anReply env i)) ->
  serveAll (B := B) pgUUID heap keyring (scClient client) l (mkApp tasks (scCache client) None) = (w, evs, resps) ->
  apTasks w = tasks /\ apCache w = scCache client /\
  (forall resp, In resp resps -> status resp = StatusUnauthorized \/ status resp = StatusForbidden) /\
  (forall e reply timeDoc mapDoc uuid now at_ cancel, In e evs -> (forall i, answers "POST" client (reply i)) ->
     exists err, (IngestEvent (B := B) timeDoc mapDoc uuid now at_ reply cancel (scClient client) e None).2 = Err err).
Proof.
  intros client Ha Hs. enough (Hi : apTasks w = tasks /\ apCache w = scCache client /\
    (forall resp, In resp resps -> status resp = StatusUnauthorized \/ status resp = StatusForbidden)).
  { destruct Hi as (Hx1 & Hx2 & Hx3). split; [done|]. split; [done|]. split; [done|].
    intros e reply timeDoc mapDoc uuid now at_ cancel _ Hr.
    by apply (proj1 (sdk_requests_refused (R := R) (B := B) (T := T) client reply Hr ltac:(done))). }
  revert Ha Hs. generalize (@None B) as b0. clear -client. intros b0. remember (mkApp tasks (scCache client) b0) as w0 eqn:Hw0.
  revert w0 b0 Hw0 w evs resps.
  induction l as [|[[env r] req] l IH]; intros w0 b Hw0 w evs resps Ha; cbn [serveAll]; [intros [= <- _ <-]; by subst|].
  destruct (serve _ _ _ _ _ _ _ _) as [[w1 evs1] resp1] eqn:Es. destruct (serveAll _ _ _ _ _ _) as [[w2 evs2] resps2] eqn:El.
  intros [= <- _ <-].
  assert (Hstep : (exists b', w1 = mkApp tasks (scCache client) b') /\ (status resp1 = StatusUnauthorized \/ status resp1 = StatusForbidden)).
  { subst w0. unfold serve, authMiddleware in Es. cbv zeta in Es. destruct (_ =s? ""); [injection Es as <- _ <-; eauto|].
    destruct (Verify _ _ _) as [t|e]; [|injection Es as <- _ <-; eauto]. unfold policyMiddleware in Es. cbn [apCache apBreaker apTasks] in Es.
    destruct (proj2 (sdk_requests_refused (R := R) (B := B) (T := T) client (anReply env)
      (fun i => Ha env r req i (or_introl eq_refl)) ltac:(done)) (anNow env) (anSet env) (anAt env) (anCancel env)
      (clUserID (tkClaims t)) (actionOf req) "task:*" (scCache client) b eq_refl) as (b' & n & Hd).
    rewrite Hd in Es. injection Es as <- _ <-. eauto. }
  destruct Hstep as [[b' ->] Hr]. edestruct (IH _ b' eq_refl) as (Hx1 & Hx2 & Hx3); [|exact El|].
  { intros e r0 q i Hin. apply (Ha e r0 q i). by right. }
  split; [done|]. split; [done|]. intros resp [<-|Hin]; [done|by apply Hx3].
Qed.
End refused.

(** With a default key in the source, whoever reads it is any user; a text of
    keys that is no key ring is not noticed, and nobody gets in. *)
Lemma taskMain_keyring h tr keyring og : taskMain h = (tr, Started (keyring, og)) ->
  keyring = match LoadKeyring (hParse h) (if hEnv h "OPENGUARD_JWT_KEYS" =s? "" then devKeysJSON else hEnv h "OPENGUARD_JWT_KEYS") with
            | Ok ring => ring | Err _ => [] end /\
  clFailOpen (scClient og) = false /\ clOrg (scClient og) = "" /\ scBreaker og = None.
Proof.
  unfold taskMain. intros Hm. run_boot Hm. injection Hm as _ <- <-.
  match goal with Hk : ask _ h = _, Ht : envOr "OPENGUARD_JWT_KEYS" _ h = _ |- _ => injection Hk as _ <-; injection Ht as _ <- end.
  done.
Qed.

(** ** Examples *)

Module TaskExamples.
Import MiniCrypto RouteExamples SdkExamples.
#[local] Existing Instance RouteExamples.mux.

Definition uuid (s : string) : option string := if s =s? "" then None else Some s.
Definition envWith (reply : nat -> httpReply) : AppEnv :=
  mkAppEnv (2000 * Second) (2000 * Second) (fun _ => 2000 * Second)%Z reply never noFaults false "t9".
Definition request : Request := mkRequest "GET" None [("Authorization", "Bearer tok")] "203.0.113.7:5000".
Definition stored : list Task := [mkTask "t1" "water the plants" "pending" "u"; mkTask "t2" "pay rent" "done" "v"].
Definition app0 : App MiniBreaker := mkApp stored (newLocalCache Minute) None.
Definition plain : Client := mkClient "" false 0.

Definition answered := serve uuid (fun l => l) oldRing plain (envWith (fun _ => allowReply)) request ListTasks app0.

Example list_mine : body answered.2 = JArr [JObj [("id", JStr "t1"); ("status", JStr "pending"); ("title", JStr "water the plants")]].
Proof. vm_compute. reflexivity. Qed.

(** Deleting the task of another user changes nothing, answers 200, and
    announces a deletion. *)
Definition foreign := serve uuid (fun l => l) oldRing plain (envWith (fun _ => allowReply)) request (DeleteTask "t2") app0.
Example delete_foreign : apTasks foreign.1.1 = stored /\ status foreign.2 = StatusOK /\
  map aeEventType foreign.1.2 = ["auth.login.success"; "resource.delete"].
Proof. vm_compute. repeat split. Qed.

Lemma tasks_isolated_witness :
  status answered.2 = StatusOK /\
  exists t, Verify (2000 * Second) (TrimPrefix (header_get "Authorization" (rqHeaders request)) "Bearer ") oldRing = Ok t /\
    served uuid (envWith (fun _ => allowReply)) (clUserID (tkClaims t)) stored ListTasks stored answered.2.
Proof.
  split; [vm_compute; reflexivity|].
  destruct (tasks_isolated (B := MiniBreaker) uuid (fun l => l) (fun l => Permutation_refl l) oldRing plain
              (envWith (fun _ => allowReply)) request ListTasks app0 answered.1.1 answered.1.2 answered.2) as [[_ Hr]|(t & Hv & _ & Hs & _)].
  - unfold answered. by destruct (serve _ _ _ _ _ _ _ _) as [[? ?] ?].
  - exfalso. assert (Hst : status answered.2 = 200%Z) by (vm_compute; reflexivity). destruct Hr; discriminate Hst.
  - exists t. split; [exact Hv|exact Hs].
Defined.

(** The policy service would allow everything that reaches its handler. *)
Definition refusal0 : httpReply :=
  match (thread (2000 * Second) gates (rtChain evaluateRoute) (sdkRequest "POST" "203.0.113.7:5000" (NewClient defaultPolicyURL defaultAPIKey [])) background).2 with
  | Reject st _ => Reply st None
  | Pass ctx => allowReply
  | Panic => Reply StatusInternalServerError None
  end.

Definition attempts : list (AppEnv * Request * TaskReq) :=
  [(envWith (fun _ => refusal0), request, ListTasks); (envWith (fun _ => refusal0), request, DeleteTask "t1")].
Definition end0 := serveAll (B := MiniBreaker) uuid (fun l => l) oldRing
  (scClient (NewClient defaultPolicyURL defaultAPIKey [])) attempts (mkApp stored (newLocalCache Minute) None).

Lemma example_denies_everyone_witness :
  map status end0.2 = [StatusForbidden; StatusForbidden] /\ apTasks end0.1.1 = stored.
Proof.
  split; [vm_compute; reflexivity|].
  refine (proj1 (example_denies_everyone (R := MiniRedis) (B := MiniBreaker) (T := MiniBucket) uuid (fun l => l) oldRing
    defaultPolicyURL defaultAPIKey attempts stored end0.1.1 end0.1.2 end0.2 _ _)).
  - intros env r req i [[= <- <- <-]|[[= <- <- <-]|[]]];
      apply (an_service "POST" (NewClient defaultPolicyURL defaultAPIKey []) (2000 * Second) gates policyRouter evaluateRoute false
               "203.0.113.7:5000" "" (fun _ => allowReply));
      [by left|vm_compute; do 10 right; by left|simpl; do 8 right; by left|by left|vm_compute; do 10 right; by left|simpl; do 8 right; by left].
  - unfold end0. destruct (serveAll _ _ _ _ _ _) as [[? ?] ?]. reflexivity.
Defined.
End TaskExamples.
