(* ===== verification/Migrate.v ===== *)
(** Migrations at start-up: shared/database/migrate.go.  [Migrate] applies the
    files of a directory; [RunWithLock] lets one of several starting instances
    do so, by a lock in Redis with a heartbeat.  The instances are a step
    relation; PostgreSQL's execution of a file is a parameter. *)

From S2P Require Import Prelude GoStrings Json Redis Pg.
From stdpp Require Import relations.

(** ** Migrate *)

(** An entry of the directory. *)
Record DirEntry := mkDirEntry { deName : string; deIsDir : bool }.

Definition upFiles (files : list DirEntry) : list string :=
  order_by String.leb
    (flat_map (fun f => if negb (deIsDir f) && HasSuffix (deName f) ".up.sql" then [deName f] else []) files).

Section migrate.
Context {W : Type}.
(** [os.ReadFile], and [pool.Exec] of a whole file. *)
Variable readFile : string -> res string.
Variable exec : string -> W -> W * option goerr.

(** The error of a relation that is there already, told by its text. *)
Definition alreadyExists (e : goerr) : bool := Contains (error_text e) "already exists".

Fixpoint applyFiles (fs : list string) (w : W) : W * option goerr :=
  match fs with
  | [] => (w, None)
  | f :: fs' =>
      match readFile f with
      | Err e => (w, Some (ErrWrap ("read migration file " +:+ (f +:+ ": ")) e ""))
      | Ok content =>
          match exec content w with
          | (w', None) => applyFiles fs' w'
          | (w', Some e) =>
              if alreadyExists e then applyFiles fs' w'
              else (w', Some (ErrWrap ("execute migration " +:+ (f +:+ ": ")) e ""))
          end
      end
  end.

Definition Migrate (dir : res (list DirEntry)) (w : W) : W * option goerr :=
  match dir with
  | Err e => (w, Some (ErrWrap "read migrations dir: " e ""))
  | Ok files => applyFiles (upFiles files) w
  end.

(** The files run one after the other, as far as they go: [ran fs w w']. *)
Inductive ran : list string -> W -> W -> Prop :=
| ran_nil w : ran [] w w
| ran_cons f fs content w w1 e w2 :
    readFile f = Ok content -> exec content w = (w1, e) -> (forall x, e = Some x -> alreadyExists x = true) ->
    ran fs w1 w2 -> ran (f :: fs) w w2.

(** Success: every file was executed, each with success or with an error that
    says "already exists".  Failure: the files before the failing one were,
    and none after it. *)
Lemma applyFiles_spec fs : forall w w' r, applyFiles fs w = (w', r) ->
  match r with
  | None => ran fs w w'
  | Some _ => exists fs1 f fs2 w1, fs = fs1 ++ f :: fs2 /\ ran fs1 w w1 /\
      ((exists e, readFile f = Err e /\ w' = w1) \/
       (exists content e, readFile f = Ok content /\ exec content w1 = (w', Some e) /\ alreadyExists e = false))
  end.
Proof.
  induction fs as [|f fs IH]; intros w w' r; cbn [applyFiles]; [intros [= <- <-]; constructor|].
  destruct (readFile f) as [content|e] eqn:Er.
  2: { intros [= <- <-]. exists [], f, fs, w. split; [done|]. split; [constructor|]. left. eauto. }
  assert (Hstep : forall w1 e, exec content w = (w1, e) -> (forall x, e = Some x -> alreadyExists x = true) ->
    applyFiles fs w1 = (w', r) ->
    match r with
    | None => ran (f :: fs) w w'
    | Some _ => exists fs1 g fs2 w2, f :: fs = fs1 ++ g :: fs2 /\ ran fs1 w w2 /\
        ((exists e, readFile g = Err e /\ w' = w2) \/
         (exists content e, readFile g = Ok content /\ exec content w2 = (w', Some e) /\ alreadyExists e = false))
    end).
  { intros w1 e He Hx Hrun. apply IH in Hrun. destruct r as [x|]; [|by eapply ran_cons].
    destruct Hrun as (fs1 & g & fs2 & w2 & -> & Hran & Hg). exists (f :: fs1), g, fs2, w2. split; [done|].
    split; [by eapply ran_cons|done]. }
  destruct (exec content w) as [w1 [e|]] eqn:Ex.
  - destruct (alreadyExists e) eqn:Ea.
    + by apply (Hstep w1 (Some e)); [|intros x [= <-]].
    + intros [= <- <-]. exists [], f, fs, w. split; [done|]. split; [constructor|]. right. eauto.
  - by apply (Hstep w1 None).
Qed.

(** Only files of migrations, all of them, once each. *)
Lemma upFiles_perm files :
  Permutation (upFiles files)
    (map deName (List.filter (fun f => negb (deIsDir f) && HasSuffix (deName f) ".up.sql") files)).
Proof.
  unfold upFiles. rewrite order_by_perm. induction files as [|f files IH]; simpl; [done|].
  destruct (_ && _); simpl; by rewrite IH.
Qed.
End migrate.

(** ** RunWithLock *)

Definition lockTTL : Z := (60 * Second)%Z.
Definition pollLimit : nat := 30.

(** Where an instance stands; a running one had its lock refreshed at
    [beat]. *)
Inductive phase :=
| Starting
| Polling (left : nat)
| Running (beat : Z)
| Finished (ran_task : bool) (r : option goerr).

Section lock.
Context {R : Type} `{Redis R}.
Variable lockKey : string.

(** [SetNX]. *)
Definition acquire (now : Z) (r : R) : R * phase :=
  match rsetnx now r lockKey (RText "1") lockTTL with
  | (r', Err e) => (r', Finished false (Some (ErrWrap "redis lock error: " e "")))
  | (r', Ok true) => (r', Running now)
  | (r', Ok false) => (r', Polling pollLimit)
  end.

(** One iteration of the waiting loop; an error of [Exists] reads as 0. *)
Definition poll (now : Z) (r : R) (left : nat) : phase :=
  match left with
  | 0 => Finished false None
  | S left' => match rexists now r lockKey with Ok true => Polling left' | _ => Finished false None end
  end.

(** The ticker of the heartbeat. *)
Definition heartbeat (now : Z) (r : R) (beat : Z) : R * phase :=
  match rexpire now r lockKey lockTTL with
  | (r', None) => (r', Running now)
  | (r', Some _) => (r', Running beat)
  end.

(** The task returned, and the deferred function. *)
Definition release (now : Z) (r : R) (result : option goerr) : R * phase :=
  ((rdel now r [lockKey]).1, Finished true result).

Record Fleet := mkFleet { flNow : Z; flRedis : R; flPhase : nat -> phase }.

Definition startFleet (now : Z) (r : R) : Fleet := mkFleet now r (fun _ => Starting).

Definition set_phase (i : nat) (p : phase) (f : nat -> phase) : nat -> phase := fun j => if decide (j = i) then p else f j.

Inductive lock_step : Fleet -> Fleet -> Prop :=
| lk_acquire i t s r p :
    flPhase s i = Starting -> (flNow s <= t)%Z -> acquire t (flRedis s) = (r, p) ->
    lock_step s (mkFleet t r (set_phase i p (flPhase s)))
| lk_poll i left t s :
    flPhase s i = Polling left -> (flNow s <= t)%Z ->
    lock_step s (mkFleet t (flRedis s) (set_phase i (poll t (flRedis s) left) (flPhase s)))
| lk_heartbeat i beat t s r p :
    flPhase s i = Running beat -> (flNow s <= t)%Z -> heartbeat t (flRedis s) beat = (r, p) ->
    lock_step s (mkFleet t r (set_phase i p (flPhase s)))
| lk_release i beat result t s r p :
    flPhase s i = Running beat -> (flNow s <= t)%Z -> release t (flRedis s) result = (r, p) ->
    lock_step s (mkFleet t r (set_phase i p (flPhase s)))
| lk_others t r s :                                   (* other keys *)
    (flNow s <= t)%Z -> (forall u, (t <= u)%Z -> rview u r lockKey = rview u (flRedis s) lockKey) ->
    lock_step s (mkFleet t r (flPhase s)).

(** No heartbeat is late: at each step the lock of every running instance has
    not expired. *)
Definition timely_step (s s' : Fleet) : Prop :=
  lock_step s s' /\ forall i beat, flPhase s i = Running beat -> (flNow s' < beat + lockTTL)%Z.

(** One instance at most runs, and its lock is there until it expires. *)
Record fleet_ok (s : Fleet) : Prop := {
  fl_past : forall i b, flPhase s i = Running b -> (b <= flNow s)%Z;
  fl_one : forall i j b c, flPhase s i = Running b -> flPhase s j = Running c -> i = j;
  fl_held : forall i b, flPhase s i = Running b -> forall t, (flNow s <= t < b + lockTTL)%Z -> rview t (flRedis s) lockKey <> None;
}.

Context `{!RedisLaws R}.

Lemma set_phase_running i p f j b : set_phase i p f j = Running b -> (j = i /\ p = Running b) \/ (j <> i /\ f j = Running b).
Proof. unfold set_phase. destruct (decide (j = i)); auto. Qed.

(** A step of one instance that leaves the lock of the others alone. *)
Lemma fleet_ok_quiet i p t r s :
  fleet_ok s -> (flNow s <= t)%Z -> (forall b, p <> Running b) ->
  (forall j b, j <> i -> flPhase s j = Running b -> forall u, (t <= u < b + lockTTL)%Z -> rview u r lockKey <> None) ->
  fleet_ok (mkFleet t r (set_phase i p (flPhase s))).
Proof.
  intros [H0 H1 H2] Ht Hp Hv. split; simpl.
  - intros j b [[_ ->]|[_ Hj]]%set_phase_running; [by destruct (Hp b)|]. specialize (H0 j b Hj). lia.
  - intros j k b c [[_ ->]|[_ Hj]]%set_phase_running; [by destruct (Hp b)|].
    intros [[_ ->]|[_ Hk]]%set_phase_running; [by destruct (Hp c)|]. eauto.
  - intros j b [[_ ->]|[Hne Hj]]%set_phase_running; [by destruct (Hp b)|]. eauto.
Qed.

Lemma timely_step_ok s s' : timely_step s s' -> fleet_ok s -> fleet_ok s'.
Proof.
  intros [Hs Hb] Hok. pose proof (fl_one s Hok) as H1. pose proof (fl_held s Hok) as H2.
  destruct Hs as [i t s r p Hi Ht Ha|i left t s Hi Ht|i beat t s r p Hi Ht Ha|i beat result t s r p Hi Ht Ha|t r s Ht Hr];
    cbn [flNow] in Hb.
  - unfold acquire in Ha. destruct (rsetnx t (flRedis s) lockKey (RText "1") lockTTL) as [r' [[]|e]] eqn:E;
      injection Ha as <- <-.
    + pose proof (rsetnx_ok _ _ _ _ _ _ _ E) as [Hx Hv]. symmetry in Hx. apply bool_decide_eq_true in Hx.
      assert (Hno : forall j b, flPhase s j <> Running b).
      { intros j b Hj. apply (H2 j b Hj t); [|done]. specialize (Hb j b Hj). lia. }
      split; simpl.
      * intros j b [[_ [= ->]]|[_ Hj]]%set_phase_running; [lia|by destruct (Hno j b)].
      * intros j k b c [[-> _]|[_ Hj]]%set_phase_running; [|by destruct (Hno j b)].
        intros [[-> _]|[_ Hk]]%set_phase_running; [done|by destruct (Hno k c)].
      * intros j b [[-> [= ->]]|[_ Hj]]%set_phase_running; [|by destruct (Hno j b)]. intros u Hu.
        rewrite Hv by lia. unfold view_set. rewrite decide_True by done. by rewrite (proj2 (Z.ltb_lt _ _)) by lia.
    + pose proof (rsetnx_ok _ _ _ _ _ _ _ E) as [_ Hv]. apply fleet_ok_quiet; [done|done|done|].
      intros j b _ Hj u Hu. rewrite Hv by lia. apply (H2 j b Hj). lia.
    + apply fleet_ok_quiet; [done|done|done|]. intros j b _ Hj u Hu. specialize (Hb j b Hj).
      rewrite (rsetnx_present _ _ _ _ _ _ _ u E) by (lia || (apply (H2 j b Hj); lia)). apply (H2 j b Hj). lia.
  - apply fleet_ok_quiet; [done|done| |].
    + intros b. unfold poll. destruct left; [done|]. by destruct (rexists _ _ _) as [[]|].
    + intros j b _ Hj u Hu. apply (H2 j b Hj). lia.
  - pose proof (fl_past s Hok i beat Hi) as Hpast. specialize (Hb i beat Hi).
    set (after := fun e : option goerr => match e with Some _ => beat | None => t end).
    assert (Hv : forall e r' u, rexpire t (flRedis s) lockKey lockTTL = (r', e) ->
      (t <= u < after e + lockTTL)%Z -> rview u r' lockKey <> None).
    { intros e r' u E Hu. pose proof (rexpire_applied _ _ _ _ _ _ E) as Hap.
      assert (Hbase : rview t (flRedis s) lockKey <> None) by (apply (H2 i beat Hi); lia).
      destruct Hap as [Hap|[Hne Hap]]; unfold view_of in Hap; rewrite Hap by lia.
      - unfold view_expire. rewrite decide_True by done. rewrite (proj2 (Z.ltb_lt _ _)); [done|].
        destruct e; simpl in Hu; lia.
      - destruct e; [|done]. apply (H2 i beat Hi). simpl in Hu. lia. }
    unfold heartbeat in Ha. destruct (rexpire t (flRedis s) lockKey lockTTL) as [r' e] eqn:E.
    assert (r = r' /\ p = Running (after e)) as [-> ->] by (destruct e; injection Ha; auto).
    assert (Hae : (after e <= t)%Z) by (destruct e; simpl; lia).
    split; simpl.
    + intros j b [[_ [= <-]]|[_ Hj]]%set_phase_running; [done|]. pose proof (fl_past s Hok j b Hj). lia.
    + intros j k b c [[-> _]|[Hj Hj']]%set_phase_running [[-> _]|[Hk Hk']]%set_phase_running; eauto.
    + intros j b [[-> [= <-]]|[Hne Hj]]%set_phase_running; [intros u Hu; by eapply Hv|].
      destruct Hne. by apply (H1 j i b beat).
  - unfold release in Ha. injection Ha as _ <-. apply fleet_ok_quiet; [done|done|done|].
    intros j b Hne Hj. destruct Hne. by apply (H1 j i b beat).
  - split; simpl.
    + intros j b Hj. pose proof (fl_past s Hok j b Hj). lia.
    + exact H1.
    + intros j b Hj u Hu. rewrite Hr by lia. apply (H2 j b Hj). lia.
Qed.

(** C28: Migrations are exclusive while heartbeats are in time.  However many
    instances start, wait, refresh and release, whatever Redis reports and
    whether a command that failed took effect: as long as no step comes later
    than sixty seconds after the last refresh that a running instance knows
    of, at most one instance runs the migrations. *)
Theorem migrations_exclusive now r s i j b c :
  rtc timely_step (startFleet now r) s -> flPhase s i = Running b -> flPhase s j = Running c -> i = j.
Proof.
  intros Hr. assert (Hok : fleet_ok s); [|intros Hi Hj; by eapply (fl_one s Hok)].
  assert (H0 : fleet_ok (startFleet now r)) by (by split).
  revert H0. induction Hr as [|s1 s2 s3 Hs _ IH]; [done|]. intros H1. apply IH. by eapply timely_step_ok.
Qed.

(** An instance that waited reports success, whatever became of the task. *)
Lemma waiting_reports_success now r left :
  poll now r left = Finished false None \/ exists left', poll now r left = Polling left'.
Proof. unfold poll. destruct left; [by left|]. destruct (rexists _ _ _) as [[]|]; eauto. Qed.
End lock.

(** ** Examples *)

Module MigrateExamples.

Definition key : string := "migrate:lock:iam".
Definition step := timely_step (R := MiniRedis) key.

(** Two instances: the second waits, and the migrations of the first fail. *)
Definition f0 : Fleet := startFleet 0 emptyRedis.
Definition f1 : Fleet := let '(r, p) := acquire key 0 emptyRedis in mkFleet 0 r (set_phase 0 p (flPhase f0)).
Definition f2 : Fleet := let '(r, p) := acquire key Second (flRedis f1) in mkFleet Second r (set_phase 1 p (flPhase f1)).
Definition failed : option goerr := Some (ErrNew "execute migration 002.up.sql: syntax error").
Definition f3 : Fleet := let '(r, p) := release key (2 * Second) (flRedis f2) failed in mkFleet (2 * Second) r (set_phase 0 p (flPhase f2)).
Definition f4 : Fleet := mkFleet (3 * Second) (flRedis f3) (set_phase 1 (poll key (3 * Second) (flRedis f3) pollLimit) (flPhase f3)).

Lemma f0_idle i : flPhase f0 i = Starting.
Proof. done. Qed.

Lemma migrations_exclusive_witness :
  flPhase f2 0 = Running 0 /\ flPhase f2 1 = Polling pollLimit /\ forall j c, flPhase f2 j = Running c -> 0 = j.
Proof.
  split; [reflexivity|]. split; [reflexivity|]. intros j c Hj.
  apply (migrations_exclusive key 0 emptyRedis f2 0 j 0 c); [|reflexivity|exact Hj].
  eapply rtc_l; [split; [by eapply (lk_acquire key 0 0 f0)|by intros i b]|].
  eapply rtc_l; [split; [by eapply (lk_acquire key 1 Second f1)|]|apply rtc_refl].
  intros i b [[-> Hb]|[_ Hb]]%(set_phase_running 0); [|done]. injection Hb as <-. vm_compute. done.
Defined.

(** The second reports that the migrations are done. *)
Example waiter_trusts_failure : flPhase f4 0 = Finished true failed /\ flPhase f4 1 = Finished false None.
Proof. split; reflexivity. Qed.

(** A heartbeat that comes too late: both run, and the release of the first
    takes away the lock of the second. *)
Definition late : Z := (61 * Second)%Z.
Definition g2 : Fleet := let '(r, p) := acquire key late (flRedis f1) in mkFleet late r (set_phase 1 p (flPhase f1)).
Definition g3 : Fleet := let '(r, p) := release key (late + Second) (flRedis g2) None in mkFleet (late + Second) r (set_phase 0 p (flPhase g2)).

Example late_heartbeat_overlaps :
  flPhase g2 0 = Running 0 /\ flPhase g2 1 = Running late /\
  flPhase g3 1 = Running late /\ rview (late + Second) (flRedis g3) key = None.
Proof. split_and!; vm_compute; reflexivity. Qed.
End MigrateExamples.
