(* ===== verification/Oidc.v ===== *)
(** The documents the identity service publishes for OpenID clients, [JWKS] and
    [OIDCDiscovery] of services/iam/pkg/handlers/oauth.go, against its routes
    ([Routes]). *)

From S2P Require Import Prelude GoStrings Json Crypto Http Routes.

(** ** The documents *)

Definition jwkDoc (k : JWTKey) : json :=
  JObj [("kid", JStr (jkKid k)); ("kty", JStr "oct"); ("alg", JStr (jkAlgorithm k)); ("use", JStr "sig")].

(** An empty ring is the nil slice. *)
Definition JWKS (keyring : list JWTKey) : Response :=
  writeJSON [] StatusOK (JObj [("keys", match keyring with [] => JNull | _ => JArr (map jwkDoc keyring) end)]).

Definition strings (l : list string) : json := JArr (map JStr l).

(** [OIDCDiscovery]; the argument is OIDC_ISSUER_URL. *)
Definition issuerOf (env : string) : string := if env =s? "" then "http://localhost:8081" else env.

Definition OIDCDiscovery (env : string) : Response :=
  let issuer := issuerOf env in
  writeJSON [] StatusOK (JObj [
    ("issuer", JStr issuer);
    ("authorization_endpoint", JStr (issuer +:+ "/auth/authorize"));
    ("token_endpoint", JStr (issuer +:+ "/auth/token"));
    ("userinfo_endpoint", JStr (issuer +:+ "/auth/me"));
    ("jwks_uri", JStr (issuer +:+ "/oauth/jwks"));
    ("response_types_supported", strings ["code"; "token"; "id_token"]);
    ("grant_types_supported", strings ["authorization_code"; "refresh_token"; "password"]);
    ("subject_types_supported", strings ["public"]);
    ("id_token_signing_alg_values_supported", strings ["HS256"]);
    ("scopes_supported", strings ["openid"; "profile"; "email"]);
    ("token_endpoint_auth_methods_supported", strings ["client_secret_post"; "client_secret_basic"]);
    ("claims_supported", strings ["iss"; "sub"; "aud"; "exp"; "iat"; "org_id"]);
    ("code_challenge_methods_supported", strings ["S256"])]).

(** ** Properties *)

(** The published key set says nothing of the secrets. *)
Lemma jwks_hides_secrets ring ring' :
  map (fun k => (jkKid k, jkAlgorithm k)) ring = map (fun k => (jkKid k, jkAlgorithm k)) ring' -> JWKS ring = JWKS ring'.
Proof.
  intros He. assert (Hm : map jwkDoc ring = map jwkDoc ring').
  { revert ring' He. induction ring as [|k ring IH]; intros [|k' ring'] He; [done|done|done|]. injection He as Hk Ha Hr.
    simpl. rewrite (IH ring' Hr). unfold jwkDoc. by rewrite Hk, Ha. }
  unfold JWKS. destruct ring, ring'; [done|done|done|]. by rewrite Hm.
Qed.

(** An endpoint of the document, without the issuer. *)
Definition endpoint (env member : string) : option string :=
  match body (OIDCDiscovery env) with
  | JObj l => match find (fun kv => (kv.1 =? member)%string) l with
              | Some (_, JStr s) => Some (TrimPrefix s (issuerOf env))
              | _ => None
              end
  | _ => None
  end.

Definition routed (method path : string) : bool :=
  existsb (fun r => (rtMethod r =? method)%string && bool_decide (rtPattern r = segments path)) (table iamRouter).

Lemma endpoint_at env : endpoint env "authorization_endpoint" = Some "/auth/authorize" /\
  endpoint env "token_endpoint" = Some "/auth/token" /\ endpoint env "userinfo_endpoint" = Some "/auth/me" /\
  endpoint env "jwks_uri" = Some "/oauth/jwks".
Proof.
  unfold endpoint, OIDCDiscovery. cbv zeta. generalize (issuerOf env) as issuer. intros issuer.
  cbn. rewrite !TrimPrefix_append. done.
Qed.

(** Three of the advertised endpoints are routes of the service; the key set
    is served elsewhere, and no route of the service begins with /oauth. *)
Theorem discovery_endpoints env :
  (forall m p, endpoint env "authorization_endpoint" = Some p -> m = "GET" -> routed m p = true) /\
  (forall m p, endpoint env "token_endpoint" = Some p -> m = "POST" -> routed m p = true) /\
  (forall m p, endpoint env "userinfo_endpoint" = Some p -> m = "GET" -> routed m p = true) /\
  routed "GET" "/auth/jwks" = true /\
  (forall p r, endpoint env "jwks_uri" = Some p -> In r (table iamRouter) ->
     head (rtPattern r) <> head (segments p)).
Proof.
  destruct (endpoint_at env) as (-> & -> & -> & ->).
  split_and!; try (intros m p [= <-] ->; vm_compute; reflexivity); [vm_compute; reflexivity|].
  intros p r [= <-] Hr. assert (Hf : forallb (fun r => negb (bool_decide (head (rtPattern r) = head (segments "/oauth/jwks"))))
    (table iamRouter) = true) by (vm_compute; reflexivity).
  rewrite forallb_forall in Hf. specialize (Hf r Hr). rewrite negb_true_iff in Hf. by apply bool_decide_eq_false in Hf.
Qed.
