(* ===== verification/SafeLog.v ===== *)
(** The log handler that redacts: shared/telemetry/safe_logger.go.  Every
    service logs through it; what it hands to the handler it wraps is a
    function of what it is given. *)

From S2P Require Import Prelude Json.

(** [slog.Attr]: a key with a value, whose kind does not matter, or a group. *)
Inductive attr :=
| Attr (key : string) (value : json)
| Group (key : string) (attrs : list attr).

Definition sensitiveFields : list string :=
  ["password"; "token"; "secret"; "api_key"; "authorization"; "cookie"; "access_token"; "refresh_token"].

Definition sensitive (key : string) : bool := existsb (String.eqb (ToLower key)) sensitiveFields.

Definition redacted : json := JStr "[REDACTED]".

(** [slog.GroupValue] and [Record.AddAttrs] leave out empty groups. *)
Definition nonEmpty (a : attr) : bool := match a with Group _ [] => false | _ => true end.

Fixpoint redactAttr (a : attr) : attr :=
  match a with
  | Group key attrs => Group key (List.filter nonEmpty (map redactAttr attrs))
  | Attr key value => if sensitive key then Attr key redacted else a
  end.

(** What a logger does with its handler. *)
Inductive logCall :=
| Log (level : Z) (message : string) (attrs : list attr)     (* Handle *)
| WithAttrs (attrs : list attr)
| WithGroup (name : string).

(** What the wrapped handler gets. *)
Definition safeCall (c : logCall) : logCall :=
  match c with
  | Log level message attrs => Log level message (List.filter nonEmpty (map redactAttr attrs))
  | WithAttrs attrs => WithAttrs (map redactAttr attrs)
  | WithGroup name => WithGroup name
  end.

(** ** Properties *)

(** The values of an attribute with the groups they are in. *)
Fixpoint leaves (pre : list string) (a : attr) : list (list string * string * json) :=
  match a with
  | Attr key value => [(pre, key, value)]
  | Group key attrs => flat_map (leaves (pre ++ [key])) attrs
  end.

Definition callAttrs (c : logCall) : list attr :=
  match c with Log _ _ attrs | WithAttrs attrs => attrs | WithGroup _ => [] end.

Definition redactLeaf (l : list string * string * json) : list string * string * json :=
  if sensitive l.1.2 then (l.1, redacted) else l.

Section attr_induction.
Variable P : attr -> Prop.
Hypothesis Pattr : forall k v, P (Attr k v).
Hypothesis Pgroup : forall k l, Forall P l -> P (Group k l).

Fixpoint attr_nested (a : attr) : P a :=
  match a with
  | Attr k v => Pattr k v
  | Group k l => Pgroup k l ((fix go l : Forall P l := match l with [] => Forall_nil_2 P | a :: l' => Forall_cons_2 P a l' (attr_nested a) (go l') end) l)
  end.
End attr_induction.

Lemma leaves_nonEmpty pre l : flat_map (leaves pre) (List.filter nonEmpty l) = flat_map (leaves pre) l.
Proof.
  induction l as [|a l IH]; [done|]. simpl. destruct (nonEmpty a) eqn:E; simpl; rewrite IH; [done|].
  destruct a as [|k []]; done.
Qed.

Lemma flat_map_leaves pre l :
  Forall (fun a => forall pre, leaves pre (redactAttr a) = map redactLeaf (leaves pre a)) l ->
  flat_map (leaves pre) (map redactAttr l) = map redactLeaf (flat_map (leaves pre) l).
Proof. induction 1 as [|a l Ha _ IH]; [done|]. simpl. by rewrite Ha, IH, map_app. Qed.

Lemma redactAttr_leaves a : forall pre, leaves pre (redactAttr a) = map redactLeaf (leaves pre a).
Proof.
  induction a as [k v|k l IH] using attr_nested; intros pre; simpl.
  - unfold redactLeaf. simpl. by destruct (sensitive k).
  - rewrite leaves_nonEmpty. by apply flat_map_leaves.
Qed.

(** What reaches the log: the values of the call in their groups and order,
    but "[REDACTED]" in the place of each whose own key, in any case, is a
    sensitive one.  The message and the names of groups do not matter. *)
Theorem safe_log_redacts c :
  flat_map (leaves []) (callAttrs (safeCall c)) = map redactLeaf (flat_map (leaves []) (callAttrs c)) /\
  forall g k v, In (g, k, v) (flat_map (leaves []) (callAttrs (safeCall c))) -> sensitive k = true -> v = redacted.
Proof.
  assert (Hl : flat_map (leaves []) (callAttrs (safeCall c)) = map redactLeaf (flat_map (leaves []) (callAttrs c))).
  { destruct c as [lv m l|l|n]; simpl; [rewrite leaves_nonEmpty| |done]; apply flat_map_leaves, Forall_forall;
      intros a _ pre; apply redactAttr_leaves. }
  split; [done|]. rewrite Hl. intros g k v Hi Hs. apply in_map_iff in Hi as ([[g' k'] v'] & Hi & _).
  unfold redactLeaf in Hi. simpl in Hi. destruct (sensitive k') eqn:E; injection Hi as <- <- <-; [done|congruence].
Qed.

(** Redacting twice changes nothing more. *)
Lemma redactAttr_idem a : redactAttr (redactAttr a) = redactAttr a.
Proof.
  induction a as [k v|k l IH] using attr_nested; simpl.
  - destruct (sensitive k) eqn:E; simpl; by rewrite E.
  - f_equal. induction IH as [|a l Ha _ IHl]; [done|]. simpl. destruct (nonEmpty (redactAttr a)) eqn:E; [|done].
    simpl. by rewrite Ha, E, IHl.
Qed.

(** A group is not redacted by its name, nor a document by the names inside. *)
Lemma secret_group_kept v : safeCall (WithAttrs [Group "password" [Attr "value" v]]) = WithAttrs [Group "password" [Attr "value" v]].
Proof. done. Qed.

Lemma secret_document_kept v :
  safeCall (WithAttrs [Attr "body" (JObj [("password", v)])]) = WithAttrs [Attr "body" (JObj [("password", v)])].
Proof. done. Qed.
