(* ===== verification/Deployment.v ===== *)
(** The processes of [Boot] side by side: which of them a logout reaches, what
    a setting that cannot be read does to the reports, who reads which topic,
    and how a list of brokers is understood. *)

From S2P Require Import Prelude GoStrings Json Redis Pg Resilience Hex Crypto Http.
From S2P Require Import Outbox Middleware RateLimit IamStore IamService IamTokens IamUsers IamSessions Compliance Startup Boot.
From Stdlib Require Import Ascii.
From stdpp Require Import relations.

(** ** Logout *)

Section logout.
Context {S R B : Type} `{PgSession S} `{RedisLaws R} `{Breaker B} `{Jwt} `{Aead} `{IamLibLaws}.

#[local] Notation World := (@IamService.Iam R B).

(** Which database a service's options name: two texts of an address may name
    the same server. *)
Context {P : Type} `{EqDecision P} (place : redisOptions -> P).

(** The databases of Redis, before and after the identity service changed
    the one it uses. *)
Definition update_store (d : P) (r : R) (stores : P -> R) : P -> R :=
  fun d' => if decide (d' = d) then r else stores d'.

(** What the shared check does with a token that verifies. *)
Lemma shared_check t ring (s : R) (b : B) r ctx tok e :
  extractToken r <> "" -> Verify t (extractToken r) ring = Ok tok -> clExpiresAt (tkClaims tok) = Some e ->
  (beforeRequest t b).2 <> None \/ rexists t s (blocklistKey (clID (tkClaims tok))) <> Ok true ->
  (AuthJWTWithBlocklist t ring (Some s) (Some b) r ctx).2 = Pass (withClaims (tkClaims tok) e ctx).
Proof.
  intros Hne Hv He Hc. unfold AuthJWTWithBlocklist. rewrite (proj2 (String.eqb_neq _ _) Hne), Hv.
  destruct (revokedCheck t (Some s) (Some b) (clID (tkClaims tok))) as [b' rv] eqn:Er.
  destruct rv; [|by rewrite He].
  assert (Ht : (revokedCheck t (Some s) (Some b) (clID (tkClaims tok))).2 = true) by (by rewrite Er).
  apply revokedCheck_true in Ht as (s1 & b1 & [= <-] & [= <-] & Hb & Hx). by destruct Hc.
Qed.

(** C8: Which services a logout reaches.  The identity service on one machine
    signs a user out; a route of any service on any machine that checks
    tokens then asks the database that its own settings name.  When that is
    the database of the identity service, and until it holds something else,
    a token with that id which would still be valid is refused if the breaker
    admits the question and Redis answers it, and is let through if not: the
    shared check fails open.  When it is another database, the service
    decides on every request as if nobody had signed out.  Without a
    "REDIS_URL" the policy service and the registry each name a database of
    their own ([default_databases]). *)
Theorem logout_reaches hi hs s svi svs oi os stores now jti expiresAt (w w' : World) :
  In svi (servers (mainOf (Svc Iam) hi).1) -> In svs (servers (mainOf (Svc s) hs).1) ->
  svRedis svi = Some oi -> svRedis svs = Some os ->
  iRedis w = stores (place oi) -> Logout now jti expiresAt w = (w', None) -> (now < expiresAt)%Z ->
  let stores' := update_store (place oi) (iRedis w') stores in
  hParseRedis hi (redisURL Iam hi) = Ok oi /\ hParseRedis hs (redisURL s hs) = Ok os /\
  exists ring, svKeys svs = Some ring /\ keyringOf s hs = Started ring /\
    (place oi = place os ->
       forall t (b : B) r ctx tok e, (now <= t < expiresAt)%Z -> extractToken r <> "" ->
         Verify t (extractToken r) ring = Ok tok -> clID (tkClaims tok) = jti -> clExpiresAt (tkClaims tok) = Some e ->
         let answered := (beforeRequest t b).2 = None /\ exists x, rexists t (stores' (place os)) (blocklistKey jti) = Ok x in
         let v := (AuthJWTWithBlocklist t ring (Some (stores' (place os))) (Some b) r ctx).2 in
         (answered -> exists msg, v = Reject StatusUnauthorized msg) /\
         (~ answered -> v = Pass (withClaims (tkClaims tok) e ctx))) /\
    (place oi <> place os ->
       forall t (b : option B) r ctx,
         AuthJWTWithBlocklist t ring (Some (stores' (place os))) b r ctx =
         AuthJWTWithBlocklist t ring (Some (stores (place os))) b r ctx).
Proof.
  intros Hi Hs Hri Hrs Hw Hl Hlt stores'. apply main_leads in Hi as (_ & _ & ki & oi' & _ & Hoi & _ & Hpi).
  apply main_leads in Hs as (_ & _ & ring & os' & Hk & Hos & Hring & Hps).
  rewrite Hri in Hoi. injection Hoi as <-. rewrite Hrs in Hos. injection Hos as <-.
  split; [done|]. split; [done|]. exists ring. split; [done|]. split; [done|]. split.
  - intros Hp t b r ctx tok e Ht Hne Hv Hj He answered v. unfold answered, v, stores', update_store.
    rewrite decide_True by done. split.
    + intros [Hb [x Hx]]. by eapply (logout_revokes now jti expiresAt w w' Hl Hlt t).
    + intros Hn. apply shared_check; [done|done|done|]. rewrite Hj.
      destruct (beforeRequest t b).2 eqn:Eb; [by left|right]. intros Hx. apply Hn. eauto.
  - intros Hne t b r ctx. unfold stores', update_store. rewrite decide_False; [done|]. intros E. by destruct Hne.
Qed.
End logout.

(** What the settings name when they say nothing. *)
Lemma default_databases h s :
  hEnv h "REDIS_URL" = "" -> hEnv h "REDIS_ADDR" = "" ->
  redisURL s h = match s with
                 | Policy => "redis://localhost:6379/1"
                 | ConnectorRegistry => "redis://localhost:6379/2"
                 | _ => "redis://localhost:6379/0"
                 end.
Proof. intros Hu Ha. unfold redisURL. rewrite Hu, Ha. by destruct s. Qed.

(** ** The limit of reports *)

Section reports.
Context {S : Type} {size : S -> Z} `{WeightedLaws S size} (pgUUID : uuidCast)
        (pdf : string -> string -> string -> Z -> list (string * json) -> res string)
        (mix : list (Z * Z) -> json).

Lemma enter_closed n st : (n <= 0)%Z -> rtc bstep (NewBulkhead (S := S) n, []) st -> exists b, enter st.1 = (b, Some ErrBulkheadFull).
Proof.
  intros Hn Hr.
  apply (bulkhead_reachable (size := size)) in Hr as [(H1 & H2 & H3) Hc].
  destruct (enter st.1) as [b e] eqn:E.
  pose proof (enter_spec (size := size) _ _ _ E) as (_ & _ & [Hok _] & _). unfold enter in E.
  destruct (TryAcquire (sem st.1) 1) as [s []]; simpl in E; injection E as <- <-; [|by eexists].
  specialize (Hok eq_refl). lia.
Qed.

(** The limit that [main] reads, as its worker gets it. *)
Definition reportLimit (h : Host) : Z :=
  AtoiValue (if hEnv h "COMPLIANCE_REPORT_MAX_CONCURRENT" =s? "" then "10" else hEnv h "COMPLIANCE_REPORT_MAX_CONCURRENT").

Lemma report_limit h tr p : complianceMain h = (tr, Started p) -> In (Go (ReportWorker (reportLimit h))) tr.
Proof.
  unfold complianceMain, complianceSetup. intros Hm. apply bind_started in Hm as (tr1 & x & tr2 & Hm & _ & ->).
  repeat (apply bind_started in Hm as (? & ? & ? & ?Hstep & Hm & ->)).
  match goal with
  | Hg : go (ReportWorker (AtoiValue ?c)) h = _, Hc : envOr "COMPLIANCE_REPORT_MAX_CONCURRENT" _ h = _ |- _ =>
      injection Hg as <- _; injection Hc as _ <-
  end.
  rewrite !in_app_iff. simpl. tauto.
Qed.

(** A text that is no number: behind its sign it is empty, or one of its first
    twenty characters is no digit. *)
Definition no_number (s : string) : Prop :=
  unsigned s = "" \/
  exists pre c post, unsigned s = pre +:+ String c post /\ digit_of c = None /\ String.length pre <= 19.

Lemma parseUint_none c post : digit_of c = None -> forall pre n k,
  (0 <= n < 10 ^ Z.of_nat k)%Z -> k + String.length pre <= 19 -> parseUint n (pre +:+ String c post) = None.
Proof.
  intros Hc. induction pre as [|a pre IH]; intros n k Hn Hk; simpl in *; [by rewrite Hc|].
  destruct (digit_of a) as [d|] eqn:Ed; [|done].
  assert (Hd : (0 <= d <= 9)%Z).
  { unfold digit_of in Ed. destruct (_ && _) eqn:E; [|done]. bool_to_prop. injection Ed as <-. lia. }
  assert (Hb : (n * 10 + d < 10 ^ Z.of_nat (Datatypes.S k))%Z) by (rewrite Nat2Z.inj_succ, Z.pow_succ_r; lia).
  rewrite (proj2 (Z.leb_gt _ _)); [apply (IH _ (Datatypes.S k)); lia|].
  eapply Z.lt_le_trans; [exact Hb|]. transitivity (10 ^ 19)%Z; [apply Z.pow_le_mono_r; lia|by vm_compute].
Qed.

Lemma no_number_zero s : no_number s -> AtoiValue s = 0%Z.
Proof.
  unfold AtoiValue. cbv zeta. intros [->|(pre & c & post & -> & Hc & Hl)]; [done|].
  pose proof (parseUint_none c post Hc pre 0 0 ltac:(simpl; lia) ltac:(lia)) as Hp.
  destruct pre; simpl in *; by rewrite Hp.
Qed.

(** C26: A limit of reports that is no number stops all reports.  The error of
    reading "COMPLIANCE_REPORT_MAX_CONCURRENT" is ignored: a text that is no
    number counts as zero.  With zero or less the bulkhead is full from the
    start, whatever calls it saw before: no request for a report is accepted
    or starts a job; a well-formed one, whose insert succeeds, has its pending
    row written and is then answered with 429; and the worker that is to catch
    up with such rows generates none. *)
Theorem unreadable_limit_stalls h tr p st : complianceMain h = (tr, Started p) ->
  rtc bstep (NewBulkhead (S := S) (reportLimit h), []) st ->
  In (Go (ReportWorker (reportLimit h))) tr /\
  (no_number (hEnv h "COMPLIANCE_REPORT_MAX_CONCURRENT") -> hEnv h "COMPLIANCE_REPORT_MAX_CONCURRENT" <> "" ->
     reportLimit h = 0%Z) /\
  ((reportLimit h <= 0)%Z ->
    (forall orgID b jobID now f rows, let r := HandleCreateReport pgUUID orgID b jobID now f rows st.1 in
       r.2 = None /\ status r.1.2 <> StatusAccepted /\
       forall framework id org, decode_body upd_framework "" b = Ok framework -> validFramework framework = true ->
         pgUUID jobID = Some id -> pgUUID orgID = Some org -> (forall x, In x rows -> rpID x <> id) ->
         fQuery f = None -> fAck f = None ->
         r.1.1.1 = rows ++ [mkReport id org framework "pending" None None None now now] /\
         status r.1.2 = StatusTooManyRequests) /\
    (forall f env rows objects store jobs,
       let w := workerTick pgUUID pdf mix f env (mkCp rows objects store st.1 jobs) in
       cpRows w = rows /\ cpObjects w = objects /\ cpJobs w = jobs)).
Proof.
  intros Hm Hr. split; [by eapply report_limit|]. split.
  { intros Hnn Hne. unfold reportLimit. rewrite (proj2 (String.eqb_neq _ _) Hne). by apply no_number_zero. }
  intros Hn.
  assert (He : forall st, rtc bstep (NewBulkhead (S := S) (reportLimit h), []) st ->
    exists b, enter st.1 = (b, Some ErrBulkheadFull) /\ rtc bstep (NewBulkhead (reportLimit h), []) (b, st.2)).
  { intros st' Hr'. destruct (enter_closed _ _ Hn Hr') as [b Hb]. exists b. split; [done|].
    eapply rtc_r; [exact Hr'|]. destruct st'. by eapply bstep_full. }
  split.
  - intros orgID b jobID now f rows. cbv zeta. destruct (He st Hr) as (b' & Hb & _). unfold HandleCreateReport.
    split; [|split]; [| |intros framework id org -> Hf Hid Horg Hx Hq Ha].
    1-2: destruct (decode_body _ _ _); [|done]; destruct (CreateReportJob _ _ _ _) as [rows' [u|e]]; [|done];
      unfold BulkheadExecute; by rewrite Hb.
    unfold CreateReportJob, autocommit. rewrite Hq. unfold insert_report, uuid_arg. simpl. rewrite Hid, Horg, Hf. simpl.
    assert (existsb (fun x => rpID x =s? id) rows = false) as ->.
    { apply not_true_iff_false. intros (x & Hin & Hi)%existsb_exists. bool_to_prop. by apply (Hx x). }
    rewrite Ha. unfold BulkheadExecute. by rewrite Hb.
  - intros f env rows objects store jobs. cbv zeta. unfold workerTick. destruct (GetPendingReports _ _) as [reports|e]; [|done].
    simpl. enough (Hf : exists b, fold_left (workerReport pgUUID pdf mix env store) reports (rows, objects, st.1) = (rows, objects, b))
      by (destruct Hf as [b ->]; done).
    revert st Hr. induction reports as [|r reports IH]; intros st Hr; [by eexists|]. cbn [fold_left].
    destruct (He st Hr) as (b' & Hb & Hr').
    assert (workerReport pgUUID pdf mix env store (rows, objects, st.1) r = (rows, objects, b')) as ->
      by (unfold workerReport, BulkheadExecute; by rewrite Hb).
    by apply (IH (b', st.2)).
Qed.
End reports.

(** ** Consumer groups *)

Section groups.

(** The readers a process starts, each with the name of what it feeds. *)
Definition members (tr : list act) : list (string * reader) :=
  flat_map (fun x => match x with
                     | Go (Consume name r) => [(name, r)]
                     | Go (DetectorRun name rs) => map (pair name) rs
                     | _ => []
                     end) tr.

Definition reads (topic : string) (m : string * reader) : bool := rdTopic m.2 =s? topic.
Definition joins (group topic : string) (m : string * reader) : bool := (rdGroup m.2 =s? group) && reads topic m.

Definition subscribers (group topic : string) (ms : list (string * reader)) : list (string * reader) :=
  List.filter (joins group topic) ms.

Definition groupsOf (topic : string) (ms : list (string * reader)) : list string :=
  nodup String.string_dec (map (fun m => rdGroup m.2) (List.filter (reads topic) ms)).

(** The assignment of partitions: of each group and topic, the number of the
    subscriber that has a partition.  The broker's documented behaviour:
    each partition belongs to exactly one subscriber of a group
    ([assigns]), and both balancers a reader of kafka-go offers, by range and
    round robin, give each of [k] subscribers at most its share of [n]
    partitions, rounded up ([balanced]). *)
Definition assignment : Type := string -> string -> nat -> nat.

Definition assigns (assign : assignment) (ms : list (string * reader)) : Prop :=
  forall group topic p, subscribers group topic ms <> [] ->
    assign group topic p < length (subscribers group topic ms).

Definition share (n k : nat) : nat := (n + k - 1) / k.

(** The partitions of a topic that the [i]-th subscriber of a group has. *)
Definition partitionsOf (assign : assignment) (group topic : string) (n i : nat) : list nat :=
  List.filter (fun p => assign group topic p =? i) (seq 0 n).

Definition balanced (assign : assignment) (topic : string) (n : nat) (ms : list (string * reader)) : Prop :=
  forall group i, subscribers group topic ms <> [] ->
    length (partitionsOf assign group topic n i) <= share n (length (subscribers group topic ms)).

(** Who gets the messages of a partition: one subscriber of each group. *)
Definition receivers (assign : assignment) (ms : list (string * reader)) (topic : string) (p : nat) : list string :=
  flat_map (fun group => match nth_error (subscribers group topic ms) (assign group topic p) with
                         | Some m => [m.1]
                         | None => []
                         end) (groupsOf topic ms).

(** The partitions whose messages do not reach a subscriber of that name. *)
Definition missed (assign : assignment) (ms : list (string * reader)) (topic : string) (n : nat) (d : string) : list nat :=
  List.filter (fun p => negb (existsb (String.eqb d) (receivers assign ms topic p))) (seq 0 n).

Definition setting (h : Host) (k dflt : string) : string := if hEnv h k =s? "" then dflt else hEnv h k.

(** The detectors that share the group of the service. *)
Definition signInDetectors (h : Host) : list string :=
  ["brute_force"; "off_hours_access"; "account_takeover"] ++
  match hCall h (GeoOpen (setting h "GEOLITE2_DB_PATH" "./data/GeoLite2-City.mmdb")) with
  | None => ["impossible_travel"]
  | Some _ => []
  end.

Lemma members_app t1 t2 : members (t1 ++ t2) = members t1 ++ members t2.
Proof. apply flat_map_app. Qed.

Definition readerless (x : act) : bool :=
  match x with Go (Consume _ _) | Go (DetectorRun _ _) => false | _ => true end.

Lemma readerless_members {A} (m : boot A) h t r : only readerless m -> m h = (t, r) -> members t = [].
Proof.
  intros Hq Hm. specialize (Hq h). rewrite Hm in Hq. simpl in Hq. clear Hm.
  induction t as [|x t IH]; [done|]. simpl in *. apply andb_prop in Hq as [Hx Hq].
  rewrite IH by done. destruct x; try done. by destruct t0.
Qed.

(** The readers of one step of a [main]. *)
Ltac members_of_steps :=
  repeat match goal with
  | Hs : ?m _ = (?t, Started _) |- context [members ?t] =>
      first [ apply readerless_members in Hs; [rewrite Hs; clear Hs|solve [walk_boot]]
            | injection Hs as <- _ ]
  end.

Lemma threat_members h tr p :
  threatMain h = (tr, Started p) ->
  let brokers := setting h "KAFKA_BROKERS" "localhost:9092" in
  let group := setting h "KAFKA_GROUP_ID" "threat-detector" in
  let auth := setting h "KAFKA_TOPIC_AUTH" "auth.events" in
  let plain n topic := (n, splitReader brokers group topic) in
  members tr =
    [plain "brute_force" auth; plain "off_hours_access" auth;
     plain "data_exfiltration" (setting h "KAFKA_TOPIC_ACCESS" "data.access"); plain "account_takeover" auth;
     ("privilege_escalation", splitReader brokers (group +:+ "-auth") auth);
     ("privilege_escalation", splitReader brokers (group +:+ "-policy") (setting h "KAFKA_TOPIC_POLICY" "policy.changes"))] ++
    match hCall h (GeoOpen (setting h "GEOLITE2_DB_PATH" "./data/GeoLite2-City.mmdb")) with
    | None => [plain "impossible_travel" auth]
    | Some _ => []
    end.
Proof.
  cbv zeta. unfold threatMain, threatSetup, setting. intros Hm.
  apply bind_started in Hm as (t1 & x & t2 & Hm & Hs & ->). rewrite members_app.
  apply readerless_members in Hs as ->; [|walk_boot]. rewrite app_nil_r.
  repeat (apply bind_started in Hm as (? & ? & ? & ?Hstep & Hm & ->); rewrite members_app).
  injection Hm as <- _.
  repeat match goal with Hs : envOr _ _ _ = (_, Started _) |- _ => injection Hs as <- <- end.
  match goal with
  | Hg : try_ (GeoOpen ?g) h = (_, Started ?geo), Hw : whenB ?geo _ h = _ |- _ =>
      pose proof Hg as Ho; unfold try_ in Ho; destruct (hCall h (GeoOpen g));
      injection Ho as _ <-; injection Hw as <- _; members_of_steps; reflexivity
  end.
Qed.

Lemma filter_split_length {A} (f : A -> bool) (l : list A) :
  length (List.filter f l) + length (List.filter (fun x => negb (f x)) l) = length l.
Proof. induction l as [|x l IH]; simpl; [done|]. destruct (f x); simpl; lia. Qed.

Lemma longer_ne (s : string) c t : s <> s +:+ String c t.
Proof. induction s as [|a s IH]; [done|]. intros [= Hx]. by apply IH. Qed.

Lemma nodup_two (l : list string) a b :
  a <> b -> (forall x, In x l <-> x = a \/ x = b) -> nodup String.string_dec l ≡ₚ [a; b].
Proof.
  intros Hab Hl. apply NoDup_Permutation.
  - apply NoDup_ListNoDup, NoDup_nodup.
  - apply NoDup_ListNoDup. constructor; [intros [?|[]]; congruence|]. constructor; [by intros []|constructor].
  - intros x. rewrite !list_elem_of_In, nodup_In, Hl. simpl. intuition congruence.
Qed.

#[local] Arguments nodup : simpl never.

Section competing.
Variables (h : Host) (tr : list act) (p : process).
Hypothesis started : threatMain h = (tr, Started p).

#[local] Notation group := (setting h "KAFKA_GROUP_ID" "threat-detector").
#[local] Notation auth := (setting h "KAFKA_TOPIC_AUTH" "auth.events").

Hypothesis auth_access : auth <> setting h "KAFKA_TOPIC_ACCESS" "data.access".
Hypothesis auth_policy : auth <> setting h "KAFKA_TOPIC_POLICY" "policy.changes".

Definition signInMember (d : string) : string * reader :=
  (d, splitReader (setting h "KAFKA_BROKERS" "localhost:9092") group auth).

(** Two groups read the topic of sign-ins. *)
Lemma auth_readers :
  subscribers group auth (members tr) = map signInMember (signInDetectors h) /\
  map fst (subscribers (group +:+ "-auth") auth (members tr)) = ["privilege_escalation"] /\
  groupsOf auth (members tr) ≡ₚ [group; group +:+ "-auth"].
Proof.
  rewrite (threat_members h tr p started). unfold signInDetectors, signInMember, groupsOf, subscribers, joins, reads.
  pose proof (longer_ne group "-" "auth") as Hg. revert Hg auth_access auth_policy.
  generalize (setting h "KAFKA_BROKERS" "localhost:9092") group auth (setting h "KAFKA_TOPIC_ACCESS" "data.access")
    (setting h "KAFKA_TOPIC_POLICY" "policy.changes").
  intros b g a c q Hg Hc Hq. assert (Hg' : (g +:+ "-auth" =s? g) = false) by (apply String.eqb_neq; congruence).
  assert (Hg2 : (g =s? g +:+ "-auth") = false) by (by apply String.eqb_neq).
  assert (Hc' : (c =s? a) = false) by (apply String.eqb_neq; congruence).
  assert (Hq' : (q =s? a) = false) by (apply String.eqb_neq; congruence).
  destruct (hCall h _); simpl; rewrite ?String.eqb_refl, ?Hg', ?Hg2, ?Hc', ?Hq', ?andb_false_r, ?andb_true_r; simpl;
    (split; [done|split; [done|]]); apply nodup_two; try done; intros x; simpl; intuition congruence.
Qed.

(** Whoever has the partition in the group of the service gets the message. *)
Lemma auth_receivers (assign : assignment) pt d :
  nth_error (signInDetectors h) (assign group auth pt) = Some d -> assigns assign (members tr) ->
  receivers assign (members tr) auth pt ≡ₚ [d; "privilege_escalation"].
Proof.
  destruct auth_readers as (Hs & Hp & Hg). intros Hd Ha. unfold receivers. rewrite Hg. simpl.
  rewrite Hs, nth_error_map, Hd. simpl. specialize (Ha (group +:+ "-auth") auth pt).
  destruct (subscribers (group +:+ "-auth") auth (members tr)) as [|m [|m' l]]; try discriminate Hp.
  simpl in Ha. destruct (assign (group +:+ "-auth") auth pt); [|specialize (Ha ltac:(done)); lia].
  simpl in *. injection Hp as ->. done.
Qed.

(** Some detector has each partition. *)
Lemma some_detector (assign : assignment) pt :
  assigns assign (members tr) -> exists d, nth_error (signInDetectors h) (assign group auth pt) = Some d.
Proof.
  destruct auth_readers as (Hs & _). intros Ha. specialize (Ha group auth pt). rewrite Hs, length_map in Ha.
  destruct (nth_error (signInDetectors h) (assign group auth pt)) as [d|] eqn:E; [by exists d|].
  apply nth_error_None in E. unfold signInDetectors in *. simpl in *. specialize (Ha ltac:(done)). lia.
Qed.

Lemma detectors_distinct : NoDup (signInDetectors h) /\ ~ In "privilege_escalation" (signInDetectors h) /\
  2 < length (signInDetectors h).
Proof.
  unfold signInDetectors. destruct (hCall h _); (split; [apply (bool_decide_unpack _); vm_compute; exact I|]);
    (split; [simpl; intuition discriminate|simpl; lia]).
Qed.

(** A detector gets the messages of the partitions of its number only. *)
Lemma missed_filter (assign : assignment) n i d :
  assigns assign (members tr) -> nth_error (signInDetectors h) i = Some d ->
  missed assign (members tr) auth n d = List.filter (fun p => negb (assign group auth p =? i)) (seq 0 n).
Proof.
  intros Ha Hi. destruct detectors_distinct as (Hnd & Hpe & _). unfold missed. apply List.filter_ext. intros pt. f_equal.
  destruct (some_detector assign pt Ha) as [d' Hd']. pose proof (auth_receivers assign pt d' Hd' Ha) as Hr.
  apply eq_true_iff_eq. rewrite existsb_exists, Nat.eqb_eq. split.
  - intros (x & Hx & ->%String.eqb_eq). rewrite <- list_elem_of_In, Hr, list_elem_of_In in Hx.
    destruct Hx as [<-|[<-|[]]]; [|by destruct Hpe; eapply nth_error_In].
    apply (proj1 (NoDup_nth_error _) (proj1 (NoDup_ListNoDup _) Hnd)); [apply nth_error_Some; congruence|congruence].
  - intros Hp. exists d. split; [|apply String.eqb_refl]. rewrite <- list_elem_of_In, Hr.
    rewrite Hp, Hi in Hd'. injection Hd' as ->. by left.
Qed.
End competing.

(** C27: The detectors of sign-ins compete for the events.  When one instance
    of the threat service runs, and the topic of sign-ins is none of the two
    other topics it reads, its detectors of brute force, of off-hours access,
    of account takeover and, where the GeoIP database opens, of impossible
    travel read that topic in one consumer group.  Every message then reaches
    exactly one of them, whatever the broker assigns, besides the detector of
    escalated privileges, whose group is its own; and as the balancers spread
    [n] partitions, each of the three or four gets the messages of a third or
    a quarter of them, rounded up, and misses those of all the others: of the
    twelve that the deployment creates, eight or nine. *)
Theorem detectors_compete h tr p (assign : assignment) n :
  threatMain h = (tr, Started p) -> assigns assign (members tr) ->
  let auth := setting h "KAFKA_TOPIC_AUTH" "auth.events" in
  auth <> setting h "KAFKA_TOPIC_ACCESS" "data.access" ->
  auth <> setting h "KAFKA_TOPIC_POLICY" "policy.changes" ->
  (forall pt, exists d, In d (signInDetectors h) /\
     receivers assign (members tr) auth pt ≡ₚ [d; "privilege_escalation"]) /\
  (balanced assign auth n (members tr) ->
   forall d, In d (signInDetectors h) ->
     n - share n (length (signInDetectors h)) <= length (missed assign (members tr) auth n d)) /\
  (n = 12 -> balanced assign auth n (members tr) ->
   forall d, In d (signInDetectors h) ->
     (if hCall h (GeoOpen (setting h "GEOLITE2_DB_PATH" "./data/GeoLite2-City.mmdb")) then 8 else 9)
       <= length (missed assign (members tr) auth n d)).
Proof.
  intros Hm Ha auth Hac Hpo.
  assert (Hmiss : balanced assign auth n (members tr) -> forall d, In d (signInDetectors h) ->
    n - share n (length (signInDetectors h)) <= length (missed assign (members tr) auth n d)).
  { intros Hb d [i Hi]%In_nth_error. unfold auth in *. rewrite (missed_filter h tr p Hm Hac Hpo assign n i d Ha Hi).
    specialize (Hb (setting h "KAFKA_GROUP_ID" "threat-detector") i).
    destruct (auth_readers h tr p Hm Hac Hpo) as (Hs & _). rewrite Hs, length_map in Hb.
    specialize (Hb ltac:(done)).
    unfold partitionsOf in Hb. pose proof (filter_split_length (fun q => assign (setting h "KAFKA_GROUP_ID" "threat-detector")
      (setting h "KAFKA_TOPIC_AUTH" "auth.events") q =? i) (seq 0 n)) as Hl.
    rewrite length_seq in Hl. lia. }
  split; [|split; [exact Hmiss|]].
  - intros pt. destruct (some_detector h tr p Hm Hac Hpo assign pt Ha) as [d Hd].
    exists d. split; [by eapply nth_error_In|]. by apply (auth_receivers h tr p).
  - intros -> Hb d Hd. specialize (Hmiss Hb d Hd). revert Hmiss. unfold signInDetectors.
    destruct (hCall h _); simpl; unfold share; simpl; lia.
Qed.
End groups.

(** ** Examples *)

Module DeployExamples.
Import SessionExamples.

(** A machine where everything works and nothing is set, but for [settings]. *)
Definition machine (settings : list (string * string)) (files : bool) : Host :=
  mkHost (fun k => match find (fun x => x.1 =s? k) settings with Some x => x.2 | None => "" end)
    (fun _ => files) (fun _ => files) (fun _ => None)
    (fun url => if url =s? "redis://localhost:6379/0" then Ok (mkRedisOptions "localhost:6379" 0)
                else if url =s? "redis://localhost:6379/1" then Ok (mkRedisOptions "localhost:6379" 1)
                else if url =s? "redis://localhost:6379/2" then Ok (mkRedisOptions "localhost:6379" 2)
                else Err (ErrNew "redis: invalid URL scheme"))
    (fun _ => None) (fun _ => Err (ErrNew "no secrets manager"))
    (fun s => if s =s? devKeysJSON then Some devKeysDoc
              else if s =s? devAESKeysJSON
                   then Some (JArr [JObj [("kid", JStr "dev-aes"); ("key", JStr "YWFhYWFhYWFhYWFhYWFhYWFhYWFhYWFhYWFhYWFhYWE="); ("status", JStr "active")]])
                   else None) 8.

Definition run (b : binary) (h : Host) : list act := (mainOf b h).1.
Definition up (b : binary) (h : Host) : bool := match (mainOf b h).2 with Started _ => true | Exited _ => false end.

Definition binaries : list binary :=
  [Svc Iam; Svc Policy; Svc Audit; Svc ConnectorRegistry; Svc Threat; Svc AlertingSvc; Svc ComplianceSvc; Svc Dlp;
   WebhookDelivery; ControlPlane].

Example all_up : forallb (fun b => up b (machine [] false)) binaries = true.
Proof. vm_compute. reflexivity. Qed.

(** Who reads which topic, by default. *)
Definition topicsRead (tr : list act) : list string :=
  flat_map (fun x => match x with
                     | Go (Consume _ r) => [rdTopic r]
                     | Go (DetectorRun _ rs) => map rdTopic rs
                     | _ => [] end) tr.

Example topology : map (fun b => topicsRead (run b (machine [] false))) binaries =
  [["saga.orchestration"]; []; auditTopics; [];
   ["auth.events"; "auth.events"; "data.access"; "auth.events"; "auth.events"; "policy.changes"; "auth.events"];
   ["threat.alerts"]; ["audit.trail"]; ["control.plane.events"]; ["webhook.delivery"]; []].
Proof. vm_compute. reflexivity. Qed.

(** With two brokers the identity and the DLP service take the list for one
    address; the others split it. *)
Definition brokersUsed (tr : list act) : list (list string) :=
  flat_map (fun x => match x with
                     | Go (RelayRun bs _ _) | Go (SagaWatcherRun bs) => [bs]
                     | Go (Consume _ r) => [rdBrokers r]
                     | _ => [] end) tr.

Example two_brokers :
  let h := machine [("KAFKA_BROKERS", "k1:9092,k2:9092")] false in
  let split := ["k1:9092"; "k2:9092"] in let one := ["k1:9092,k2:9092"] in
  brokersUsed (run (Svc Iam) h) = [one; one; split] /\
  brokersUsed (run (Svc Policy) h) = [split] /\ brokersUsed (run (Svc AlertingSvc) h) = [split] /\
  brokersUsed (run (Svc Dlp) h) = [one] /\ brokersUsed (run WebhookDelivery h) = [split].
Proof. vm_compute. repeat split. Qed.

(** The process ends for want of keys after its consumers were started. *)
Example consumers_before_keys :
  let h := machine [("IAM_JWT_KEYS", "not a key ring")] false in
  up (Svc Audit) h = false /\ length (List.filter runs (run (Svc Audit) h)) = 7 /\
  up (Svc Threat) h = false /\ length (List.filter runs (run (Svc Threat) h)) = 6 /\
  up (Svc Policy) h = false /\ length (List.filter runs (run (Svc Policy) h)) = 2.
Proof. vm_compute. repeat split. Qed.

Definition h0 : Host := machine [] false.
Definition secured : Host := machine [] true.

(** The balancer that deals the partitions out in turn. *)
Definition roundRobin (ms : list (string * reader)) : assignment :=
  fun g t p => p mod length (subscribers g t ms).

Lemma roundRobin_assigns ms : assigns (roundRobin ms) ms.
Proof. intros g t p Hne. unfold roundRobin. apply Nat.mod_upper_bound. by destruct (subscribers g t ms). Qed.

(** With a group of its own by setting, it is still one for all four. *)
Definition renamed : Host := machine [("KAFKA_GROUP_ID", "threat-eu")] false.

Lemma roundRobin_balanced :
  balanced (roundRobin (members (run (Svc Threat) renamed))) "auth.events" 12 (members (run (Svc Threat) renamed)).
Proof.
  intros g i Hne. unfold partitionsOf, roundRobin. set (ms := members _) in *.
  assert (Hk : 0 < length (subscribers g "auth.events" ms) <= 7).
  { split; [by destruct (subscribers g "auth.events" ms); [|simpl; lia]|].
    change 7 with (length ms). apply filter_length_le. }
  revert Hk. generalize (length (subscribers g "auth.events" ms)). clear. intros k Hk.
  assert (Hr : forallb (fun k => forallb (fun i =>
    length (List.filter (fun p => p mod k =? i) (seq 0 12)) <=? share 12 k) (seq 0 12)) (seq 1 7) = true) by (vm_compute; reflexivity).
  rewrite forallb_forall in Hr. specialize (Hr k ltac:(apply in_seq; lia)). rewrite forallb_forall in Hr.
  destruct (decide (i < 12)) as [Hi|Hi]; [apply Nat.leb_le, Hr, in_seq; lia|].
  assert (List.filter (fun p => p mod k =? i) (seq 0 12) = []) as ->; [|simpl; lia].
  apply filter_none. intros p Hp%in_seq. apply Nat.eqb_neq. pose proof (Nat.Div0.mod_le p k). lia.
Qed.

Lemma detectors_compete_witness :
  exists p, threatMain renamed = (run (Svc Threat) renamed, Started p) /\
    9 <= length (missed (roundRobin (members (run (Svc Threat) renamed))) (members (run (Svc Threat) renamed))
                   "auth.events" 12 "impossible_travel").
Proof.
  eexists. split; [vm_compute; reflexivity|].
  destruct (detectors_compete renamed (run (Svc Threat) renamed) (mkProcess [ShutdownServer ":8080" None])
              (roundRobin (members (run (Svc Threat) renamed))) 12)
    as (_ & _ & H); [vm_compute; reflexivity|apply roundRobin_assigns|vm_compute; discriminate|vm_compute; discriminate|].
  apply (H eq_refl roundRobin_balanced). vm_compute. tauto.
Defined.

Lemma boot_guarded_witness :
  up (Svc Policy) h0 = true /\
  (forall sv, In sv (servers (run (Svc Policy) h0)) ->
     exists keys o, svKeys sv = Some keys /\ svRedis sv = Some o /\ keyringOf Policy h0 = Started keys /\
       hParseRedis h0 (redisURL Policy h0) = Ok o).
Proof.
  split; [vm_compute; reflexivity|]. intros sv.
  destruct (boot_guarded (Svc Policy) h0 (run (Svc Policy) h0) (mainOf (Svc Policy) h0).2) as (_ & Hk & _).
  - unfold run. by destruct (mainOf _ _).
  - by apply Hk.
Defined.

Definition strict : server :=
  mkServer ":8443" (Some RequireAndVerifyClientCert) (Some ("/certs/iam.crt", "/certs/iam.key")) (Some [devKey])
    (Some (mkRedisOptions "localhost:6379" 0)) noTimeouts true.

Lemma boot_transport_witness :
  In strict (servers (run (Svc Iam) secured)) /\ handshake strict Plain = false.
Proof.
  assert (Hi : In strict (servers (run (Svc Iam) secured))) by (vm_compute; right; by left).
  split; [exact Hi|]. apply boot_transport in Hi as [Hp _]. destruct (handshake strict Plain); [|done].
  destruct Hp as [Hp _]. specialize (Hp eq_refl). by vm_compute in Hp.
Defined.

Definition external (s : service) (port : string) (o : redisOptions) : server :=
  mkServer port None None (Some [devKey]) (Some o) (match s with Policy => (10 * Second, 35 * Second, 60 * Second)%Z | _ => noTimeouts end)
    (match s with Audit => false | _ => true end).
Definition db (n : Z) : redisOptions := mkRedisOptions "localhost:6379" n.

(** By default the policy service does not hear of a logout. *)
Lemma logout_reaches_witness :
  exists ring, keyringOf Policy h0 = Started ring /\
    forall t (b : option MiniBreaker) r ctx,
      AuthJWTWithBlocklist t ring (Some (update_store (db 0) (iRedis loggedOut) (fun _ => emptyRedis) (db 1))) b r ctx =
      AuthJWTWithBlocklist t ring (Some emptyRedis) b r ctx.
Proof.
  destruct (logout_reaches (fun o => o) h0 h0 Policy (external Iam ":8080" (db 0)) (external Policy ":8082" (db 1))
              (db 0) (db 1) (fun _ => emptyRedis) (2000 * Second) "j" (4600 * Second) w0 loggedOut)
    as (_ & _ & ring & _ & Hr & _ & Hd).
  - vm_compute. by left.
  - vm_compute. by left.
  - reflexivity.
  - reflexivity.
  - reflexivity.
  - vm_compute. reflexivity.
  - reflexivity.
  - exists ring. split; [exact Hr|]. apply Hd. discriminate.
Defined.

Definition ten : Host := machine [("COMPLIANCE_REPORT_MAX_CONCURRENT", "ten")] false.

Example limits : map AtoiValue ["ten"; ""; "-"; "12"; "1e3"; " 5"; "99999999999999999999"; "-99999999999999999999"] =
  [0; 0; 0; 12; 0; 0; 2 ^ 63 - 1; - 2 ^ 63]%Z.
Proof. vm_compute. reflexivity. Qed.

Lemma unreadable_limit_stalls_witness :
  up (Svc ComplianceSvc) ten = true /\ reportLimit ten = 0%Z /\
  (HandleCreateReport ComplianceExamples.uuid "o" ComplianceExamples.body "j" 0 noFaults []
     (NewBulkhead (S := Z * Z) (reportLimit ten))).1.1.1 = [mkReport "j" "o" "gdpr" "pending" None None None 0 0].
Proof.
  split; [vm_compute; reflexivity|].
  destruct (mainOf (Svc ComplianceSvc) ten) as [tr [p|e]] eqn:Em; [|by vm_compute in Em].
  destruct (unreadable_limit_stalls ComplianceExamples.uuid ComplianceExamples.paper ComplianceExamples.zeroMix ten tr p
              (NewBulkhead (S := Z * Z) (reportLimit ten), [])) as (_ & Hz & Hr).
  - exact Em.
  - apply rtc_refl.
  - assert (H0 : reportLimit ten = 0%Z).
    { apply Hz; [|discriminate]. right. exists "", "t"%char, "en". split; [reflexivity|]. split; [reflexivity|]. simpl. lia. }
    split; [exact H0|]. destruct Hr as [Hr _]; [lia|].
    destruct (Hr "o" ComplianceExamples.body "j" 0%Z noFaults []) as (_ & _ & Hrow).
    destruct (Hrow "gdpr" "j" "o") as [E _]; [reflexivity|reflexivity|reflexivity|reflexivity|by intros x []|reflexivity|reflexivity|exact E].
Defined.
End DeployExamples.
